(* ===== verification/_CoqProject ===== *)
-Q . S2P
Prelude.v
Machine.v
Memory.v
Alu.v
Cpu.v
CpuExec.v
CpuOk.v
CpuSym.v
CpuProps.v
CpuArith.v
CpuDecimal.v
CpuTrap.v
Periph.v
PeriphProps.v
Bare.v
Run.v
RunProps.v
Counter.v
Timer16.v
Timer16Props.v
Timer8.v
Timer8Props.v
Watchdog.v
Buttons.v
AdSensors.v
Motor.v
Symbols.v
Hash.v
Printf.v
Lcd.v
Serial.v
Debugger.v
DebuggerProps.v
Srec.v
SrecProps.v
BrickOs.v
BrickOsProps.v
Loader.v
LoaderProps.v
Frame.v
FrameProps.v
DeviceOk.v
Bibo.v
BiboProps.v
BiboFree.v
KernelOk.v
Dump.v
DumpProps.v
Sound.v
SoundProps.v
SoundThreads.v
Alsa.v
AlsaProps.v
Tone.v
IrServer.v
IrServerProps.v
Infrared.v
InfraredProps.v
SaveFile.v
SaveFileProps.v
DebuggerOk.v
Brick.v
BrickProps.v
BrickBoard.v
BrickSave.v
BrickIrq.v
Startup.v
StartupProps.v
Witnesses.v
