(* ===== verification/Prelude.v ===== *)
(** * brickEmu: a verification development for the LEGO RCX emulator

    brickEmu runs the ROM, firmware and programs of a LEGO Mindstorms RCX: an
    H8/300 processor with its memory, the on-chip devices of the H8/3292 (timers,
    watchdog, serial interface, A/D converter, ports) and the parts of the brick
    (motors, display, buttons, infrared).  A GUI sends the inputs and shows the
    outputs; gdb can be attached.  The theorems are about definitions translated
    from the C sources (and from [h8300.pl], which generates the C functions of the
    opcodes); [lines] in the text are those of [src/].

    ** How the program works

    [h8300.c:run_cpu] fetches an opcode, counts its cycles and calls its function.
    When the cycle counter passes [next_timer_cycle] or [next_nmi_cycle] it calls
    [peripherals.c:check_irq], which synchronises simulated with real time, lets every
    registered peripheral catch up ([update_time]), asks each for an interrupt
    ([check_irq]) and enters the most urgent one.  Accesses to the addresses from
    0xff88 go through tables of getter and setter functions of the devices
    ([memory.c]).  Devices keep lazily updated state: they note the cycle of the last
    update, compute the time of their next event and lower [next_timer_cycle].

    ** Files

    - [Prelude]: C integers as [Z] with their wrap-around written out, bit
      operations, arrays as finite maps, binary-fuelled loops, tactics and hints.
    - [Machine]: the machine state and the state monad [M P]; a computation ends
      with [Done], leaves through a label of [run_cpu] ([Goto]), stops the emulator
      ([Halt]), does something the C standard leaves undefined ([Undefined]) or runs out of the
      bound given to a loop ([Blocked]).  The classes [Board] and [BoardOk] are what
      the processor needs of, and is promised by, the rest of the brick.
    - [Memory] ([memory.c]), [Alu], [Cpu] ([h8300.c], [h8300.pl]: operands, flags and
      opcodes), [CpuExec] (dispatch and single steps), [Run] ([run_cpu]).
    - [CpuOk], [CpuSym], [CpuProps], [CpuArith], [CpuDecimal], [CpuTrap], [RunProps]: the invariant
      [wf] of the machine is kept by every opcode and by [run_cpu]; multi-byte
      arithmetic; for which operands decimal arithmetic is right; subroutine calls; the registers
      after a trap, for a board with the laws of the class [BoardFunctions].
    - [Periph] ([peripherals.c]): time, interrupts, reset, sleep, the registered
      peripherals as the class [Peripherals]; [PeriphProps]: simulated time is exact and can
      be frozen, interrupt entry and RTE are inverse, saving and loading the processor.
    - [Bare]: an instance without devices, on which theorems are tried.
    - [Counter], [Timer16], [Timer16Props] ([timer16.c]), [Timer8], [Timer8Props]
      ([timer8.c]): the jump of a timer to the present is the tick-by-tick counter;
      no interrupt is later than the scheduled update; the sound comes without gaps.
    - [Watchdog] ([watchdog.c]), [Buttons] ([buttons.c], [waitstate.c]),
      [AdSensors] ([adsensors.c]), [Motor] ([motor.c]), [Lcd] ([lcd.c]), [Serial]
      ([serial.c]): one device each, with its registers, timing, interrupts and the
      messages from and to the GUI.
    - [Symbols] ([symbols.c]) and [Hash] ([hash.c]): a splay tree and a growing hash table
      refine finite maps.
    - [Printf] ([printf.c]): the text a program prints through the emulator, with the buffer
      as cells, its size a parameter.
    - [Debugger], [DebuggerProps] ([debugger.c]): gdb's remote protocol.
    - [Srec], [SrecProps] ([srec.c]): the lines accepted are exactly those of the
      format, a file loads the data it was made from.
    - [BrickOs], [BrickOsProps] ([brickos.c]): the heap of the running operating system refines a
      table of allocations.  [Loader], [LoaderProps] ([coff.c], [lx.c], [firmware.c], the rest of
      [brickos.c]): firmware and programs; loading one leaves the others alone.
    - [Bibo], [BiboProps], [BiboFree] ([bibo.c]): the heap of another kernel, whose allocation is
      first fit, and whose release is right next to a free block; both kernels load programs with the same code over the class
      [KernelHeap].  [KernelOk]: whatever is loaded, the memory stays an array of bytes.
    - [Frame], [FrameProps] ([frame.c]): the profiler and the stack traces.
    - [Dump], [DumpProps]: the tables of memory, threads, timers and programs that both
      kernels print; BiBo's table of the memory is a check of the heap.
    - [Sound], [SoundProps] ([sound_sdl.c]): the ring of samples between the timer and
      the thread of SDL is a queue, into which exactly 48000 samples a second are put while there
      is something to hear and room.
      [SoundThreads]: the two threads interleaved, which is the same as one after the other.
      [Alsa], [AlsaProps] ([sound_alsa.c]): the other driver plays the same wave; what
      it needs of the library is the class [Pcm], with its laws in [PcmOk].  [Tone]: the
      8-bit timer and the driver together: the samples of every level of the output.
    - [IrServer], [IrServerProps] ([ir-server.c]): the process that carries the infrared
      light between bricks, over the class [Network]; all bricks receive the same bytes
      in the same order.  [Infrared], [InfraredProps]: many serial interfaces and the
      server as one step relation, over connections with the laws of [Streams], to which
      emulators connect at any time and from which they go; what a program sends, the programs
      of all connected bricks take, in one order.
    - [SaveFile], [SaveFileProps] ([savefile.c]): the layout of the C structures (class
      [Layout], with its laws in [LayoutOk]) and the container around them.
    - [DeviceOk], [DebuggerOk]: every operation of a device and of the debugger keeps
      the widths of its registers.  [Brick], [BrickProps] ([main.c] and the [*_init]
      functions): all devices registered with the processor, and the commands of the
      GUI; the whole emulator from power-on keeps its invariant, and runs.
      [BrickBoard]: the devices keep the laws of [BoardFunctions], although a
      port may wait and a save file be loaded meanwhile: traps are precise on the whole emulator,
      and [debug_printf] ends there inside its buffer.
      [BrickSave]: what loading a save file restores, and what it leaves.  [BrickIrq]: the interrupt that
      [check_irq] takes is the first one raised in the table of vectors, over all devices.
    - [Startup], [StartupProps] (the first part of [main.c], [socket.c] and what [ser_init],
      [db_init] and [periph_init] do with sockets): the command line and the connections,
      over the class [Os].
    - [Witnesses]: processor properties at concrete inputs.

    ** Correspondence

    A definition has the name of the C function; setters of record fields are
    assignments.  A static variable is a field of the record of its file ([wd],
    [t16], [db], ...).  A device operation takes the device's state and the clock
    (or the cycle counter) and returns the new ones: [set_*] and [get_*] are the
    port functions, [*_update_time], [*_check_irq], [*_check_next_cycle], [*_reset],
    [*_save] and [*_load] the entries of [peripheral_ops].  Messages to the GUI are
    a list in the state or in the result; what [read], [select] and [gettimeofday]
    deliver is an argument or a class method ([Host] for the whole brick).  [memory] and [memtype] are finite maps
    that read as 0 where nothing was stored.

    ** Bounds and fuel

    Loops of unknown length run under [loop p], which takes at most [p] steps, and
    the theorems about them give the number that is enough or prove that the
    result does not depend on it: the timers and the scan of the A/D converter need as
    many steps as there are events; [debug_printf] at most the length of the format and of the output;
    [srec_read] as many as the file has characters; the packet parser as many as the
    buffer has; the heap walks of brickOS at most 16386, because a block has at least
    four bytes; a walk along 16-bit addresses 65536, as a longer one runs in a circle; the
    records of a save file at most as many as it has bytes; the sound drivers at most
    13422, as every turn plays a sample and the cycles to be played are 32 bits wide.  In
    [check_irq] and [cpu_sleep] the nesting of resets and the waiting turns are
    bounded by parameters, and [Blocked] marks the bound.

    ** Not modelled

    The Tcl and Python front ends and the generators of assembler cores are user
    interface or alternatives to the modelled core.  Text is modelled up to the
    arguments of [printf] where it only goes to the terminal; [dump_state] only prints.  The
    optional debugger thread ([DB_THREAD]) and the comparison of two processor cores
    ([DEBUG_CPU_ASM]) are not part of the default build.  [Startup] ends where the processor
    starts: the descriptors it returns are those behind the classes [Host] and [Network],
    whose operations are the calls of [read], [write] and [select] on them; options of sockets
    are left out.  In [SoundThreads] the calls of SDL happen as a whole before one of the reads of
    [sample_start], the only variable of SDL's thread that [sound_update] reads: a call that
    is interrupted in the middle is not distinguished, and when the ring runs full there is no
    theorem but the examples in [SoundProps].

    ** What could come next

    The arguments of the command line and the machine that [brick_main] starts as one
    definition, over [Os] and [Host] together; SDL's thread when the ring runs full. *)
From stdpp Require Export base list gmap.
From Stdlib Require Export ZArith Lia.
Open Scope Z_scope.

(** ** C integer conversions

    A C integer of [w] bits is a [Z]; a conversion writes its wrap-around
    out.  [u8] .. [u64] convert to the unsigned types of [types.h], [s8] ..
    [s32] to the signed ones (two's complement, as gcc defines it). *)
Definition u8 (x : Z) : Z := x mod 256.
Definition u16 (x : Z) : Z := x mod 65536.
Definition u32 (x : Z) : Z := x mod 4294967296.
Definition u64 (x : Z) : Z := x mod 18446744073709551616.
Definition s8 (x : Z) : Z := (x + 128) mod 256 - 128.
Definition s16 (x : Z) : Z := (x + 32768) mod 65536 - 32768.
Definition s32 (x : Z) : Z := (x + 2147483648) mod 4294967296 - 2147483648.

(** Ranges of the unsigned types. *)
Definition byte (x : Z) : Prop := 0 <= x < 256.
Definition word (x : Z) : Prop := 0 <= x < 65536.
Definition dword (x : Z) : Prop := 0 <= x < 4294967296.
Definition qword (x : Z) : Prop := 0 <= x < 18446744073709551616.

#[global] Instance byte_dec x : Decision (byte x).
Proof. unfold byte. apply _. Defined.
#[global] Instance word_dec x : Decision (word x).
Proof. unfold word. apply _. Defined.
#[global] Instance dword_dec x : Decision (dword x).
Proof. unfold dword. apply _. Defined.
#[global] Instance qword_dec x : Decision (qword x).
Proof. unfold qword. apply _. Defined.

Declare Scope emu_scope.
Delimit Scope emu_scope with emu.
(** [x &? mask] is the C condition [x & mask]. *)
Notation "x &? y" := (negb (Z.land x y =? 0)) (at level 40) : emu_scope.
Notation "x &! y" := (Z.land x y) (at level 40, left associativity) : emu_scope.
Notation "x |! y" := (Z.lor x y) (at level 50, left associativity) : emu_scope.
Notation "x ^! y" := (Z.lxor x y) (at level 45, left associativity) : emu_scope.
Notation "x <<! y" := (Z.shiftl x y) (at level 35, no associativity) : emu_scope.
Notation "x >>! y" := (Z.shiftr x y) (at level 35, no associativity) : emu_scope.
Open Scope emu_scope.

(** ** Arithmetic automation *)
Ltac unfold_widths :=
  unfold u8, u16, u32, u64, s8, s16, s32, byte, word, dword, qword in *.

(** Linear arithmetic after the conversions are written out. *)
Ltac width_lia := unfold_widths; Z.div_mod_to_equations; lia.

(** Closes a conjunction of closed, computable facts. *)
Ltac plain_memory := repeat split; vm_compute; (reflexivity || discriminate).

Create HintDb width discriminated.
#[export] Hint Constants Opaque : width.

Lemma u8_byte x : byte (u8 x). Proof. width_lia. Qed.
Lemma u16_word x : word (u16 x). Proof. width_lia. Qed.
Lemma u32_dword x : dword (u32 x). Proof. width_lia. Qed.
Lemma u64_qword x : qword (u64 x). Proof. width_lia. Qed.
Lemma byte_word x : byte x → word x. Proof. width_lia. Qed.
#[export] Hint Resolve u8_byte u16_word u32_dword u64_qword : width.

Lemma u8_id x : byte x → u8 x = x. Proof. width_lia. Qed.
Lemma u16_id x : word x → u16 x = x. Proof. width_lia. Qed.
Lemma u32_id x : dword x → u32 x = x. Proof. width_lia. Qed.
Lemma u64_id x : qword x → u64 x = x. Proof. width_lia. Qed.
Lemma s32_id x : -2147483648 <= x < 2147483648 → s32 x = x. Proof. width_lia. Qed.

(** *** Bounds of the bit operations *)
Lemma land_bound n x y : 0 <= n → 0 <= x < 2 ^ n → 0 <= Z.land x y < 2 ^ n.
Proof.
  intros Hn Hx. split; [apply Z.land_nonneg; lia|].
  destruct (decide (Z.land x y = 0)) as [->|]; [lia|].
  assert (0 <= Z.land x y) by (apply Z.land_nonneg; lia).
  apply Z.log2_lt_pow2; [lia|].
  destruct (decide (x = 0)) as [->|]; [rewrite Z.land_0_l in *; lia|].
  assert (Z.testbit (Z.land x y) (Z.log2 (Z.land x y)) = true) as Hb
    by (apply Z.bit_log2; lia).
  rewrite Z.land_spec in Hb. apply andb_prop in Hb as [Hb _].
  destruct (Z.lt_ge_cases (Z.log2 x) (Z.log2 (Z.land x y))) as [Hlt|Hge].
  - rewrite Z.bits_above_log2 in Hb by lia. discriminate.
  - assert (Z.log2 x < n) by (apply Z.log2_lt_pow2; lia). lia.
Qed.

Lemma land_bound_r n x y : 0 <= n → 0 <= y < 2 ^ n → 0 <= Z.land x y < 2 ^ n.
Proof. rewrite Z.land_comm. apply land_bound. Qed.

Lemma lor_bound n x y :
  0 <= n → 0 <= x < 2 ^ n → 0 <= y < 2 ^ n → 0 <= Z.lor x y < 2 ^ n.
Proof.
  intros Hn Hx Hy. split; [apply Z.lor_nonneg; lia|].
  destruct (decide (Z.lor x y = 0)) as [->|]; [lia|].
  assert (0 <= Z.lor x y) by (apply Z.lor_nonneg; lia).
  apply Z.log2_lt_pow2; [lia|]. rewrite Z.log2_lor by lia.
  destruct (decide (n = 0)) as [->|];
    [assert (x = 0 ∧ y = 0) as [-> ->] by lia; done|].
  assert (∀ z, 0 <= z < 2 ^ n → Z.log2 z < n) as Hl.
  { intros z Hz. destruct (decide (z = 0)) as [->|]; [simpl; lia|].
    apply Z.log2_lt_pow2; lia. }
  pose proof (Hl x Hx). pose proof (Hl y Hy). lia.
Qed.

Lemma lxor_bound n x y :
  0 <= n → 0 <= x < 2 ^ n → 0 <= y < 2 ^ n → 0 <= Z.lxor x y < 2 ^ n.
Proof.
  intros Hn Hx Hy.
  assert (0 <= Z.lxor x y) by (apply Z.lxor_nonneg; lia).
  split; [done|].
  destruct (decide (Z.lxor x y = 0)) as [->|]; [lia|].
  apply Z.log2_lt_pow2; [lia|].
  pose proof (Z.log2_lxor x y ltac:(lia) ltac:(lia)).
  destruct (decide (n = 0)) as [->|];
    [assert (x = 0 ∧ y = 0) as [-> ->] by lia; done|].
  assert (∀ z, 0 <= z < 2 ^ n → Z.log2 z < n) as Hl.
  { intros z Hz. destruct (decide (z = 0)) as [->|]; [simpl; lia|].
    apply Z.log2_lt_pow2; lia. }
  pose proof (Hl x Hx). pose proof (Hl y Hy). lia.
Qed.

Lemma byte_land_l x y : byte x → byte (Z.land x y).
Proof. apply (land_bound 8). lia. Qed.
Lemma byte_land_r x y : byte y → byte (Z.land x y).
Proof. apply (land_bound_r 8). lia. Qed.
Lemma byte_lor x y : byte x → byte y → byte (Z.lor x y).
Proof. apply (lor_bound 8). lia. Qed.
Lemma byte_lxor x y : byte x → byte y → byte (Z.lxor x y).
Proof. apply (lxor_bound 8). lia. Qed.
Lemma word_land_l x y : word x → word (Z.land x y).
Proof. apply (land_bound 16). lia. Qed.
Lemma word_land_r x y : word y → word (Z.land x y).
Proof. apply (land_bound_r 16). lia. Qed.
Lemma word_lor x y : word x → word y → word (Z.lor x y).
Proof. apply (lor_bound 16). lia. Qed.
Lemma word_lxor x y : word x → word y → word (Z.lxor x y).
Proof. apply (lxor_bound 16). lia. Qed.
Lemma byte_const x : (0 <=? x) && (x <? 256) = true → byte x.
Proof. unfold byte. lia. Qed.

(** The high and low byte of a word, and their recomposition. *)
Lemma word_hi x : word x → byte (Z.shiftr x 8).
Proof. intros ?. rewrite Z.shiftr_div_pow2 by lia. width_lia. Qed.
Lemma land_255 x : Z.land x 255 = x mod 256.
Proof. change 255 with (Z.ones 8). rewrite Z.land_ones by lia. done. Qed.
Lemma land_65535 x : Z.land x 65535 = x mod 65536.
Proof. change 65535 with (Z.ones 16). rewrite Z.land_ones by lia. done. Qed.
Lemma byte_lo x : byte (Z.land x 255).
Proof. rewrite land_255. width_lia. Qed.

Lemma testbit_high n x k : 0 <= x < 2 ^ n → n <= k → Z.testbit x k = false.
Proof.
  intros Hx Hk. destruct (decide (x = 0)) as [->|]; [apply Z.bits_0|].
  apply Z.bits_above_log2; [lia|].
  assert (0 <= n) by (destruct (Z.lt_ge_cases n 0) as [Hn|]; [|done];
    rewrite Z.pow_neg_r in Hx by done; lia).
  assert (Z.log2 x < n) by (apply Z.log2_lt_pow2; lia). lia.
Qed.

(** Two values without common bits: [|] is [+]. *)
Lemma lor_shift_add n hi lo :
  0 <= n → 0 <= lo < 2 ^ n → Z.lor (Z.shiftl hi n) lo = hi * 2 ^ n + lo.
Proof.
  intros Hn Hlo. rewrite <- Z.shiftl_mul_pow2 by done.
  assert (Z.land (Z.shiftl hi n) lo = 0) as Hd.
  { apply Z.bits_inj'. intros k Hk. rewrite Z.land_spec, Z.bits_0.
    destruct (Z.lt_ge_cases k n).
    - rewrite Z.shiftl_spec_low by done. done.
    - rewrite (testbit_high n lo k) by lia. apply andb_false_r. }
  rewrite <- Z.lxor_lor, <- Z.add_nocarry_lxor; done.
Qed.

Lemma join_bytes hi lo : byte lo → Z.lor (Z.shiftl hi 8) lo = hi * 256 + lo.
Proof. intros ?. rewrite (lor_shift_add 8) by (unfold byte in *; lia). done. Qed.
Lemma word_join hi lo : byte hi → byte lo → word (Z.lor (Z.shiftl hi 8) lo).
Proof. intros Hh Hl. rewrite join_bytes by done. width_lia. Qed.
Lemma join_split x : word x → Z.lor (Z.shiftl (Z.shiftr x 8) 8) (Z.land x 255) = x.
Proof.
  intros. rewrite land_255, Z.shiftr_div_pow2, join_bytes by (lia || width_lia). width_lia.
Qed.
(** Testing one bit with a mask. *)
Lemma bit_test k x : 0 <= k → (x &? 2 ^ k) = Z.testbit x k.
Proof.
  intros Hk. destruct (Z.testbit x k) eqn:E.
  - apply negb_true_iff, Z.eqb_neq. intros H. apply (f_equal (λ x, Z.testbit x k)) in H.
    rewrite Z.land_spec, E, Z.pow2_bits_true, Z.bits_0 in H by done. done.
  - apply negb_false_iff, Z.eqb_eq, Z.bits_inj'. intros n Hn.
    rewrite Z.land_spec, Z.bits_0. destruct (Z.eq_dec n k) as [->|]; [rewrite E; done|].
    rewrite Z.pow2_bits_false by lia. apply andb_false_r.
Qed.
#[export] Hint Resolve byte_land_l byte_land_r byte_lor byte_lxor word_land_l
  word_land_r word_lor word_lxor word_hi byte_lo word_join byte_word : width.
#[export] Hint Extern 1 (byte (Zpos _)) => apply byte_const; reflexivity : width.
#[export] Hint Extern 1 (byte 0) => apply byte_const; reflexivity : width.

(** ** Carries

    Bit [k] of a sum is the exclusive or of the two bits and of the carry that
    the low [k] bits produce. *)
Lemma testbit_mod2 a k : 0 <= k → Z.b2z (Z.testbit a k) = (a / 2 ^ k) mod 2.
Proof. intros. rewrite Z.testbit_spec' by done. done. Qed.

(** The quotient of a sum with a carry in: the quotients and the carry out of
    the low [k] bits. *)
Lemma add_div_pow2 a b c k :
  0 <= k → 0 <= c <= 1 →
  (a + b + c) / 2 ^ k =
    a / 2 ^ k + b / 2 ^ k +
    Z.b2z (2 ^ k <=? a mod 2 ^ k + b mod 2 ^ k + c).
Proof.
  intros Hk Hc. assert (0 < 2 ^ k) as Hp by (apply Z.pow_pos_nonneg; lia).
  pose proof (Z.div_mod a (2 ^ k)). pose proof (Z.div_mod b (2 ^ k)).
  pose proof (Z.mod_pos_bound a (2 ^ k) Hp). pose proof (Z.mod_pos_bound b (2 ^ k) Hp).
  destruct (Z.leb_spec (2 ^ k) (a mod 2 ^ k + b mod 2 ^ k + c)); simpl Z.b2z.
  - symmetry. apply Z.div_unique with (a mod 2 ^ k + b mod 2 ^ k + c - 2 ^ k); [lia|nia].
  - symmetry. apply Z.div_unique with (a mod 2 ^ k + b mod 2 ^ k + c); [lia|nia].
Qed.

(** The carry into bit [k] is the exclusive or of the three bits. *)
Lemma carry_into a b c k :
  0 <= k → 0 <= c <= 1 →
  xorb (xorb (Z.testbit a k) (Z.testbit (a + b + c) k)) (Z.testbit b k) =
    (2 ^ k <=? a mod 2 ^ k + b mod 2 ^ k + c).
Proof.
  intros Hk Hc.
  pose proof (testbit_mod2 a k Hk) as Ha. pose proof (testbit_mod2 b k Hk) as Hb.
  pose proof (testbit_mod2 (a + b + c) k Hk) as Hab.
  rewrite add_div_pow2 in Hab by done.
  destruct (2 ^ k <=? a mod 2 ^ k + b mod 2 ^ k + c);
  destruct (Z.testbit a k), (Z.testbit b k), (Z.testbit (a + b + c) k);
    simpl in *; try done; exfalso; Z.div_mod_to_equations; lia.
Qed.

(** A bit isolated by a shift and a one-bit mask. *)
Lemma land_shiftr_bit x n k :
  0 <= k → 0 <= n + k →
  Z.land (Z.shiftr x n) (2 ^ k) = Z.b2z (Z.testbit x (n + k)) * 2 ^ k.
Proof.
  intros Hk Hn. apply Z.bits_inj'. intros i Hi.
  rewrite Z.land_spec, Z.shiftr_spec, Z.pow2_bits_eqb by done.
  destruct (Z.eqb_spec k i) as [->|Hne].
  - rewrite andb_true_r, (Z.add_comm n i).
    destruct (Z.testbit x (i + n)); simpl Z.b2z.
    + rewrite Z.mul_1_l, Z.pow2_bits_true by done. done.
    + rewrite Z.mul_0_l, Z.bits_0. done.
  - rewrite andb_false_r. destruct (Z.testbit x (n + k)); simpl Z.b2z.
    + rewrite Z.mul_1_l, Z.pow2_bits_false by done. done.
    + rewrite Z.mul_0_l, Z.bits_0. done.
Qed.

Lemma testbit_top n x : 0 < n → 0 <= x < 2 ^ n → Z.testbit x (n - 1) = (2 ^ (n - 1) <=? x).
Proof.
  intros Hn Hx. assert (2 ^ n = 2 * 2 ^ (n - 1)) as Hp.
  { rewrite <- Z.pow_succ_r by lia. f_equal. lia. }
  assert (0 < 2 ^ (n - 1)) by (apply Z.pow_pos_nonneg; lia).
  pose proof (testbit_mod2 x (n - 1) ltac:(lia)) as Hb.
  destruct (Z.leb_spec (2 ^ (n - 1)) x).
  - rewrite <- (Z.div_unique x (2 ^ (n - 1)) 1 (x - 2 ^ (n - 1))) in Hb by lia.
    destruct (Z.testbit x (n - 1)); done.
  - rewrite Z.div_small in Hb by lia. destruct (Z.testbit x (n - 1)); done.
Qed.

(** ** Exhaustive checking over bytes *)
Definition bytes_all : list Z := Z.of_nat <$> seq 0 256.

Lemma elem_bytes_all x : byte x → x ∈ bytes_all.
Proof.
  unfold byte. intros Hx. apply list_elem_of_fmap. exists (Z.to_nat x).
  rewrite elem_of_seq. lia.
Qed.

Lemma forall_byte (f : Z → bool) :
  forallb f bytes_all = true → ∀ x, byte x → f x = true.
Proof.
  intros Hf x Hx. rewrite forallb_forall in Hf. apply Hf.
  apply list_elem_of_In, elem_bytes_all, Hx.
Qed.

Lemma forall_byte2 (f : Z → Z → bool) :
  forallb (λ x, forallb (f x) bytes_all) bytes_all = true →
  ∀ x y, byte x → byte y → f x y = true.
Proof.
  intros Hf x y Hx Hy.
  apply (forall_byte (f x)); [|done].
  apply (forall_byte (λ x, forallb (f x) bytes_all)); done.
Qed.

(** The numbers below [n]. *)
Definition below (n : nat) : list Z := Z.of_nat <$> seq 0 n.
Lemma forall_below n (f : Z → bool) :
  forallb f (below n) = true → ∀ x, 0 <= x < Z.of_nat n → f x = true.
Proof.
  intros Hf x Hx. rewrite forallb_forall in Hf. apply Hf, list_elem_of_In.
  apply list_elem_of_fmap. exists (Z.to_nat x). rewrite elem_of_seq. lia.
Qed.

(** ** Arrays

    A C array of static storage duration that starts zeroed: a finite map whose
    absent entries are 0. *)
Definition get0 (arr : gmap Z Z) (i : Z) : Z := default 0 (arr !! i).

Lemma get0_insert_eq arr i v : get0 (<[i:=v]> arr) i = v.
Proof. unfold get0. rewrite lookup_insert_eq. done. Qed.
Lemma get0_insert_ne arr i j v : i ≠ j → get0 (<[i:=v]> arr) j = get0 arr j.
Proof. intros. unfold get0. rewrite lookup_insert_ne by done. done. Qed.

Definition bytes_map (arr : gmap Z Z) : Prop := map_Forall (λ _ v, byte v) arr.
Lemma get0_byte arr i : bytes_map arr → byte (get0 arr i).
Proof.
  intros Hm. unfold get0. destruct (arr !! i) eqn:E; simpl; [exact (Hm _ _ E)|].
  unfold byte. lia.
Qed.
Lemma bytes_map_insert arr i v : bytes_map arr → byte v → bytes_map (<[i:=v]> arr).
Proof. intros. apply map_Forall_insert_2; done. Qed.
#[export] Hint Resolve get0_byte bytes_map_insert : width.

(** The two bytes at an address of [memory[65536]], and whether they are there. *)
Definition in_memory (o : Z) : bool := (0 <=? o) && (o + 1 <? 0x10000).
Definition word_at (mem : gmap Z Z) (o : Z) : Z := (get0 mem o <<! 8) |! get0 mem (o + 1).
(** Copies out of and into an array: the [n] bytes from [i], and [l] from [a]. *)
Definition chars_from (a : gmap Z Z) (i : Z) (n : nat) : list Z :=
  (λ k, get0 a (i + Z.of_nat k)) <$> seq 0 n.
Fixpoint store_bytes (addr : Z) (l : list Z) (mem : gmap Z Z) : gmap Z Z :=
  match l with [] => mem | b :: l => store_bytes (addr + 1) l (<[addr := b]> mem) end.
Lemma store_bytes_out l a i mem :
  i < a ∨ a + Z.of_nat (length l) <= i → get0 (store_bytes a l mem) i = get0 mem i.
Proof.
  revert a mem. induction l as [|b l IH]; intros a mem Hi; [done|]. simpl in *.
  rewrite IH, get0_insert_ne by lia. done.
Qed.
Lemma chars_from_S arr a n : chars_from arr a (S n) = get0 arr a :: chars_from arr (a + 1) n.
Proof.
  unfold chars_from. simpl. rewrite Z.add_0_r. f_equal. rewrite <- fmap_S_seq, <- list_fmap_compose.
  apply list_fmap_ext. intros k x _. simpl. f_equal. lia.
Qed.
Lemma length_chars_from arr a n : length (chars_from arr a n) = n.
Proof. unfold chars_from. rewrite length_fmap, length_seq. done. Qed.
Lemma chars_from_app arr a n1 n2 :
  chars_from arr a (n1 + n2) = chars_from arr a n1 ++ chars_from arr (a + Z.of_nat n1) n2.
Proof.
  revert a. induction n1 as [|n1 IH]; intros a; [rewrite Z.add_0_r; done|].
  cbn [Nat.add]. rewrite !chars_from_S, IH. cbn [app]. do 3 f_equal. lia.
Qed.
Lemma chars_from_ext arr arr' a n :
  (∀ i, a <= i < a + Z.of_nat n → get0 arr i = get0 arr' i) → chars_from arr a n = chars_from arr' a n.
Proof.
  revert a. induction n as [|n IH]; intros a H; [done|].
  rewrite !chars_from_S, H by lia. f_equal. apply IH. intros. apply H. lia.
Qed.
Lemma chars_from_store l a mem : chars_from (store_bytes a l mem) a (length l) = l.
Proof.
  revert a mem. induction l as [|b l IH]; intros a mem; [done|].
  cbn [length store_bytes]. rewrite chars_from_S, IH, store_bytes_out, get0_insert_eq by lia. done.
Qed.
Lemma chars_from_bytes arr a n : bytes_map arr → Forall byte (chars_from arr a n).
Proof.
  intros Hm. apply Forall_forall. intros x Hx. apply list_elem_of_fmap in Hx as [k [-> _]].
  auto with width.
Qed.

(** ** Loops

    A C loop is a step function that either continues with a new state or
    leaves the loop with a result.  [loop p] takes at most [p] steps; the
    fuel is binary, so a generous bound costs nothing when the loop ends
    early. *)
Section Loop.
Context {St R : Type} (step : St → St + R).

Fixpoint loop_nat (n : nat) (s : St) : St + R :=
  match n with
  | O => inl s
  | S n => match step s with inl s' => loop_nat n s' | inr r => inr r end
  end.

Fixpoint loop (p : positive) (s : St) : St + R :=
  match p with
  | xH => step s
  | xO p => match loop p s with inl s' => loop p s' | inr r => inr r end
  | xI p =>
      match step s with
      | inl s' =>
          match loop p s' with inl s'' => loop p s'' | inr r => inr r end
      | inr r => inr r
      end
  end.

Lemma loop_nat_add n1 n2 s :
  loop_nat (n1 + n2) s =
    match loop_nat n1 s with inl s' => loop_nat n2 s' | inr r => inr r end.
Proof.
  revert s. induction n1 as [|n1 IH]; intros s; simpl; [done|].
  destruct (step s); auto.
Qed.

Lemma loop_loop_nat p s : loop p s = loop_nat (Pos.to_nat p) s.
Proof.
  revert s. induction p as [p IH|p IH|]; intros s; cbn [loop].
  - replace (Pos.to_nat p~1) with (S (Pos.to_nat p + Pos.to_nat p)) by lia.
    cbn [loop_nat]. destruct (step s) as [s'|]; [|done].
    rewrite loop_nat_add, IH. destruct (loop_nat _ s'); [apply IH|done].
  - replace (Pos.to_nat p~0) with (Pos.to_nat p + Pos.to_nat p)%nat by lia.
    rewrite loop_nat_add, IH. destruct (loop_nat _ s); [apply IH|done].
  - simpl. destruct (step s); done.
Qed.

(** Total correctness: an invariant, a decreasing measure below the fuel,
    and a postcondition the exits establish. *)
Lemma loop_correct (I : St → Prop) (Q : R → Prop) (μ : St → Z) :
  (∀ s, I s → match step s with
              | inl s' => I s' ∧ 0 <= μ s' < μ s
              | inr r => Q r
              end) →
  ∀ p s, I s → 0 <= μ s < Zpos p → ∃ r, loop p s = inr r ∧ Q r.
Proof.
  intros Hstep p s HI Hμ. rewrite loop_loop_nat.
  assert (μ s < Z.of_nat (Pos.to_nat p)) as Hn by lia.
  destruct Hμ as [Hμ0 _]. revert s HI Hμ0 Hn.
  generalize (Pos.to_nat p) as n.
  induction n as [|n IH]; intros s HI Hμ0 Hn; [lia|]. simpl.
  specialize (Hstep s HI). destruct (step s) as [s'|r]; [|eauto].
  apply IH; [tauto|lia|lia].
Qed.

(** Partial correctness, for a postcondition that holds at every exit. *)
Lemma loop_sound (I : St → Prop) (Q : R → Prop) :
  (∀ s, I s → match step s with inl s' => I s' | inr r => Q r end) →
  ∀ p s r, I s → loop p s = inr r → Q r.
Proof.
  intros Hstep p s r HI. rewrite loop_loop_nat. revert s HI.
  generalize (Pos.to_nat p) as n.
  induction n as [|n IH]; intros s HI; simpl; [done|].
  specialize (Hstep s HI). destruct (step s) as [s'|r'].
  - apply IH, Hstep.
  - intros [= <-]. done.
Qed.
End Loop.

(** ** Case analysis on the conditions of the code *)
Ltac case_if :=
  match goal with
  | |- context [if ?b then _ else _] =>
      lazymatch type of b with
      | bool => let E := fresh "E" in destruct b eqn:E
      | _ => let E := fresh "E" in destruct b as [E|E]
      end
  end.
Ltac case_ifs := repeat (case_if; try done).
