(* ===== verification/Machine.v ===== *)
(** * Machine: the emulator's global state, its control flow and its board

    The state that [h8300.c], [memory.c] and [peripherals.c] keep in global
    variables is one record; a piece of emulator code is a function from that
    record to an [outcome], which says whether it fell through, left through
    one of the labels [trap], [fault] or [illOpc] of [run_cpu], or accessed an
    array outside its bounds.  What the processor calls outside itself (the
    port table, the profiler, the sleep and trap handlers) is the class
    [Board]; [BoardOk] is what the board promises to the processor. *)
From S2P Require Export Prelude.

(** The three cycle counters every peripheral reads and schedules with. *)
Record clock := Clock {
  cycles : Z;
  next_timer_cycle : Z;
  next_nmi_cycle : Z }.

Definition set_cycles (v : Z) (c : clock) : clock :=
  {| cycles := v; next_timer_cycle := next_timer_cycle c;
     next_nmi_cycle := next_nmi_cycle c |}.
Definition set_next_timer_cycle (v : Z) (c : clock) : clock :=
  {| cycles := cycles c; next_timer_cycle := v;
     next_nmi_cycle := next_nmi_cycle c |}.
Definition set_next_nmi_cycle (v : Z) (c : clock) : clock :=
  {| cycles := cycles c; next_timer_cycle := next_timer_cycle c;
     next_nmi_cycle := v |}.

(** [add_to_cycle(id, base, value)]: [value] is an [int32] that the addition
    converts to the 64-bit cycle type; [id] is not used. *)
Definition add_to_cycle (base_value value_to_add : Z) : Z :=
  u64 (base_value + value_to_add).

Definition clock_ok (c : clock) : Prop :=
  qword (cycles c) ∧ qword (next_timer_cycle c) ∧ qword (next_nmi_cycle c).

(** The processor's and the memory's variables; [oldpc] is the local variable
    of [run_cpu], [board] everything the peripherals and the profiler keep. *)
Record machine (P : Type) := Machine {
  reg : list Z;
  pc : Z;
  ccr : Z;
  memory : gmap Z Z;
  memtype : gmap Z Z;
  clk : clock;
  irq_disabled_one : Z;
  db_trap : Z;
  db_singlestep : Z;
  db_singlestep_pc : Z;
  db_singlestep_memtype : Z;
  oldpc : Z;
  wait_states : Z;
  opcstat : gmap Z Z;
  board : P }.
Arguments Machine {P}.
Arguments reg {P} _. Arguments pc {P} _. Arguments ccr {P} _.
Arguments memory {P} _. Arguments memtype {P} _. Arguments clk {P} _.
Arguments irq_disabled_one {P} _. Arguments db_trap {P} _.
Arguments db_singlestep {P} _. Arguments db_singlestep_pc {P} _.
Arguments db_singlestep_memtype {P} _. Arguments oldpc {P} _.
Arguments wait_states {P} _. Arguments opcstat {P} _. Arguments board {P} _.

Definition set_reg {P} (v : list Z) (m : machine P) : machine P :=
  {| reg := v; pc := pc m; ccr := ccr m; memory := memory m; memtype :=
     memtype m; clk := clk m; irq_disabled_one := irq_disabled_one m; db_trap
     := db_trap m; db_singlestep := db_singlestep m; db_singlestep_pc :=
     db_singlestep_pc m; db_singlestep_memtype := db_singlestep_memtype m;
     oldpc := oldpc m; wait_states := wait_states m; opcstat := opcstat m;
     board := board m |}.
Definition set_pc {P} (v : Z) (m : machine P) : machine P :=
  {| reg := reg m; pc := v; ccr := ccr m; memory := memory m; memtype :=
     memtype m; clk := clk m; irq_disabled_one := irq_disabled_one m; db_trap
     := db_trap m; db_singlestep := db_singlestep m; db_singlestep_pc :=
     db_singlestep_pc m; db_singlestep_memtype := db_singlestep_memtype m;
     oldpc := oldpc m; wait_states := wait_states m; opcstat := opcstat m;
     board := board m |}.
Definition set_ccr {P} (v : Z) (m : machine P) : machine P :=
  {| reg := reg m; pc := pc m; ccr := v; memory := memory m; memtype :=
     memtype m; clk := clk m; irq_disabled_one := irq_disabled_one m; db_trap
     := db_trap m; db_singlestep := db_singlestep m; db_singlestep_pc :=
     db_singlestep_pc m; db_singlestep_memtype := db_singlestep_memtype m;
     oldpc := oldpc m; wait_states := wait_states m; opcstat := opcstat m;
     board := board m |}.
Definition set_memory {P} (v : gmap Z Z) (m : machine P) : machine P :=
  {| reg := reg m; pc := pc m; ccr := ccr m; memory := v; memtype := memtype
     m; clk := clk m; irq_disabled_one := irq_disabled_one m; db_trap :=
     db_trap m; db_singlestep := db_singlestep m; db_singlestep_pc :=
     db_singlestep_pc m; db_singlestep_memtype := db_singlestep_memtype m;
     oldpc := oldpc m; wait_states := wait_states m; opcstat := opcstat m;
     board := board m |}.
Definition set_memtype {P} (v : gmap Z Z) (m : machine P) : machine P :=
  {| reg := reg m; pc := pc m; ccr := ccr m; memory := memory m; memtype := v;
     clk := clk m; irq_disabled_one := irq_disabled_one m; db_trap := db_trap
     m; db_singlestep := db_singlestep m; db_singlestep_pc := db_singlestep_pc
     m; db_singlestep_memtype := db_singlestep_memtype m; oldpc := oldpc m;
     wait_states := wait_states m; opcstat := opcstat m; board := board m |}.
Definition set_clk {P} (v : clock) (m : machine P) : machine P :=
  {| reg := reg m; pc := pc m; ccr := ccr m; memory := memory m; memtype :=
     memtype m; clk := v; irq_disabled_one := irq_disabled_one m; db_trap :=
     db_trap m; db_singlestep := db_singlestep m; db_singlestep_pc :=
     db_singlestep_pc m; db_singlestep_memtype := db_singlestep_memtype m;
     oldpc := oldpc m; wait_states := wait_states m; opcstat := opcstat m;
     board := board m |}.
Definition set_irq_disabled_one {P} (v : Z) (m : machine P) : machine P :=
  {| reg := reg m; pc := pc m; ccr := ccr m; memory := memory m; memtype :=
     memtype m; clk := clk m; irq_disabled_one := v; db_trap := db_trap m;
     db_singlestep := db_singlestep m; db_singlestep_pc := db_singlestep_pc m;
     db_singlestep_memtype := db_singlestep_memtype m; oldpc := oldpc m;
     wait_states := wait_states m; opcstat := opcstat m; board := board m |}.
Definition set_db_trap {P} (v : Z) (m : machine P) : machine P :=
  {| reg := reg m; pc := pc m; ccr := ccr m; memory := memory m; memtype :=
     memtype m; clk := clk m; irq_disabled_one := irq_disabled_one m; db_trap
     := v; db_singlestep := db_singlestep m; db_singlestep_pc :=
     db_singlestep_pc m; db_singlestep_memtype := db_singlestep_memtype m;
     oldpc := oldpc m; wait_states := wait_states m; opcstat := opcstat m;
     board := board m |}.
Definition set_db_singlestep {P} (v : Z) (m : machine P) : machine P :=
  {| reg := reg m; pc := pc m; ccr := ccr m; memory := memory m; memtype :=
     memtype m; clk := clk m; irq_disabled_one := irq_disabled_one m; db_trap
     := db_trap m; db_singlestep := v; db_singlestep_pc := db_singlestep_pc m;
     db_singlestep_memtype := db_singlestep_memtype m; oldpc := oldpc m;
     wait_states := wait_states m; opcstat := opcstat m; board := board m |}.
Definition set_db_singlestep_pc {P} (v : Z) (m : machine P) : machine P :=
  {| reg := reg m; pc := pc m; ccr := ccr m; memory := memory m; memtype :=
     memtype m; clk := clk m; irq_disabled_one := irq_disabled_one m; db_trap
     := db_trap m; db_singlestep := db_singlestep m; db_singlestep_pc := v;
     db_singlestep_memtype := db_singlestep_memtype m; oldpc := oldpc m;
     wait_states := wait_states m; opcstat := opcstat m; board := board m |}.
Definition set_db_singlestep_memtype {P} (v : Z) (m : machine P) : machine P :=
  {| reg := reg m; pc := pc m; ccr := ccr m; memory := memory m; memtype :=
     memtype m; clk := clk m; irq_disabled_one := irq_disabled_one m; db_trap
     := db_trap m; db_singlestep := db_singlestep m; db_singlestep_pc :=
     db_singlestep_pc m; db_singlestep_memtype := v; oldpc := oldpc m;
     wait_states := wait_states m; opcstat := opcstat m; board := board m |}.
Definition set_oldpc {P} (v : Z) (m : machine P) : machine P :=
  {| reg := reg m; pc := pc m; ccr := ccr m; memory := memory m; memtype :=
     memtype m; clk := clk m; irq_disabled_one := irq_disabled_one m; db_trap
     := db_trap m; db_singlestep := db_singlestep m; db_singlestep_pc :=
     db_singlestep_pc m; db_singlestep_memtype := db_singlestep_memtype m;
     oldpc := v; wait_states := wait_states m; opcstat := opcstat m; board :=
     board m |}.
Definition set_wait_states {P} (v : Z) (m : machine P) : machine P :=
  {| reg := reg m; pc := pc m; ccr := ccr m; memory := memory m; memtype :=
     memtype m; clk := clk m; irq_disabled_one := irq_disabled_one m; db_trap
     := db_trap m; db_singlestep := db_singlestep m; db_singlestep_pc :=
     db_singlestep_pc m; db_singlestep_memtype := db_singlestep_memtype m;
     oldpc := oldpc m; wait_states := v; opcstat := opcstat m; board := board
     m |}.
Definition set_opcstat {P} (v : gmap Z Z) (m : machine P) : machine P :=
  {| reg := reg m; pc := pc m; ccr := ccr m; memory := memory m; memtype :=
     memtype m; clk := clk m; irq_disabled_one := irq_disabled_one m; db_trap
     := db_trap m; db_singlestep := db_singlestep m; db_singlestep_pc :=
     db_singlestep_pc m; db_singlestep_memtype := db_singlestep_memtype m;
     oldpc := oldpc m; wait_states := wait_states m; opcstat := v; board :=
     board m |}.
Definition set_board {P} (v : P) (m : machine P) : machine P :=
  {| reg := reg m; pc := pc m; ccr := ccr m; memory := memory m; memtype :=
     memtype m; clk := clk m; irq_disabled_one := irq_disabled_one m; db_trap
     := db_trap m; db_singlestep := db_singlestep m; db_singlestep_pc :=
     db_singlestep_pc m; db_singlestep_memtype := db_singlestep_memtype m;
     oldpc := oldpc m; wait_states := wait_states m; opcstat := opcstat m;
     board := v |}.

(** ** Control flow *)

(** The labels of [run_cpu] that an opcode can jump to. *)
Inductive label := Ltrap | Lfault | LillOpc.

#[global] Instance label_eq_dec : EqDecision label.
Proof. solve_decision. Defined.

(** [Halt]: the emulator process ends ([exit] or [abort]). [Undefined]: an
    access outside [memory], [memtype] or [port], which C leaves undefined.
    [Blocked]: a waiting loop took more turns than its bound. *)
Inductive outcome (P A : Type) :=
  | Done (a : A) (m : machine P)
  | Goto (l : label) (m : machine P)
  | Halt
  | Undefined
  | Blocked.
Arguments Done {P A}. Arguments Goto {P A}. Arguments Halt {P A}.
Arguments Undefined {P A}. Arguments Blocked {P A}.

Definition M (P A : Type) : Type := machine P → outcome P A.

#[global] Instance M_ret P : MRet (M P) := λ A a m, Done a m.
#[global] Instance M_bind P : MBind (M P) := λ A B k c m,
  match c m with
  | Done a m' => k a m'
  | Goto l m' => Goto l m'
  | Halt => Halt
  | Undefined => Undefined
  | Blocked => Blocked
  end.

Lemma bind_done {P A B} (c : M P A) (k : A → M P B) m a m' :
  c m = Done a m' → (c ≫= k) m = k a m'.
Proof. intros Hc. unfold mbind, M_bind. rewrite Hc. done. Qed.
(** Run the first computation of a sequence by an equation about it. *)
Tactic Notation "run_by" tactic3(tac) :=
  match goal with
  | |- context [@mbind ?T _ ?B ?A ?k ?c ?m] =>
      let H := fresh in
      eassert (c m = Done _ _) as H by tac;
      rewrite (bind_done c k m _ _ H); clear H; cbv beta
  end.

Section Primitives.
Context {P : Type}.

Definition gets {A} (f : machine P → A) : M P A := λ m, Done (f m) m.
Definition modify (f : machine P → machine P) : M P unit := λ m, Done tt (f m).
Definition goto {A} (l : label) : M P A := λ m, Goto l m.
Definition undefined {A} : M P A := λ _, Undefined.
Definition halt {A} : M P A := λ _, Halt.
Definition blocked {A} : M P A := λ _, Blocked.
(** [do body while (body's value);], at most [p] turns. *)
Definition do_while (p : positive) (body : M P bool) : M P unit := λ m,
  match loop (λ m, match body m with
                   | Done true m' => inl m'
                   | Done false m' => inr (Done tt m')
                   | Goto l m' => inr (Goto l m')
                   | Halt => inr Halt
                   | Undefined => inr Undefined
                   | Blocked => inr Blocked
                   end) p m with
  | inl _ => Blocked
  | inr o => o
  end.
(** A loop over an array of functions. *)
Fixpoint for_each {X} (f : X → M P unit) (l : list X) : M P unit :=
  match l with
  | [] => mret tt
  | x :: l => _ ← f x; for_each f l
  end.
Definition when (b : bool) (c : M P unit) : M P unit :=
  if b then c else mret tt.

(** [memory[i]] and [memtype[i]], the arrays of 65536 bytes. *)
Definition in_array (i : Z) : bool := (0 <=? i) && (i <? 65536).
Definition memory_at (i : Z) : M P Z :=
  if in_array i then gets (λ m, get0 (memory m) i) else undefined.
Definition memtype_at (i : Z) : M P Z :=
  if in_array i then gets (λ m, get0 (memtype m) i) else undefined.
Definition memory_store (i v : Z) : M P unit :=
  if in_array i then modify (λ m, set_memory (<[i:=v]> (memory m)) m)
  else undefined.
Definition memtype_store (i v : Z) : M P unit :=
  if in_array i then modify (λ m, set_memtype (<[i:=v]> (memtype m)) m)
  else undefined.

(** [cycles += n] *)
Definition add_cycles (n : Z) : M P unit :=
  modify (λ m, set_clk (set_cycles (u64 (cycles (clk m) + n)) (clk m)) m).
End Primitives.

(** ** The board

    What the processor reaches through function pointers and calls. The
    profiler's hooks only read the machine and change their own data. *)
Class Board (P : Type) := {
  port_get : Z → option (M P Z);
  port_set : Z → option (Z → M P unit);
  set_motor : Z → M P unit;
  cpu_sleep : M P unit;
  debug_printf : M P unit;
  periph_handletrap : M P unit;
  frame_begin : Z → Z → machine P → P;
  frame_end : Z → Z → machine P → P;
  frame_switch : Z → Z → machine P → P }.

(** The invariant of the board's own state. *)
Class BoardInv (P : Type) := board_ok : P → Prop.

(** ** Well-formed machines *)
Section Wf.
Context {P : Type} `{!BoardInv P}.

Record wf (m : machine P) : Prop := {
  wf_reg_length : length (reg m) = 16%nat;
  wf_reg : Forall byte (reg m);
  wf_pc : word (pc m);
  wf_ccr : byte (ccr m);
  wf_memory : bytes_map (memory m);
  wf_memtype : bytes_map (memtype m);
  wf_clk : clock_ok (clk m);
  wf_oldpc : word (oldpc m);
  wf_db_singlestep_pc : word (db_singlestep_pc m);
  wf_db_singlestep_memtype : byte (db_singlestep_memtype m);
  wf_board : board_ok (board m) }.

(** [keeps Q c]: from a well-formed machine [c] reaches only well-formed
    machines, and its value satisfies [Q]. *)
Definition keeps {A} (Q : A → Prop) (c : M P A) : Prop :=
  ∀ m, wf m →
    match c m with
    | Done a m' => Q a ∧ wf m'
    | Goto _ m' => wf m'
    | Halt | Undefined | Blocked => True
    end.

Lemma keeps_ret {A} (Q : A → Prop) a : Q a → keeps Q (mret a).
Proof. intros HQ m Hm. split; done. Qed.

Lemma keeps_bind {A B} (R : A → Prop) (Q : B → Prop) (c : M P A) (k : A → M P B) :
  keeps R c → (∀ a, R a → keeps Q (k a)) → keeps Q (c ≫= k).
Proof.
  intros Hc Hk m Hm. unfold mbind, M_bind. specialize (Hc m Hm).
  destruct (c m) as [a m'|l m'| | |]; [|done..].
  destruct Hc as [Ha Hm']. apply (Hk a Ha m' Hm').
Qed.

Lemma keeps_gets {A} (Q : A → Prop) (f : machine P → A) :
  (∀ m, wf m → Q (f m)) → keeps Q (gets f).
Proof. intros Hf m Hm. split; auto. Qed.

Lemma keeps_modify f : (∀ m, wf m → wf (f m)) → keeps (λ _, True) (modify f).
Proof. intros Hf m Hm. split; auto. Qed.

Lemma keeps_goto {A} (Q : A → Prop) l : keeps Q (goto l).
Proof. intros m Hm. done. Qed.

Lemma keeps_undefined {A} (Q : A → Prop) : keeps Q undefined.
Proof. intros m Hm. done. Qed.

Lemma keeps_halt {A} (Q : A → Prop) : keeps Q halt.
Proof. intros m Hm. done. Qed.

Lemma keeps_blocked {A} (Q : A → Prop) : keeps Q blocked.
Proof. intros m Hm. done. Qed.

Lemma keeps_do_while p body :
  keeps (λ _, True) body → keeps (λ _, True) (do_while p body).
Proof.
  intros Hb m Hm. unfold do_while.
  destruct (loop _ p m) as [|o] eqn:E; [done|].
  refine (loop_sound _ wf (λ o, match o with
    | Done _ m' => True ∧ wf m' | Goto _ m' => wf m' | _ => True end) _ p m o Hm E).
  intros m1 Hm1. specialize (Hb m1 Hm1).
  destruct (body m1) as [[] m'|l m'| | |]; tauto.
Qed.

Lemma keeps_for_each {X} (f : X → M P unit) l :
  (∀ x, x ∈ l → keeps (λ _, True) (f x)) → keeps (λ _, True) (for_each f l).
Proof.
  induction l as [|x l IH]; intros Hf; simpl; [apply keeps_ret; done|].
  apply (keeps_bind (λ _, True)); [apply Hf; set_solver|].
  intros _ _. apply IH. intros. apply Hf. set_solver.
Qed.

Lemma keeps_when b c : keeps (λ _, True) c → keeps (λ _, True) (when b c).
Proof. intros. destruct b; [done|]. apply keeps_ret. done. Qed.

Lemma keeps_if {A} (Q : A → Prop) (b : bool) c1 c2 :
  keeps Q c1 → keeps Q c2 → keeps Q (if b then c1 else c2).
Proof. destruct b; done. Qed.

Lemma keeps_weaken {A} (R Q : A → Prop) c :
  keeps R c → (∀ a, R a → Q a) → keeps Q c.
Proof.
  intros Hc HQ m Hm. specialize (Hc m Hm). destruct (c m) as [a m'|l m'| | |];
    [destruct Hc; split; auto|done..].
Qed.

Lemma keeps_any {A} (c : M P A) Q : keeps Q c → keeps (λ _, True) c.
Proof. intros. eapply keeps_weaken; done. Qed.

Lemma keeps_memory_at i : keeps byte (memory_at i).
Proof.
  unfold memory_at. case_if; [|apply keeps_undefined].
  apply keeps_gets. intros m Hm. apply get0_byte, wf_memory, Hm.
Qed.

Lemma keeps_memtype_at i : keeps byte (memtype_at i).
Proof.
  unfold memtype_at. case_if; [|apply keeps_undefined].
  apply keeps_gets. intros m Hm. apply get0_byte, wf_memtype, Hm.
Qed.

Lemma keeps_memory_store i v : byte v → keeps (λ _, True) (memory_store i v).
Proof.
  intros Hv. unfold memory_store. case_if; [|apply keeps_undefined].
  apply keeps_modify. intros m []. constructor; simpl; auto with width.
Qed.

Lemma keeps_memtype_store i v : byte v → keeps (λ _, True) (memtype_store i v).
Proof.
  intros Hv. unfold memtype_store. case_if; [|apply keeps_undefined].
  apply keeps_modify. intros m []. constructor; simpl; auto with width.
Qed.

Lemma keeps_add_cycles n : keeps (λ _, True) (add_cycles n).
Proof.
  apply keeps_modify. intros m []. constructor; simpl; auto.
  unfold clock_ok in *. simpl. destruct wf_clk0 as (_ & ? & ?).
  auto using u64_qword.
Qed.

(** A register pair, and the bytes of the register file. *)
Lemma wf_reg_at m i : wf m → byte (reg m !!! i).
Proof.
  intros []. destruct (reg m !! i) as [v|] eqn:E.
  - rewrite (list_lookup_total_correct _ _ _ E).
    eapply Forall_lookup_1; done.
  - rewrite list_lookup_total_alt, E. simpl. apply byte_const. done.
Qed.
End Wf.

(** What the board promises to the processor: its operations keep the machine
    well-formed, and its getters return bytes. *)
Class BoardOk (P : Type) `{!Board P, !BoardInv P} := {
  port_get_ok i g : port_get i = Some g → keeps byte g;
  port_set_ok i s v : port_set i = Some s → byte v → keeps (λ _, True) (s v);
  set_motor_ok v : byte v → keeps (λ _, True) (set_motor v);
  cpu_sleep_ok : keeps (λ _, True) cpu_sleep;
  debug_printf_ok : keeps (λ _, True) debug_printf;
  periph_handletrap_ok : keeps (λ _, True) periph_handletrap;
  frame_begin_ok fp irq m : wf m → board_ok (frame_begin fp irq m);
  frame_end_ok fp irq m : wf m → board_ok (frame_end fp irq m);
  frame_switch_ok old new m : wf m → board_ok (frame_switch old new m) }.

Create HintDb keeps discriminated.
#[export] Hint Resolve keeps_ret keeps_gets keeps_goto keeps_undefined keeps_halt keeps_blocked keeps_when
  keeps_memory_at keeps_memtype_at keeps_memory_store keeps_memtype_store
  keeps_add_cycles : keeps.

(** Decompose a computation along its binds and conditions. *)
Ltac keeps_step :=
  match goal with
  | |- keeps _ (mbind _ _) => eapply keeps_bind; [|intros ? ?]
  | |- keeps _ (if _ then _ else _) => apply keeps_if
  | |- keeps _ (mret _) => apply keeps_ret
  | |- keeps _ _ => solve [eauto with keeps width]
  end.
Ltac keeps_auto := repeat keeps_step.
