(* ===== verification/Memory.v ===== *)
(** * Memory: [memory.c] and the access macros of [memory.h]

    Reads and writes of the 64 KB address space: plain memory, the port
    registers above 0xff88, the memory-mapped motor latch, the illegal areas,
    and the number of cycles each access costs.  [mem_init] builds the memory
    map of the H8/3292. *)
From S2P Require Export Machine.

Definition MEMTYPE_BREAKPOINT : Z := 0x01.
Definition MEMTYPE_LOG : Z := 0x02.
Definition MEMTYPE_WRITETRAP : Z := 0x04.
Definition MEMTYPE_READTRAP : Z := 0x08.
Definition MEMTYPE_MOTOR : Z := 0x20.
Definition MEMTYPE_FAST : Z := 0x40.
Definition MEMTYPE_DIV : Z := 0x80.

Section Memory.
Context {P : Type} `{!Board P}.

(** [port[i]]: the table has 0x10000 - 0xff88 = 120 entries. *)
Definition in_port (i : Z) : bool := (0 <=? i) && (i <? 120).

Definition illegal_access : M P unit := modify (set_db_trap 10).

(** [gb = port[i].get; if (gb) memory[addr] = gb();] *)
Definition port_refresh (addr : Z) : M P unit :=
  if in_port (addr - 0xff88) then
    match port_get (addr - 0xff88) with
    | Some gb => v ← gb; memory_store addr v
    | None => mret tt
    end
  else undefined.

(** [sb = port[i].set; if (sb) sb(val);] *)
Definition port_write (addr v : Z) : M P unit :=
  if in_port (addr - 0xff88) then
    match port_set (addr - 0xff88) with
    | Some sb => sb v
    | None => mret tt
    end
  else undefined.

Definition get_byte_div (addr : Z) : M P Z :=
  if addr >? 0xff88 then
    _ ← port_refresh addr;
    memory_at addr
  else
    _ ← illegal_access;
    mret 0.

Definition memory_word (addr : Z) : M P Z :=
  hi ← memory_at addr;
  lo ← memory_at (addr + 1);
  mret ((hi <<! 8) |! lo).

Definition get_word_div (addr : Z) : M P Z :=
  _ ← (if addr &? 1 then illegal_access
       else if addr >? 0xff88 then
         _ ← port_refresh addr;
         port_refresh (addr + 1)
       else illegal_access);
  memory_word addr.

Definition GET_BYTE (addr : Z) : M P Z :=
  t ← memtype_at (u16 addr);
  if negb (t &? MEMTYPE_DIV) then memory_at (u16 addr)
  else get_byte_div (u16 addr).

Definition GET_WORD (addr : Z) : M P Z :=
  t ← memtype_at (u16 addr);
  if negb (addr &? 1) && negb (t &? MEMTYPE_DIV) then memory_word (u16 addr)
  else get_word_div (u16 addr).

Definition SET_BYTE (addr v : Z) : M P unit :=
  type ← memtype_at addr;
  _ ← (if type &? MEMTYPE_MOTOR then set_motor v
       else if type &? MEMTYPE_DIV then
         if addr >? 0xff88 then port_write addr v else illegal_access
       else mret tt);
  memory_store addr v.

Definition SET_WORD (addr v : Z) : M P unit :=
  type ← memtype_at addr;
  _ ← memory_store addr (v >>! 8);
  _ ← memory_store (addr + 1) (v &! 0xff);
  if type &? MEMTYPE_MOTOR then set_motor (u8 v)
  else if type &? MEMTYPE_DIV then
    if addr >? 0xff88 then
      _ ← port_write addr (v >>! 8);
      port_write (addr + 1) (v &! 0xff)
    else illegal_access
  else mret tt.

(** The cost of an access: 2 cycles, and 1 (byte) or 4 (word) more outside
    the on-chip memory. [sh] is 6 for a byte and 4 for a word. *)
Definition access_cycles (sh addr : Z) : M P unit :=
  t ← memtype_at (u16 addr);
  add_cycles (2 + ((Z.lnot t &! MEMTYPE_FAST) >>! sh)).

Definition GET_BYTE_CYCLES (addr : Z) : M P Z :=
  _ ← access_cycles 6 addr; GET_BYTE addr.
Definition GET_WORD_CYCLES (addr : Z) : M P Z :=
  _ ← access_cycles 4 addr; GET_WORD addr.
Definition SET_BYTE_CYCLES (addr v : Z) : M P unit :=
  _ ← access_cycles 6 addr; SET_BYTE (u16 addr) (u8 v).
Definition SET_WORD_CYCLES (addr v : Z) : M P unit :=
  _ ← access_cycles 4 addr; SET_WORD (u16 addr) (u16 v).
End Memory.

(** ** The memory map of [mem_init] (H8/3292) *)
Definition ROM_END : Z := 0x4000.
Definition ON_CHIP_START : Z := 0xfb80.
Definition FAST_MEM_START : Z := 0xfd80.

(** [while (i < hi) memtype[i++] = v;] *)
Fixpoint fill_from (n : nat) (i v : Z) (arr : gmap Z Z) : gmap Z Z :=
  match n with
  | O => arr
  | S n => fill_from n (i + 1) v (<[i:=v]> arr)
  end.
Definition fill (i hi v : Z) (arr : gmap Z Z) : gmap Z Z :=
  fill_from (Z.to_nat (hi - i)) i v arr.

Definition mem_init (arr : gmap Z Z) : gmap Z Z :=
  fill 0xff88 0x10000 MEMTYPE_DIV
    (fill 0xff80 0xff88 MEMTYPE_MOTOR
      (fill FAST_MEM_START 0xff80 MEMTYPE_FAST
        (fill ON_CHIP_START FAST_MEM_START MEMTYPE_DIV
          (fill 0xf000 ON_CHIP_START MEMTYPE_MOTOR
            (fill 0x8000 0xf000 0
              (fill ROM_END 0x8000 MEMTYPE_DIV
                (fill 0 ROM_END (MEMTYPE_FAST |! MEMTYPE_WRITETRAP) arr))))))).

Lemma get0_fill_from n i v arr j :
  get0 (fill_from n i v arr) j =
    if decide (i <= j < i + Z.of_nat n) then v else get0 arr j.
Proof.
  revert i arr. induction n as [|n IH]; intros i arr; simpl fill_from.
  - case_decide; [lia|done].
  - rewrite IH. repeat case_decide; try lia; try done.
    + destruct (decide (i = j)) as [->|]; [by rewrite get0_insert_eq|lia].
    + by rewrite get0_insert_ne by lia.
Qed.

Lemma get0_fill i hi v arr j :
  get0 (fill i hi v arr) j = if decide (i <= j < hi) then v else get0 arr j.
Proof.
  unfold fill. rewrite get0_fill_from. repeat case_decide; try lia; done.
Qed.

Lemma bytes_map_fill i hi v arr :
  byte v → bytes_map arr → bytes_map (fill i hi v arr).
Proof.
  intros Hv. unfold fill. generalize (Z.to_nat (hi - i)) as n.
  intros n. revert i arr.
  induction n; intros i' arr Ha; simpl; auto with width.
Qed.

(** The regions of the map, address by address. *)
Definition region_type (a : Z) : Z :=
  if a <? ROM_END then MEMTYPE_FAST |! MEMTYPE_WRITETRAP
  else if a <? 0x8000 then MEMTYPE_DIV
  else if a <? 0xf000 then 0
  else if a <? ON_CHIP_START then MEMTYPE_MOTOR
  else if a <? FAST_MEM_START then MEMTYPE_DIV
  else if a <? 0xff80 then MEMTYPE_FAST
  else if a <? 0xff88 then MEMTYPE_MOTOR
  else MEMTYPE_DIV.

Lemma get0_mem_init arr a : word a → get0 (mem_init arr) a = region_type a.
Proof.
  intros Ha. unfold mem_init. rewrite !get0_fill.
  unfold region_type, ROM_END, ON_CHIP_START, FAST_MEM_START, word in *.
  repeat case_decide; repeat case_match; try lia; done.
Qed.

(** ** Well-formedness *)
Section MemoryOk.
Context {P : Type} `{BoardOk P}.

Lemma keeps_illegal_access : keeps (λ _, True) illegal_access.
Proof. apply keeps_modify. intros m []. constructor; done. Qed.

Lemma keeps_port_refresh a : keeps (λ _, True) (port_refresh a).
Proof.
  unfold port_refresh. case_if; [|auto with keeps].
  destruct (port_get _) eqn:Hg; [|apply keeps_ret; done].
  eapply keeps_bind; [eapply port_get_ok, Hg|]. eauto with keeps.
Qed.

Lemma keeps_port_write a v : byte v → keeps (λ _, True) (port_write a v).
Proof.
  intros. unfold port_write. case_if; [|auto with keeps].
  destruct (port_set _) eqn:Hg; [|apply keeps_ret; done].
  eapply port_set_ok; done.
Qed.

Lemma keeps_memory_word a : keeps word (memory_word a).
Proof.
  unfold memory_word. keeps_auto. auto with width.
Qed.
Local Hint Resolve keeps_illegal_access keeps_port_refresh keeps_port_write
  keeps_memory_word set_motor_ok : keeps.

Lemma keeps_GET_BYTE a : keeps byte (GET_BYTE a).
Proof.
  unfold GET_BYTE, get_byte_div. keeps_auto. apply byte_const. done.
Qed.

Lemma keeps_GET_WORD a : keeps word (GET_WORD a).
Proof. unfold GET_WORD, get_word_div. keeps_auto. Qed.

Lemma keeps_SET_BYTE a v : byte v → keeps (λ _, True) (SET_BYTE a v).
Proof. intros. unfold SET_BYTE. keeps_auto; done. Qed.

Lemma keeps_SET_WORD a v : word v → keeps (λ _, True) (SET_WORD a v).
Proof. intros. unfold SET_WORD. keeps_auto; done. Qed.

Lemma keeps_access_cycles sh a : keeps (λ _, True) (access_cycles sh a).
Proof. unfold access_cycles. keeps_auto. Qed.
Local Hint Resolve keeps_GET_BYTE keeps_GET_WORD keeps_SET_BYTE keeps_SET_WORD
  keeps_access_cycles : keeps.

Lemma keeps_GET_BYTE_CYCLES a : keeps byte (GET_BYTE_CYCLES a).
Proof. unfold GET_BYTE_CYCLES. keeps_auto. Qed.
Lemma keeps_GET_WORD_CYCLES a : keeps word (GET_WORD_CYCLES a).
Proof. unfold GET_WORD_CYCLES. keeps_auto. Qed.
Lemma keeps_SET_BYTE_CYCLES a v : keeps (λ _, True) (SET_BYTE_CYCLES a v).
Proof. unfold SET_BYTE_CYCLES. keeps_auto. Qed.
Lemma keeps_SET_WORD_CYCLES a v : keeps (λ _, True) (SET_WORD_CYCLES a v).
Proof. unfold SET_WORD_CYCLES. keeps_auto. Qed.
End MemoryOk.
#[export] Hint Resolve keeps_GET_BYTE keeps_GET_WORD keeps_SET_BYTE keeps_SET_WORD
  keeps_GET_BYTE_CYCLES keeps_GET_WORD_CYCLES keeps_SET_BYTE_CYCLES
  keeps_SET_WORD_CYCLES keeps_access_cycles keeps_illegal_access
  keeps_memory_word : keeps.
