(* ===== verification/Alu.v ===== *)
(** * Alu: the arithmetic of the H8/300 instruction set

    The condition-code computations that [h8300.pl] pastes into every
    arithmetic opcode, and their meaning: carry, half carry, overflow, sign and
    zero of the mathematical sum or difference.  [ccr] is I-H-NZVC, bit 0 is C. *)
From S2P Require Export Memory.

(** ** The generated flag code *)

(** [ccr |= (dest >> (w - 4)) & 0x08; if (dest == 0) ccr |= 0x04;] *)
Definition setNZ (w dest ccr : Z) : Z :=
  let ccr := ccr |! ((dest >>! (w - 4)) &! 0x08) in
  if dest =? 0 then ccr |! 0x04 else ccr.

(** The half-carry shift: [>> 7] for words, [<< 1] for bytes. *)
Definition halfcarry_shift (w x : Z) : Z :=
  if w =? 16 then x >>! 7 else x <<! 1.

(** [is_sub] is the generator's test [$_[0] =~ /^SUB/]. *)
Definition setHNZVC (is_sub : bool) (w src oval dest ccr : Z) : Z :=
  let ccr := ccr &! 0xd0 in
  let ccr := setNZ w dest ccr in
  if is_sub then
    let ccr := ccr |! ((((src ^! oval) &! (dest ^! oval)) >>! (w - 2)) &! 0x02) in
    let ccr := ccr |! (halfcarry_shift w (src ^! dest ^! oval) &! 0x20) in
    ccr |! (((src ^! ((src ^! dest) &! (dest ^! oval))) >>! (w - 1)) &! 0x01)
  else
    let ccr := ccr |! ((((src ^! dest) &! (dest ^! oval)) >>! (w - 2)) &! 0x02) in
    let ccr := ccr |! (halfcarry_shift w (src ^! dest ^! oval) &! 0x20) in
    ccr |! (((src ^! ((src ^! oval) &! (dest ^! oval))) >>! (w - 1)) &! 0x01).

Definition setNZV (w dest ccr : Z) : Z := setNZ w dest (ccr &! 0xf1).

(** ** What the flags mean *)

(** The value of a [w]-bit pattern as a signed number. *)
Definition signed (w x : Z) : Z := if 2 ^ (w - 1) <=? x then x - 2 ^ w else x.

(** A condition code register with the given flags; bits 7, 6 and 4 are kept. *)
Definition pack_flags (ccr : Z) (h n z v c : bool) : Z :=
  let ccr := (ccr &! 0xd0) |! (Z.b2z n * 0x08) in
  let ccr := if z then ccr |! 0x04 else ccr in
  ccr |! (Z.b2z v * 0x02) |! (Z.b2z h * 0x20) |! Z.b2z c.

Definition overflows (w x : Z) : bool :=
  negb ((- 2 ^ (w - 1) <=? x) && (x <? 2 ^ (w - 1))).

Definition alu_width (w : Z) : Prop := w = 8 ∨ w = 16.

Lemma setNZ_pack w dest ccr :
  alu_width w → 0 <= dest < 2 ^ w →
  setNZ w dest ccr =
    let ccr := ccr |! (Z.b2z (2 ^ (w - 1) <=? dest) * 0x08) in
    if dest =? 0 then ccr |! 0x04 else ccr.
Proof.
  intros Hw Hd. unfold setNZ.
  assert (Z.land (Z.shiftr dest (w - 4)) 8 = Z.b2z (2 ^ (w - 1) <=? dest) * 8) as ->.
  { rewrite <- testbit_top by (destruct Hw; lia).
    etransitivity; [apply (land_shiftr_bit dest (w - 4) 3); destruct Hw; lia|].
    repeat f_equal. lia. }
  done.
Qed.

Lemma halfcarry_bit w x :
  alu_width w → Z.land (halfcarry_shift w x) 0x20 = Z.b2z (Z.testbit x (w - 4)) * 0x20.
Proof.
  intros [-> | ->]; unfold halfcarry_shift; simpl.
  - exact (land_shiftr_bit x (-1) 5 ltac:(lia) ltac:(lia)).
  - exact (land_shiftr_bit x 7 5 ltac:(lia) ltac:(lia)).
Qed.

(** The top-bit formulas, as single bits. *)
Lemma overflow_bit w x :
  alu_width w → Z.land (Z.shiftr x (w - 2)) 0x02 = Z.b2z (Z.testbit x (w - 1)) * 2.
Proof.
  intros Hw. etransitivity; [apply (land_shiftr_bit x (w - 2) 1); destruct Hw; lia|].
  repeat f_equal; lia.
Qed.
Lemma carry_bit w x :
  alu_width w → Z.land (Z.shiftr x (w - 1)) 0x01 = Z.b2z (Z.testbit x (w - 1)).
Proof.
  intros Hw. etransitivity; [apply (land_shiftr_bit x (w - 1) 0); destruct Hw; lia|].
  rewrite Z.mul_1_r. repeat f_equal; lia.
Qed.

Ltac flag_bits w :=
  rewrite (halfcarry_bit w), (overflow_bit w), (carry_bit w) by done;
  repeat (rewrite Z.lxor_spec || rewrite Z.land_spec).

(** [dest = oval + src + c] ([c] the carry of ADDX). *)
Lemma add_flags w src oval c ccr :
  alu_width w → 0 <= src < 2 ^ w → 0 <= oval < 2 ^ w → 0 <= c <= 1 →
  setHNZVC false w src oval ((oval + src + c) mod 2 ^ w) ccr =
    pack_flags ccr
      (2 ^ (w - 4) <=? oval mod 2 ^ (w - 4) + src mod 2 ^ (w - 4) + c)
      (2 ^ (w - 1) <=? (oval + src + c) mod 2 ^ w)
      ((oval + src + c) mod 2 ^ w =? 0)
      (overflows w (signed w oval + signed w src + c))
      (2 ^ w <=? oval + src + c).
Proof.
  intros Hw Hs Ho Hc. set (dest := (oval + src + c) mod 2 ^ w).
  assert (0 <= dest < 2 ^ w) as Hd by (apply Z.mod_pos_bound; destruct Hw; subst; done).
  assert (xorb (xorb (Z.testbit src (w - 4)) (Z.testbit dest (w - 4)))
            (Z.testbit oval (w - 4)) =
          (2 ^ (w - 4) <=? oval mod 2 ^ (w - 4) + src mod 2 ^ (w - 4) + c)) as Hh.
  { unfold dest. rewrite Z.mod_pow2_bits_low by lia.
    rewrite (Z.add_comm oval src), carry_into by (destruct Hw; lia).
    f_equal. lia. }
  pose proof (testbit_top w src ltac:(destruct Hw; lia) Hs) as Ts.
  pose proof (testbit_top w oval ltac:(destruct Hw; lia) Ho) as To.
  pose proof (testbit_top w dest ltac:(destruct Hw; lia) Hd) as Td.
  unfold setHNZVC, pack_flags. rewrite setNZ_pack by done. flag_bits w.
  rewrite Hh, Ts, To, Td. clear Hh Ts To Td.
  f_equal; [f_equal; f_equal; f_equal; f_equal|f_equal];
    unfold overflows, signed, dest in *; destruct Hw as [-> | ->];
    simpl (2 ^ _) in *;
    repeat match goal with
    | |- context [?a <=? ?b] => destruct (Z.leb_spec a b)
    | |- context [?a <? ?b] => destruct (Z.ltb_spec a b)
    end; simpl; try done; exfalso; Z.div_mod_to_equations; lia.
Qed.

(** [dest = oval - src - c] ([c] the borrow of SUBX). *)
Lemma sub_flags w src oval c ccr :
  alu_width w → 0 <= src < 2 ^ w → 0 <= oval < 2 ^ w → 0 <= c <= 1 →
  setHNZVC true w src oval ((oval - src - c) mod 2 ^ w) ccr =
    pack_flags ccr
      (oval mod 2 ^ (w - 4) <? src mod 2 ^ (w - 4) + c)
      (2 ^ (w - 1) <=? (oval - src - c) mod 2 ^ w)
      ((oval - src - c) mod 2 ^ w =? 0)
      (overflows w (signed w oval - signed w src - c))
      (oval <? src + c).
Proof.
  intros Hw Hs Ho Hc. set (dest := (oval - src - c) mod 2 ^ w).
  assert (0 <= dest < 2 ^ w) as Hd by (apply Z.mod_pos_bound; destruct Hw; subst; done).
  assert (xorb (xorb (Z.testbit src (w - 4)) (Z.testbit dest (w - 4)))
            (Z.testbit oval (w - 4)) =
          (oval mod 2 ^ (w - 4) <? src mod 2 ^ (w - 4) + c)) as Hh.
  { rewrite <- (Z.mod_small oval (2 ^ w)) at 1 by done.
    replace (oval mod 2 ^ w) with ((src + dest + c) mod 2 ^ w).
    2: { unfold dest. rewrite (Z.add_comm src), <- Z.add_assoc, Zplus_mod_idemp_l.
         f_equal. lia. }
    rewrite Z.mod_pow2_bits_low by lia.
    rewrite (xorb_comm (Z.testbit src _)), xorb_assoc,
      (xorb_comm (Z.testbit src _)), <- xorb_assoc.
    rewrite (Z.add_comm src), carry_into by (destruct Hw; lia).
    unfold dest. destruct Hw as [-> | ->]; simpl (2 ^ _);
    match goal with
    | |- (?a <=? ?b) = (?x <? ?y) => destruct (Z.leb_spec a b), (Z.ltb_spec x y)
    end; try done; exfalso; Z.div_mod_to_equations; lia. }
  pose proof (testbit_top w src ltac:(destruct Hw; lia) Hs) as Ts.
  pose proof (testbit_top w oval ltac:(destruct Hw; lia) Ho) as To.
  pose proof (testbit_top w dest ltac:(destruct Hw; lia) Hd) as Td.
  unfold setHNZVC, pack_flags. rewrite setNZ_pack by done. flag_bits w.
  rewrite Hh, Ts, To, Td. clear Hh Ts To Td.
  f_equal; [f_equal; f_equal; f_equal; f_equal|f_equal];
    unfold overflows, signed, dest in *; destruct Hw as [-> | ->];
    simpl (2 ^ _) in *;
    repeat match goal with
    | |- context [?a <=? ?b] => destruct (Z.leb_spec a b)
    | |- context [?a <? ?b] => destruct (Z.ltb_spec a b)
    end; simpl; try done; exfalso; Z.div_mod_to_equations; lia.
Qed.
