(* ===== verification/Cpu.v ===== *)
(** * Cpu: the H8/300 instruction set

    One definition per generator routine of [h8300.pl], with the routine's
    name: the C code that the routine prints for an opcode, as a computation of
    the machine monad.  [exec] is the generated [switch]. The register file
    [reg] holds the high bytes R0H..R7H at 0..7 and the low bytes at 8..15. *)
From S2P Require Export Alu.

Definition BP_EXEC : Z := 0x0101.
Definition BP_READ : Z := 0x0808.
Definition BP_WRITE : Z := 0x0404.
Definition TRAP_EXCEPTION : Z := 5.
Definition ILLOPC_EXCEPTION : Z := 4.

Section Cpu.
Context {P : Type} `{!Board P}.

(** ** Registers, and the access macros of [h8300.c] *)
Definition get_pc : M P Z := gets pc.
Definition put_pc (v : Z) : M P unit := modify (set_pc (u16 v)).
Definition get_ccr : M P Z := gets ccr.
Definition put_ccr (v : Z) : M P unit := modify (set_ccr (u8 v)).
Definition reg8 (i : Z) : M P Z := gets (λ m, reg m !!! Z.to_nat i).
Definition set_reg8 (i v : Z) : M P unit :=
  modify (λ m, set_reg (<[Z.to_nat i := u8 v]> (reg m)) m).
Definition GET_REG16 (nr : Z) : M P Z :=
  hi ← reg8 nr; lo ← reg8 (nr + 8); mret ((hi <<! 8) |! lo).
Definition SET_REG16 (nr v : Z) : M P unit :=
  _ ← set_reg8 nr (v >>! 8); set_reg8 (nr + 8) (v &! 0xff).

(** [*(uint16 * ) (memtype + addr)] *)
Definition memtype16 (addr : Z) : M P Z :=
  lo ← memtype_at addr; hi ← memtype_at (addr + 1); mret (lo |! (hi <<! 8)).

Definition GET_OPCODE : M P Z :=
  p ← get_pc;
  t ← memtype16 p;
  _ ← when (t &? BP_EXEC) (goto Ltrap);
  opc ← GET_WORD_CYCLES p;
  _ ← put_pc (p + 2);
  mret opc.
Definition READ_BYTE (addr : Z) : M P Z :=
  v ← GET_BYTE_CYCLES addr;
  t ← memtype_at addr;
  _ ← when (t &? BP_READ) (goto Ltrap);
  mret v.
Definition READ_WORD (addr : Z) : M P Z :=
  v ← GET_WORD_CYCLES addr;
  t ← memtype16 addr;
  _ ← when (t &? BP_READ) (goto Ltrap);
  mret v.
Definition WRITE_BYTE (addr v : Z) : M P unit :=
  t ← memtype_at addr;
  _ ← when (t &? BP_WRITE) (goto Ltrap);
  SET_BYTE_CYCLES addr v.
Definition WRITE_WORD (addr v : Z) : M P unit :=
  t ← memtype16 addr;
  _ ← when (t &? BP_WRITE) (goto Ltrap);
  SET_WORD_CYCLES addr v.

(** [GET_WORD_CYCLES(pc)] whose value is dropped: the prefetch. *)
Definition prefetch : M P unit := p ← get_pc; _ ← GET_WORD_CYCLES p; mret tt.
(** [GET_WORD_CYCLES(pc); pc += 2] *)
Definition fetch_word : M P Z :=
  p ← get_pc; v ← GET_WORD_CYCLES p; _ ← put_pc (p + 2); mret v.

(** ** Fragments of the generator *)
Definition getWRo (opcval : Z) : M P Z := GET_REG16 (opcval &! 0x7).
Definition getWRd (opcval : Z) : M P Z := GET_REG16 (opcval &! 0x7).
Definition getWRs (opcval : Z) : M P Z := GET_REG16 ((opcval >>! 4) &! 0x7).
Definition getBRo (opcval : Z) : M P Z := reg8 (opcval &! 0xf).
Definition getBRd (opcval : Z) : M P Z := reg8 (opcval &! 0xf).
Definition getBRs (opcval : Z) : M P Z := reg8 ((opcval >>! 4) &! 0xf).
Definition setWRd (opcval dest : Z) : M P unit := SET_REG16 (opcval &! 0x7) dest.
Definition setBRd (opcval dest : Z) : M P unit := set_reg8 (opcval &! 0xf) dest.
Definition illOpc_if (b : bool) : M P unit := when b (goto LillOpc).
Definition flags (f : Z → Z) : M P unit := c ← get_ccr; put_ccr (f c).

Definition check_pc : M P unit :=
  p ← get_pc;
  t ← memtype_at p;
  when ((p &? 1) || (t &? MEMTYPE_DIV))
    (_ ← modify (set_db_trap 10); goto Lfault).

Definition call (target : M P Z) : M P unit :=
  r7 ← GET_REG16 7;
  let sp := u16 (r7 - 2) in
  p ← get_pc;
  _ ← WRITE_WORD sp p;
  t ← target;
  _ ← put_pc t;
  _ ← check_pc;
  _ ← modify (λ m, set_board (frame_begin sp 0 m) m);
  SET_REG16 7 sp.

(** ** Misc instructions *)
Definition Nop (opcval : Z) : M P unit :=
  when (opcval =? 0)
    (p ← get_pc; w ← GET_WORD p; when (w =? 0x5470) debug_printf).
Definition Sleep : M P unit := cpu_sleep.
Definition Trap : M P unit := modify (set_db_trap TRAP_EXCEPTION).

(** ** Arithmetic instructions *)
Definition AddBI (opc opcval : Z) : M P unit :=
  let nr := (opc >>! 8) &! 0xf in
  oval ← reg8 nr;
  let src := opcval in
  let dest := u8 (oval + src) in
  _ ← flags (setHNZVC false 8 src oval dest);
  set_reg8 nr dest.
Definition AddB (opcval : Z) : M P unit :=
  oval ← getBRo opcval;
  src ← getBRs opcval;
  let dest := u8 (oval + src) in
  _ ← flags (setHNZVC false 8 src oval dest);
  setBRd opcval dest.
Definition AddW (opcval : Z) : M P unit :=
  oval ← getWRo opcval;
  src ← getWRs opcval;
  _ ← illOpc_if (opcval &? 0x88);
  let dest := u16 (oval + src) in
  _ ← flags (setHNZVC false 16 src oval dest);
  setWRd opcval dest.
Definition AddS (opcval : Z) : M P unit :=
  let nr := opcval &! 0x7 in
  _ ← illOpc_if (opcval &? 0x78);
  r ← GET_REG16 nr;
  SET_REG16 nr (r + (opcval >>! 7) + 1).
Definition AddXI (opc opcval : Z) : M P unit :=
  let nr := (opc >>! 8) &! 0xf in
  oval ← reg8 nr;
  let src := opcval in
  c ← get_ccr;
  let dest := u8 (oval + src + (c &! 1)) in
  _ ← flags (setHNZVC false 8 src oval dest);
  set_reg8 nr dest.
Definition AddX (opcval : Z) : M P unit :=
  oval ← getBRo opcval;
  src ← getBRs opcval;
  c ← get_ccr;
  let dest := u8 (oval + src + (c &! 1)) in
  _ ← flags (setHNZVC false 8 src oval dest);
  setBRd opcval dest.

Definition CmpBI (opc opcval : Z) : M P unit :=
  oval ← reg8 ((opc >>! 8) &! 0xf);
  let src := opcval in
  let dest := u8 (oval - src) in
  flags (setHNZVC true 8 src oval dest).
Definition CmpB (opcval : Z) : M P unit :=
  oval ← getBRo opcval;
  src ← getBRs opcval;
  let dest := u8 (oval - src) in
  flags (setHNZVC true 8 src oval dest).
Definition CmpW (opcval : Z) : M P unit :=
  oval ← getWRo opcval;
  src ← getWRs opcval;
  _ ← illOpc_if (opcval &? 0x88);
  let dest := u16 (oval - src) in
  flags (setHNZVC true 16 src oval dest).

Definition SubB (opcval : Z) : M P unit :=
  oval ← getBRo opcval;
  src ← getBRs opcval;
  let dest := u8 (oval - src) in
  _ ← flags (setHNZVC true 8 src oval dest);
  setBRd opcval dest.
Definition SubW (opcval : Z) : M P unit :=
  oval ← getWRo opcval;
  src ← getWRs opcval;
  _ ← illOpc_if (opcval &? 0x88);
  let dest := u16 (oval - src) in
  _ ← flags (setHNZVC true 16 src oval dest);
  setWRd opcval dest.
Definition SubS (opcval : Z) : M P unit :=
  let nr := opcval &! 0x7 in
  _ ← illOpc_if (opcval &? 0x78);
  r ← GET_REG16 nr;
  SET_REG16 nr (r - (opcval >>! 7) - 1).
(** [ccr &= pccr | ~4]: the zero flag survives only if it was set. *)
Definition keepZ (pccr ccr : Z) : Z := ccr &! (pccr |! Z.lnot 4).
Definition SubXI (opc opcval : Z) : M P unit :=
  let nr := (opc >>! 8) &! 0xf in
  oval ← reg8 nr;
  let src := opcval in
  pccr ← get_ccr;
  let dest := u8 (oval - src - (pccr &! 1)) in
  _ ← flags (setHNZVC true 8 src oval dest);
  _ ← set_reg8 nr dest;
  flags (keepZ pccr).
Definition SubX (opcval : Z) : M P unit :=
  oval ← getBRo opcval;
  src ← getBRs opcval;
  pccr ← get_ccr;
  let dest := u8 (oval - src - (pccr &! 1)) in
  _ ← flags (setHNZVC true 8 src oval dest);
  _ ← setBRd opcval dest;
  flags (keepZ pccr).

Definition Inc (opcval : Z) : M P unit :=
  dest ← getBRd opcval;
  _ ← illOpc_if (opcval &? 0xf0);
  let dest := u8 (dest + 1) in
  _ ← flags (setNZV 8 dest);
  _ ← when (dest =? 0x80) (flags (λ c, c |! 0x2));
  setBRd opcval dest.
Definition Dec (opcval : Z) : M P unit :=
  dest ← getBRd opcval;
  _ ← illOpc_if (opcval &? 0xf0);
  let dest := u8 (dest - 1) in
  _ ← flags (setNZV 8 dest);
  _ ← when (dest =? 0x7f) (flags (λ c, c |! 0x2));
  setBRd opcval dest.

(** The decimal adjustments: new [dest] and new [ccr]. *)
Definition daa_step (dest ccr : Z) : Z * Z :=
  let ccr := ccr &! 0xd1 in
  let dest := if (ccr &? 0x20) || (dest &! 0x0f >? 0x09) then u8 (dest + 6) else dest in
  let '(dest, ccr) :=
    if (ccr &? 0x01) || (dest &! 0xf0 >? 0x90)
    then (u8 (dest + 0x60), ccr |! 1) else (dest, ccr) in
  (dest, setNZV 8 dest ccr).
Definition das_step (dest ccr : Z) : Z * Z :=
  let ccr := ccr &! 0xd1 in
  let dest := if ccr &? 0x20 then u8 (dest + 0xfa) else dest in
  let dest := if ccr &? 0x01 then u8 (dest + 0xa0) else dest in
  (dest, setNZV 8 dest ccr).
Definition DAA (opcval : Z) : M P unit :=
  dest ← getBRd opcval;
  c ← get_ccr;
  let '(dest, c) := daa_step dest c in
  _ ← put_ccr c; setBRd opcval dest.
Definition DAS (opcval : Z) : M P unit :=
  dest ← getBRd opcval;
  c ← get_ccr;
  let '(dest, c) := das_step dest c in
  _ ← put_ccr c; setBRd opcval dest.

Definition MulXU (opcval : Z) : M P unit :=
  dest ← reg8 ((opcval &! 7) + 8);
  src ← getBRs opcval;
  _ ← illOpc_if (opcval &? 0x08);
  let dest := u16 (dest * src) in
  _ ← add_cycles 6;
  setWRd opcval dest.
Definition DivXU (opcval : Z) : M P unit :=
  dest ← getWRd opcval;
  src ← getBRs opcval;
  _ ← illOpc_if (opcval &? 0x08);
  _ ← flags (λ c, c &! 0xf3);
  _ ← flags (λ c, c |! ((src >>! 4) &! 0x8));
  dest ← (if negb (src =? 0)
          then mret (u16 (((dest `div` src) &! 0xff) + ((dest `mod` src) <<! 8)))
          else _ ← flags (λ c, c |! 0x4); mret dest);
  _ ← add_cycles 6;
  setWRd opcval dest.

(** ** Bit instructions

    [BitInd] and [BitAbs] reuse the text of the register forms with
    [reg[opcval & 0xf]] replaced by the variable [val]: the definitions take
    [val] and, where the code assigns it, return the new value. *)
Definition bit_at (opcval val : Z) : Z :=
  (val >>! ((opcval >>! 4) &! 7)) ^! (opcval >>! 7).
Definition BAnd (opcval val : Z) : M P unit :=
  flags (λ c, c &! (0xfe |! bit_at opcval val)).
Definition BLd (opcval val : Z) : M P unit :=
  _ ← flags (λ c, c &! 0xfe);
  flags (λ c, c |! (0x1 &! bit_at opcval val)).
Definition BOr (opcval val : Z) : M P unit :=
  flags (λ c, c |! (0x1 &! bit_at opcval val)).
Definition BXor (opcval val : Z) : M P unit :=
  flags (λ c, c ^! (0x1 &! bit_at opcval val)).
Definition BTstI (opcval val : Z) : M P unit :=
  _ ← illOpc_if (opcval &? 0x80);
  _ ← flags (λ c, c &! 0xfb);
  flags (λ c, c |! ((0x1 &! (Z.lnot val >>! (opcval >>! 4))) <<! 2)).
Definition BTst (opcval val : Z) : M P unit :=
  _ ← flags (λ c, c &! 0xfb);
  n ← reg8 (opcval >>! 4);
  flags (λ c, c |! ((0x1 &! (Z.lnot val >>! (n &! 7))) <<! 2)).

Definition BSt (opcval val : Z) : M P Z :=
  c ← get_ccr;
  mret (if (c ^! (opcval >>! 7)) &? 1
        then u8 (val |! (1 <<! ((opcval >>! 4) &! 7)))
        else u8 (val &! Z.lnot (1 <<! ((opcval >>! 4) &! 7)))).
Definition BClrI (opcval val : Z) : M P Z :=
  _ ← illOpc_if (opcval &? 0x80);
  mret (u8 (val &! Z.lnot (1 <<! (opcval >>! 4)))).
Definition BClr (opcval val : Z) : M P Z :=
  n ← reg8 (opcval >>! 4);
  mret (u8 (val &! Z.lnot (1 <<! (n &! 7)))).
Definition BSetI (opcval val : Z) : M P Z :=
  _ ← illOpc_if (opcval &? 0x80);
  mret (u8 (val |! (1 <<! (opcval >>! 4)))).
Definition BSet (opcval val : Z) : M P Z :=
  n ← reg8 (opcval >>! 4);
  mret (u8 (val |! (1 <<! (n &! 7)))).
Definition BNotI (opcval val : Z) : M P Z :=
  _ ← illOpc_if (opcval &? 0x80);
  mret (u8 (val ^! (1 <<! (opcval >>! 4)))).
Definition BNot (opcval val : Z) : M P Z :=
  n ← reg8 (opcval >>! 4);
  mret (u8 (val ^! (1 <<! (n &! 7)))).

(** The two halves of [@bitops]: opcodes that only read, and that modify. *)
Definition bitops_test (hi : Z) : option (Z → Z → M P unit) :=
  match hi with
  | 0x63 => Some BTst
  | 0x73 => Some BTstI
  | 0x74 => Some BOr
  | 0x75 => Some BXor
  | 0x76 => Some BAnd
  | 0x77 => Some BLd
  | _ => None
  end.
Definition bitops_modify (hi : Z) : option (Z → Z → M P Z) :=
  match hi with
  | 0x60 => Some BSet
  | 0x61 => Some BNot
  | 0x62 => Some BClr
  | 0x67 => Some BSt
  | 0x70 => Some BSetI
  | 0x71 => Some BNotI
  | 0x72 => Some BClrI
  | _ => None
  end.

(** The register forms: [val] is [reg[opcval & 0xf]]. *)
Definition bit_reg_test (op : Z → Z → M P unit) (opcval : Z) : M P unit :=
  val ← reg8 (opcval &! 0xf); op opcval val.
Definition bit_reg_modify (op : Z → Z → M P Z) (opcval : Z) : M P unit :=
  val ← reg8 (opcval &! 0xf);
  val ← op opcval val;
  set_reg8 (opcval &! 0xf) val.

(** The second opcode of [BitAbs] and [BitInd] applied to a memory byte. *)
Definition bit_mem_op (nr hi opcval addr val : Z) : M P unit :=
  if nr =? 0 then
    match bitops_test hi with
    | Some op => op opcval val
    | None => goto LillOpc
    end
  else
    match bitops_modify hi with
    | Some op => val ← op opcval val; WRITE_BYTE addr val
    | None => goto LillOpc
    end.
(** [(uint16) (int8) opcval]: the 8-bit absolute addresses 0xff00..0xffff
    (and 0x0000..0x007f). *)
Definition abs8 (opcval : Z) : Z := u16 (s8 opcval).
Definition BitAbs (nr opcval : Z) : M P unit :=
  let addr := abs8 opcval in
  val ← READ_BYTE addr;
  opc ← GET_OPCODE;
  bit_mem_op nr (opc >>! 8) (opc &! 0xff) addr val.
Definition BitInd (nr opcval : Z) : M P unit :=
  _ ← illOpc_if (opcval &? 0x8f);
  addr ← GET_REG16 (opcval >>! 4);
  val ← READ_BYTE addr;
  opc ← GET_OPCODE;
  _ ← illOpc_if ((opc &! 0xff) &? 0x0f);
  bit_mem_op nr (opc >>! 8) (opc &! 0xff) addr val.

(** ** Branch instructions *)

(** The conditions of the sixteen branches, by the low digit of the opcode. *)
Definition branch_taken (cond ccr : Z) : bool :=
  match cond with
  | 0x0 => true
  | 0x1 => false
  | 0x2 => negb (ccr &? 0x5)
  | 0x3 => ccr &? 0x5
  | 0x4 => negb (ccr &? 0x1)
  | 0x5 => ccr &? 0x1
  | 0x6 => negb (ccr &? 0x4)
  | 0x7 => ccr &? 0x4
  | 0x8 => negb (ccr &? 0x2)
  | 0x9 => ccr &? 0x2
  | 0xA => negb (ccr &? 0x8)
  | 0xB => ccr &? 0x8
  | 0xC => negb (((ccr >>! 2) ^! ccr) &? 0x2)
  | 0xD => ((ccr >>! 2) ^! ccr) &? 0x2
  | 0xE => negb ((((ccr >>! 2) &! 2) ^! ccr) &? 0x6)
  | 0xF => (((ccr >>! 2) &! 2) ^! ccr) &? 0x6
  | _ => false
  end.
(** BRA .. BLE. Only BRN (condition 1) leaves the new pc unchecked. *)
Definition Branch (cond opcval : Z) : M P unit :=
  _ ← prefetch;
  c ← get_ccr;
  _ ← when (branch_taken cond c) (p ← get_pc; put_pc (p + s8 opcval));
  when (negb (cond =? 1)) check_pc.
Definition BSr (opcval : Z) : M P unit :=
  _ ← prefetch; call (p ← get_pc; mret (p + s8 opcval)).
Definition JmpRI (opcval : Z) : M P unit :=
  _ ← illOpc_if (opcval &? 0x8f);
  _ ← prefetch;
  t ← GET_REG16 (opcval >>! 4);
  _ ← put_pc t; check_pc.
Definition JmpA16 (opcval : Z) : M P unit :=
  _ ← illOpc_if (negb (opcval =? 0));
  _ ← add_cycles 2;
  p ← get_pc;
  t ← GET_WORD_CYCLES p;
  _ ← put_pc t; check_pc.
Definition JmpAA8 (opcval : Z) : M P unit :=
  _ ← prefetch;
  _ ← add_cycles 2;
  t ← READ_WORD (abs8 opcval);
  _ ← put_pc t; check_pc.
Definition JsrRI (opcval : Z) : M P unit :=
  _ ← illOpc_if (opcval &? 0x8f);
  _ ← prefetch;
  call (GET_REG16 (opcval >>! 4)).
Definition JsrA16 (opcval : Z) : M P unit :=
  _ ← illOpc_if (negb (opcval =? 0));
  addr ← fetch_word;
  _ ← add_cycles 2;
  call (mret addr).
Definition JsrAA8 (opcval : Z) : M P unit :=
  _ ← prefetch;
  call (READ_WORD (abs8 opcval)).
Definition RtS : M P unit :=
  _ ← prefetch;
  _ ← add_cycles 2;
  fp ← GET_REG16 7;
  _ ← modify (λ m, set_board (frame_end fp 0 m) m);
  t ← READ_WORD fp;
  _ ← put_pc t;
  _ ← check_pc;
  SET_REG16 7 (fp + 2).
Definition RtE : M P unit :=
  _ ← prefetch;
  _ ← add_cycles 2;
  fp ← GET_REG16 7;
  _ ← modify (λ m, set_board (frame_end (u16 (fp + 2)) 1 m) m);
  ccrword ← READ_WORD fp;
  _ ← put_ccr (ccrword >>! 8);
  t ← READ_WORD (fp + 2);
  _ ← put_pc t;
  _ ← check_pc;
  SET_REG16 7 (fp + 4).
End Cpu.
