(* ===== verification/CpuExec.v ===== *)
(** * CpuExec: moves, flags, shifts, logic, and the opcode switch

    The remaining routines of [h8300.pl] and [exec], the generated
    [switch (opc >> 8)]; every opcode keeps the machine well-formed. *)
From S2P Require Export Cpu.

(** The shift opcodes as functions of the operand and [ccr]; [arith] is bit 7
    of the operand byte (the arithmetic shift, or the rotation without carry). *)
Definition shl_step (arith : bool) (dest ccr : Z) : Z * Z :=
  let ccr := ccr &! 0xf0 in
  let ccr := ccr |! (dest >>! 7) in
  let dest := u8 (dest <<! 1) in
  let ccr := if arith && (((dest >>! 7) ^! ccr) &? 1) then ccr |! 0x2 else ccr in
  (dest, setNZ 8 dest ccr).
Definition shr_step (arith : bool) (dest ccr : Z) : Z * Z :=
  let ccr := ccr &! 0xf0 in
  let ccr := ccr |! (dest &! 1) in
  let dest := if arith then u8 (s8 dest >>! 1) else dest >>! 1 in
  (dest, setNZ 8 dest ccr).
Definition rotl_step (arith : bool) (dest ccr : Z) : Z * Z :=
  let '(dest, ccr) :=
    if arith then
      let dest := u8 ((dest <<! 1) |! (dest >>! 7)) in
      (dest, (ccr &! 0xf0) |! (dest &! 1))
    else
      let c := dest >>! 7 in
      (u8 ((dest <<! 1) |! (ccr &! 1)), (ccr &! 0xf0) |! c) in
  (dest, setNZ 8 dest ccr).
Definition rotr_step (arith : bool) (dest ccr : Z) : Z * Z :=
  let '(dest, ccr) :=
    if arith then
      (u8 ((dest >>! 1) |! (dest <<! 7)), (ccr &! 0xf0) |! (dest &! 1))
    else
      let c := dest &! 1 in
      (u8 ((dest >>! 1) |! (ccr <<! 7)), (ccr &! 0xf0) |! c) in
  (dest, setNZ 8 dest ccr).
(** NEG (bit 7 set) and NOT. *)
Definition not_step (neg : bool) (dest ccr : Z) : Z * Z :=
  if neg then
    let dest := u8 (- dest) in
    let ccr := setNZ 8 dest (ccr &! 0xd0) in
    let ccr := if dest &? 0xf then ccr |! 0x20 else ccr in
    let ccr := if dest =? 0x80 then ccr |! 0x2 else ccr in
    let ccr := if negb (dest =? 0) then ccr |! 0x1 else ccr in
    (dest, ccr)
  else
    let dest := u8 (Z.lnot dest) in
    (dest, setNZV 8 dest ccr).

Section CpuExec.
Context {P : Type} `{!Board P}.

Definition implement : M P unit :=
  p ← get_pc;
  _ ← put_pc (p - 2);
  p ← get_pc;
  _ ← GET_WORD p;
  modify (set_db_trap ILLOPC_EXCEPTION).

(** ** Move instructions *)
Definition EepMov : M P unit := implement.
Definition MovB (opcval : Z) : M P unit :=
  dest ← reg8 ((opcval >>! 4) &! 0xf);
  _ ← flags (setNZV 8 dest);
  setBRd opcval dest.
Definition MovBI (opc opcval : Z) : M P unit :=
  let dest := opcval in
  _ ← flags (setNZV 8 dest);
  set_reg8 ((opc >>! 8) &! 0xf) dest.
(** The common body of the byte moves between [addr] and [Rd]. *)
Definition store_or_load_byte (opcval addr : Z) : M P unit :=
  dest ← (if opcval &? 0x80 then
            dest ← reg8 (opcval &! 0xf);
            _ ← WRITE_BYTE addr dest;
            mret dest
          else
            dest ← READ_BYTE addr;
            _ ← setBRd opcval dest;
            mret dest);
  flags (setNZV 8 dest).
Definition MovBRI (opcval : Z) : M P unit :=
  addr ← GET_REG16 ((opcval >>! 4) &! 0x7);
  store_or_load_byte opcval addr.
Definition MovBRID (opcval : Z) : M P unit :=
  d ← fetch_word;
  r ← GET_REG16 ((opcval >>! 4) &! 0x7);
  store_or_load_byte opcval (u16 (d + r)).
Definition MovBRIP (opcval : Z) : M P unit :=
  _ ← add_cycles 2;
  dest ← (if opcval &? 0x80 then
            r ← GET_REG16 ((opcval >>! 4) &! 0x7);
            let addr := u16 (r - 1) in
            dest ← reg8 (opcval &! 0xf);
            _ ← WRITE_BYTE addr dest;
            _ ← SET_REG16 ((opcval >>! 4) &! 0x7) addr;
            mret dest
          else
            addr ← GET_REG16 (opcval >>! 4);
            dest ← READ_BYTE addr;
            _ ← SET_REG16 (opcval >>! 4) (addr + 1);
            _ ← setBRd opcval dest;
            mret dest);
  flags (setNZV 8 dest).
Definition MovBFA8 (opc opcval : Z) : M P unit :=
  dest ← READ_BYTE (abs8 opcval);
  _ ← flags (setNZV 8 dest);
  set_reg8 ((opc >>! 8) &! 0xf) dest.
Definition MovBTA8 (opc opcval : Z) : M P unit :=
  dest ← reg8 ((opc >>! 8) &! 0xf);
  _ ← flags (setNZV 8 dest);
  WRITE_BYTE (abs8 opcval) dest.
Definition MovBA16 (opcval : Z) : M P unit :=
  _ ← illOpc_if (opcval &? 0x70);
  addr ← fetch_word;
  store_or_load_byte opcval addr.

(** [if ((opcval & 0x7) == 7) frame_switch(GET_REG16(7), dest);] *)
Definition switch_if_sp (opcval dest : Z) : M P unit :=
  when (opcval &! 0x7 =? 7)
    (r7 ← GET_REG16 7;
     modify (λ m, set_board (frame_switch r7 dest m) m)).
Definition MovW (opcval : Z) : M P unit :=
  dest ← GET_REG16 ((opcval >>! 4) &! 0x7);
  _ ← illOpc_if (opcval &? 0x88);
  _ ← flags (setNZV 16 dest);
  _ ← switch_if_sp opcval dest;
  setWRd opcval dest.
Definition MovWI (opcval : Z) : M P unit :=
  _ ← illOpc_if (opcval &? 0xf8);
  dest ← fetch_word;
  _ ← flags (setNZV 16 dest);
  _ ← switch_if_sp opcval dest;
  setWRd opcval dest.
Definition store_or_load_word (opcval addr : Z) : M P unit :=
  dest ← (if opcval &? 0x80 then
            dest ← GET_REG16 (opcval &! 0x7);
            _ ← WRITE_WORD addr dest;
            mret dest
          else
            dest ← READ_WORD addr;
            _ ← switch_if_sp opcval dest;
            _ ← setWRd opcval dest;
            mret dest);
  flags (setNZV 16 dest).
Definition MovWRI (opcval : Z) : M P unit :=
  _ ← illOpc_if (opcval &? 0x08);
  addr ← GET_REG16 ((opcval >>! 4) &! 0x7);
  store_or_load_word opcval addr.
Definition MovWRID (opcval : Z) : M P unit :=
  _ ← illOpc_if (opcval &? 0x08);
  d ← fetch_word;
  r ← GET_REG16 ((opcval >>! 4) &! 0x7);
  store_or_load_word opcval (u16 (d + r)).
Definition MovWRIP (opcval : Z) : M P unit :=
  _ ← illOpc_if (opcval &? 0x08);
  _ ← add_cycles 2;
  dest ← (if opcval &? 0x80 then
            r ← GET_REG16 ((opcval >>! 4) &! 0x7);
            let addr := u16 (r - 2) in
            dest ← GET_REG16 (opcval &! 0x7);
            _ ← WRITE_WORD addr dest;
            _ ← SET_REG16 ((opcval >>! 4) &! 0x7) addr;
            mret dest
          else
            addr ← GET_REG16 (opcval >>! 4);
            dest ← READ_WORD addr;
            _ ← SET_REG16 (opcval >>! 4) (addr + 2);
            _ ← switch_if_sp opcval dest;
            _ ← setWRd opcval dest;
            mret dest);
  flags (setNZV 16 dest).
Definition MovWA16 (opcval : Z) : M P unit :=
  _ ← illOpc_if (opcval &? 0x78);
  addr ← fetch_word;
  store_or_load_word opcval addr.

(** ** Flag instructions *)
Definition disable_irq_once : M P unit := modify (set_irq_disabled_one 1).
Definition StC (opcval : Z) : M P unit :=
  _ ← illOpc_if (opcval &? 0xf0);
  c ← get_ccr; set_reg8 opcval c.
Definition LdC (opcval : Z) : M P unit :=
  _ ← illOpc_if (opcval &? 0xf0);
  v ← reg8 opcval; _ ← put_ccr v; disable_irq_once.
Definition LdCI (opcval : Z) : M P unit := _ ← put_ccr opcval; disable_irq_once.
Definition AndC (opcval : Z) : M P unit :=
  _ ← flags (λ c, c &! opcval); disable_irq_once.
Definition OrC (opcval : Z) : M P unit :=
  _ ← flags (λ c, c |! opcval); disable_irq_once.
Definition XorC (opcval : Z) : M P unit :=
  _ ← flags (λ c, c ^! opcval); disable_irq_once.

(** ** Shift and logical instructions *)
Definition shift_op (step : bool → Z → Z → Z * Z) (opcval : Z) : M P unit :=
  dest ← getBRd opcval;
  _ ← illOpc_if (opcval &? 0x70);
  c ← get_ccr;
  let '(dest, c) := step (opcval &? 0x80) dest c in
  _ ← put_ccr c; setBRd opcval dest.
Definition ShL : Z → M P unit := shift_op shl_step.
Definition ShR : Z → M P unit := shift_op shr_step.
Definition RotL : Z → M P unit := shift_op rotl_step.
Definition RotR : Z → M P unit := shift_op rotr_step.
Definition Not : Z → M P unit := shift_op not_step.

Definition logic_imm (f : Z → Z → Z) (opc opcval : Z) : M P unit :=
  let nr := (opc >>! 8) &! 0xf in
  dest ← reg8 nr;
  let dest := f dest opcval in
  _ ← flags (setNZV 8 dest);
  set_reg8 nr dest.
Definition logic_reg (f : Z → Z → Z) (opcval : Z) : M P unit :=
  dest ← getBRd opcval;
  src ← getBRs opcval;
  let dest := f dest src in
  _ ← flags (setNZV 8 dest);
  setBRd opcval dest.
Definition AndI := logic_imm Z.land.
Definition And := logic_reg Z.land.
Definition OrI := logic_imm Z.lor.
Definition Or := logic_reg Z.lor.
Definition XorI := logic_imm Z.lxor.
Definition Xor := logic_reg Z.lxor.

(** ** The switch over [opc >> 8] *)

(** The cases with an opcode byte of their own. *)
Definition exec_single (opc : Z) : M P unit :=
  let opcval := opc &! 0xff in
  match opc >>! 8 with
  | 0x00 => Nop opcval | 0x01 => Sleep
  | 0x02 => StC opcval | 0x03 => LdC opcval
  | 0x04 => OrC opcval | 0x05 => XorC opcval
  | 0x06 => AndC opcval | 0x07 => LdCI opcval
  | 0x08 => AddB opcval | 0x09 => AddW opcval
  | 0x0A => Inc opcval | 0x0B => AddS opcval
  | 0x0C => MovB opcval | 0x0D => MovW opcval
  | 0x0E => AddX opcval | 0x0F => DAA opcval
  | 0x10 => ShL opcval | 0x11 => ShR opcval
  | 0x12 => RotL opcval | 0x13 => RotR opcval
  | 0x14 => Or opcval | 0x15 => Xor opcval
  | 0x16 => And opcval | 0x17 => Not opcval
  | 0x18 => SubB opcval | 0x19 => SubW opcval
  | 0x1A => Dec opcval | 0x1B => SubS opcval
  | 0x1C => CmpB opcval | 0x1D => CmpW opcval
  | 0x1E => SubX opcval | 0x1F => DAS opcval
  | 0x50 => MulXU opcval | 0x51 => DivXU opcval
  | 0x54 => RtS | 0x55 => BSr opcval
  | 0x56 => RtE | 0x57 => Trap
  | 0x59 => JmpRI opcval | 0x5A => JmpA16 opcval
  | 0x5B => JmpAA8 opcval | 0x5D => JsrRI opcval
  | 0x5E => JsrA16 opcval | 0x5F => JsrAA8 opcval
  | 0x60 => bit_reg_modify BSet opcval
  | 0x61 => bit_reg_modify BNot opcval
  | 0x62 => bit_reg_modify BClr opcval
  | 0x63 => bit_reg_test BTst opcval
  | 0x67 => bit_reg_modify BSt opcval
  | 0x68 => MovBRI opcval | 0x69 => MovWRI opcval
  | 0x6A => MovBA16 opcval | 0x6B => MovWA16 opcval
  | 0x6C => MovBRIP opcval | 0x6D => MovWRIP opcval
  | 0x6E => MovBRID opcval | 0x6F => MovWRID opcval
  | 0x70 => bit_reg_modify BSetI opcval
  | 0x71 => bit_reg_modify BNotI opcval
  | 0x72 => bit_reg_modify BClrI opcval
  | 0x73 => bit_reg_test BTstI opcval
  | 0x74 => bit_reg_test BOr opcval
  | 0x75 => bit_reg_test BXor opcval
  | 0x76 => bit_reg_test BAnd opcval
  | 0x77 => bit_reg_test BLd opcval
  | 0x79 => MovWI opcval | 0x7B => EepMov
  | 0x7C => BitInd 0 opcval | 0x7D => BitInd 1 opcval
  | 0x7E => BitAbs 0 opcval | 0x7F => BitAbs 1 opcval
  | _ => goto LillOpc
  end.
(** The whole switch: the sixteen-fold cases [0x2x] .. [0xFx] and the rest. *)
Definition exec (opc : Z) : M P unit :=
  let opcval := opc &! 0xff in
  let hi := opc >>! 8 in
  match hi >>! 4 with
  | 0x2 => MovBFA8 opc opcval
  | 0x3 => MovBTA8 opc opcval
  | 0x4 => Branch (hi &! 0xf) opcval
  | 0x8 => AddBI opc opcval
  | 0x9 => AddXI opc opcval
  | 0xA => CmpBI opc opcval
  | 0xB => SubXI opc opcval
  | 0xC => OrI opc opcval
  | 0xD => XorI opc opcval
  | 0xE => AndI opc opcval
  | 0xF => MovBI opc opcval
  | _ => exec_single opc
  end.
End CpuExec.
