(* ===== verification/CpuOk.v ===== *)
(** * CpuOk: every opcode keeps the machine well-formed

    Type safety of the interpreter: from a machine whose registers, flags and
    memory cells have their C ranges, [exec] reaches only such machines, on
    every path and through every label, for every board that keeps its own
    promises. *)
From S2P Require Export CpuExec.

Section CpuOk.
Context {P : Type} `{BoardOk P}.

Lemma keeps_reg8 i : keeps byte (reg8 i).
Proof. apply keeps_gets. intros. apply wf_reg_at. done. Qed.

Lemma keeps_set_reg8 i v : keeps (λ _, True) (set_reg8 i v).
Proof.
  apply keeps_modify. intros m []. constructor; simpl; try done.
  - rewrite length_insert. done.
  - apply Forall_insert; auto with width.
Qed.

Lemma keeps_get_pc : keeps word get_pc.
Proof. apply keeps_gets. intros ? []. done. Qed.
Lemma keeps_put_pc v : keeps (λ _, True) (put_pc v).
Proof. apply keeps_modify. intros ? []. constructor; simpl; auto with width. Qed.
Lemma keeps_get_ccr : keeps byte get_ccr.
Proof. apply keeps_gets. intros ? []. done. Qed.
Lemma keeps_put_ccr v : keeps (λ _, True) (put_ccr v).
Proof. apply keeps_modify. intros ? []. constructor; simpl; auto with width. Qed.
Lemma keeps_set_db_trap v : keeps (λ _, True) (modify (set_db_trap v)).
Proof. apply keeps_modify. intros ? []. constructor; done. Qed.
Lemma keeps_disable_irq_once : keeps (λ _, True) disable_irq_once.
Proof. apply keeps_modify. intros ? []. constructor; done. Qed.
Lemma keeps_set_board f :
  (∀ m, wf m → board_ok (f m)) →
  keeps (λ _, True) (modify (λ m, set_board (f m) m)).
Proof.
  intros Hf. apply keeps_modify. intros m Hm. specialize (Hf m Hm).
  destruct Hm. constructor; done.
Qed.
Lemma keeps_frame_begin fp i :
  keeps (λ _, True) (modify (λ m, set_board (frame_begin fp i m) m)).
Proof. apply keeps_set_board. auto using frame_begin_ok. Qed.
Lemma keeps_frame_end fp i :
  keeps (λ _, True) (modify (λ m, set_board (frame_end fp i m) m)).
Proof. apply keeps_set_board. auto using frame_end_ok. Qed.
Lemma keeps_frame_switch a b :
  keeps (λ _, True) (modify (λ m, set_board (frame_switch a b m) m)).
Proof. apply keeps_set_board. auto using frame_switch_ok. Qed.
End CpuOk.
#[export] Hint Resolve keeps_reg8 keeps_set_reg8 keeps_get_pc keeps_put_pc
  keeps_get_ccr keeps_put_ccr keeps_set_db_trap keeps_disable_irq_once
  keeps_frame_begin keeps_frame_end keeps_frame_switch cpu_sleep_ok
  debug_printf_ok periph_handletrap_ok : keeps.

(** Decompose code whose intermediate values need no property. *)
Ltac code_step :=
  match goal with
  | |- keeps _ (mbind _ _) =>
      first [ eapply keeps_bind; [solve [eauto 3 with keeps]|intros ? ?]
            | apply (keeps_bind (λ _, True)); [|intros ? ?] ]
  | |- keeps _ (if _ then _ else _) => apply keeps_if
  | |- keeps _ (when _ _) => apply keeps_when
  | |- keeps _ (mret _) => apply keeps_ret; done
  | |- keeps _ (let '(_, _) := ?x in _) => destruct x
  | |- keeps _ (match ?x with Some _ => _ | None => _ end) =>
      let E := fresh "E" in destruct x eqn:E
  | |- keeps (λ _, True) _ =>
      first [ solve [eauto 3 with keeps]
            | eapply keeps_weaken; [solve [eauto 3 with keeps]|done] ]
  end.
Ltac code_auto := repeat (code_step; cbn zeta).

Section CpuOk2.
Context {P : Type} `{BoardOk P}.
Abbreviation ok c := (keeps (λ _, True) c).

Lemma keeps_GET_REG16 nr : keeps word (GET_REG16 nr).
Proof. unfold GET_REG16. keeps_auto. apply word_join; done. Qed.
Lemma keeps_SET_REG16 nr v : ok (SET_REG16 nr v).
Proof. unfold SET_REG16. code_auto. Qed.
Lemma keeps_memtype16 a : keeps (λ _, True) (memtype16 a).
Proof. unfold memtype16. code_auto. Qed.
Local Hint Resolve keeps_GET_REG16 keeps_SET_REG16 keeps_memtype16 : keeps.

Lemma keeps_flags f : ok (flags f).
Proof. unfold flags. code_auto. Qed.
Lemma keeps_illOpc_if b : ok (illOpc_if b).
Proof. unfold illOpc_if. code_auto. Qed.
Lemma keeps_GET_OPCODE : ok GET_OPCODE.
Proof. unfold GET_OPCODE. code_auto. Qed.
Lemma keeps_READ_BYTE a : ok (READ_BYTE a).
Proof. unfold READ_BYTE. code_auto. Qed.
Lemma keeps_READ_WORD a : ok (READ_WORD a).
Proof. unfold READ_WORD. code_auto. Qed.
Lemma keeps_WRITE_BYTE a v : ok (WRITE_BYTE a v).
Proof. unfold WRITE_BYTE. code_auto. Qed.
Lemma keeps_WRITE_WORD a v : ok (WRITE_WORD a v).
Proof. unfold WRITE_WORD. code_auto. Qed.
Lemma keeps_prefetch : ok prefetch.
Proof. unfold prefetch. code_auto. Qed.
Lemma keeps_fetch_word : ok fetch_word.
Proof. unfold fetch_word. code_auto. Qed.
Lemma keeps_check_pc : ok check_pc.
Proof. unfold check_pc. code_auto. Qed.
Local Hint Resolve keeps_flags keeps_illOpc_if keeps_GET_OPCODE keeps_READ_BYTE
  keeps_READ_WORD keeps_WRITE_BYTE keeps_WRITE_WORD keeps_prefetch
  keeps_fetch_word keeps_check_pc : keeps.

Lemma keeps_call t : ok t → ok (call t).
Proof. intros. unfold call. code_auto. Qed.
Lemma keeps_switch_if_sp a b : ok (switch_if_sp a b).
Proof. unfold switch_if_sp. code_auto. Qed.
Local Hint Resolve keeps_call keeps_switch_if_sp : keeps.

Lemma keeps_bitops_test hi op a b : bitops_test hi = Some op → ok (op a b).
Proof.
  unfold bitops_test. intros Ho.
  repeat case_match; simplify_eq; unfold BTst, BTstI, BOr, BXor, BAnd, BLd; code_auto.
Qed.
Lemma keeps_bitops_modify hi op a b : bitops_modify hi = Some op → ok (op a b).
Proof.
  unfold bitops_modify. intros Ho.
  repeat case_match; simplify_eq;
    unfold BSet, BNot, BClr, BSt, BSetI, BNotI, BClrI; code_auto.
Qed.
Local Hint Resolve keeps_bitops_test keeps_bitops_modify : keeps.
Lemma keeps_bit_mem_op nr hi a b c : ok (bit_mem_op nr hi a b c).
Proof. unfold bit_mem_op. code_auto. Qed.
Lemma keeps_bit_reg_test hi op a :
  bitops_test hi = Some op → ok (bit_reg_test op a).
Proof. intros. unfold bit_reg_test. code_auto. Qed.
Lemma keeps_bit_reg_modify hi op a :
  bitops_modify hi = Some op → ok (bit_reg_modify op a).
Proof. intros. unfold bit_reg_modify. code_auto. Qed.
Lemma keeps_store_or_load_byte a b : ok (store_or_load_byte a b).
Proof. unfold store_or_load_byte, setBRd. code_auto. Qed.
Lemma keeps_store_or_load_word a b : ok (store_or_load_word a b).
Proof. unfold store_or_load_word, setWRd. code_auto. Qed.
Local Hint Resolve keeps_bit_mem_op keeps_store_or_load_byte
  keeps_store_or_load_word : keeps.

Ltac unfold_opcode :=
  unfold getWRo, getWRd, getWRs, getBRo, getBRd, getBRs, setWRd, setBRd in *.
Ltac opcode :=
  unfold_opcode; code_auto;
  try (match goal with |- keeps _ (call _) => apply keeps_call end; code_auto).

Lemma keeps_shift_op f a : ok (shift_op f a).
Proof. unfold shift_op. opcode. Qed.
Lemma keeps_logic_imm f a b : ok (logic_imm f a b).
Proof. unfold logic_imm. opcode. Qed.
Lemma keeps_logic_reg f a : ok (logic_reg f a).
Proof. unfold logic_reg. opcode. Qed.
Lemma keeps_DAA a : ok (DAA a).
Proof. unfold DAA. opcode. Qed.
Lemma keeps_DAS a : ok (DAS a).
Proof. unfold DAS. opcode. Qed.
Lemma keeps_DivXU a : ok (DivXU a).
Proof. unfold DivXU. opcode. Qed.
Local Hint Resolve keeps_shift_op keeps_logic_imm keeps_logic_reg keeps_DAA
  keeps_DAS keeps_DivXU : keeps.

Ltac bit_op lem hs :=
  match hs with
  | (?hs', ?h) => first [solve [eapply (lem h); reflexivity] | bit_op lem hs']
  | ?h => solve [eapply (lem h); reflexivity]
  end.
Local Hint Extern 2 (keeps _ (bit_reg_test _ _)) =>
  bit_op keeps_bit_reg_test (0x63, 0x73, 0x74, 0x75, 0x76, 0x77) : keeps.
Local Hint Extern 2 (keeps _ (bit_reg_modify _ _)) =>
  bit_op keeps_bit_reg_modify (0x60, 0x61, 0x62, 0x67, 0x70, 0x71, 0x72) : keeps.

Ltac split_opcode :=
  repeat match goal with
  | |- keeps _ (match ?x with _ => _ end) =>
      lazymatch type of x with Z => destruct x | positive => destruct x end
  end.
Ltac solve_opcode :=
  first [ solve [eauto 2 with keeps]
        | match goal with |- keeps _ ?c => let h := get_head c in unfold h end; opcode ].

Lemma keeps_implement : ok implement.
Proof. unfold implement. code_auto. Qed.
Local Hint Resolve keeps_implement : keeps.

Lemma keeps_exec_single opc : ok (exec_single opc).
Proof. unfold exec_single. cbv zeta. split_opcode; solve_opcode. Qed.
Local Hint Resolve keeps_exec_single : keeps.

(** [exec] never leaves the well-formed machines. *)
Lemma keeps_exec opc : ok (exec opc).
Proof. unfold exec. cbv zeta. split_opcode; solve_opcode. Qed.
End CpuOk2.
