(* ===== verification/CpuSym.v ===== *)
(** * CpuSym: symbolic execution of the access primitives

    On addresses without side effects an access is a plain array access that
    costs a known number of cycles.  These equations drive the proofs about
    whole instruction sequences. *)
From S2P Require Export CpuOk.

(** ** Register pairs *)
Section Regs.
Context {P : Type}.
Implicit Types m : machine P.

Definition reg16 (m : machine P) (nr : Z) : Z :=
  ((reg m !!! Z.to_nat nr) <<! 8) |! (reg m !!! Z.to_nat (nr + 8)).
Definition put_reg16 (nr v : Z) (m : machine P) : machine P :=
  set_reg (<[Z.to_nat (nr + 8) := u8 (v &! 0xff)]>
            (<[Z.to_nat nr := u8 (v >>! 8)]> (reg m))) m.
Definition tick (n : Z) (m : machine P) : machine P :=
  set_clk (set_cycles (u64 (cycles (clk m) + n)) (clk m)) m.
Definition word_at (m : machine P) (a : Z) : Z :=
  (get0 (memory m) a <<! 8) |! get0 (memory m) (a + 1).
Definition put_word (a v : Z) (m : machine P) : machine P :=
  set_memory (<[a + 1 := v &! 0xff]> (<[a := v >>! 8]> (memory m))) m.
Lemma word_at_memory m m' a : memory m = memory m' → word_at m a = word_at m' a.
Proof. unfold word_at. intros ->. done. Qed.
Lemma reg16_reg m m' nr : reg m = reg m' → reg16 m nr = reg16 m' nr.
Proof. unfold reg16. intros ->. done. Qed.
(** The cost of a byte ([sh] = 6) or word ([sh] = 4) access. *)
Definition access_cost (sh : Z) (m : machine P) (a : Z) : Z :=
  2 + ((Z.lnot (get0 (memtype m) a) &! MEMTYPE_FAST) >>! sh).

Lemma machine_eta m :
  m = Machine (reg m) (pc m) (ccr m) (memory m) (memtype m) (clk m)
        (irq_disabled_one m) (db_trap m) (db_singlestep m) (db_singlestep_pc m)
        (db_singlestep_memtype m) (oldpc m) (wait_states m) (opcstat m) (board m).
Proof. destruct m. done. Qed.

(** Two machines that differ in the clock and the board only. *)
Lemma machine_ext m m' :
  reg m' = reg m → pc m' = pc m → ccr m' = ccr m → memory m' = memory m →
  memtype m' = memtype m → irq_disabled_one m' = irq_disabled_one m →
  db_trap m' = db_trap m → db_singlestep m' = db_singlestep m →
  db_singlestep_pc m' = db_singlestep_pc m →
  db_singlestep_memtype m' = db_singlestep_memtype m → oldpc m' = oldpc m →
  wait_states m' = wait_states m → opcstat m' = opcstat m →
  m' = set_clk (clk m') (set_board (board m') m).
Proof. destruct m, m'. simpl. intros; subst; done. Qed.

(** Each of the updates leaves the other fields alone. *)
Lemma reg_tick n m : reg (tick n m) = reg m.
Proof. done. Qed.
Lemma pc_tick n m : pc (tick n m) = pc m.
Proof. done. Qed.
Lemma ccr_tick n m : ccr (tick n m) = ccr m.
Proof. done. Qed.
Lemma memory_tick n m : memory (tick n m) = memory m.
Proof. done. Qed.
Lemma memtype_tick n m : memtype (tick n m) = memtype m.
Proof. done. Qed.
Lemma board_tick n m : board (tick n m) = board m.
Proof. done. Qed.
Lemma db_trap_tick n m : db_trap (tick n m) = db_trap m.
Proof. done. Qed.
Lemma irq_disabled_one_tick n m : irq_disabled_one (tick n m) = irq_disabled_one m.
Proof. done. Qed.
Lemma reg_put_word a v m : reg (put_word a v m) = reg m.
Proof. done. Qed.
Lemma pc_put_word a v m : pc (put_word a v m) = pc m.
Proof. done. Qed.
Lemma ccr_put_word a v m : ccr (put_word a v m) = ccr m.
Proof. done. Qed.
Lemma memtype_put_word a v m : memtype (put_word a v m) = memtype m.
Proof. done. Qed.
Lemma clk_put_word a v m : clk (put_word a v m) = clk m.
Proof. done. Qed.
Lemma board_put_word a v m : board (put_word a v m) = board m.
Proof. done. Qed.
Lemma db_trap_put_word a v m : db_trap (put_word a v m) = db_trap m.
Proof. done. Qed.
Lemma irq_disabled_one_put_word a v m : irq_disabled_one (put_word a v m) = irq_disabled_one m.
Proof. done. Qed.
Lemma pc_put_reg16 nr v m : pc (put_reg16 nr v m) = pc m.
Proof. done. Qed.
Lemma ccr_put_reg16 nr v m : ccr (put_reg16 nr v m) = ccr m.
Proof. done. Qed.
Lemma memory_put_reg16 nr v m : memory (put_reg16 nr v m) = memory m.
Proof. done. Qed.
Lemma memtype_put_reg16 nr v m : memtype (put_reg16 nr v m) = memtype m.
Proof. done. Qed.
Lemma clk_put_reg16 nr v m : clk (put_reg16 nr v m) = clk m.
Proof. done. Qed.
Lemma board_put_reg16 nr v m : board (put_reg16 nr v m) = board m.
Proof. done. Qed.
Lemma db_trap_put_reg16 nr v m : db_trap (put_reg16 nr v m) = db_trap m.
Proof. done. Qed.
Lemma irq_disabled_one_put_reg16 nr v m : irq_disabled_one (put_reg16 nr v m) = irq_disabled_one m.
Proof. done. Qed.

Lemma reg16_word `{!BoardInv P} m nr : wf m → word (reg16 m nr).
Proof. intros Hm. apply word_join; apply wf_reg_at; done. Qed.

Lemma reg16_put m nr v :
  length (reg m) = 16%nat → 0 <= nr < 8 → word v → reg16 (put_reg16 nr v m) nr = v.
Proof.
  intros Hl Hn Hv. unfold reg16, put_reg16. simpl reg.
  rewrite list_lookup_total_insert_eq by (rewrite length_insert; lia).
  rewrite list_lookup_total_insert_ne by lia.
  rewrite list_lookup_total_insert_eq by lia.
  rewrite !u8_id by auto with width. apply join_split. done.
Qed.

(** Writing back the value a pair holds changes nothing. *)
Lemma put_reg16_id `{!BoardInv P} m nr :
  wf m → 0 <= nr < 8 → put_reg16 nr (reg16 m nr) m = m.
Proof.
  intros Hm Hn. unfold put_reg16, reg16.
  pose proof (wf_reg_at m (Z.to_nat nr) Hm) as Hh.
  pose proof (wf_reg_at m (Z.to_nat (nr + 8)) Hm) as Hl.
  assert (u8 (Z.land (Z.lor (Z.shiftl (reg m !!! Z.to_nat nr) 8)
            (reg m !!! Z.to_nat (nr + 8))) 255) = reg m !!! Z.to_nat (nr + 8)) as ->.
  { rewrite join_bytes, land_255 by done. width_lia. }
  assert (u8 (Z.shiftr (Z.lor (Z.shiftl (reg m !!! Z.to_nat nr) 8)
            (reg m !!! Z.to_nat (nr + 8))) 8) = reg m !!! Z.to_nat nr) as ->.
  { rewrite join_bytes, Z.shiftr_div_pow2 by (done || lia). width_lia. }
  assert (Hlen := wf_reg_length m Hm).
  rewrite (list_insert_id (reg m) (Z.to_nat nr)), list_insert_id;
    [destruct m; done| |]; apply list_lookup_lookup_total_lt; lia.
Qed.

Lemma put_reg16_twice nr v w m :
  0 <= nr < 8 → put_reg16 nr v (put_reg16 nr w m) = put_reg16 nr v m.
Proof.
  intros Hn. unfold put_reg16. simpl. unfold set_reg. f_equal. simpl.
  rewrite (list_insert_insert_ne (<[Z.to_nat nr := _]> (reg m)) (Z.to_nat nr)) by lia.
  rewrite !list_insert_insert_eq. done.
Qed.
End Regs.
Create Rewrite HintDb fields.
#[export] Hint Rewrite @reg_tick
  @pc_tick
  @ccr_tick
  @memory_tick
  @memtype_tick
  @board_tick
  @db_trap_tick
  @irq_disabled_one_tick
  @reg_put_word
  @pc_put_word
  @ccr_put_word
  @memtype_put_word
  @clk_put_word
  @board_put_word
  @db_trap_put_word
  @irq_disabled_one_put_word
  @pc_put_reg16
  @ccr_put_reg16
  @memory_put_reg16
  @memtype_put_reg16
  @clk_put_reg16
  @board_put_reg16
  @db_trap_put_reg16
  @irq_disabled_one_put_reg16 : fields.
Ltac fields := autorewrite with fields; simpl reg; simpl pc; simpl ccr;
  simpl memory; simpl memtype; simpl clk; simpl board.

(** ** Addresses without side effects *)
Section Plain.
Context {P : Type}.
Implicit Types m : machine P.

Definition readable m (a : Z) : Prop :=
  word a ∧ (get0 (memtype m) a &? MEMTYPE_DIV) = false
         ∧ (get0 (memtype m) a &? MEMTYPE_READTRAP) = false.
Definition writable m (a : Z) : Prop :=
  word a ∧ (get0 (memtype m) a &? MEMTYPE_DIV) = false
         ∧ (get0 (memtype m) a &? MEMTYPE_MOTOR) = false
         ∧ (get0 (memtype m) a &? MEMTYPE_WRITETRAP) = false.
(** Both bytes of the aligned word at [a]. *)
Definition readable16 m a := Z.even a = true ∧ readable m a ∧ readable m (a + 1).
Definition writable16 m a := writable m a ∧ writable m (a + 1).
(** [check_pc] accepts [a]. *)
Definition executable m (a : Z) : Prop :=
  word a ∧ Z.even a = true ∧ (get0 (memtype m) a &? MEMTYPE_DIV) = false.
End Plain.

Lemma even_land1 a : Z.even a = true → (a &? 1) = false.
Proof.
  intros He. change 1 with (Z.ones 1). rewrite Z.land_ones by lia.
  rewrite Zmod_even, He. done.
Qed.

Lemma pair_mask lo hi mask :
  mask ∈ [MEMTYPE_BREAKPOINT; MEMTYPE_WRITETRAP; MEMTYPE_READTRAP] →
  byte lo → byte hi →
  ((lo |! (hi <<! 8)) &? (mask * 257)) = (lo &? mask) || (hi &? mask).
Proof.
  intros Hm Hl Hh. apply eqb_prop.
  assert (∀ mask, mask ∈ [MEMTYPE_BREAKPOINT; MEMTYPE_WRITETRAP; MEMTYPE_READTRAP] →
    forallb (λ lo, forallb (λ hi,
      eqb ((lo |! (hi <<! 8)) &? (mask * 257)) ((lo &? mask) || (hi &? mask)))
      bytes_all) bytes_all = true) as Hall.
  { intros mask' Hin. apply list_elem_of_In in Hin.
    destruct Hin as [<-|[<-|[<-|[]]]]; vm_compute; reflexivity. }
  apply (forall_byte2 (λ lo hi,
    eqb ((lo |! (hi <<! 8)) &? (mask * 257)) ((lo &? mask) || (hi &? mask)))
    (Hall mask Hm)); done.
Qed.

Section Sym.
Context {P : Type} `{!Board P, !BoardInv P}.
Implicit Types m : machine P.

Lemma in_array_word a : word a → in_array a = true.
Proof. unfold word, in_array. lia. Qed.

Lemma run_GET_REG16 m nr : GET_REG16 nr m = Done (reg16 m nr) m.
Proof. done. Qed.
Lemma run_SET_REG16 m nr v : SET_REG16 nr v m = Done tt (put_reg16 nr v m).
Proof. done. Qed.

Lemma run_memory_at m a : word a → memory_at a m = Done (get0 (memory m) a) m.
Proof. intros. unfold memory_at. rewrite in_array_word by done. done. Qed.
Lemma run_memtype_at m a : word a → memtype_at a m = Done (get0 (memtype m) a) m.
Proof. intros. unfold memtype_at. rewrite in_array_word by done. done. Qed.

Lemma run_access_cycles m sh a :
  word a → access_cycles sh a m = Done tt (tick (access_cost sh m a) m).
Proof.
  intros Ha. unfold access_cycles, mbind, M_bind.
  rewrite u16_id, run_memtype_at by done. done.
Qed.

(** Reading a word: no trap is taken, only the clock moves. *)
Lemma run_GET_WORD_CYCLES m a :
  word (a + 1) → executable m a →
  GET_WORD_CYCLES a m = Done (word_at m a) (tick (access_cost 4 m a) m).
Proof.
  intros Hw1 (Hw & He & Hd). unfold GET_WORD_CYCLES, GET_WORD.
  unfold mbind, M_bind. rewrite run_access_cycles by done.
  rewrite u16_id by done. rewrite run_memtype_at by done. fields.
  rewrite Hd, even_land1 by done. simpl.
  unfold memory_word, mbind, M_bind. rewrite !run_memory_at by done. done.
Qed.

Lemma run_memtype16 m a :
  word a → word (a + 1) →
  memtype16 a m =
    Done (get0 (memtype m) a |! (get0 (memtype m) (a + 1) <<! 8)) m.
Proof.
  intros. unfold memtype16, mbind, M_bind. rewrite !run_memtype_at by done. done.
Qed.

Lemma readable16_executable m a : readable16 m a → executable m a ∧ word (a + 1).
Proof. unfold readable16, readable, executable. tauto. Qed.

Lemma run_READ_WORD m a :
  bytes_map (memtype m) → readable16 m a →
  READ_WORD a m = Done (word_at m a) (tick (access_cost 4 m a) m).
Proof.
  intros Hm Hr. destruct (readable16_executable m a Hr) as [Hx Hw].
  destruct Hr as (_ & (Hw0 & _ & Hb0) & (_ & _ & Hb1)).
  unfold READ_WORD. unfold mbind at 1, M_bind at 1.
  rewrite run_GET_WORD_CYCLES by done.
  unfold mbind at 1, M_bind at 1. rewrite run_memtype16 by done. fields.
  change BP_READ with (MEMTYPE_READTRAP * 257).
  rewrite pair_mask, Hb0, Hb1; [done|set_solver| |];
    apply get0_byte, Hm.
Qed.

Lemma run_SET_WORD_CYCLES m a v :
  word v → writable m a → word (a + 1) →
  SET_WORD_CYCLES a v m = Done tt (put_word a v (tick (access_cost 4 m a) m)).
Proof.
  intros Hv (Hw0 & Hd & Hmo & _) Hw1.
  unfold SET_WORD_CYCLES, mbind, M_bind.
  rewrite run_access_cycles by done. unfold SET_WORD, mbind, M_bind.
  rewrite !u16_id by done. rewrite run_memtype_at by done. fields.
  rewrite Hd, Hmo. unfold memory_store. rewrite !in_array_word by done. done.
Qed.

Lemma run_WRITE_WORD m a v :
  bytes_map (memtype m) → word v → writable16 m a →
  WRITE_WORD a v m = Done tt (put_word a v (tick (access_cost 4 m a) m)).
Proof.
  intros Hm Hv ((Hw0 & Hd & Hmo & Hb0) & (Hw1 & _ & _ & Hb1)).
  unfold WRITE_WORD. unfold mbind at 1, M_bind at 1.
  rewrite run_memtype16 by done.
  change BP_WRITE with (MEMTYPE_WRITETRAP * 257).
  rewrite pair_mask, Hb0, Hb1; [|set_solver|apply get0_byte, Hm..].
  simpl orb. unfold when, mbind, M_bind, mret, M_ret.
  apply run_SET_WORD_CYCLES; done.
Qed.

Lemma run_check_pc m : executable m (pc m) → check_pc m = Done tt m.
Proof.
  intros (Hw & He & Hd). unfold check_pc, mbind, M_bind, get_pc, gets.
  rewrite run_memtype_at by done. rewrite even_land1, Hd by done. done.
Qed.

Lemma word_at_put_word m a v : word v → word_at (put_word a v m) a = v.
Proof.
  intros. unfold word_at, put_word. simpl.
  rewrite get0_insert_eq, get0_insert_ne, get0_insert_eq by lia.
  apply join_split. done.
Qed.
End Sym.
