(* ===== verification/CpuProps.v ===== *)
(** * CpuProps: what the instructions compute

    Functional properties of the opcodes of [h8300.pl]. *)
From S2P Require Export CpuSym.

(** ** Calls and returns *)
Section Calls.
Context {P : Type} `{BoardOk P}.

(** A subroutine call whose return address lands on plain stack memory,
    followed at once by RTS. *)
Lemma run_call m t :
  wf m → let sp := reg16 m 7 - 2 in
  0 <= sp → writable16 m sp → word t → executable m t →
  call (mret t) m =
    let m1 := put_word sp (pc m) (tick (access_cost 4 m sp) m) in
    let m2 := set_pc t m1 in
    Done tt (put_reg16 7 sp (set_board (frame_begin sp 0 m2) m2)).
Proof.
  intros Hm sp Hsp Hw Ht Hx. pose proof (reg16_word m 7 Hm) as H7.
  unfold call. unfold mbind at 1, M_bind at 1. rewrite run_GET_REG16.
  replace (u16 (reg16 m 7 - 2)) with sp by (unfold sp; width_lia).
  unfold mbind at 1, M_bind at 1, get_pc, gets.
  unfold mbind at 1, M_bind at 1.
  rewrite run_WRITE_WORD by (try apply Hm; done).
  unfold mbind at 1, M_bind at 1, mret, M_ret.
  unfold mbind at 1, M_bind at 1, put_pc, modify. rewrite u16_id by done.
  unfold mbind at 1, M_bind at 1. rewrite run_check_pc by exact Hx.
  done.
Qed.

Lemma run_prefetch m :
  executable m (pc m) → word (pc m + 1) →
  prefetch m = Done tt (tick (access_cost 4 m (pc m)) m).
Proof.
  intros Hx Hw. unfold prefetch, mbind, M_bind, get_pc, gets.
  rewrite run_GET_WORD_CYCLES by done. done.
Qed.

Lemma run_RtS m :
  bytes_map (memtype m) → let sp := reg16 m 7 in let ret := word_at m sp in
  word ret → executable m (pc m) → word (pc m + 1) →
  readable16 m sp → executable m ret →
  RtS m =
    let m1 := tick 2 (tick (access_cost 4 m (pc m)) m) in
    let m2 := set_board (frame_end sp 0 m1) m1 in
    Done tt (put_reg16 7 (sp + 2) (set_pc ret (tick (access_cost 4 m sp) m2))).
Proof.
  intros Hmt sp ret Hw Hx Hw1 Hr Hret.
  unfold RtS. unfold mbind at 1, M_bind at 1. rewrite run_prefetch by done.
  unfold mbind at 1, M_bind at 1, add_cycles, modify.
  unfold mbind at 1, M_bind at 1. rewrite run_GET_REG16.
  unfold mbind at 1, M_bind at 1.
  unfold mbind at 1, M_bind at 1. rewrite run_READ_WORD by done.
  unfold mbind at 1, M_bind at 1, put_pc, modify. rewrite u16_id by done.
  unfold mbind at 1, M_bind at 1. rewrite run_check_pc by exact Hret.
  done.
Qed.

(** C5: JSR/BSR followed by RTS. *)
Theorem call_return m t :
  wf m → let sp := reg16 m 7 - 2 in
  0 <= sp → readable16 m sp → writable16 m sp →
  executable m (pc m) → executable m t → word (t + 1) →
  ∃ m', (call (mret t) ≫= λ _, RtS) m = Done tt m' ∧
    pc m' = pc m ∧ reg m' = reg m ∧ ccr m' = ccr m ∧
    memtype m' = memtype m ∧
    memory m' = memory (put_word sp (pc m) m).
Proof.
  intros Hm sp Hsp Hr Hw Hpc Ht Hw1.
  pose proof (reg16_word m 7 Hm) as H7.
  pose proof (wf_reg_length m Hm) as Hl.
  unfold mbind, M_bind. rewrite run_call by (done || apply Ht).
  fold sp. cbn beta iota zeta.
  set (m2 := set_pc t _).
  set (m3 := put_reg16 7 sp _).
  assert (reg16 m3 7 = sp) as Hsp3 by (apply reg16_put; [done|lia|unfold sp; width_lia]).
  assert (word_at m3 sp = pc m) as Hret by (apply word_at_put_word; apply Hpc).
  rewrite run_RtS; rewrite ?Hsp3, ?Hret; try done; try apply Hm; try apply Hpc.
  eexists. split; [done|]. cbn zeta. repeat split; try done.
  rewrite <- (f_equal reg (put_reg16_id m 7 Hm ltac:(lia))).
  replace (sp + 2) with (reg16 m 7) by (unfold sp; lia).
  transitivity (reg (put_reg16 7 (reg16 m 7) m3)); [done|].
  unfold m3. rewrite put_reg16_twice by lia. done.
Qed.
End Calls.

(** ** Comparisons and branches *)

(** The manual's table of the sixteen conditions over N, Z, V and C. *)
Definition flag_cond (cond : Z) (n z v c : bool) : bool :=
  match cond with
  | 0 => true | 1 => false
  | 2 => negb (c || z) | 3 => c || z
  | 4 => negb c | 5 => c
  | 6 => negb z | 7 => z
  | 8 => negb v | 9 => v
  | 10 => negb n | 11 => n
  | 12 => negb (xorb n v) | 13 => xorb n v
  | 14 => negb (z || xorb n v) | 15 => z || xorb n v
  | _ => false
  end.

(** What the branches mean after comparing [a] (Rd) with [b] (Rs). *)
Definition branch_meaning (w cond a b : Z) : bool :=
  match cond with
  | 0 => true | 1 => false
  | 2 => b <? a | 3 => a <=? b
  | 4 => b <=? a | 5 => a <? b
  | 6 => negb (a =? b) | 7 => a =? b
  | 8 => negb (overflows w (signed w a - signed w b))
  | 9 => overflows w (signed w a - signed w b)
  | 10 => (a - b) mod 2 ^ w <? 2 ^ (w - 1) | 11 => 2 ^ (w - 1) <=? (a - b) mod 2 ^ w
  | 12 => signed w b <=? signed w a | 13 => signed w a <? signed w b
  | 14 => signed w b <? signed w a | 15 => signed w a <=? signed w b
  | _ => false
  end.

Definition all_bools : list bool := [true; false].
Definition conds : list Z := Eval cbv in (Z.of_nat <$> seq 0 16).

Lemma elem_conds cond : 0 <= cond < 16 → cond ∈ conds.
Proof.
  intros Hc. change conds with (Z.of_nat <$> seq 0 16).
  apply list_elem_of_fmap. exists (Z.to_nat cond). rewrite elem_of_seq. lia.
Qed.

Lemma branch_taken_pack cond ccr h n z v c :
  byte ccr → 0 <= cond < 16 →
  branch_taken cond (pack_flags ccr h n z v c) = flag_cond cond n z v c.
Proof.
  intros Hc Hcond. apply eqb_prop.
  pose proof (elem_conds cond Hcond) as Hin.
  assert (forallb (λ ccr, forallb (λ cond, forallb (λ h, forallb (λ n, forallb (λ z,
            forallb (λ v, forallb (λ c,
              eqb (branch_taken cond (pack_flags ccr h n z v c)) (flag_cond cond n z v c))
            all_bools) all_bools) all_bools) all_bools) all_bools) conds) bytes_all = true)
    as Hall by (vm_compute; reflexivity).
  assert (∀ (f : bool → bool) b, forallb f all_bools = true → f b = true) as Hb.
  { intros f [] Hf; simpl in Hf; destruct (f true), (f false); done. }
  pose proof (forall_byte _ Hall ccr Hc) as H1.
  rewrite forallb_forall in H1. specialize (H1 cond ltac:(apply list_elem_of_In, Hin)).
  pose proof (Hb _ h H1) as H2. pose proof (Hb _ n H2) as H3.
  pose proof (Hb _ z H3) as H4. pose proof (Hb _ v H4) as H5.
  exact (Hb _ c H5).
Qed.

(** The flags of [a - b], read as a condition. *)
Lemma flag_cond_sub w cond a b :
  alu_width w → 0 <= a < 2 ^ w → 0 <= b < 2 ^ w → 0 <= cond < 16 →
  flag_cond cond (2 ^ (w - 1) <=? (a - b) mod 2 ^ w) ((a - b) mod 2 ^ w =? 0)
    (overflows w (signed w a - signed w b)) (a <? b) =
  branch_meaning w cond a b.
Proof.
  intros Hw Ha Hb Hcond. pose proof (elem_conds cond Hcond) as Hin.
  clear Hcond. rewrite list_elem_of_In in Hin. simpl in Hin.
  assert ((a - b) mod 2 ^ w = if a <? b then a - b + 2 ^ w else a - b) as Hd.
  { destruct (Z.ltb_spec a b); symmetry;
      [apply Z.mod_unique with (-1)|apply Z.mod_unique with 0]; lia. }
  assert (∃ h, 0 < h ∧ 2 ^ (w - 1) = h ∧ 2 ^ w = 2 * h) as (h & Hh & Ep & Ep2)
    by (destruct Hw as [-> | ->]; eexists; repeat split; simpl; done).
  repeat (destruct Hin as [<-|Hin]); try done;
  cbn [flag_cond branch_meaning]; rewrite ?Hd; clear Hd Hw;
  unfold overflows, signed; rewrite ?Ep, ?Ep2 in *; clear Ep Ep2;
  destruct (Z.leb_spec h a), (Z.leb_spec h b), (Z.ltb_spec a b);
  try lia;
  match goal with |- context [xorb (h <=? ?x) ?y] =>
    destruct (Z.leb_spec h x), y eqn:?; cbn [xorb orb negb]; lia
  end.
Qed.

Lemma pack_flags_byte ccr h n z v c : byte ccr → byte (pack_flags ccr h n z v c).
Proof.
  intros Hc. apply (bool_decide_unpack _), Is_true_true_2.
  revert ccr Hc. apply (forall_byte (λ ccr, bool_decide (byte (pack_flags ccr h n z v c)))).
  destruct h, n, z, v, c; vm_compute; reflexivity.
Qed.

(** SUBX's zero flag: the conjunction over the bytes subtracted so far. *)
Lemma keepZ_pack ccr h n z v c h' n' z' v' c' :
  byte ccr →
  keepZ (pack_flags ccr h n z v c)
    (pack_flags (pack_flags ccr h n z v c) h' n' z' v' c') =
  pack_flags ccr h' n' (z && z') v' c'.
Proof.
  intros Hc. apply Z.eqb_eq.
  assert (forallb (λ ccr,
    keepZ (pack_flags ccr h n z v c)
      (pack_flags (pack_flags ccr h n z v c) h' n' z' v' c') =?
    pack_flags ccr h' n' (z && z') v' c') bytes_all = true) as Hall.
  { destruct h, n, z, v, c, h', n', z', v', c'; vm_compute; reflexivity. }
  exact (forall_byte _ Hall ccr Hc).
Qed.
