(* ===== verification/CpuArith.v ===== *)
(** * CpuArith: multi-byte arithmetic

    The byte instructions ADD.B, ADDX.B, SUB.B and SUBX.B, chained over the two
    bytes of a number, compute on the whole number. *)
From S2P Require Export CpuProps.

(** The sign and the overflow of a number lie in its high byte. *)
Lemma signed_wide hi lo :
  byte hi → byte lo → signed 16 (hi * 256 + lo) = signed 8 hi * 256 + lo.
Proof.
  intros Hh Hl. unfold signed, byte in *.
  change (2 ^ (16 - 1)) with 32768. change (2 ^ (8 - 1)) with 128.
  destruct (Z.leb_spec 32768 (hi * 256 + lo)), (Z.leb_spec 128 hi); lia.
Qed.
Lemma overflows_wide hi lo :
  0 <= lo < 256 → overflows 16 (hi * 256 + lo) = overflows 8 hi.
Proof. intros. unfold overflows. simpl (2 ^ _). lia. Qed.

Section Arith.
Context {P : Type} `{!Board P, !BoardInv P}.
Implicit Types m : machine P.

(** The register operands of a byte instruction. *)
Definition rd (opcval : Z) : nat := Z.to_nat (opcval &! 0xf).
Definition rs (opcval : Z) : nat := Z.to_nat ((opcval >>! 4) &! 0xf).

(** The registers [hi] and [lo] read as one number. *)
Definition wide (m : machine P) (hi lo : nat) : Z :=
  (reg m !!! hi) * 256 + reg m !!! lo.

Lemma rd_lt opcval : (rd opcval < 16)%nat.
Proof.
  unfold rd. change 15 with (Z.ones 4). rewrite Z.land_ones by lia.
  pose proof (Z.mod_pos_bound opcval (2 ^ 4) ltac:(lia)). lia.
Qed.

Definition flags_to (f : Z → Z) (d : nat) (v : Z) m : machine P :=
  set_reg (<[d := u8 v]> (reg m)) (set_ccr (u8 (f (ccr m))) m).

Lemma run_AddB m opcval :
  AddB opcval m =
    let o := reg m !!! rd opcval in let s := reg m !!! rs opcval in
    Done tt (flags_to (setHNZVC false 8 s o (u8 (o + s))) (rd opcval) (u8 (o + s)) m).
Proof. done. Qed.
Lemma run_AddX m opcval :
  AddX opcval m =
    let o := reg m !!! rd opcval in let s := reg m !!! rs opcval in
    let dest := u8 (o + s + (ccr m &! 1)) in
    Done tt (flags_to (setHNZVC false 8 s o dest) (rd opcval) dest m).
Proof. done. Qed.
Lemma run_SubB m opcval :
  SubB opcval m =
    let o := reg m !!! rd opcval in let s := reg m !!! rs opcval in
    Done tt (flags_to (setHNZVC true 8 s o (u8 (o - s))) (rd opcval) (u8 (o - s)) m).
Proof. done. Qed.
Lemma run_SubX m opcval :
  SubX opcval m =
    let o := reg m !!! rd opcval in let s := reg m !!! rs opcval in
    let dest := u8 (o - s - (ccr m &! 1)) in
    Done tt (flags_to (λ c, keepZ c (u8 (setHNZVC true 8 s o dest c)))
      (rd opcval) dest m).
Proof. done. Qed.

Lemma pack_flags_carry ccr h n z v c :
  byte ccr → Z.land (pack_flags ccr h n z v c) 1 = Z.b2z c.
Proof.
  intros Hc. apply Z.eqb_eq. revert ccr Hc.
  apply (forall_byte (λ ccr, Z.land (pack_flags ccr h n z v c) 1 =? Z.b2z c)).
  destruct h, n, z, v, c; vm_compute; reflexivity.
Qed.

(** The flags of one byte step of a subtraction or addition. *)
Lemma flags_SubB s o ccr :
  byte s → byte o →
  setHNZVC true 8 s o (u8 (o - s)) ccr =
    pack_flags ccr (o mod 16 <? s mod 16) (128 <=? u8 (o - s)) (u8 (o - s) =? 0)
      (overflows 8 (signed 8 o - signed 8 s)) (o <? s).
Proof.
  intros Hs Ho. pose proof (sub_flags 8 s o 0 ccr ltac:(by left) Hs Ho ltac:(lia)) as F.
  rewrite !Z.sub_0_r, !Z.add_0_r in F. exact F.
Qed.
Lemma flags_SubX s o c ccr :
  byte s → byte o → 
  setHNZVC true 8 s o (u8 (o - s - Z.b2z c)) ccr =
    pack_flags ccr (o mod 16 <? s mod 16 + Z.b2z c) (128 <=? u8 (o - s - Z.b2z c))
      (u8 (o - s - Z.b2z c) =? 0)
      (overflows 8 (signed 8 o - signed 8 s - Z.b2z c)) (o <? s + Z.b2z c).
Proof.
  intros Hs Ho. exact (sub_flags 8 s o (Z.b2z c) ccr ltac:(by left) Hs Ho ltac:(destruct c; simpl; lia)).
Qed.
Lemma flags_AddB s o ccr :
  byte s → byte o →
  setHNZVC false 8 s o (u8 (o + s)) ccr =
    pack_flags ccr (16 <=? o mod 16 + s mod 16) (128 <=? u8 (o + s)) (u8 (o + s) =? 0)
      (overflows 8 (signed 8 o + signed 8 s)) (256 <=? o + s).
Proof.
  intros Hs Ho. pose proof (add_flags 8 s o 0 ccr ltac:(by left) Hs Ho ltac:(lia)) as F.
  rewrite !Z.add_0_r in F. exact F.
Qed.
Lemma flags_AddX s o c ccr :
  byte s → byte o →
  setHNZVC false 8 s o (u8 (o + s + Z.b2z c)) ccr =
    pack_flags ccr (16 <=? o mod 16 + s mod 16 + Z.b2z c) (128 <=? u8 (o + s + Z.b2z c))
      (u8 (o + s + Z.b2z c) =? 0)
      (overflows 8 (signed 8 o + signed 8 s + Z.b2z c)) (256 <=? o + s + Z.b2z c).
Proof.
  intros Hs Ho. exact (add_flags 8 s o (Z.b2z c) ccr ltac:(by left) Hs Ho ltac:(destruct c; simpl; lia)).
Qed.

Lemma pack_flags_twice ccr h n z v c h' n' z' v' c' :
  byte ccr →
  pack_flags (pack_flags ccr h n z v c) h' n' z' v' c' = pack_flags ccr h' n' z' v' c'.
Proof.
  intros Hc. apply Z.eqb_eq. revert ccr Hc.
  apply (forall_byte (λ ccr, pack_flags (pack_flags ccr h n z v c) h' n' z' v' c' =?
    pack_flags ccr h' n' z' v' c')).
  destruct h, n, z, v, c, h', n', z', v', c'; vm_compute; reflexivity.
Qed.

(** C2: subtracting two 16-bit numbers byte by byte, SUB.B on the low bytes
    and SUBX on the high bytes, leaves their 16-bit difference in the
    destination bytes, changes no other register, and sets the condition
    codes so that each of the sixteen branches decides what it means for the
    whole 16-bit operands (signed and unsigned). *)
Theorem sub_wide_branch m op1 op2 :
  wf m → rd op1 ≠ rd op2 → rd op1 ≠ rs op2 →
  let a := wide m (rd op2) (rd op1) in
  let b := wide m (rs op2) (rs op1) in
  ∃ m', (SubB op1 ≫= λ _, SubX op2) m = Done tt m' ∧
    wide m' (rd op2) (rd op1) = (a - b) mod 65536 ∧
    (∀ r, r ≠ rd op1 → r ≠ rd op2 → reg m' !!! r = reg m !!! r) ∧
    ∀ cond, 0 <= cond < 16 →
      branch_taken cond (ccr m') = branch_meaning 16 cond a b.
Proof.
  intros Hm Hdd Hds a b.
  pose proof (wf_reg_at m (rd op1) Hm) as Bo1. pose proof (wf_reg_at m (rs op1) Hm) as Bs1.
  pose proof (wf_reg_at m (rd op2) Hm) as Bo2. pose proof (wf_reg_at m (rs op2) Hm) as Bs2.
  pose proof (wf_ccr m Hm) as Bc. pose proof (wf_reg_length m Hm) as Hl.
  unfold mbind, M_bind. rewrite run_SubB. cbv beta iota zeta. rewrite run_SubX.
  cbv zeta. unfold flags_to, wide in *. cbn [reg set_reg set_ccr ccr].
  rewrite !list_lookup_total_insert_ne by done.
  set (o1 := reg m !!! rd op1) in *. set (s1 := reg m !!! rs op1) in *.
  set (o2 := reg m !!! rd op2) in *. set (s2 := reg m !!! rs op2) in *.
  rewrite flags_SubB, (u8_id (pack_flags _ _ _ _ _ _)), pack_flags_carry
    by auto using pack_flags_byte.
  eexists. split; [reflexivity|]. cbn [reg set_reg set_ccr ccr]. split; [|split].
  - rewrite list_lookup_total_insert_eq
      by (rewrite length_insert, Hl; apply rd_lt).
    rewrite list_lookup_total_insert_ne by done.
    rewrite list_lookup_total_insert_eq by (rewrite Hl; apply rd_lt).
    unfold a, b.
    clearbody o1 s1 o2 s2. unfold Z.b2z.
    rewrite !u8_id by auto with width. destruct (Z.ltb_spec o1 s1); width_lia.
  - intros r H1 H2. rewrite !list_lookup_total_insert_ne by done. done.
  - intros cond Hcond. rewrite flags_SubX by done.
    rewrite (u8_id (pack_flags _ _ _ _ _ _)) by auto using pack_flags_byte.
    rewrite keepZ_pack, u8_id, branch_taken_pack by auto using pack_flags_byte.
    rewrite <- flag_cond_sub by (try (by right); unfold a, b; width_lia).
    unfold a, b. clearbody o1 s1 o2 s2.
    rewrite !signed_wide by done.
    replace (overflows 16 _) with
      (overflows 8 (signed 8 o2 - signed 8 s2 - Z.b2z (o1 <? s1))).
    2: { rewrite <- (overflows_wide _ (u8 (o1 - s1))) by apply u8_byte. f_equal.
         unfold Z.b2z. destruct (Z.ltb_spec o1 s1); width_lia. }
    f_equal; unfold Z.b2z; simpl (2 ^ _);
    destruct (Z.ltb_spec o1 s1); width_lia.
Qed.

(** Adding two 16-bit numbers byte by byte, ADD.B on the low bytes and
    ADDX on the high bytes, leaves their sum in the destination bytes,
    changes no other register, and sets the carry, sign and overflow flags of
    the 16-bit addition. *)
Theorem add_wide m op1 op2 :
  wf m → rd op1 ≠ rd op2 → rd op1 ≠ rs op2 →
  let a := wide m (rd op2) (rd op1) in
  let b := wide m (rs op2) (rs op1) in
  ∃ m' h z, (AddB op1 ≫= λ _, AddX op2) m = Done tt m' ∧
    wide m' (rd op2) (rd op1) = (a + b) mod 65536 ∧
    (∀ r, r ≠ rd op1 → r ≠ rd op2 → reg m' !!! r = reg m !!! r) ∧
    ccr m' = pack_flags (ccr m) h (32768 <=? (a + b) mod 65536) z
               (overflows 16 (signed 16 a + signed 16 b)) (65536 <=? a + b).
Proof.
  intros Hm Hdd Hds a b.
  pose proof (wf_reg_at m (rd op1) Hm) as Bo1. pose proof (wf_reg_at m (rs op1) Hm) as Bs1.
  pose proof (wf_reg_at m (rd op2) Hm) as Bo2. pose proof (wf_reg_at m (rs op2) Hm) as Bs2.
  pose proof (wf_ccr m Hm) as Bc. pose proof (wf_reg_length m Hm) as Hl.
  unfold mbind, M_bind. rewrite run_AddB. cbv beta iota zeta. rewrite run_AddX.
  cbv zeta. unfold flags_to, wide in *. cbn [reg set_reg set_ccr ccr].
  rewrite !list_lookup_total_insert_ne by done.
  set (o1 := reg m !!! rd op1) in *. set (s1 := reg m !!! rs op1) in *.
  set (o2 := reg m !!! rd op2) in *. set (s2 := reg m !!! rs op2) in *.
  rewrite flags_AddB, (u8_id (pack_flags _ _ _ _ _ _)), pack_flags_carry
    by auto using pack_flags_byte.
  eexists _, _, _. split; [reflexivity|]. cbn [reg set_reg set_ccr ccr].
  split; [|split].
  - rewrite list_lookup_total_insert_eq
      by (rewrite length_insert, Hl; apply rd_lt).
    rewrite list_lookup_total_insert_ne by done.
    rewrite list_lookup_total_insert_eq by (rewrite Hl; apply rd_lt).
    unfold a, b. clearbody o1 s1 o2 s2. unfold Z.b2z.
    rewrite !u8_id by auto with width. destruct (Z.leb_spec 256 (o1 + s1)); width_lia.
  - intros r H1 H2. rewrite !list_lookup_total_insert_ne by done. done.
  - rewrite flags_AddX, u8_id, pack_flags_twice by auto using pack_flags_byte.
    unfold a, b. clearbody o1 s1 o2 s2. rewrite !signed_wide by done.
    replace (overflows 16 _) with
      (overflows 8 (signed 8 o2 + signed 8 s2 + Z.b2z (256 <=? o1 + s1))).
    2: { rewrite <- (overflows_wide _ (u8 (o1 + s1))) by apply u8_byte. f_equal.
         unfold Z.b2z. destruct (Z.leb_spec 256 (o1 + s1)); width_lia. }
    f_equal; unfold Z.b2z; destruct (Z.leb_spec 256 (o1 + s1)); width_lia.
Qed.
End Arith.
