(* ===== verification/CpuDecimal.v ===== *)
(** * CpuDecimal: decimal arithmetic

    DAA and DAS correct the result of an addition or subtraction of numbers of two
    decimal digits in a byte.  The generated code clears the half carry before it tests
    it and corrects the low digit in eight bits: the theorems say exactly when the corrected
    result is the decimal one. *)
From S2P Require Export CpuArith.

(** A byte of two decimal digits, and its number. *)
Definition bcd (x : Z) : Prop := byte x ∧ x / 16 <= 9 ∧ x mod 16 <= 9.
Definition number (x : Z) : Z := x / 16 * 10 + x mod 16.
Definition two_digits (n : Z) : Z := n / 10 * 16 + n mod 10.
Definition bcd_bytes : list Z := (λ n, two_digits (Z.of_nat n)) <$> seq 0 100.
Lemma bcd_listed x : bcd x → In x bcd_bytes.
Proof.
  intros (Hx & H1 & H2). unfold byte in Hx. apply in_map_iff. exists (Z.to_nat (number x)).
  assert (0 <= number x < 100 ∧ two_digits (number x) = x) as [H3 H4].
  { unfold number, two_digits. Z.div_mod_to_equations. lia. }
  split; [rewrite Z2Nat.id by lia; exact H4|]. apply in_seq. lia.
Qed.
Lemma forall_bcd (f : Z → Z → bool → bool) :
  forallb (λ x, forallb (λ y, f x y false && f x y true) bcd_bytes) bcd_bytes = true →
  ∀ x y c, bcd x → bcd y → f x y c = true.
Proof.
  intros H x y c Hx Hy. rewrite forallb_forall in H. specialize (H x (bcd_listed x Hx)).
  rewrite forallb_forall in H. specialize (H y (bcd_listed y Hy)). destruct c; destruct (f x y false), (f x y true); done.
Qed.

(** What the adjustments compute, of the flags only the carry counts. *)
Definition daa_value (d : Z) (c : bool) : Z * bool :=
  let d := if d &! 0x0f >? 0x09 then u8 (d + 6) else d in
  if c || (d &! 0xf0 >? 0x90) then (u8 (d + 0x60), true) else (d, c).
Definition das_value (d : Z) (c : bool) : Z * bool := ((if c then u8 (d + 0xa0) else d), c).
Lemma masked_flags x : byte x →
  let y := x &! 0xd1 in
  (y &? 0x20) = false ∧ (y &? 0x01) = (x &? 0x01) ∧ y &! 1 = Z.b2z (x &? 0x01) ∧ (y |! 1) &! 1 = 1.
Proof.
  intros Hx. set (f := λ x, let y := x &! 0xd1 in
    negb (y &? 0x20) && Bool.eqb (y &? 0x01) (x &? 0x01) && (y &! 1 =? Z.b2z (x &? 0x01)) && ((y |! 1) &! 1 =? 1)).
  assert (f x = true) as E by (apply forall_byte; [vm_compute; reflexivity|exact Hx]).
  unfold f in E. cbv zeta in *. rewrite !andb_true_iff in E. destruct E as [[[E1 E2] E3] E4].
  split; [apply negb_true_iff, E1|]. split; [apply Bool.eqb_prop, E2|]. split; apply Z.eqb_eq; assumption.
Qed.
Lemma setNZV_carry d x : setNZV 8 d x &! 1 = x &! 1.
Proof.
  assert (∀ y a, (y |! a) &! 1 = (y &! 1) |! (a &! 1)) as Hd by (intros; apply Z.land_lor_distr_l).
  unfold setNZV, setNZ. assert (((x &! 0xf1) |! ((d >>! (8 - 4)) &! 0x08)) &! 1 = x &! 1) as E.
  { rewrite Hd, <- !Z.land_assoc. change (0x08 &! 1) with 0. change (0xf1 &! 1) with 1. rewrite Z.land_0_r, Z.lor_0_r. done. }
  destruct (d =? 0); [|exact E]. rewrite Hd, E. apply Z.lor_0_r.
Qed.
Lemma daa_meaning d x : byte x →
  let r := daa_step d x in r.1 = (daa_value d (x &? 1)).1 ∧ r.2 &! 1 = Z.b2z (daa_value d (x &? 1)).2.
Proof.
  intros Hx. destruct (masked_flags x Hx) as (E1 & E2 & E3 & E4). unfold daa_step, daa_value.
  cbv zeta in *. rewrite E1. cbn [orb]. rewrite E2. destruct ((x &? 1) || _); cbn [fst snd]; rewrite setNZV_carry; done.
Qed.
Lemma das_meaning d x : byte x →
  let r := das_step d x in r.1 = (das_value d (x &? 1)).1 ∧ r.2 &! 1 = Z.b2z (das_value d (x &? 1)).2.
Proof.
  intros Hx. destruct (masked_flags x Hx) as (E1 & E2 & E3 & _). unfold das_step, das_value.
  cbv zeta in *. rewrite E1, E2. cbn [fst snd]. rewrite setNZV_carry, E3. done.
Qed.
Lemma pack_flags_test ccr h n z v c : byte ccr → (pack_flags ccr h n z v c &? 1) = c.
Proof. intros Hc. rewrite pack_flags_carry by exact Hc. destruct c; done. Qed.
Lemma keepZ_test old x : (keepZ old x &? 1) = (x &? 1).
Proof.
  unfold keepZ. rewrite <- Z.land_assoc, Z.land_lor_distr_l. change (Z.lnot 4 &! 1) with 1.
  replace (old &! 1 |! 1) with 1; [done|]. apply Z.bits_inj'. intros n _.
  rewrite Z.lor_spec, Z.land_spec. destruct (Z.testbit old n), (Z.testbit 1 n); done.
Qed.

(** When the result is the decimal one. *)
Definition low_digits (x y : Z) (c : bool) : Z := x mod 16 + y mod 16 + Z.b2z c.
Definition add_exact (x y : Z) (c : bool) : bool :=
  (low_digits x y c <? 16) && negb ((10 <=? low_digits x y c) && (x / 16 + y / 16 =? 15)).
Definition sub_exact (x y : Z) (c : bool) : bool := y mod 16 + Z.b2z c <=? x mod 16.
Definition is_result (r : Z * bool) (n : Z) (c : bool) : bool := (r.1 =? two_digits n) && Bool.eqb r.2 c.
Lemma add_decimal_value x y c : bcd x → bcd y →
  let n := number x + number y + Z.b2z c in
  is_result (daa_value (u8 (x + y + Z.b2z c)) (256 <=? x + y + Z.b2z c)) (n mod 100) (100 <=? n) = add_exact x y c.
Proof.
  intros Hx Hy. apply Bool.eqb_prop. revert x y c Hx Hy. apply forall_bcd. vm_compute. reflexivity.
Qed.
Lemma sub_decimal_value x y c : bcd x → bcd y →
  let n := number x - number y - Z.b2z c in
  is_result (das_value (u8 (x - y - Z.b2z c)) (x <? y + Z.b2z c)) (n mod 100) (n <? 0) = sub_exact x y c.
Proof.
  intros Hx Hy. apply Bool.eqb_prop. revert x y c Hx Hy. apply forall_bcd. vm_compute. reflexivity.
Qed.
Lemma is_result_iff r n c : is_result r n c = true ↔ r.1 = two_digits n ∧ r.2 = c.
Proof. unfold is_result. rewrite andb_true_iff, Z.eqb_eq, Bool.eqb_true_iff. done. Qed.

Section Decimal.
Context {P : Type} `{!Board P, !BoardInv P}.
Implicit Types m : machine P.
Lemma run_DAA m op : DAA op m =
  let r := daa_step (reg m !!! rd op) (ccr m) in
  Done tt (set_reg (<[rd op := u8 r.1]> (reg m)) (set_ccr (u8 r.2) m)).
Proof.
  unfold DAA. unfold mbind, M_bind. cbn. unfold rd. destruct (daa_step (reg m !!! Z.to_nat (op &! 0xf)) (ccr m)). reflexivity.
Qed.
Lemma run_DAS m op : DAS op m =
  let r := das_step (reg m !!! rd op) (ccr m) in
  Done tt (set_reg (<[rd op := u8 r.1]> (reg m)) (set_ccr (u8 r.2) m)).
Proof.
  unfold DAS. unfold mbind, M_bind. cbn. unfold rd. destruct (das_step (reg m !!! Z.to_nat (op &! 0xf)) (ccr m)). reflexivity.
Qed.
Lemma carry_of x : x &! 1 = Z.b2z (x &? 1).
Proof.
  change 1 with (Z.ones 1) at 1. rewrite Z.land_ones by done. rewrite (bit_test 0) by done. change (2 ^ 1) with 2.
  rewrite Z.bit0_odd. apply Zmod_odd.
Qed.
Lemma carry_is x c : x &! 1 = Z.b2z c → (u8 x &? 1) = c.
Proof.
  intros E. assert (u8 x &! 1 = Z.b2z c) as ->; [|destruct c; done].
  unfold u8. rewrite <- land_255, <- Z.land_assoc. exact E.
Qed.
(** The adjusted result, for any adjustment [f] of a digit pair with the meaning [r]. *)
Lemma adjusted m d (v : Z * Z) (r : Z * bool) n c :
  wf m → (d < 16)%nat → byte r.1 → v.1 = r.1 → v.2 &! 1 = Z.b2z r.2 →
  let m' := set_reg (<[d := u8 v.1]> (reg m)) (set_ccr (u8 v.2) m) in
  (reg m' !!! d = two_digits n ∧ (ccr m' &? 1) = c) ↔ is_result r n c = true.
Proof.
  intros Hm Hd Hb E1 E2. cbv zeta. cbn [reg set_reg set_ccr ccr].
  rewrite list_lookup_total_insert_eq by (rewrite (wf_reg_length m Hm); exact Hd).
  rewrite (carry_is _ _ E2), E1, u8_id, is_result_iff by exact Hb. done.
Qed.
Lemma daa_value_byte d c : byte d → byte (daa_value d c).1.
Proof. unfold daa_value. intros Hd. repeat case_match; cbn; try apply u8_byte; exact Hd. Qed.
Lemma das_value_byte d c : byte d → byte (das_value d c).1.
Proof. unfold das_value. intros Hd. destruct c; cbn; [apply u8_byte|exact Hd]. Qed.

(** The two bytes of a pair of instructions: a result with the flags [f], and its adjustment [step]. *)
Lemma adjust_after (X A : Z → M P unit) (step : Z → Z → Z * Z) (value : Z → bool → Z * bool) f m op1 op2 d n c b :
  wf m → rd op2 = rd op1 →
  (∀ d x, byte x → (step d x).1 = (value d (x &? 1)).1 ∧ (step d x).2 &! 1 = Z.b2z (value d (x &? 1)).2) →
  (∀ d c, byte d → byte (value d c).1) →
  X op1 m = Done tt (flags_to (λ _, f) (rd op1) d m) →
  (∀ op m, A op m = let r := step (reg m !!! rd op) (ccr m) in
    Done tt (set_reg (<[rd op := u8 r.1]> (reg m)) (set_ccr (u8 r.2) m))) →
  byte d → byte f → (f &? 1) = b →
  ∃ m', (X op1 ≫= λ _, A op2) m = Done tt m' ∧
    (∀ r, r ≠ rd op1 → reg m' !!! r = reg m !!! r) ∧
    ((reg m' !!! rd op1 = two_digits n ∧ (ccr m' &? 1) = c) ↔ is_result (value d b) n c = true).
Proof.
  intros Hm Erd Hstep Hvalue HX HA Bd Bf Hb. pose proof (wf_reg_length m Hm) as Hl.
  unfold mbind, M_bind. rewrite HX. cbv beta iota zeta. rewrite HA, Erd. unfold flags_to.
  cbn [reg set_reg set_ccr ccr]. rewrite list_lookup_total_insert_eq by (rewrite Hl; apply rd_lt).
  rewrite (u8_id d), (u8_id f) by assumption. destruct (Hstep d f Bf) as [E1 E2]. rewrite Hb in *.
  eexists. split; [reflexivity|]. rewrite list_insert_insert_eq. split.
  { intros r Hr. cbn [reg set_reg set_ccr]. rewrite list_lookup_total_insert_ne by done. done. }
  exact (adjusted m (rd op1) _ _ n c Hm (rd_lt _) (Hvalue _ _ Bd) E1 E2).
Qed.
Lemma decimal_add m op1 op2 :
  wf m → rd op2 = rd op1 → bcd (reg m !!! rd op1) → bcd (reg m !!! rs op1) →
  let x := reg m !!! rd op1 in let y := reg m !!! rs op1 in let c := ccr m &? 1 in
  let n := number x + number y + Z.b2z c in
  ∃ m', (AddX op1 ≫= λ _, DAA op2) m = Done tt m' ∧
    (∀ r, r ≠ rd op1 → reg m' !!! r = reg m !!! r) ∧
    ((reg m' !!! rd op1 = two_digits (n mod 100) ∧ (ccr m' &? 1) = (100 <=? n)) ↔ add_exact x y c = true).
Proof.
  intros Hm Erd Hx Hy x y c n. pose proof (wf_ccr m Hm) as Bc.
  unfold n. rewrite <- (add_decimal_value x y c Hx Hy). cbv zeta.
  eapply (adjust_after AddX DAA daa_step daa_value); [exact Hm|exact Erd|exact daa_meaning|exact daa_value_byte| |
    intros; apply run_DAA|apply u8_byte| |].
  - rewrite run_AddX. cbv zeta. rewrite carry_of. unfold flags_to. fold x y c.
    rewrite flags_AddX by (apply Hx || apply Hy). reflexivity.
  - apply pack_flags_byte, Bc.
  - apply pack_flags_test, Bc.
Qed.
Lemma decimal_sub m op1 op2 :
  wf m → rd op2 = rd op1 → bcd (reg m !!! rd op1) → bcd (reg m !!! rs op1) →
  let x := reg m !!! rd op1 in let y := reg m !!! rs op1 in let c := ccr m &? 1 in
  let n := number x - number y - Z.b2z c in
  ∃ m', (SubX op1 ≫= λ _, DAS op2) m = Done tt m' ∧
    (∀ r, r ≠ rd op1 → reg m' !!! r = reg m !!! r) ∧
    ((reg m' !!! rd op1 = two_digits (n mod 100) ∧ (ccr m' &? 1) = (n <? 0)) ↔ sub_exact x y c = true).
Proof.
  intros Hm Erd Hx Hy x y c n. pose proof (wf_ccr m Hm) as Bc.
  unfold n. rewrite <- (sub_decimal_value x y c Hx Hy). cbv zeta.
  eapply (adjust_after SubX DAS das_step das_value); [exact Hm|exact Erd|exact das_meaning|exact das_value_byte| |
    intros; apply run_DAS|apply u8_byte| |].
  - rewrite run_SubX. cbv zeta. rewrite carry_of. unfold flags_to. fold x y c.
    rewrite flags_SubX, (u8_id (pack_flags _ _ _ _ _ _)) by (apply Hx || apply Hy || apply pack_flags_byte, Bc). reflexivity.
  - apply byte_land_l, pack_flags_byte, Bc.
  - rewrite keepZ_test. apply pack_flags_test, Bc.
Qed.

(** C6: What decimal arithmetic is worth, for all bytes of two decimal digits and both values of the
    carry. ADDX followed by DAA gives the decimal sum and its carry exactly when nothing is
    carried out of the low digits and it is not the case that the low digits add up to ten
    or more while the high ones add up to fifteen; SUBX followed by DAS gives the decimal
    difference and its borrow exactly when nothing is borrowed from the high digit. No other
    register changes. *)
Theorem decimal_exact m op1 op2 :
  wf m → rd op2 = rd op1 → bcd (reg m !!! rd op1) → bcd (reg m !!! rs op1) →
  let x := reg m !!! rd op1 in let y := reg m !!! rs op1 in let c := ccr m &? 1 in
  (∃ m', (AddX op1 ≫= λ _, DAA op2) m = Done tt m' ∧
    (∀ r, r ≠ rd op1 → reg m' !!! r = reg m !!! r) ∧
    let n := number x + number y + Z.b2z c in
    ((reg m' !!! rd op1 = two_digits (n mod 100) ∧ (ccr m' &? 1) = (100 <=? n)) ↔ add_exact x y c = true)) ∧
  (∃ m', (SubX op1 ≫= λ _, DAS op2) m = Done tt m' ∧
    (∀ r, r ≠ rd op1 → reg m' !!! r = reg m !!! r) ∧
    let n := number x - number y - Z.b2z c in
    ((reg m' !!! rd op1 = two_digits (n mod 100) ∧ (ccr m' &? 1) = (n <? 0)) ↔ sub_exact x y c = true)).
Proof.
  intros Hm Erd Hx Hy. split; [exact (decimal_add m op1 op2 Hm Erd Hx Hy)|exact (decimal_sub m op1 op2 Hm Erd Hx Hy)].
Qed.
End Decimal.
