(* ===== verification/CpuTrap.v ===== *)
(** * CpuTrap: traps are precise

    An opcode that leaves through [trap], [fault] or [illOpc] has changed no
    register: the generated code performs every access that can trap before it
    writes a register.  [clean] code writes no register at all, [total] code
    never leaves through a label, [precise] code has written no register when it
    does. *)
From S2P Require Export CpuSym.

Section Trap.
Context {P : Type}.
Implicit Types m : machine P.

Definition same_regs m m' : Prop := reg m' = reg m ∧ oldpc m' = oldpc m ∧ memtype m' = memtype m.
(** What a call pushes goes to memory and not to the ports: a call may trap - at an odd or
    unmapped target - after it has pushed the program counter. *)
Definition stack_in_memory m : Prop :=
  (get0 (memtype m) (u16 (reg16 m 7 - 2)) &? MEMTYPE_DIV) = false.
Lemma same_regs_stack m m' : same_regs m m' → stack_in_memory m → stack_in_memory m'.
Proof. unfold stack_in_memory, reg16. intros (-> & _ & ->). done. Qed.
Lemma same_regs_trans m1 m2 m3 : same_regs m1 m2 → same_regs m2 m3 → same_regs m1 m3.
Proof. intros (? & ? & ?) (? & ? & ?). split_and!; congruence. Qed.
Definition precise {A} (c : M P A) : Prop :=
  ∀ m l m', stack_in_memory m → c m = Goto l m' → same_regs m m'.
Definition clean {A} (c : M P A) : Prop :=
  precise c ∧ ∀ m a m', c m = Done a m' → same_regs m m'.
Definition total {A} (c : M P A) : Prop := ∀ m l m', c m ≠ Goto l m'.

Lemma same_regs_refl m : same_regs m m.
Proof. done. Qed.

Lemma precise_bind {A B} (c : M P A) (k : A → M P B) :
  clean c → (∀ a, precise (k a)) → precise (c ≫= k).
Proof.
  intros [Hc Hd] Hk m l m' Hs. unfold mbind, M_bind.
  destruct (c m) as [a m1|l1 m1| | |] eqn:E; try done.
  - intros Hg. apply Hd in E. exact (same_regs_trans _ _ _ E (Hk _ _ _ _ (same_regs_stack _ _ E Hs) Hg)).
  - intros [= -> ->]. exact (Hc _ _ _ Hs E).
Qed.
Lemma precise_bind_total {A B} (c : M P A) (k : A → M P B) :
  precise c → (∀ a, total (k a)) → precise (c ≫= k).
Proof.
  intros Hc Hk m l m' Hs. unfold mbind, M_bind.
  destruct (c m) as [a m1|l1 m1| | |] eqn:E; try done.
  - intros Hg. destruct (Hk _ _ _ _ Hg).
  - intros [= -> ->]. exact (Hc _ _ _ Hs E).
Qed.
Lemma clean_bind {A B} (c : M P A) (k : A → M P B) :
  clean c → (∀ a, clean (k a)) → clean (c ≫= k).
Proof.
  intros Hc Hk. split; [apply precise_bind; [done|apply Hk]|].
  intros m b m'. unfold mbind, M_bind. destruct Hc as [_ Hd].
  destruct (c m) as [a m1|l1 m1| | |] eqn:E; try done.
  intros Hg. exact (same_regs_trans _ _ _ (Hd _ _ _ E) (proj2 (Hk a) _ _ _ Hg)).
Qed.
Lemma total_bind {A B} (c : M P A) (k : A → M P B) :
  total c → (∀ a, total (k a)) → total (c ≫= k).
Proof.
  intros Hc Hk m l m'. unfold mbind, M_bind.
  destruct (c m) as [a m1|l1 m1| | |] eqn:E; try done.
  - apply Hk.
  - destruct (Hc _ _ _ E).
Qed.
(** After a clean step from [m], whatever holds of the registers and of [memtype] still does. *)
Lemma clean_then {A B} (c : M P A) (k k' : A → M P B) m :
  clean c → (∀ a m', same_regs m m' → k a m' = k' a m') → (c ≫= k) m = (c ≫= k') m.
Proof. intros [_ Hd] Hk. unfold mbind, M_bind. destruct (c m) as [a m1|l m1| | |] eqn:E; try done. eauto. Qed.
Lemma total_precise {A} (c : M P A) : total c → precise c.
Proof. intros Hc m l m' _ E. destruct (Hc _ _ _ E). Qed.
Lemma clean_precise {A} (c : M P A) : clean c → precise c.
Proof. intros []. done. Qed.

Lemma clean_ret {A} (a : A) : clean (mret a).
Proof. split; [intros ???? [=]|intros ??? [= -> ->]; done]. Qed.
Lemma clean_gets {A} (f : machine P → A) : clean (gets f).
Proof. split; [intros ???? [=]|intros ??? [= <- <-]; done]. Qed.
Lemma clean_modify f :
  (∀ m, same_regs m (f m)) → clean (modify f).
Proof. intros Hf. split; [intros ???? [=]|intros ??? [= <- <-]; auto]. Qed.
Lemma clean_goto {A} l : clean (goto (A:=A) l).
Proof. split; [intros ???? [= <- <-]; done|intros ??? [=]]. Qed.
Lemma clean_undefined {A} : clean (undefined (A:=A)).
Proof. split; [intros ???? [=]|intros ??? [=]]. Qed.
Lemma clean_if {A} (b : bool) (c1 c2 : M P A) : clean c1 → clean c2 → clean (if b then c1 else c2).
Proof. destruct b; done. Qed.
Lemma precise_if {A} (b : bool) (c1 c2 : M P A) : precise c1 → precise c2 → precise (if b then c1 else c2).
Proof. destruct b; done. Qed.
Lemma total_if {A} (b : bool) (c1 c2 : M P A) : total c1 → total c2 → total (if b then c1 else c2).
Proof. destruct b; done. Qed.
Lemma clean_when b c : clean c → clean (when b c).
Proof. destruct b; [done|]. intros. apply clean_ret. Qed.
Lemma total_when b c : total c → total (when b c).
Proof. destruct b; done. Qed.
Lemma total_ret {A} (a : A) : total (mret a).
Proof. intros ??? [=]. Qed.
Lemma total_gets {A} (f : machine P → A) : total (gets f).
Proof. intros ??? [=]. Qed.
Lemma total_modify f : total (modify f).
Proof. intros ??? [=]. Qed.
Lemma total_undefined {A} : total (undefined (A:=A)).
Proof. intros ??? [=]. Qed.
Lemma total_halt {A} : total (halt (A:=A)).
Proof. intros ??? [=]. Qed.
Lemma total_blocked {A} : total (blocked (A:=A)).
Proof. intros ??? [=]. Qed.
End Trap.

(** The board's handlers are C functions: they cannot jump to a label of
    [run_cpu].  What a getter reads changes no register; a setter may change anything
    (it may wait for the GUI, which may send a file with other registers), and so may the
    sleep instruction: nothing that comes after them traps. *)
Class BoardFunctions (P : Type) `{!Board P} := {
  port_get_clean i g : port_get i = Some g → clean g;
  port_get_total i g : port_get i = Some g → total g;
  port_set_total i s v : port_set i = Some s → total (s v);
  set_motor_clean v : clean (set_motor v);
  set_motor_total v : total (set_motor v);
  cpu_sleep_total : total cpu_sleep;
  debug_printf_total : total debug_printf }.

Create HintDb trap discriminated.
#[export] Hint Resolve clean_ret clean_gets clean_goto clean_undefined clean_when
  total_ret total_gets total_modify total_undefined total_halt total_blocked total_when port_get_clean port_get_total port_set_total
  set_motor_clean set_motor_total cpu_sleep_total debug_printf_total clean_precise | 2 : trap.
#[export] Hint Extern 2 (clean (modify _)) => apply clean_modify; intros; done : trap.

Ltac trap_step :=
  match goal with
  | |- clean (mbind _ _) => apply clean_bind; [|intros ?]
  | |- total (mbind _ _) => apply total_bind; [|intros ?]
  | |- precise (mbind _ _) =>
      first [ apply precise_bind; [solve [repeat trap_step]|intros ?]
            | apply precise_bind_total; [|solve [intros ?; repeat trap_step]] ]
  | |- clean (if _ then _ else _) => apply clean_if
  | |- total (if _ then _ else _) => apply total_if
  | |- precise (if _ then _ else _) => apply precise_if
  | |- clean (when _ _) => apply clean_when
  | |- total (when _ _) => apply total_when
  | |- precise (when ?b _) => unfold when
  | |- _ (let '(_, _) := ?x in _) => destruct x
  | |- _ (match ?x with Some _ => _ | None => _ end) =>
      let E := fresh "E" in destruct x eqn:E
  | |- total _ => solve [eauto 3 with trap]
  | |- clean _ => solve [eauto 3 with trap]
  | |- precise _ => first [ solve [eauto 3 with trap]
                          | apply total_precise; solve [eauto 3 with trap] ]
  end.
Ltac trap_auto := repeat (trap_step; cbv zeta).

Section Opcodes.
Context {P : Type} `{!Board P, !BoardFunctions P}.

Lemma clean_memory_at i : clean (P:=P) (memory_at i).
Proof. unfold memory_at. trap_auto. Qed.
Lemma clean_memtype_at i : clean (P:=P) (memtype_at i).
Proof. unfold memtype_at. trap_auto. Qed.
Lemma clean_memory_store i v : clean (P:=P) (memory_store i v).
Proof. unfold memory_store. trap_auto. Qed.
Lemma clean_add_cycles n : clean (P:=P) (add_cycles n).
Proof. unfold add_cycles. trap_auto. Qed.
Local Hint Resolve clean_memory_at clean_memtype_at clean_memory_store
  clean_add_cycles : trap.
Lemma clean_GET_BYTE a : clean (GET_BYTE a).
Proof. unfold GET_BYTE, get_byte_div, illegal_access, port_refresh. trap_auto. Qed.
Lemma clean_GET_WORD a : clean (GET_WORD a).
Proof.
  unfold GET_WORD, get_word_div, illegal_access, memory_word, port_refresh. trap_auto.
Qed.
Lemma total_memory_store i v : total (P:=P) (memory_store i v).
Proof. unfold memory_store. trap_auto. Qed.
Lemma total_memtype_at i : total (P:=P) (memtype_at i).
Proof. unfold memtype_at. trap_auto. Qed.
Local Hint Resolve total_memory_store total_memtype_at : trap.
Lemma total_SET_BYTE a v : total (SET_BYTE a v).
Proof. unfold SET_BYTE, port_write, illegal_access. trap_auto. Qed.
Lemma total_SET_WORD a v : total (SET_WORD a v).
Proof. unfold SET_WORD, port_write, illegal_access. trap_auto. Qed.
Local Hint Resolve clean_GET_BYTE clean_GET_WORD total_SET_BYTE total_SET_WORD : trap.
Lemma clean_GET_BYTE_CYCLES a : clean (GET_BYTE_CYCLES a).
Proof. unfold GET_BYTE_CYCLES, access_cycles. trap_auto. Qed.
Lemma clean_GET_WORD_CYCLES a : clean (GET_WORD_CYCLES a).
Proof. unfold GET_WORD_CYCLES, access_cycles. trap_auto. Qed.
Lemma total_access_cycles s a : total (P:=P) (access_cycles s a).
Proof. unfold access_cycles, add_cycles. trap_auto. Qed.
Local Hint Resolve total_access_cycles : trap.
Lemma total_SET_BYTE_CYCLES a v : total (SET_BYTE_CYCLES a v).
Proof. unfold SET_BYTE_CYCLES. trap_auto. Qed.
Lemma total_SET_WORD_CYCLES a v : total (SET_WORD_CYCLES a v).
Proof. unfold SET_WORD_CYCLES. trap_auto. Qed.
Lemma total_memory_at i : total (P:=P) (memory_at i).
Proof. unfold memory_at. trap_auto. Qed.
Local Hint Resolve total_memory_at : trap.
Lemma total_port_refresh a : total (port_refresh a).
Proof. unfold port_refresh. trap_auto. Qed.
Local Hint Resolve total_port_refresh : trap.
Lemma total_GET_WORD a : total (GET_WORD a).
Proof. unfold GET_WORD, get_word_div, illegal_access, memory_word. trap_auto. Qed.
Local Hint Resolve total_GET_WORD : trap.
Lemma total_GET_WORD_CYCLES a : total (GET_WORD_CYCLES a).
Proof. unfold GET_WORD_CYCLES. trap_auto. Qed.
Local Hint Resolve clean_GET_BYTE_CYCLES clean_GET_WORD_CYCLES
  total_SET_BYTE_CYCLES total_SET_WORD_CYCLES : trap.

Lemma total_reg8 i : total (P:=P) (reg8 i). Proof. apply total_gets. Qed.
Lemma total_set_reg8 i v : total (P:=P) (set_reg8 i v). Proof. apply total_modify. Qed.
Lemma clean_reg8 i : clean (P:=P) (reg8 i). Proof. apply clean_gets. Qed.
Lemma clean_get_pc : clean (P:=P) get_pc. Proof. apply clean_gets. Qed.
Lemma clean_get_ccr : clean (P:=P) get_ccr. Proof. apply clean_gets. Qed.
Lemma clean_put_pc v : clean (P:=P) (put_pc v). Proof. unfold put_pc. trap_auto. Qed.
Lemma clean_put_ccr v : clean (P:=P) (put_ccr v). Proof. unfold put_ccr. trap_auto. Qed.
Lemma total_get_pc : total (P:=P) get_pc. Proof. apply total_gets. Qed.
Lemma total_get_ccr : total (P:=P) get_ccr. Proof. apply total_gets. Qed.
Lemma total_put_pc v : total (P:=P) (put_pc v). Proof. apply total_modify. Qed.
Lemma total_put_ccr v : total (P:=P) (put_ccr v). Proof. apply total_modify. Qed.
Local Hint Resolve total_reg8 total_set_reg8 clean_reg8 clean_get_pc clean_get_ccr
  clean_put_pc clean_put_ccr total_get_pc total_get_ccr total_put_pc total_put_ccr : trap.
Lemma clean_GET_REG16 nr : clean (P:=P) (GET_REG16 nr).
Proof. unfold GET_REG16. trap_auto. Qed.
Lemma total_GET_REG16 nr : total (P:=P) (GET_REG16 nr).
Proof. unfold GET_REG16. trap_auto. Qed.
Lemma total_SET_REG16 nr v : total (P:=P) (SET_REG16 nr v).
Proof. unfold SET_REG16. trap_auto. Qed.
Lemma clean_flags f : clean (P:=P) (flags f).
Proof. unfold flags. trap_auto. Qed.
Lemma total_flags f : total (P:=P) (flags f).
Proof. unfold flags. trap_auto. Qed.
Lemma total_add_cycles n : total (P:=P) (add_cycles n).
Proof. apply total_modify. Qed.
Lemma clean_illOpc_if b : clean (P:=P) (illOpc_if b).
Proof. unfold illOpc_if. trap_auto. Qed.
Lemma clean_memtype16 a : clean (P:=P) (memtype16 a).
Proof. unfold memtype16. trap_auto. Qed.
Local Hint Resolve clean_GET_REG16 total_GET_REG16 total_SET_REG16 clean_flags
  total_flags total_add_cycles clean_illOpc_if clean_memtype16 : trap.
Lemma clean_GET_OPCODE : clean (P:=P) GET_OPCODE.
Proof. unfold GET_OPCODE. trap_auto. Qed.
Lemma clean_READ_BYTE a : clean (READ_BYTE a).
Proof. unfold READ_BYTE. trap_auto. Qed.
Lemma clean_READ_WORD a : clean (READ_WORD a).
Proof. unfold READ_WORD. trap_auto. Qed.
Lemma precise_WRITE_BYTE a v : precise (WRITE_BYTE a v).
Proof. unfold WRITE_BYTE. trap_auto. Qed.
Lemma precise_WRITE_WORD a v : precise (WRITE_WORD a v).
Proof. unfold WRITE_WORD. trap_auto. Qed.
Lemma clean_prefetch : clean (P:=P) prefetch.
Proof. unfold prefetch. trap_auto. Qed.
Lemma clean_fetch_word : clean (P:=P) fetch_word.
Proof. unfold fetch_word. trap_auto. Qed.
Lemma clean_check_pc : clean (P:=P) check_pc.
Proof. unfold check_pc. trap_auto. Qed.
Local Hint Resolve clean_GET_OPCODE clean_READ_BYTE clean_READ_WORD precise_WRITE_BYTE
  precise_WRITE_WORD clean_prefetch clean_fetch_word clean_check_pc : trap.
(** A push to the memory changes no register: what is left of a store when its address is
    no port. *)
Definition plain_store (a v type : Z) : M P unit :=
  _ ← memory_store a (v >>! 8); _ ← memory_store (a + 1) (v &! 0xff);
  if type &? MEMTYPE_MOTOR then set_motor (u8 v) else mret tt.
Lemma clean_plain_store a v type : clean (plain_store a v type).
Proof. unfold plain_store. trap_auto. Qed.
Lemma SET_WORD_plain a v m : (get0 (memtype m) a &? MEMTYPE_DIV) = false →
  SET_WORD a v m = (_ ← memtype_at (P:=P) a; plain_store a v (get0 (memtype m) a)) m.
Proof.
  intros Ha. unfold SET_WORD, memtype_at, plain_store, mbind, M_bind.
  destruct (in_array a); [|done]. unfold gets. rewrite Ha. done.
Qed.
Lemma clean_push m sp v u m' : sp = u16 (reg16 m 7 - 2) → stack_in_memory m →
  WRITE_WORD sp v m = Done u m' → same_regs m m'.
Proof.
  intros -> Hs. set (sp := u16 (reg16 m 7 - 2)). assert (u16 sp = sp) as Hu by apply u16_id, u16_word.
  assert (WRITE_WORD sp v m = (t ← memtype16 sp; _ ← when (t &? BP_WRITE) (goto Ltrap); _ ← access_cycles 4 sp;
    _ ← memtype_at sp; plain_store sp (u16 v) (get0 (memtype m) sp)) m) as ->.
  { unfold WRITE_WORD, SET_WORD_CYCLES. apply clean_then; [apply clean_memtype16|]. intros t m1 H1.
    apply clean_then; [apply clean_when, clean_goto|]. intros _ m2 H2.
    apply clean_then; [unfold access_cycles; trap_auto|]. intros _ m3 H3.
    assert (same_regs m m3) as (_ & _ & H) by eauto using same_regs_trans.
    rewrite Hu, SET_WORD_plain by (rewrite H; exact Hs). rewrite H. done. }
  assert (clean (P:=P) (t ← memtype16 sp; _ ← when (t &? BP_WRITE) (goto Ltrap); _ ← access_cycles 4 sp;
    _ ← memtype_at sp; plain_store sp (u16 v) (get0 (memtype m) sp))) as [_ Hc].
  { unfold access_cycles, plain_store. trap_auto. }
  apply Hc.
Qed.
Lemma precise_call t : clean t → precise (call t).
Proof.
  intros Ht m l m' Hs E. set (sp := u16 (reg16 m 7 - 2)).
  assert (precise (t ← t; _ ← put_pc t; _ ← check_pc;
    _ ← modify (λ m, set_board (frame_begin sp 0 m) m); SET_REG16 7 sp)) as Hp by trap_auto.
  assert (precise (WRITE_WORD sp (pc m))) as Hw by trap_auto.
  change ((_ ← WRITE_WORD sp (pc m); t ← t; _ ← put_pc t; _ ← check_pc;
    _ ← modify (λ m, set_board (frame_begin sp 0 m) m); SET_REG16 7 sp) m = Goto l m') in E.
  unfold mbind at 1, M_bind at 1 in E.
  destruct (WRITE_WORD sp (pc m) m) as [u m1|l1 m1| | |] eqn:Ew; try done.
  - apply clean_push in Ew; [|done|exact Hs].
    exact (same_regs_trans _ _ _ Ew (Hp _ _ _ (same_regs_stack _ _ Ew Hs) E)).
  - injection E as <- <-. exact (Hw _ _ _ Hs Ew).
Qed.
Lemma total_switch_if_sp a b : total (P:=P) (switch_if_sp a b).
Proof. unfold switch_if_sp. trap_auto. Qed.
Lemma clean_switch_if_sp a b : clean (P:=P) (switch_if_sp a b).
Proof. unfold switch_if_sp. trap_auto. Qed.
Local Hint Resolve precise_call total_switch_if_sp clean_switch_if_sp : trap.

Lemma clean_bitops_test hi op a b : bitops_test hi = Some op → clean (P:=P) (op a b).
Proof.
  unfold bitops_test. intros Ho.
  repeat case_match; simplify_eq; unfold BTst, BTstI, BOr, BXor, BAnd, BLd; trap_auto.
Qed.
Lemma clean_bitops_modify hi op a b : bitops_modify hi = Some op → clean (P:=P) (op a b).
Proof.
  unfold bitops_modify. intros Ho.
  repeat case_match; simplify_eq;
    unfold BSet, BNot, BClr, BSt, BSetI, BNotI, BClrI; trap_auto.
Qed.
Local Hint Resolve clean_bitops_test clean_bitops_modify : trap.
Lemma precise_bit_mem_op nr hi a b c : precise (P:=P) (bit_mem_op nr hi a b c).
Proof. unfold bit_mem_op. trap_auto. Qed.
Lemma precise_bit_reg_test hi op a :
  bitops_test hi = Some op → precise (P:=P) (bit_reg_test op a).
Proof. intros. unfold bit_reg_test. trap_auto. Qed.
Lemma precise_bit_reg_modify hi op a :
  bitops_modify hi = Some op → precise (P:=P) (bit_reg_modify op a).
Proof. intros. unfold bit_reg_modify. trap_auto. Qed.
Lemma precise_store_or_load_byte a b : precise (P:=P) (store_or_load_byte a b).
Proof. unfold store_or_load_byte, setBRd. trap_auto. Qed.
Lemma precise_store_or_load_word a b : precise (P:=P) (store_or_load_word a b).
Proof. unfold store_or_load_word, setWRd. trap_auto. Qed.
Local Hint Resolve precise_bit_mem_op precise_store_or_load_byte
  precise_store_or_load_word : trap.

Ltac opcode :=
  unfold getWRo, getWRd, getWRs, getBRo, getBRd, getBRs, setWRd, setBRd,
    disable_irq_once in *;
  trap_auto;
  try (match goal with |- precise (call _) => apply precise_call end; trap_auto).
Lemma precise_shift_op f a : precise (P:=P) (shift_op f a).
Proof. unfold shift_op. opcode. Qed.
Lemma precise_logic_imm f a b : precise (P:=P) (logic_imm f a b).
Proof. unfold logic_imm. opcode. Qed.
Lemma precise_logic_reg f a : precise (P:=P) (logic_reg f a).
Proof. unfold logic_reg. opcode. Qed.
Local Hint Resolve precise_shift_op precise_logic_imm precise_logic_reg : trap.
Ltac bit_op lem hs :=
  match hs with
  | (?hs', ?h) => first [solve [eapply (lem h); reflexivity] | bit_op lem hs']
  | ?h => solve [eapply (lem h); reflexivity]
  end.
Local Hint Extern 2 (precise (bit_reg_test _ _)) =>
  bit_op precise_bit_reg_test (0x63, 0x73, 0x74, 0x75, 0x76, 0x77) : trap.
Local Hint Extern 2 (precise (bit_reg_modify _ _)) =>
  bit_op precise_bit_reg_modify (0x60, 0x61, 0x62, 0x67, 0x70, 0x71, 0x72) : trap.

Ltac split_opcode :=
  repeat match goal with
  | |- precise (match ?x with _ => _ end) =>
      lazymatch type of x with Z => destruct x | positive => destruct x end
  end.
Ltac solve_opcode :=
  first [ solve [eauto 3 with trap]
        | match goal with |- precise ?c => let h := get_head c in unfold h end; opcode ].
Lemma precise_implement : precise (P:=P) implement.
Proof. unfold implement. trap_auto. Qed.
Local Hint Resolve precise_implement : trap.
Lemma precise_exec_single opc : precise (P:=P) (exec_single opc).
Proof. unfold exec_single. cbv zeta. split_opcode; solve_opcode. Qed.
Local Hint Resolve precise_exec_single : trap.
Lemma precise_exec opc : precise (P:=P) (exec opc).
Proof. unfold exec. cbv zeta. split_opcode; solve_opcode. Qed.
End Opcodes.
#[export] Hint Resolve precise_exec clean_GET_OPCODE total_GET_WORD total_GET_WORD_CYCLES
  total_SET_WORD_CYCLES total_GET_REG16 total_SET_REG16 total_flags total_get_pc total_put_pc total_get_ccr
  total_put_ccr total_add_cycles : trap.
