(* ===== verification/Periph.v ===== *)
(** * Periph: [peripherals.c], time and interrupts

    The synchronisation of simulated with real time, reset, interrupt
    dispatch, the sleep instruction and the SYSCR register.  The registered
    peripherals, the host's clock and [select], the ROM loader and the debugger
    are the class [Peripherals]. *)
From S2P Require Export CpuSym.

Definition CYCLES_PER_USEC : Z := 16.
Definition SLOW_DOWN : Z := 1.
Definition MAX_AUTONOMOUS_CYCLES : Z := CYCLES_PER_USEC * 100000.
Definition SYSCR_SSBY : Z := 0x80.
Definition SYSCR_STS : Z := 0x70.

(** The static variables of [peripherals.c]. *)
Record periph_state := PeriphState {
  lastusecs : Z; lastcycles : Z; nextsleep : Z; startusecs : Z;
  syscr : Z; stopped : Z; sleeping : Z }.

Definition set_times (us cy : Z) (s : periph_state) : periph_state :=
  PeriphState us cy (nextsleep s) (startusecs s) (syscr s) (stopped s) (sleeping s).
Definition set_nextsleep (v : Z) (s : periph_state) : periph_state :=
  PeriphState (lastusecs s) (lastcycles s) v (startusecs s) (syscr s) (stopped s) (sleeping s).
Definition set_startusecs (v : Z) (s : periph_state) : periph_state :=
  PeriphState (lastusecs s) (lastcycles s) (nextsleep s) v (syscr s) (stopped s) (sleeping s).
Definition put_syscr (v : Z) (s : periph_state) : periph_state :=
  PeriphState (lastusecs s) (lastcycles s) (nextsleep s) (startusecs s) v (stopped s) (sleeping s).
Definition set_stopped (v : Z) (s : periph_state) : periph_state :=
  PeriphState (lastusecs s) (lastcycles s) (nextsleep s) (startusecs s) (syscr s) v (sleeping s).
Definition set_sleeping (v : Z) (s : periph_state) : periph_state :=
  PeriphState (lastusecs s) (lastcycles s) (nextsleep s) (startusecs s) (syscr s) (stopped s) v.

(** *** The pure parts *)

(** The start of [synchronize_time]: whole microseconds move from the cycle
    counter to the microsecond counter. *)
Definition advance (now : Z) (s : periph_state) : periph_state :=
  let usecs := u64 (now - lastcycles s) / CYCLES_PER_USEC in
  set_times (u64 (lastusecs s + usecs * SLOW_DOWN))
            (u64 (lastcycles s + usecs * CYCLES_PER_USEC)) s.
Definition stop_time_step (now : Z) (s : periph_state) : periph_state :=
  let s := if stopped s =? 0
           then set_startusecs (u64 (startusecs s - now))
                  (set_times (u64 (lastusecs s - now)) (lastcycles s) s)
           else s in
  set_stopped (s32 (stopped s + 1)) s.
Definition cont_time_step (now : Z) (s : periph_state) : periph_state :=
  let s := set_stopped (s32 (stopped s - 1)) s in
  if stopped s =? 0 then
    let us := u64 (lastusecs s + now) in
    set_nextsleep us
      (set_startusecs (u64 (startusecs s + now)) (set_times us (lastcycles s) s))
  else s.
(** Bits 1 and 3 of SYSCR are read-only. *)
Definition set_syscr (value : Z) (s : periph_state) : periph_state :=
  put_syscr (value ^! ((syscr s ^! value) &! 0x0A)) s.
Definition get_syscr (s : periph_state) : Z := syscr s.
(** The wake-up time from software standby, by STS2-0. *)
Definition standby_cycles (syscr : Z) : Z :=
  match syscr &! SYSCR_STS with
  | 0x00 => 8192 | 0x10 => 16384 | 0x20 => 32768 | 0x30 => 65536
  | 0x40 | 0x50 => 131072
  | _ => 0
  end.

(** ** The interfaces *)

(** A registered peripheral; a null function pointer is [None].  [read_fd]
    gets the [do_reset] it may call. *)
Record peripheral_ops (P : Type) := PeripheralOps {
  id : Z;
  reset : option (M P unit);
  update_time : option (M P unit);
  read_fd : M P unit → M P unit;
  check_irq_op : option (M P Z) }.
Arguments PeripheralOps {P}. Arguments id {P}. Arguments reset {P}.
Arguments update_time {P}. Arguments read_fd {P}. Arguments check_irq_op {P}.

(** What [select] reports: the GUI's descriptor, the debugger's. *)
Record ready := Ready { gui_ready : bool; debugger_ready : bool }.

Class Peripherals (P : Type) := {
  periph_of : P → periph_state;
  with_periph : periph_state → P → P;
  peripherals : list (peripheral_ops P);
  (** [tv_sec * 1000000 + tv_usec] *)
  gettimeofday : M P Z;
  (** [select] with no timeout ([None]) or a timeout in microseconds; [None]:
      nothing ready, or an error. *)
  select : option Z → M P (option ready);
  (** the peripheral's letter, read from the GUI; [None]: end of file. *)
  read_id : M P (option Z);
  db_handlefd : M P unit;
  db_handletrap : M P unit;
  symbols_clear : M P unit;
  read_rom : M P unit }.

Section Periph.
Context {P : Type} `{!Peripherals P}.

Definition periph : M P periph_state := gets (λ m, periph_of (board m)).
Definition on_periph (f : periph_state → periph_state) : M P unit :=
  modify (λ m, set_board (with_periph (f (periph_of (board m))) (board m)) m).
Definition opt (c : option (M P unit)) : M P unit :=
  match c with Some c => c | None => mret tt end.

(** One pass of the body of [synchronize_time]; [rst] is the [do_reset] the
    read handlers call, which itself synchronises. *)
Definition synchronize_with (rst : M P unit) : M P unit :=
  now ← gets (λ m, cycles (clk m));
  _ ← on_periph (advance now);
  s ← periph;
  when ((lastusecs s >? nextsleep s) || negb (stopped s =? 0))
    (timeval_usec ← gettimeofday;
     let tosleep := if lastusecs s >? timeval_usec then lastusecs s - timeval_usec else 0 in
     ev ← select (if stopped s =? 0 then Some tosleep else None);
     _ ← match ev with
         | Some r =>
             _ ← when (gui_ready r)
               (i ← read_id;
                match i with
                | None => halt
                | Some i =>
                    for_each (λ p, when (id p =? i) (read_fd p rst)) peripherals
                end);
             when (debugger_ready r) db_handlefd
         | None => mret tt
         end;
     on_periph (λ s, set_nextsleep (u64 (lastusecs s + 1000)) s)).

Definition update_times : M P unit :=
  for_each (λ p, opt (update_time p)) peripherals.
Definition reset_all : M P unit := for_each (λ p, opt (reset p)) peripherals.

Context `{!Board P}.

(** [do_reset], around the [synchronize_time] it calls. *)
Definition do_reset_with (sync : M P unit) : M P unit :=
  _ ← modify (set_irq_disabled_one 1);
  _ ← put_ccr 0x80;
  _ ← reset_all;
  _ ← symbols_clear;
  _ ← read_rom;
  _ ← sync;
  _ ← update_times;
  _ ← add_cycles 1;
  _ ← modify (set_db_trap 0);
  p ← GET_WORD_CYCLES 0;
  put_pc p.
(** The knot: [synchronize_time] may read a reset command, whose [do_reset]
    synchronises again.  [depth] bounds the nesting. *)
Fixpoint synchronize_time (depth : nat) : M P unit :=
  match depth with
  | O => blocked
  | S depth => synchronize_with (do_reset_with (synchronize_time depth))
  end.
Definition do_reset (depth : nat) : M P unit :=
  do_reset_with (synchronize_time depth).
Definition wait_peripherals (depth : nat) : M P unit :=
  _ ← synchronize_time depth; update_times.

Definition stop_time : M P unit := now ← gettimeofday; on_periph (stop_time_step now).
Definition cont_time : M P unit := now ← gettimeofday; on_periph (cont_time_step now).

(** ** Interrupts *)

(** The smallest interrupt number the peripherals raise, 255 when none. *)
Fixpoint poll_irqs (l : list (peripheral_ops P)) (selirq : Z) : M P Z :=
  match l with
  | [] => mret selirq
  | p :: l =>
      selirq ← match check_irq_op p with
               | Some c => irq ← c; mret (if irq <? selirq then irq else selirq)
               | None => mret selirq
               end;
      poll_irqs l selirq
  end.

(** Interrupt [selirq] is taken: push pc and ccr, mask, jump. *)
Definition enter_irq (selirq : Z) : M P unit :=
  irqcycles ← gets (λ m, cycles (clk m));
  _ ← prefetch;
  r7 ← GET_REG16 7;
  let sp := u16 (r7 - 4) in
  p ← get_pc;
  _ ← SET_WORD_CYCLES (sp + 2) p;
  c ← get_ccr;
  _ ← SET_WORD_CYCLES sp ((c <<! 8) |! c);
  _ ← SET_REG16 7 sp;
  _ ← flags (λ c, c |! 0x80);
  v ← GET_WORD_CYCLES (selirq * 2);
  _ ← put_pc v;
  tmpcycles ← gets (λ m, cycles (clk m));
  _ ← modify (λ m, set_clk (set_cycles irqcycles (clk m)) m);
  _ ← modify (λ m, set_board (frame_begin (u16 (sp + 2)) 1 m) m);
  modify (λ m, set_clk (set_cycles tmpcycles (clk m)) m).

Definition schedule_max : M P unit :=
  _ ← modify (λ m, set_clk (set_next_timer_cycle
        (add_to_cycle (cycles (clk m)) MAX_AUTONOMOUS_CYCLES) (clk m)) m);
  modify (λ m, set_clk (set_next_nmi_cycle
        (add_to_cycle (cycles (clk m)) MAX_AUTONOMOUS_CYCLES) (clk m)) m).

Definition check_irq (depth : nat) : M P bool :=
  _ ← schedule_max;
  _ ← wait_peripherals depth;
  selirq ← poll_irqs peripherals 255;
  c ← get_ccr;
  if selirq <? (if c &? 0x80 then 4 else 255) then
    if selirq =? 0 then
      _ ← modify (λ m, set_clk (set_cycles (next_nmi_cycle (clk m)) (clk m)) m);
      _ ← do_reset depth;
      mret true
    else
      _ ← enter_irq selirq;
      mret true
  else mret false.

(** The debugger holds the processor while [db_trap] is set. *)
Definition periph_handletrap_with (depth : nat) (fuel : positive) : M P unit :=
  _ ← stop_time;
  _ ← db_handletrap;
  t ← gets db_trap;
  _ ← when (negb (t =? 0))
    (do_while fuel (_ ← synchronize_time depth; t ← gets db_trap; mret (negb (t =? 0))));
  cont_time.

(** One turn of the waiting loop of [cpu_sleep]. *)
Definition sleep_turn (depth : nat) (wait : M P unit) : M P bool :=
  t ← gets db_trap;
  if negb (t =? 0) then _ ← (p ← get_pc; put_pc (p - 2)); mret false
  else
    _ ← wait;
    fired ← check_irq depth;
    s ← periph;
    mret (negb fired && negb (sleeping s =? 0)).
Definition skip_to_timer : M P unit :=
  modify (λ m, set_clk (set_cycles
    (if ccr m &? 0x80 then next_nmi_cycle (clk m) else next_timer_cycle (clk m))
    (clk m)) m).
Definition cpu_sleep_with (depth : nat) (fuel : positive) : M P unit :=
  _ ← on_periph (set_sleeping 1);
  s ← periph;
  _ ← (if negb (syscr s &? SYSCR_SSBY) then
         do_while fuel (sleep_turn depth skip_to_timer)
       else
         _ ← stop_time;
         _ ← do_while fuel (sleep_turn depth (mret tt));
         cont_time);
  s ← periph;
  _ ← when (syscr s &? SYSCR_SSBY)
    (_ ← modify (λ m, set_clk (set_cycles
           (add_to_cycle (cycles (clk m)) (standby_cycles (syscr s))) (clk m)) m);
     reset_all);
  on_periph (set_sleeping 0).

(** The GUI's command letter to the peripheral [P]: ['R'] resets.  The reply
    to ['D'] is output only. *)
Definition periph_read_fd (cmd : M P Z) (rst : M P unit) : M P unit :=
  c ← cmd;
  if c =? 82 then _ ← rst; on_periph (set_sleeping 0) else mret tt.
End Periph.

(** ** Saving and loading *)

(** [htonl] on a little-endian host; its argument is converted to [uint32]. *)
Definition htonl (x : Z) : Z :=
  let x := u32 x in
  ((x &! 0xff) <<! 24) |! (((x >>! 8) &! 0xff) <<! 16) |!
  (((x >>! 16) &! 0xff) <<! 8) |! (x >>! 24).
Definition htons (x : Z) : Z := let x := u16 x in ((x &! 0xff) <<! 8) |! (x >>! 8).

Record periph_save_type := PeriphSave {
  sv_wait_states : Z; sv_cycles : Z; sv_next_timer_cycle : Z;
  sv_next_nmi_cycle : Z; sv_db_trap : Z; sv_reg : list Z; sv_pc : Z;
  sv_ccr : Z; sv_syscr : Z }.

Section Save.
Context {P : Type} `{!Peripherals P}.
Definition periph_save (m : machine P) : periph_save_type :=
  let s := periph_of (board m) in
  PeriphSave (s32 (htonl (wait_states m))) (htonl (cycles (clk m)))
    (htonl (next_timer_cycle (clk m))) (htonl (next_nmi_cycle (clk m)))
    (s32 (htonl (db_trap m))) (reg m)
    (htons (if sleeping s =? 0 then pc m else pc m - 2)) (ccr m) (syscr s).
Definition periph_load (d : periph_save_type) (m : machine P) : machine P :=
  let m := set_pc (htons (sv_pc d)) (set_reg (sv_reg d) m) in
  let m := set_ccr (sv_ccr d) m in
  let s := put_syscr (sv_syscr d) (periph_of (board m)) in
  let m := set_wait_states (s32 (htonl (sv_wait_states d))) m in
  let m := set_clk (Clock (htonl (sv_cycles d)) (htonl (sv_next_timer_cycle d))
                      (htonl (sv_next_nmi_cycle d))) m in
  let m := set_db_trap (s32 (htonl (sv_db_trap d))) m in
  let s := set_times 0 (cycles (clk m)) (set_sleeping 0 s) in
  set_board (with_periph s (board m)) m.
End Save.
