(* ===== verification/PeriphProps.v ===== *)
(** * PeriphProps: interrupts, time keeping and saving *)
From Stdlib Require Import Sorting.Sorted.
From S2P Require Export Periph CpuProps.

(** ** Interrupt entry and return *)
Section Irq.
Context {P : Type} `{BoardOk P}.
Implicit Types m : machine P.

(** Reading a word of memory that a store elsewhere did not touch. *)
Lemma word_at_put_word_ne m a b v :
  b + 1 < a ∨ a + 1 < b → word_at (put_word a v m) b = word_at m b.
Proof.
  intros Hd. unfold word_at, put_word. cbn [memory set_memory].
  rewrite !get0_insert_ne by lia. done.
Qed.

Lemma even_succ_word a : word a → Z.even a = true → word (a + 1).
Proof.
  intros Ha He. destruct (decide (a = 65535)) as [->|]; [done|].
  unfold word in *. lia.
Qed.
Lemma executable_next m a : executable m a → word (a + 1).
Proof. intros (? & ? & _). apply even_succ_word; done. Qed.

(** What interrupt entry changes, the clock and the board apart. *)
Definition irq_frame (sp v : Z) m : machine P :=
  set_pc v (set_ccr (u8 (ccr m |! 0x80))
    (put_reg16 7 sp
      (put_word sp ((ccr m <<! 8) |! ccr m) (put_word (sp + 2) (pc m) m)))).

(** Room for the four bytes of the frame below [sp + 4], clear of the vector
    of interrupt [n], whose handler can be executed. *)
Record irq_ready m n : Prop := {
  ir_sp : 0 <= reg16 m 7 - 4;
  ir_w0 : writable16 m (reg16 m 7 - 4);
  ir_w1 : writable16 m (reg16 m 7 - 2);
  ir_pc : executable m (pc m);
  ir_vec : executable m (n * 2);
  ir_clear : n * 2 + 1 < reg16 m 7 - 4 }.

Lemma run_enter_irq m n :
  wf m → irq_ready m n →
  ∃ c b, enter_irq n m =
    Done tt (set_clk c (set_board b
      (irq_frame (reg16 m 7 - 4) (word_at m (n * 2)) m))).
Proof.
  intros Hm Hr. destruct Hr as [Hsp W0 W2 Hxp Hxv Hcl]. pose proof (reg16_word m 7 Hm) as H7.
  pose proof (wf_pc m Hm) as Hpc. pose proof (wf_ccr m Hm) as Hcc.
  assert (word ((ccr m <<! 8) |! ccr m)) as Hcw by (apply word_join; done).
  set (sp := reg16 m 7 - 4) in *.
  assert (reg16 m 7 - 2 = sp + 2) as Esp by (unfold sp; lia). rewrite Esp in *.
  unfold enter_irq. run_by reflexivity.
  run_by (apply run_prefetch; [done|exact (executable_next _ _ Hxp)]).
  run_by (apply run_GET_REG16). change (reg16 (tick _ m) 7) with (reg16 m 7).
  fold sp. rewrite (u16_id sp) by (unfold sp in *; width_lia).
  run_by reflexivity.
  run_by (apply run_SET_WORD_CYCLES; [done|apply W2|apply W2]).
  run_by reflexivity.
  run_by (apply run_SET_WORD_CYCLES; [done|apply W0|apply W0]).
  run_by reflexivity. run_by reflexivity.
  run_by (apply run_GET_WORD_CYCLES;
    [exact (executable_next _ _ Hxv)|exact Hxv]).
  match goal with |- context [put_pc ?v] =>
    replace v with (word_at m (n * 2)) end.
  2: { symmetry.
       transitivity (word_at (put_word sp ((ccr m <<! 8) |! ccr m)
         (put_word (sp + 2) (pc m) m)) (n * 2)); [apply word_at_memory; reflexivity|].
       rewrite !word_at_put_word_ne by lia. done. }
  run_by reflexivity.
  rewrite (u16_id (word_at m (n * 2))) by (apply word_join; apply get0_byte, Hm).
  do 3 run_by reflexivity.
  match goal with |- context [modify ?f ?x] =>
    exists (clk (f x)), (board (f x)); apply (f_equal (Done tt));
    apply (machine_ext _ (f x)); reflexivity
  end.
Qed.

(** The stack pointer and the frame that an interrupt entry leaves. *)
Lemma irq_frame_words m n c b :
  wf m → irq_ready m n →
  let sp := reg16 m 7 - 4 in
  let m1 := set_clk c (set_board b (irq_frame sp (word_at m (n * 2)) m)) in
  reg16 m1 7 = sp ∧ word_at m1 sp = (ccr m <<! 8) |! ccr m ∧ word_at m1 (sp + 2) = pc m.
Proof.
  intros Hm Hr sp m1. pose proof (wf_pc m Hm) as Hpc. pose proof (wf_ccr m Hm) as Hcc.
  assert (word ((ccr m <<! 8) |! ccr m)) as Hcw by (apply word_join; done).
  pose proof (reg16_word m 7 Hm) as H7. pose proof (wf_reg_length m Hm) as Hl.
  set (mem := put_word sp ((ccr m <<! 8) |! ccr m) (put_word (sp + 2) (pc m) m)).
  assert (memory m1 = memory mem) as Emem by reflexivity.
  split_and!.
  - transitivity (reg16 (put_reg16 7 sp m) 7); [apply reg16_reg; reflexivity|].
    apply reg16_put; [done|lia|destruct Hr; unfold sp in *; width_lia].
  - rewrite (word_at_memory m1 mem) by done. apply word_at_put_word. done.
  - rewrite (word_at_memory m1 mem) by done. unfold mem.
    rewrite word_at_put_word_ne by lia. apply word_at_put_word. done.
Qed.

(** C3: taking interrupt [n] and returning from it with RTE. *)
Theorem irq_return m n :
  wf m → irq_ready m n →
  readable16 m (reg16 m 7 - 4) → readable16 m (reg16 m 7 - 2) →
  executable m (word_at m (n * 2)) →
  ∃ m', (enter_irq n ≫= λ _, RtE) m = Done tt m' ∧
    pc m' = pc m ∧ ccr m' = ccr m ∧ reg m' = reg m ∧ memtype m' = memtype m ∧
    ∀ a, ¬ (reg16 m 7 - 4 <= a < reg16 m 7) → get0 (memory m') a = get0 (memory m) a.
Proof.
  intros Hm Hr Hr0 Hr2 Hx.
  pose proof (wf_pc m Hm) as Hpc. pose proof (wf_ccr m Hm) as Hcc.
  destruct (run_enter_irq m n Hm Hr) as (c & b & E).
  destruct (irq_frame_words m n c b Hm Hr) as (E7 & W0 & W2).
  run_by (exact E). clear E.
  set (m1 := set_clk c (set_board b _)) in *. set (sp := reg16 m 7 - 4) in *.
  assert (reg16 m 7 - 2 = sp + 2) as Esp by (unfold sp; lia). rewrite Esp in *.
  unfold RtE.
  run_by (apply run_prefetch; [exact Hx|exact (executable_next _ _ Hx)]).
  run_by reflexivity. run_by (apply run_GET_REG16). run_by reflexivity.
  match goal with |- context [reg16 ?x 7] =>
    replace (reg16 x 7) with (reg16 m1 7) by (apply reg16_reg; reflexivity) end.
  rewrite E7.
  run_by (apply run_READ_WORD; [apply Hm|exact Hr0]).
  match goal with |- context [word_at ?x sp] =>
    replace (word_at x sp) with (word_at m1 sp) by (apply word_at_memory; reflexivity) end.
  rewrite W0. run_by reflexivity.
  run_by (apply run_READ_WORD; [apply Hm|exact Hr2]).
  match goal with |- context [word_at ?x (sp + 2)] =>
    replace (word_at x (sp + 2)) with (word_at m1 (sp + 2))
      by (apply word_at_memory; reflexivity) end.
  rewrite W2. run_by reflexivity. rewrite (u16_id (pc m)) by done.
  run_by (apply run_check_pc; apply Hr).
  eexists. split; [reflexivity|]. repeat split.
  - change (u8 (Z.shiftr (Z.lor (Z.shiftl (ccr m) 8) (ccr m)) 8) = ccr m).
    rewrite join_bytes, Z.shiftr_div_pow2 by (done || lia). width_lia.
  - rewrite <- (f_equal reg (put_reg16_id m 7 Hm ltac:(lia))).
    replace (sp + 4) with (reg16 m 7) by (unfold sp; lia).
    exact (f_equal reg (put_reg16_twice 7 (reg16 m 7) sp m ltac:(lia))).
  - intros a Ha.
    change (get0 (memory (irq_frame sp (word_at m (n * 2)) m)) a = get0 (memory m) a).
    unfold irq_frame, put_word, put_reg16.
    cbn [memory set_memory set_reg set_ccr set_pc].
    rewrite !get0_insert_ne by (unfold sp in *; lia). done.
Qed.
End Irq.

(** ** Time keeping *)

(** C7: however often and at whatever cycle counts the emulator synchronises,
    the microsecond counter ends where a single synchronisation at the last
    cycle count would have put it; no fraction of a microsecond is lost. *)
Theorem advance_exact nows now s :
  qword (lastusecs s) → 0 <= lastcycles s →
  Sorted Z.le (lastcycles s :: nows ++ [now]) →
  lastusecs s + (now - lastcycles s) < 18446744073709551616 → now < 18446744073709551616 →
  let s' := fold_left (λ s n, advance n s) (nows ++ [now]) s in
  lastusecs s' = lastusecs s + (now - lastcycles s) / 16 ∧
  lastcycles s' = now - (now - lastcycles s) mod 16.
Proof.
  intros Hu Hc Hs Hmax Hnow s'. subst s'.
  revert s Hu Hc Hs Hmax. induction nows as [|n nows IH]; intros s Hu Hc Hs Hmax.
  - apply Sorted_inv in Hs as [_ Hd]. inversion Hd; subst.
    cbn -[Z.div Z.modulo]. unfold advance, CYCLES_PER_USEC, SLOW_DOWN.
    cbn [lastusecs lastcycles set_times]. width_lia.
  - cbn [app fold_left].
    assert (lastcycles s <= n ∧ n <= now ∧ Sorted Z.le (n :: nows ++ [now])) as (H1 & H2 & H3).
    { apply Sorted_inv in Hs as [Hs Hd]. inversion Hd; subst. split; [done|].
      split; [|done]. apply Sorted_StronglySorted in Hs; [|intros ???; lia].
      apply StronglySorted_inv in Hs as [_ Hf]. rewrite Forall_forall in Hf.
      apply Hf. set_solver. }
    assert (lastcycles (advance n s) = n - (n - lastcycles s) mod 16 ∧
            lastusecs (advance n s) = lastusecs s + (n - lastcycles s) / 16) as [E1 E2].
    { unfold advance, CYCLES_PER_USEC, SLOW_DOWN. cbn [lastusecs lastcycles set_times].
      width_lia. }
    assert (Sorted Z.le (lastcycles (advance n s) :: nows ++ [now])) as Hs'.
    { rewrite E1. apply Sorted_inv in H3 as [H3 Hd]. constructor; [done|].
      pose proof (Z.mod_pos_bound (n - lastcycles s) 16 ltac:(lia)).
      inversion Hd as [|? ? Hle]; constructor. lia. }
    specialize (IH (advance n s)). rewrite E1, E2 in IH. rewrite E1 in Hs'.
    destruct IH as [-> ->]; [width_lia|width_lia|done|width_lia|].
    split; width_lia.
Qed.

(** Calls of [stop_time] and [cont_time], with the host time of each. *)
Inductive time_call := Stop (now : Z) | Cont (now : Z).
Definition run_time_call (s : periph_state) (c : time_call) : periph_state :=
  match c with Stop now => stop_time_step now s | Cont now => cont_time_step now s end.
Definition run_time_calls (s : periph_state) (l : list time_call) : periph_state :=
  fold_left run_time_call l s.

(** Properly nested calls. *)
Inductive nested : list time_call → Prop :=
  | nested_nil : nested []
  | nested_block t l t' l' :
      nested l → nested l' → nested (Stop t :: l ++ Cont t' :: l').

Lemma nested_inner l s :
  nested l → 0 < stopped s → stopped s + Z.of_nat (length l) < 2147483648 →
  run_time_calls s l = s.
Proof.
  intros Hn. revert s. induction Hn as [|t l t' l' Hl IHl Hl' IHl']; intros s Hs Hb; [done|].
  simpl in Hb. rewrite length_app in Hb. simpl in Hb.
  unfold run_time_calls. cbn [fold_left]. rewrite fold_left_app. cbn [fold_left run_time_call].
  assert (stop_time_step t s = set_stopped (stopped s + 1) s) as ->.
  { unfold stop_time_step. destruct (Z.eqb_spec (stopped s) 0); [lia|].
    rewrite s32_id by lia. done. }
  fold (run_time_calls (set_stopped (stopped s + 1) s) l).
  rewrite IHl by (cbn [stopped set_stopped]; lia).
  assert (cont_time_step t' (set_stopped (stopped s + 1) s) = s) as ->.
  { unfold cont_time_step. cbn [stopped set_stopped].
    rewrite s32_id by lia. replace (stopped s + 1 - 1) with (stopped s) by lia.
    destruct (Z.eqb_spec (stopped s) 0); [lia|]. destruct s; done. }
  apply IHl'; lia.
Qed.

(** C8: [stop_time] and [cont_time] may be nested: around any properly nested
    calls, the outermost pair moves the microsecond counter by exactly the host
    time that passed between them, so simulated time stands still. *)
Theorem stop_cont_frozen t l t' s :
  nested l → stopped s = 0 → Z.of_nat (length l) < 2147483647 →
  let s' := run_time_calls s (Stop t :: l ++ [Cont t']) in
  stopped s' = 0 ∧ lastusecs s' = u64 (lastusecs s + (t' - t)) ∧
  startusecs s' = u64 (startusecs s + (t' - t)) ∧
  lastcycles s' = lastcycles s ∧ nextsleep s' = lastusecs s'.
Proof.
  intros Hn Hs Hb s'. subst s'. unfold run_time_calls. cbn [fold_left].
  rewrite fold_left_app. cbn [fold_left run_time_call].
  unfold stop_time_step. rewrite Hs.
  change (0 =? 0) with true. cbv iota zeta. cbn [stopped set_times set_startusecs].
  rewrite Hs. change (s32 (0 + 1)) with 1.
  fold (run_time_calls (set_stopped 1 (set_startusecs (u64 (startusecs s - t))
    (set_times (u64 (lastusecs s - t)) (lastcycles s) s))) l).
  rewrite nested_inner by (cbn [stopped set_stopped]; done || lia).
  unfold cont_time_step. cbn [stopped set_stopped].
  change (s32 (1 - 1)) with 0. change (0 =? 0) with true. cbv iota zeta.
  cbn [stopped set_stopped set_nextsleep set_startusecs set_times lastusecs startusecs
    lastcycles nextsleep]. repeat split; width_lia.
Qed.

(** ** Saving and loading *)
Lemma four_bytes a b c d :
  byte b → byte c → byte d →
  Z.lor (Z.lor (Z.lor (Z.shiftl a 24) (Z.shiftl b 16)) (Z.shiftl c 8)) d =
    ((a * 256 + b) * 256 + c) * 256 + d.
Proof.
  intros Hb Hc Hd.
  change 24 with (8 + 8 + 8). change 16 with (8 + 8).
  rewrite <- !Z.shiftl_shiftl by lia. rewrite <- !Z.shiftl_lor.
  rewrite !join_bytes by done. done.
Qed.

Lemma htonl_arith x :
  htonl x = ((x mod 256 * 256 + (x / 256) mod 256) * 256 + (x / 65536) mod 256) * 256
            + (x / 16777216) mod 256.
Proof.
  unfold htonl. rewrite !land_255, !Z.shiftr_div_pow2 by lia. simpl (2 ^ _).
  rewrite four_bytes by width_lia. width_lia.
Qed.

Lemma htonl_bound x : dword (htonl x).
Proof. rewrite htonl_arith. width_lia. Qed.
Lemma htonl_twice x : htonl (htonl x) = u32 x.
Proof. rewrite (htonl_arith (htonl x)), htonl_arith. width_lia. Qed.
Lemma htons_twice x : htons (htons x) = u16 x.
Proof.
  assert (∀ x, htons x = x mod 256 * 256 + (x / 256) mod 256) as E.
  { intros y. unfold htons. rewrite land_255, Z.shiftr_div_pow2 by lia.
    rewrite join_bytes by width_lia. width_lia. }
  rewrite (E (htons x)), E. width_lia.
Qed.

Section SaveProps.
Context {P : Type} `{!Peripherals P}.
(** What the board keeps: writing then reading the peripheral state. *)
Context (periph_with : ∀ s b, periph_of (with_periph s b) = s).

(** Loading a saved processor state gives back the registers, the flags,
    SYSCR, the trap and wait-state variables and the program counter (of the
    sleep instruction itself, when the processor slept); of the 64-bit cycle
    counters only the low 32 bits survive, because they are written with
    [htonl]. *)
Theorem periph_save_load (m m' : machine P) :
  word (pc m) → -2147483648 <= wait_states m < 2147483648 →
  -2147483648 <= db_trap m < 2147483648 →
  let r := periph_load (periph_save m) m' in
  reg r = reg m ∧ ccr r = ccr m ∧ wait_states r = wait_states m ∧
  db_trap r = db_trap m ∧ syscr (periph_of (board r)) = syscr (periph_of (board m)) ∧
  sleeping (periph_of (board r)) = 0 ∧
  pc r = (if sleeping (periph_of (board m)) =? 0 then pc m else u16 (pc m - 2)) ∧
  cycles (clk r) = cycles (clk m) mod 4294967296 ∧
  next_timer_cycle (clk r) = next_timer_cycle (clk m) mod 4294967296 ∧
  next_nmi_cycle (clk r) = next_nmi_cycle (clk m) mod 4294967296.
Proof.
  intros Hpc Hw Ht r. subst r. unfold periph_load, periph_save.
  cbn -[htonl htons s32 Z.eqb]. rewrite periph_with.
  assert (∀ x, -2147483648 <= x < 2147483648 → s32 (htonl (s32 (htonl x))) = x) as E.
  { intros x Hx. assert (htonl (s32 (htonl x)) = htonl (htonl x)) as ->.
    { pose proof (htonl_bound x). rewrite !(htonl_arith (s32 _)), (htonl_arith (htonl x)).
      width_lia. }
    rewrite htonl_twice. width_lia. }
  rewrite !E, !htonl_twice, htons_twice by done.
  cbn -[Z.eqb]. repeat split; try done.
  case_if; [rewrite u16_id by done|]; done.
Qed.
End SaveProps.
