(* ===== verification/Bare.v ===== *)
(** * Bare: a machine without peripherals

    A board with no ports, no motor and no profiler, whose host clock stands
    still: concrete programs run on it, and the theorems about the processor
    are tried on them. *)
From S2P Require Export PeriphProps CpuArith CpuTrap.

#[export] Instance bare_board : Board periph_state := {
  port_get _ := None;
  port_set _ := None;
  set_motor _ := mret tt;
  cpu_sleep := mret tt;
  debug_printf := mret tt;
  periph_handletrap := modify (set_db_trap 0);
  frame_begin _ _ m := board m;
  frame_end _ _ m := board m;
  frame_switch _ _ m := board m }.
#[export] Instance bare_inv : BoardInv periph_state := λ _, True.
#[export] Instance bare_ok : BoardOk periph_state.
Proof.
  constructor; try done; intros; try (apply keeps_ret; done).
  apply keeps_modify. intros ? []. constructor; done.
Qed.
#[export] Instance bare_peripherals : Peripherals periph_state := {
  periph_of s := s;
  with_periph s _ := s;
  peripherals := [];
  gettimeofday := mret 0;
  select _ := mret None;
  read_id := mret None;
  db_handlefd := mret tt;
  db_handletrap := mret tt;
  symbols_clear := mret tt;
  read_rom := mret tt }.

Definition bare_periph : periph_state := PeriphState 0 0 0 0 0x0b 0 0.

(** Words at an address, as bytes. *)
Fixpoint put_words (a : Z) (l : list Z) (mem : gmap Z Z) : gmap Z Z :=
  match l with
  | [] => mem
  | w :: l => put_words (a + 2) l (<[a + 1 := w &! 0xff]> (<[a := w >>! 8]> mem))
  end.

(** All of the memory is plain RAM. *)
Definition bare (regs : list Z) (p c : Z) (mem : gmap Z Z) : machine periph_state :=
  Machine regs p c mem ∅ (Clock 0 1600000 1600000) 0 0 0 0xffff 0 0 0 ∅ bare_periph.

Lemma bare_wf regs p c mem :
  length regs = 16%nat → Forall byte regs → word p → byte c →
  map_Forall (λ _ v, byte v) mem → wf (bare regs p c mem).
Proof.
  intros. constructor; try done. all: try apply map_Forall_empty.
Qed.

(** R0 = 0x1234, R1 = 0x0ff0, R7 = 0xfe00 *)
Definition demo_regs : list Z :=
  [0x12; 0x0f; 0; 0; 0; 0; 0; 0xfe; 0x34; 0xf0; 0; 0; 0; 0; 0; 0x00].
(** The vector of interrupt 4 and its handler; code at 0x8000. *)
Definition demo_memory : gmap Z Z :=
  put_words 8 [0x9000] (put_words 0x8000 [0x0898; 0x0e10; 0x5470] ∅).
Definition demo : machine periph_state := bare demo_regs 0x8000 0 demo_memory.

Lemma demo_wf : wf demo.
Proof.
  apply bare_wf; [done|repeat constructor; done|done|done|].
  apply (bool_decide_unpack _). vm_compute. exact I.
Qed.
#[export] Instance bare_functions : BoardFunctions periph_state.
Proof. constructor; intros; try apply clean_ret; try apply total_ret; done. Qed.
