(* ===== verification/Run.v ===== *)
(** * Run: the main loop [run_cpu] of [h8300.c]

    One turn of [while (1)]: the trap handling at its top, the interrupt check
    against the scheduled cycle, and one opcode.  A turn that leaves through
    [trap], [fault] or [illOpc] makes the next one start at that label. *)
From S2P Require Export Bare.

Section Run.
Context {P : Type} `{!Board P, !Peripherals P}.

(** [handletrap] and the code of the labels above it. *)
Definition restore_pc : M P unit := o ← gets oldpc; put_pc o.
Definition end_singlestep : M P unit :=
  s ← gets db_singlestep_pc;
  o ← gets oldpc;
  when (s =? o)
    (_ ← modify (set_db_singlestep_pc 0xffff);
     _ ← modify (set_db_singlestep 1);
     t ← gets db_singlestep_memtype;
     memtype_store o t).
Definition at_label (l : label) : M P unit :=
  match l with
  | Ltrap =>
      _ ← end_singlestep;
      _ ← modify (set_db_trap TRAP_EXCEPTION);
      restore_pc
  | Lfault => restore_pc
  | LillOpc => _ ← modify (set_db_trap ILLOPC_EXCEPTION); restore_pc
  end.
Definition turn_start (e : option label) : M P unit :=
  match e with
  | Some l => _ ← at_label l; periph_handletrap
  | None =>
      p ← get_pc;
      _ ← when (p &? 1) (modify (set_db_trap 10));
      t ← gets db_trap;
      s ← gets db_singlestep;
      when (negb (t =? 0) || negb (s =? 0))
        (_ ← when (negb (s =? 0))
           (_ ← modify (set_oldpc p); modify (set_db_trap TRAP_EXCEPTION));
         periph_handletrap)
  end.

(** The interrupt check; a single-stepping debugger gets a breakpoint behind
    the handler. *)
Definition timer_due (m : machine P) : bool :=
  (if ccr m &? 0x80 then next_nmi_cycle (clk m) else next_timer_cycle (clk m))
    <=? cycles (clk m).
Definition irq_turn (depth : nat) : M P unit :=
  s ← gets db_singlestep;
  if s =? 0 then _ ← check_irq depth; mret tt
  else
    p ← get_pc;
    _ ← modify (set_db_singlestep_pc p);
    _ ← check_irq depth;
    sp ← gets db_singlestep_pc;
    p ← get_pc;
    when (negb (sp =? p))
      (t ← memtype_at sp;
       _ ← modify (set_db_singlestep_memtype t);
       _ ← memtype_store sp (t |! MEMTYPE_BREAKPOINT);
       modify (set_db_singlestep 0)).

Definition count_opcode (opc : Z) : M P unit :=
  modify (λ m, set_opcstat
    (<[(opc >>! 8) := u32 (get0 (opcstat m) (opc >>! 8) + 1)]> (opcstat m)) m).
Definition opcode_turn : M P unit :=
  p ← get_pc;
  _ ← modify (set_oldpc p);
  opc ← GET_OPCODE;
  _ ← count_opcode opc;
  exec opc.

Definition turn (depth : nat) (e : option label) : M P unit :=
  _ ← turn_start e;
  d ← gets irq_disabled_one;
  if negb (d =? 0) then
    _ ← modify (set_irq_disabled_one 0);
    opcode_turn
  else
    due ← gets timer_due;
    if (due : bool) then irq_turn depth else opcode_turn.

(** Where the next turn starts. *)
Definition run_turn (depth : nat) (e : option label) : M P (option label) := λ m,
  match turn depth e m with
  | Done _ m' => Done None m'
  | Goto l m' => Done (Some l) m'
  | Halt => Halt
  | Undefined => Undefined
  | Blocked => Blocked
  end.
Fixpoint run_turns (depth : nat) (n : nat) (e : option label) : M P (option label) :=
  match n with
  | O => mret e
  | S n => e ← run_turn depth e; run_turns depth n e
  end.
(** [run_cpu], its first [n] turns. *)
Definition run_cpu (depth n : nat) : M P (option label) :=
  p ← get_pc;
  _ ← modify (set_oldpc p);
  _ ← modify (set_db_singlestep_pc 0xffff);
  _ ← do_reset depth;
  run_turns depth n None.
End Run.

(** What the peripherals promise to the main loop: they keep the machine
    well-formed. *)
Class PeripheralsOk (P : Type) `{!Peripherals P, !BoardInv P} := {
  with_periph_ok s b :
    board_ok b → syscr s = syscr (periph_of b) → board_ok (with_periph s b);
  gettimeofday_ok : keeps (λ _, True) gettimeofday;
  select_ok t : keeps (λ _, True) (select t);
  read_id_ok : keeps (λ _, True) read_id;
  db_handlefd_ok : keeps (λ _, True) db_handlefd;
  db_handletrap_ok : keeps (λ _, True) db_handletrap;
  symbols_clear_ok : keeps (λ _, True) symbols_clear;
  read_rom_ok : keeps (λ _, True) read_rom;
  reset_ok p c : p ∈ peripherals → reset p = Some c → keeps (λ _, True) c;
  update_time_ok p c : p ∈ peripherals → update_time p = Some c → keeps (λ _, True) c;
  read_fd_ok p c : p ∈ peripherals → keeps (λ _, True) c → keeps (λ _, True) (read_fd p c);
  check_irq_ok p c : p ∈ peripherals → check_irq_op p = Some c → keeps (λ _, True) c }.

Section RunOk.
Context {P : Type} `{!Board P, !BoardInv P, !BoardOk P, !Peripherals P, !PeripheralsOk P}.
Abbreviation ok c := (keeps (λ _, True) c).

Lemma keeps_on_periph f : (∀ s, syscr (f s) = syscr s) → ok (on_periph f).
Proof. intros Hf. apply keeps_set_board. intros m Hm. apply with_periph_ok; [apply Hm|apply Hf]. Qed.
Lemma stop_time_syscr now s : syscr (stop_time_step now s) = syscr s.
Proof. unfold stop_time_step. destruct (stopped s =? 0); reflexivity. Qed.
Lemma cont_time_syscr now s : syscr (cont_time_step now s) = syscr s.
Proof. unfold cont_time_step. cbv zeta. destruct (_ =? 0); reflexivity. Qed.
Lemma keeps_stop_time : ok stop_time.
Proof. apply (keeps_bind (λ _, True)); [apply gettimeofday_ok|]. intros. apply keeps_on_periph, stop_time_syscr. Qed.
Lemma keeps_cont_time : ok cont_time.
Proof. apply (keeps_bind (λ _, True)); [apply gettimeofday_ok|]. intros. apply keeps_on_periph, cont_time_syscr. Qed.
Lemma keeps_periph : ok periph.
Proof. apply keeps_gets. done. Qed.
Lemma keeps_pure_gets {A} (f : machine P → A) : ok (gets f).
Proof. apply keeps_gets. done. Qed.
Lemma keeps_opt c : (∀ x, c = Some x → ok x) → ok (opt c).
Proof. intros Hc. destruct c; [auto|]. apply keeps_ret. done. Qed.
Lemma keeps_reset_all : ok reset_all.
Proof. apply keeps_for_each. intros. apply keeps_opt. eauto using reset_ok. Qed.
Lemma keeps_update_times : ok update_times.
Proof. apply keeps_for_each. intros. apply keeps_opt. eauto using update_time_ok. Qed.
(** Updates of fields without an invariant, or of the clock. *)
Lemma keeps_set_clock f :
  (∀ m, wf m → clock_ok (f m)) → ok (modify (λ m, set_clk (f m) m)).
Proof. intros Hf. apply keeps_modify. intros m Hm. pose proof (Hf m Hm).
  destruct Hm. constructor; done. Qed.

Lemma keeps_set_irq_disabled_one v : ok (modify (set_irq_disabled_one v)).
Proof. apply keeps_modify. intros ? []. constructor; done. Qed.
Lemma keeps_set_db_singlestep v : ok (modify (set_db_singlestep v)).
Proof. apply keeps_modify. intros ? []. constructor; done. Qed.
Lemma keeps_set_oldpc v : word v → ok (modify (set_oldpc v)).
Proof. intros. apply keeps_modify. intros ? []. constructor; done. Qed.
Lemma keeps_set_db_singlestep_pc v : word v → ok (modify (set_db_singlestep_pc v)).
Proof. intros. apply keeps_modify. intros ? []. constructor; done. Qed.
Lemma keeps_set_db_singlestep_memtype v :
  byte v → ok (modify (set_db_singlestep_memtype v)).
Proof. intros. apply keeps_modify. intros ? []. constructor; done. Qed.
Lemma keeps_get_oldpc : keeps word (gets oldpc).
Proof. apply keeps_gets. intros ? []. done. Qed.
Lemma keeps_get_singlestep_pc : keeps word (gets db_singlestep_pc).
Proof. apply keeps_gets. intros ? []. done. Qed.
Lemma keeps_get_singlestep_memtype : keeps byte (gets db_singlestep_memtype).
Proof. apply keeps_gets. intros ? []. done. Qed.
Lemma keeps_get_cycles : keeps qword (gets (λ m : machine P, cycles (clk m))).
Proof. apply keeps_gets. intros ? []. apply wf_clk. Qed.
Lemma keeps_set_cycles v :
  qword v → ok (modify (λ m, set_clk (set_cycles v (clk m)) m)).
Proof.
  intros Hv. apply keeps_set_clock. intros m Hm.
  destruct (wf_clk m Hm) as (? & ? & ?). split_and!; done.
Qed.
Lemma keeps_count_opcode opc : ok (count_opcode opc).
Proof. apply keeps_modify. intros ? []. constructor; done. Qed.
Local Hint Resolve keeps_on_periph keeps_periph keeps_reset_all keeps_update_times
  keeps_set_irq_disabled_one keeps_set_db_singlestep keeps_set_oldpc
  keeps_set_db_singlestep_pc keeps_set_db_singlestep_memtype keeps_get_oldpc
  keeps_get_singlestep_pc keeps_get_singlestep_memtype keeps_get_cycles
  keeps_set_cycles keeps_count_opcode gettimeofday_ok select_ok read_id_ok
  db_handlefd_ok db_handletrap_ok symbols_clear_ok read_rom_ok
  keeps_GET_REG16 keeps_SET_REG16 keeps_flags keeps_prefetch keeps_GET_OPCODE
  keeps_exec : keeps.

Local Hint Resolve keeps_pure_gets | 100 : keeps.
Local Hint Extern 1 (word 65535) => split; done : keeps.

Lemma keeps_synchronize_with rst : ok rst → ok (synchronize_with rst).
Proof.
  intros Hr. unfold synchronize_with. code_auto.
  apply keeps_for_each. intros p Hp. code_auto. apply read_fd_ok; done.
Qed.
Lemma keeps_do_reset_with sync : ok sync → ok (do_reset_with sync).
Proof. intros. unfold do_reset_with. code_auto. Qed.
Lemma keeps_synchronize_time d : ok (synchronize_time d).
Proof.
  induction d as [|d IH]; cbn [synchronize_time]; [apply keeps_blocked|].
  apply keeps_synchronize_with, keeps_do_reset_with, IH.
Qed.
Local Hint Resolve keeps_synchronize_time keeps_do_reset_with : keeps.
Lemma keeps_do_reset d : ok (do_reset d).
Proof. apply keeps_do_reset_with, keeps_synchronize_time. Qed.
Lemma keeps_wait_peripherals d : ok (wait_peripherals d).
Proof. unfold wait_peripherals. code_auto. Qed.
Lemma keeps_poll_irqs l s :
  (∀ p, p ∈ l → p ∈ peripherals) → ok (poll_irqs l s).
Proof.
  revert s. induction l as [|p l IH]; intros s Hl; cbn [poll_irqs]; [code_auto|].
  apply (keeps_bind (λ _, True)).
  - destruct (check_irq_op p) as [c|] eqn:E; [|code_auto].
    apply (keeps_bind (λ _, True)); [|intros; code_auto].
    apply (check_irq_ok p); [|done]. apply Hl. set_solver.
  - intros. apply IH. set_solver.
Qed.
Lemma keeps_enter_irq n : ok (enter_irq n).
Proof. unfold enter_irq. code_auto. Qed.
Lemma keeps_schedule_max : ok schedule_max.
Proof.
  unfold schedule_max. apply (keeps_bind (λ _, True)); intros;
  apply keeps_set_clock; intros m Hm; destruct (wf_clk m Hm) as (? & ? & ?);
  split_and!; try done; apply u64_qword.
Qed.
Local Hint Resolve keeps_do_reset keeps_wait_peripherals keeps_enter_irq
  keeps_schedule_max : keeps.
Lemma keeps_check_irq d : ok (check_irq d).
Proof.
  unfold check_irq. code_auto.
  - apply keeps_poll_irqs. done.
  - apply keeps_set_clock. intros m Hm. destruct (wf_clk m Hm) as (? & ? & ?).
    split_and!; done.
Qed.
Local Hint Resolve keeps_check_irq keeps_stop_time keeps_cont_time : keeps.

(** The sleep instruction and the trap handler, for boards that use them. *)
Lemma keeps_sleep_turn d wait : ok wait → ok (sleep_turn d wait).
Proof. intros. unfold sleep_turn. code_auto. Qed.
Lemma keeps_skip_to_timer : ok skip_to_timer.
Proof.
  apply keeps_set_clock. intros m Hm. destruct (wf_clk m Hm) as (? & ? & ?).
  case_match; split_and!; done.
Qed.
Lemma keeps_cpu_sleep_with d fuel : ok (cpu_sleep_with d fuel).
Proof.
  unfold cpu_sleep_with. code_auto; try (apply keeps_do_while, keeps_sleep_turn; code_auto; apply keeps_skip_to_timer).
Qed.
Lemma keeps_periph_handletrap_with d fuel : ok (periph_handletrap_with d fuel).
Proof. unfold periph_handletrap_with. code_auto. apply keeps_do_while. code_auto. Qed.

Lemma keeps_at_label l : ok (at_label l).
Proof. destruct l; unfold at_label, end_singlestep, restore_pc; code_auto. Qed.
Local Hint Resolve keeps_at_label : keeps.
Lemma keeps_turn_start e : ok (turn_start e).
Proof. destruct e; unfold turn_start; code_auto. Qed.
Lemma keeps_irq_turn d : ok (irq_turn d).
Proof.
  unfold irq_turn. code_auto. apply keeps_memtype_store.
  apply byte_lor; [done|apply byte_const; done].
Qed.
Lemma keeps_opcode_turn : ok opcode_turn.
Proof. unfold opcode_turn. code_auto. Qed.
Local Hint Resolve keeps_turn_start keeps_irq_turn keeps_opcode_turn : keeps.
Lemma keeps_run_turn d e : keeps (λ _, True) (run_turn d e).
Proof.
  assert (ok (turn d e)) as Ht by (unfold turn; code_auto).
  intros m Hm. specialize (Ht m Hm). unfold run_turn.
  destruct (turn d e m); done.
Qed.
Local Hint Resolve keeps_run_turn : keeps.
Lemma keeps_run_turns d n e : keeps (λ _, True) (run_turns d n e).
Proof.
  revert e. induction n as [|n IH]; intros e; cbn [run_turns]; [code_auto|].
  apply (keeps_bind (λ _, True)); [apply keeps_run_turn|auto].
Qed.

Lemma keeps_run_cpu d n : keeps (λ _, True) (run_cpu d n).
Proof. unfold run_cpu. code_auto. apply keeps_run_turns. Qed.

(** Type safety of the processor, for any board.  Started on a well-formed machine,
    [run_cpu] keeps every register a byte, the program counter a word, the
    flags a byte, all 64 KB of memory and memory types bytes and the cycle
    counters 64-bit numbers, whatever opcodes it executes, whatever traps and
    interrupts it takes, for any number of turns. *)
Theorem run_cpu_wf d n m e m' :
  wf m → run_cpu d n m = Done e m' → wf m'.
Proof. intros Hm E. pose proof (keeps_run_cpu d n m Hm) as Hk. rewrite E in Hk. apply Hk. Qed.
End RunOk.
