(* ===== verification/RunProps.v ===== *)
(** * RunProps: traps, breakpoints and illegal opcodes in the main loop *)
From S2P Require Export CpuTrap Run.

Section TrapProps.
Context {P : Type} `{!Board P, !BoardInv P, !BoardFunctions P, !Peripherals P}.
Implicit Types m : machine P.

(** What traps being precise means: when an opcode leaves through one of the labels
    [trap], [fault] or [illOpc], the code at that label puts the program counter back to
    the opcode, every register still has the value it had before it, and [db_trap] tells
    the debugger why. *)
Definition traps_at m (l : label) m1 : Prop :=
  ∃ m2, at_label l m1 = Done tt m2 ∧ pc m2 = pc m ∧ reg m2 = reg m ∧
    match l with
    | Ltrap => db_trap m2 = TRAP_EXCEPTION
    | Lfault => db_trap m2 = db_trap m1
    | LillOpc => db_trap m2 = ILLOPC_EXCEPTION
    end.
Lemma traps_are_precise m l m1 :
  wf m → stack_in_memory m → opcode_turn m = Goto l m1 → traps_at m l m1.
Proof.
  intros Hm Hs E. pose proof (wf_pc m Hm) as Hpc. unfold traps_at.
  assert (reg m1 = reg m ∧ oldpc m1 = pc m) as [Hr Ho].
  { assert (precise (P:=P) (opc ← GET_OPCODE; _ ← count_opcode opc; exec opc)) as Hp.
    { unfold count_opcode. trap_auto. }
    destruct (Hp (set_oldpc (pc m) m) l m1 Hs E) as (H1 & H2 & _). exact (conj H1 H2). }
  destruct l; unfold at_label.
  - unfold end_singlestep, when, mbind, M_bind, gets, modify.
    destruct (Z.eqb_spec (db_singlestep_pc m1) (oldpc m1)) as [He|He].
    + unfold memtype_store. cbn [oldpc set_db_singlestep set_db_singlestep_pc].
      rewrite in_array_word by (rewrite Ho; done).
      eexists. split; [reflexivity|]. split_and!; [|exact Hr|reflexivity].
      change (u16 (oldpc m1) = pc m). rewrite Ho. apply u16_id. done.
    + eexists. split; [reflexivity|]. split_and!; [|exact Hr|reflexivity].
      change (u16 (oldpc m1) = pc m). rewrite Ho. apply u16_id. done.
  - eexists. split; [reflexivity|]. split_and!; [|exact Hr|reflexivity].
    change (u16 (oldpc m1) = pc m). rewrite Ho. apply u16_id. done.
  - eexists. split; [reflexivity|]. split_and!; [|exact Hr|reflexivity].
    change (u16 (oldpc m1) = pc m). rewrite Ho. apply u16_id. done.
Qed.
End TrapProps.
