(* ===== verification/Counter.v ===== *)
(** * Counter: the up-counter of the H8's timers, tick by tick

    The counters of both timer units count from 0 to [top].  On the clock edge
    after a match with register A or B the match flag is set; a match with a
    register selected for clearing restarts the counter at 0, otherwise it
    counts on, and wrapping at [top] sets the overflow flag.  This is the
    reference that the jumps of [timer16.c] and [timer8.c] are compared with. *)
From S2P Require Export Prelude.

Record counter := Counter {
  top : Z; match_a : Z; match_b : Z;
  clear_a : bool; clear_b : bool;
  flag_a : Z; flag_b : Z; flag_o : Z }.

Section Counter.
Context (k : counter).

Definition match_flags (a b o : bool) : Z :=
  (if a then flag_a k else 0) |! (if b then flag_b k else 0) |!
  (if o then flag_o k else 0).
Definition clears (n : Z) : bool :=
  (clear_a k && (n =? match_a k)) || (clear_b k && (n =? match_b k)).

(** One tick of the counter and its flag register. *)
Definition tick1 (st : Z * Z) : Z * Z :=
  let '(n, flags) := st in
  let wrap := negb (clears n) && (n =? top k) in
  (if clears n || wrap then 0 else n + 1,
   flags |! match_flags (n =? match_a k) (n =? match_b k) wrap).
Definition ticks (n : Z) (st : Z * Z) : Z * Z := Nat.iter (Z.to_nat n) tick1 st.

Lemma match_flags_lor a b o a' b' o' :
  match_flags a b o |! match_flags a' b' o' = match_flags (a || a') (b || b') (o || o').
Proof.
  unfold match_flags. apply Z.bits_inj'. intros i Hi. rewrite !Z.lor_spec.
  destruct a, b, o, a', b', o'; simpl orb; rewrite ?Z.bits_0;
  destruct (Z.testbit (flag_a k) i), (Z.testbit (flag_b k) i), (Z.testbit (flag_o k) i);
  reflexivity.
Qed.
Lemma match_flags_none t : t |! match_flags false false false = t.
Proof. apply Z.lor_0_r. Qed.
Lemma lor_flag_a t (b : bool) :
  (if b then t |! flag_a k else t) = t |! match_flags b false false.
Proof.
  unfold match_flags. destruct b; rewrite ?Z.lor_0_r; done.
Qed.
Lemma lor_flag_b t (b : bool) :
  (if b then t |! flag_b k else t) = t |! match_flags false b false.
Proof.
  unfold match_flags. destruct b; rewrite ?Z.lor_0_r, ?Z.lor_0_l; done.
Qed.
Lemma lor_flag_o t : t |! flag_o k = t |! match_flags false false true.
Proof. unfold match_flags. rewrite !Z.lor_0_l. done. Qed.

Lemma ticks_add n m st :
  0 <= n → 0 <= m → ticks (n + m) st = ticks m (ticks n st).
Proof.
  intros. unfold ticks. rewrite Z.add_comm, Z2Nat.inj_add, Nat.iter_add by lia. done.
Qed.
Lemma ticks_1 st : ticks 1 st = tick1 st.
Proof. done. Qed.

(** A counter that runs from [n] to [j] leaves the value [v] behind. *)
Definition passes (n j v : Z) : bool := (n <=? v) && (v <? j).
Definition passes_clear (n j : Z) : bool :=
  (clear_a k && passes n j (match_a k)) || (clear_b k && passes n j (match_b k)).

Lemma flags_ext (x x' t : Z) a b o a' b' o' :
  x = x' → a = a' → b = b' → o = o' →
  (x, t |! match_flags a b o) = (x', t |! match_flags a' b' o').
Proof. intros; subst; done. Qed.

(** Up to [j] without a clear or a wrap. *)
Lemma run_up n j t :
  0 <= n <= j → j <= top k → passes_clear n j = false →
  ticks (j - n) (n, t) =
    (j, t |! match_flags (passes n j (match_a k)) (passes n j (match_b k)) false).
Proof.
  intros [Hn Hj]. remember (j - n) as d eqn:Ed.
  assert (0 <= d) as Hd by lia. revert d Hd j Ed Hj.
  apply (natlike_ind (λ d, ∀ j, _ → _ → _ → _ → _)).
  - intros j Ed Hj Ht Hc. replace j with n by lia. unfold passes.
    replace ((n <=? match_a k) && (match_a k <? n)) with false by lia.
    replace ((n <=? match_b k) && (match_b k <? n)) with false by lia.
    rewrite match_flags_none. done.
  - intros d Hd IH j Ed Hj Ht Hc. unfold Z.succ in *.
    rewrite ticks_add, ticks_1 by lia. rewrite (IH (j - 1)); [|lia..|].
    2: { unfold passes_clear, passes in *. destruct (clear_a k), (clear_b k); lia. }
    unfold tick1.
    assert (clears (j - 1) = false) as ->.
    { unfold passes_clear, clears, passes in *.
      destruct (clear_a k), (clear_b k); lia. }
    replace (j - 1 =? top k) with false by lia. simpl.
    rewrite <- Z.lor_assoc, match_flags_lor.
    apply flags_ext; unfold passes; lia.
Qed.

(** The tick that clears: at the first match with a clearing register. *)
Lemma run_clear n v t :
  0 <= n <= v → v <= top k → passes_clear n v = false → clears v = true →
  ticks (v + 1 - n) (n, t) =
    (0, t |! match_flags (passes n (v + 1) (match_a k)) (passes n (v + 1) (match_b k)) false).
Proof.
  intros Hn Hv Hp Hc. replace (v + 1 - n) with ((v - n) + 1) by lia.
  rewrite ticks_add, ticks_1 by lia. rewrite run_up by (done || lia).
  unfold tick1. rewrite Hc. simpl. rewrite <- Z.lor_assoc, match_flags_lor.
  apply flags_ext; unfold passes; lia.
Qed.

(** The tick that wraps. *)
Lemma run_wrap n t :
  0 <= n <= top k → passes_clear n (top k + 1) = false →
  ticks (top k + 1 - n) (n, t) =
    (0, t |! match_flags (passes n (top k + 1) (match_a k))
               (passes n (top k + 1) (match_b k)) true).
Proof.
  intros Hn Hp. replace (top k + 1 - n) with ((top k - n) + 1) by lia.
  rewrite ticks_add, ticks_1 by lia. rewrite run_up; [|lia..|].
  2: { unfold passes_clear, passes in *. destruct (clear_a k), (clear_b k); lia. }
  unfold tick1.
  assert (clears (top k) = false) as ->.
  { unfold passes_clear, clears, passes in *.
      destruct (clear_a k), (clear_b k); lia. }
  rewrite Z.eqb_refl. simpl. rewrite <- Z.lor_assoc, match_flags_lor.
  apply flags_ext; unfold passes; lia.
Qed.

End Counter.
