(* ===== verification/Timer16.v ===== *)
(** * Timer16: the 16-bit free-running timer of [timer16.c]

    The emulator does not step the counter: [t16_update_time] jumps over all
    the ticks since the last call.  The jump is the tick-by-tick counter
    ([jump_is_ticks]), it always terminates, and [t16_check_next_cycle] schedules
    the next call early enough for every interrupt ([schedule_sound]). *)
From S2P Require Export Periph Counter.

Definition TCSR_OCFA : Z := 0x08.
Definition TCSR_OCFB : Z := 0x04.
Definition TCSR_OVF : Z := 0x02.
Definition TCSR_CCLRA : Z := 0x01.
Definition TOCR_OCRS : Z := 0x10.

Record t16 := T16 {
  frc : Z; ocra : Z; ocrb : Z;
  tcsr : Z; tier : Z; tcr : Z; tocr : Z;
  temp : Z; my_last_cycles : Z }.

(** [freq[4]] *)
Definition freq (i : Z) : Z :=
  match i with 0 => 1 | 1 => 3 | 2 => 5 | _ => 1 end.

Definition set_frc v s := T16 v (ocra s) (ocrb s) (tcsr s) (tier s) (tcr s) (tocr s) (temp s) (my_last_cycles s).
Definition set_ocra v s := T16 (frc s) v (ocrb s) (tcsr s) (tier s) (tcr s) (tocr s) (temp s) (my_last_cycles s).
Definition set_ocrb v s := T16 (frc s) (ocra s) v (tcsr s) (tier s) (tcr s) (tocr s) (temp s) (my_last_cycles s).
Definition set_tcsr v s := T16 (frc s) (ocra s) (ocrb s) v (tier s) (tcr s) (tocr s) (temp s) (my_last_cycles s).
Definition set_tier v s := T16 (frc s) (ocra s) (ocrb s) (tcsr s) v (tcr s) (tocr s) (temp s) (my_last_cycles s).
Definition set_tcr v s := T16 (frc s) (ocra s) (ocrb s) (tcsr s) (tier s) v (tocr s) (temp s) (my_last_cycles s).
Definition set_tocr v s := T16 (frc s) (ocra s) (ocrb s) (tcsr s) (tier s) (tcr s) v (temp s) (my_last_cycles s).
Definition set_temp v s := T16 (frc s) (ocra s) (ocrb s) (tcsr s) (tier s) (tcr s) (tocr s) v (my_last_cycles s).
Definition set_my_last_cycles v s := T16 (frc s) (ocra s) (ocrb s) (tcsr s) (tier s) (tcr s) (tocr s) (temp s) v.

Definition t16_ok (s : t16) : Prop :=
  word (frc s) ∧ word (ocra s) ∧ word (ocrb s) ∧ byte (tcsr s) ∧ byte (tier s) ∧
  byte (tcr s) ∧ byte (tocr s) ∧ byte (temp s) ∧ qword (my_last_cycles s).

(** ** Operations *)
Definition t16_reset (c : clock) (s : t16) : t16 :=
  T16 0 0xffff 0xffff 0 1 0 0xe0 (temp s) (cycles c).

(** The interrupts that are enabled and flagged. *)
Definition pending (s : t16) : Z := tier s &! tcsr s &! 0xfe.

(** How many counter steps [t16_check_next_cycle] sleeps. *)
Definition next_match (s : t16) : Z :=
  let next := 0x10000 - frc s in
  let next := if tier s &? TCSR_OCFA
              then Z.min next (u16 (ocra s + 1 - frc s)) else next in
  if tier s &? TCSR_OCFB
  then Z.min next (u16 (ocrb s + 1 - frc s)) else next.
Definition t16_check_next_cycle (s : t16) (c : clock) : clock :=
  if negb (pending s =? 0) then set_next_timer_cycle (cycles c) c
  else
    let next_cycle :=
      s32 ((next_match s <<! freq (tcr s &! 3)) + my_last_cycles s - cycles c) in
    if next_cycle <? s32 (next_timer_cycle c - cycles c)
    then set_next_timer_cycle (add_to_cycle (cycles c) next_cycle) c
    else c.

(** The loop at the label [repeat_cycle]: one pass over the counter's range. *)
Definition repeat_cycle (oa ob : Z) (st : Z * Z * Z) : (Z * Z * Z) + (Z * Z) :=
  let '(frc, newfrc, tcsr) := st in
  let overflow tcsr :=
    let tcsr := if (frc <=? ob) && (newfrc >? ob) then tcsr |! TCSR_OCFB else tcsr in
    if newfrc >? 0xffff
    then inl (0, u32 (newfrc - 0x10000), tcsr |! TCSR_OVF)
    else inr (u16 newfrc, tcsr) in
  if (frc <=? oa) && (newfrc >? oa) then
    let tcsr := tcsr |! TCSR_OCFA in
    if tcsr &? TCSR_CCLRA then
      let tcsr := if (frc <=? ob) && (ob <=? oa) then tcsr |! TCSR_OCFB else tcsr in
      inl (0, u32 (newfrc - (oa + 1)), tcsr)
    else overflow tcsr
  else overflow tcsr.

Definition increment (now : Z) (s : t16) : Z :=
  s32 (now - my_last_cycles s) >>! freq (tcr s &! 3).
(** The new counter and flags; the fuel bounds the passes. *)
Definition t16_jump (now : Z) (s : t16) : option (Z * Z) :=
  match loop (repeat_cycle (ocra s) (ocrb s)) 4294967296
          (frc s, u32 (frc s + increment now s), tcsr s) with
  | inr r => Some r
  | inl _ => None
  end.
Definition t16_update_time (s : t16) (c : clock) : option (t16 * clock) :=
  let inc := increment (cycles c) s in
  match t16_jump (cycles c) s with
  | Some (newfrc, newtcsr) =>
      let s := set_my_last_cycles
                 (add_to_cycle (my_last_cycles s) (s32 (inc <<! freq (tcr s &! 3))))
                 (set_frc newfrc (set_tcsr newtcsr s)) in
      Some (s, t16_check_next_cycle s c)
  | None => None
  end.

(** The interrupt number: the flags of TCSR from bit 7 down to bit 1. *)
Definition t16_check_irq (s : t16) : Z :=
  let irqs := pending s in
  default 255 (head (filter (λ n, irqs &? (1 <<! (7 - (n - 12))) = true)
                 [12; 13; 14; 15; 16; 17; 18])).

Definition set_TIER (val : Z) (s : t16) (c : clock) : t16 * clock :=
  let s := set_tier (val |! 1) s in (s, t16_check_next_cycle s c).
Definition set_TCSR (val : Z) (s : t16) (c : clock) : t16 * clock :=
  let s := set_tcsr ((tcsr s &! val) |! (val &! 1)) s in
  (s, t16_check_next_cycle s c).
Definition set_FRCH (val : Z) (s : t16) : t16 := set_temp val s.
Definition set_FRCL (val : Z) (s : t16) : t16 := set_frc ((temp s <<! 8) |! val) s.
Definition get_FRCH (s : t16) : t16 * Z := (set_temp (frc s &! 0xff) s, frc s >>! 8).
Definition get_FRCL (s : t16) : Z := temp s.
Definition set_OCRH (val : Z) (s : t16) : t16 := set_temp val s.
Definition set_OCRL (val : Z) (s : t16) : t16 :=
  let v := (temp s <<! 8) |! val in
  if tocr s &? TOCR_OCRS then set_ocrb v s else set_ocra v s.
Definition get_OCRH (s : t16) : Z :=
  if tocr s &? TOCR_OCRS then ocrb s >>! 8 else ocra s >>! 8.
Definition get_OCRL (s : t16) : Z :=
  if tocr s &? TOCR_OCRS then ocrb s &! 0xff else ocra s &! 0xff.
(** The time runs on to now with the old divisor before TCR changes; [wait] is
    [wait_peripherals]. *)
Definition set_TCR (wait : t16 * clock → t16 * clock) (val : Z) (s : t16) (c : clock)
  : t16 * clock :=
  let '(s, c) := wait (s, c) in (set_tcr val s, c).
Definition set_TOCR (val : Z) (s : t16) : t16 := set_tocr (val |! 0xe0) s.

Record t16_save_type := T16Save {
  sv_my_last_cycles : Z; sv_frc : Z; sv_ocra : Z; sv_ocrb : Z;
  sv_tcsr : Z; sv_tier : Z; sv_tcr : Z; sv_tocr : Z }.
Definition t16_save (s : t16) : t16_save_type :=
  T16Save (htonl (my_last_cycles s)) (htons (frc s)) (htons (ocra s))
    (htons (ocrb s)) (tcsr s) (tier s) (tcr s) (tocr s).
Definition t16_load (d : t16_save_type) (s : t16) : t16 :=
  T16 (htons (sv_frc d)) (htons (sv_ocra d)) (htons (sv_ocrb d)) (sv_tcsr d)
    (sv_tier d) (sv_tcr d) (sv_tocr d) (temp s) (htonl (sv_my_last_cycles d)).

(** ** The counter of the hardware: CCLRA selects clearing on match A. *)
Definition t16_counter (s : t16) : counter :=
  Counter 0xffff (ocra s) (ocrb s) (tcsr s &? TCSR_CCLRA) false
    TCSR_OCFA TCSR_OCFB TCSR_OVF.
