(* ===== verification/Timer16Props.v ===== *)
(** * Timer16Props: the jump is the counter, and no interrupt is late *)
From S2P Require Export Timer16.

Section Jump.
Context (s : t16) (Hs : t16_ok s).
Abbreviation k := (t16_counter s).

(** The clear bit of TCSR is not one of the flags. *)
Lemma cclra_flags t a b o :
  ((t |! match_flags k a b o) &? TCSR_CCLRA) = (t &? TCSR_CCLRA).
Proof.
  rewrite Z.land_lor_distr_l.
  replace (match_flags k a b o &! TCSR_CCLRA) with 0 by (destruct a, b, o; reflexivity).
  rewrite Z.lor_0_r. done.
Qed.

Definition target (st : Z * Z * Z) : Z * Z :=
  let '(n, newn, t) := st in ticks k (newn - n) (n, t).
Definition loop_inv (st : Z * Z * Z) : Prop :=
  let '(n, newn, t) := st in
  word n ∧ n <= newn < 4294967296 ∧ (t &? TCSR_CCLRA) = (tcsr s &? TCSR_CCLRA).

(** One pass of the loop runs the counter up to a clear, a wrap or the end. *)
Lemma repeat_cycle_ticks st :
  loop_inv st →
  match repeat_cycle (ocra s) (ocrb s) st with
  | inl st' => loop_inv st' ∧ target st' = target st ∧ st'.1.2 < st.1.2
  | inr r => r = target st
  end.
Proof.
  destruct st as [[n nn] t]. intros (Hn & Hnn & Ht). unfold repeat_cycle.
  destruct Hs as (_ & Ha & Hb & _). unfold word in *.
  change TCSR_OCFA with (flag_a k). change TCSR_OCFB with (flag_b k).
  change TCSR_OVF with (flag_o k).
  assert (∀ t0, t0 = t |! match_flags k (passes n nn (ocra s)) false false →
    passes_clear k n (Z.min nn 0x10000) = false →
    match (let tcsr := if (n <=? ocrb s) && (nn >? ocrb s) then t0 |! flag_b k else t0 in
           if nn >? 0xffff
           then inl (0, u32 (nn - 0x10000), tcsr |! flag_o k) else inr (u16 nn, tcsr)) with
    | inl st' => loop_inv st' ∧ target st' = target (n, nn, t) ∧ st'.1.2 < nn
    | inr r => r = target (n, nn, t)
    end) as Hover.
  { intros t0 -> Hc. cbv zeta. rewrite lor_flag_b, lor_flag_o.
    rewrite <- !Z.lor_assoc, !match_flags_lor.
    cbn [target]. destruct (Z.gtb_spec nn 0xffff) as [Hbig|Hsmall].
    - assert (u32 (nn - 0x10000) = nn - 0x10000) as -> by (apply u32_id; width_lia).
      split; [split_and!; rewrite ?cclra_flags; done || width_lia|]. split; [|simpl; lia].
      cbn [target]. rewrite Z.sub_0_r.
      replace (nn - n) with ((top k + 1 - n) + (nn - 0x10000)) by (simpl; lia).
      rewrite ticks_add by (simpl; lia). rewrite run_wrap;
        [|simpl; lia|rewrite <- Hc; f_equal; simpl; lia].
      f_equal. apply flags_ext; unfold passes; simpl; lia.
    - rewrite run_up; [|lia|simpl; lia|rewrite <- Hc; f_equal; lia].
      rewrite u16_id by (unfold word; lia). apply flags_ext; unfold passes; simpl; lia. }
  destruct ((n <=? ocra s) && (nn >? ocra s)) eqn:Hp.
  - rewrite (lor_flag_a k t true), cclra_flags, Ht.
    destruct (tcsr s &? TCSR_CCLRA) eqn:Hc.
    + rewrite lor_flag_b, <- Z.lor_assoc, match_flags_lor.
      assert (u32 (nn - (ocra s + 1)) = nn - (ocra s + 1)) as ->
        by (apply u32_id; width_lia).
      split; [split_and!; rewrite ?cclra_flags, ?Ht; done || width_lia|].
      split; [|simpl; lia]. cbn [target]. rewrite Z.sub_0_r.
      replace (nn - n) with ((ocra s + 1 - n) + (nn - (ocra s + 1))) by lia.
      rewrite ticks_add by lia. rewrite run_clear; [|lia|simpl; lia| |].
      * f_equal. apply flags_ext; unfold passes; simpl; lia.
      * unfold passes_clear, passes. simpl. lia.
      * unfold clears. simpl. rewrite Hc. lia.
    + apply Hover.
      * apply f_equal, (f_equal (λ b, match_flags k b false false)). unfold passes. lia.
      * unfold passes_clear. simpl. rewrite Hc. done.
  - apply Hover.
    + replace (passes n nn (ocra s)) with false by (unfold passes; lia).
      rewrite match_flags_none. done.
    + unfold passes_clear, passes. simpl. destruct (tcsr s &? TCSR_CCLRA); lia.
Qed.
End Jump.

Lemma freq_range i : 1 <= freq i <= 5.
Proof. unfold freq. repeat case_match; lia. Qed.

Lemma increment_div now s :
  0 <= now - my_last_cycles s < 2147483648 →
  increment now s = (now - my_last_cycles s) / 2 ^ freq (tcr s &! 3) ∧
  0 <= increment now s < 1073741824.
Proof.
  intros Hd. unfold increment. pose proof (freq_range (tcr s &! 3)).
  rewrite s32_id, Z.shiftr_div_pow2 by lia. split; [done|].
  assert (2 ^ 1 <= 2 ^ freq (tcr s &! 3)) by (apply Z.pow_le_mono_r; lia).
  split; [apply Z.div_pos; lia|]. apply Z.div_lt_upper_bound; lia.
Qed.

Lemma jump_ticks now s :
  t16_ok s → 0 <= now - my_last_cycles s < 2147483648 →
  t16_jump now s =
    Some (ticks (t16_counter s) (increment now s) (frc s, tcsr s)).
Proof.
  intros Hs Hd. destruct (increment_div now s Hd) as [_ Hi].
  pose proof Hs as (Hf & _).
  unfold t16_jump. rewrite u32_id by width_lia.
  destruct (loop_correct (repeat_cycle (ocra s) (ocrb s))
    (λ st, loop_inv s st ∧ target s st =
             ticks (t16_counter s) (increment now s) (frc s, tcsr s))
    (λ r, r = ticks (t16_counter s) (increment now s) (frc s, tcsr s))
    (λ st, st.1.2)) with (p := 4294967296%positive)
    (s := (frc s, frc s + increment now s, tcsr s)) as (r & -> & ->); [| | |done].
  - intros st [Hi0 Ht0]. pose proof (repeat_cycle_ticks s Hs st Hi0) as Hr.
    destruct (repeat_cycle _ _ st) as [st'|r]; [|congruence].
    destruct Hr as (Hi1 & Ht1 & Hlt). split; [split; [done|congruence]|].
    split; [|done]. destruct st' as [[f' nf'] t']. destruct Hi1 as (? & ? & _).
    simpl. width_lia.
  - split; [split_and!; done || width_lia|]. cbn [target]. f_equal. lia.
  - simpl. width_lia.
Qed.

(** C10: the jump of [t16_update_time] terminates and is the tick-by-tick counter.
    Run at any cycle count less than 2^31 cycles after the previous call, it
    leaves the counter and the match, overflow and clear flags exactly as that
    many single clock ticks of the hardware counter would: compare matches A and
    B, clear on match A, and overflow, any number of times round. *)
Theorem t16_update_is_ticks c s :
  t16_ok s → 0 <= cycles c - my_last_cycles s < 2147483648 →
  my_last_cycles s < 9223372036854775808 →
  let n := (cycles c - my_last_cycles s) / 2 ^ freq (tcr s &! 3) in
  ∃ s' c', t16_update_time s c = Some (s', c') ∧
    (frc s', tcsr s') = ticks (t16_counter s) n (frc s, tcsr s) ∧
    ocra s' = ocra s ∧ ocrb s' = ocrb s ∧ tier s' = tier s ∧
    my_last_cycles s' = my_last_cycles s + n * 2 ^ freq (tcr s &! 3) ∧
    cycles c' = cycles c.
Proof.
  intros Hs Hd Hm n. destruct (increment_div (cycles c) s Hd) as [Ei Hi].
  unfold t16_update_time. rewrite jump_ticks by done. fold n in Ei. rewrite Ei in *.
  destruct (ticks _ n _) as [f' t'] eqn:Et.
  eexists _, _. split; [reflexivity|].
  cbn [frc tcsr ocra ocrb tier my_last_cycles set_my_last_cycles set_frc set_tcsr].
  split_and!; try done.
  - pose proof (freq_range (tcr s &! 3)). rewrite Z.shiftl_mul_pow2 by lia.
    assert (0 < 2 ^ freq (tcr s &! 3)) by (apply Z.pow_pos_nonneg; lia).
    pose proof (Z.mul_div_le (cycles c - my_last_cycles s) (2 ^ freq (tcr s &! 3)) ltac:(lia)).
    fold n in H1. unfold add_to_cycle.
    destruct Hs as (_ & _ & _ & _ & _ & _ & _ & _ & Hq).
    rewrite s32_id by nia. apply u64_id. unfold qword in *. nia.
  - unfold t16_check_next_cycle. repeat case_if; done.
Qed.

(** ** No interrupt is late *)
Lemma pending_flags s tier tcsr a b :
  tier &! tcsr &! 0xfe = 0 →
  ((tier &? TCSR_OCFA) = true → a = false) → ((tier &? TCSR_OCFB) = true → b = false) →
  tier &! (tcsr |! match_flags (t16_counter s) a b false) &! 0xfe = 0.
Proof.
  intros Hp Ha Hb. rewrite Z.land_lor_distr_r, Z.land_lor_distr_l, Hp, Z.lor_0_l.
  rewrite <- Z.land_assoc.
  replace (match_flags (t16_counter s) a b false &! 0xfe)
    with (match_flags (t16_counter s) a b false)
    by (destruct a, b; reflexivity).
  assert (a = true → tier &! TCSR_OCFA = 0) as Ha'.
  { intros ->. apply Z.eqb_eq, negb_false_iff. destruct (tier &? TCSR_OCFA); auto. }
  assert (b = true → tier &! TCSR_OCFB = 0) as Hb'.
  { intros ->. apply Z.eqb_eq, negb_false_iff. destruct (tier &? TCSR_OCFB); auto. }
  unfold match_flags. cbn [t16_counter flag_a flag_b].
  rewrite Z.lor_0_r, Z.land_lor_distr_r.
  destruct a, b; rewrite ?Ha', ?Hb', ?Z.land_0_r by done; done.
Qed.

Lemma next_match_bounds s n :
  t16_ok s → 0 <= n < next_match s →
  frc s + n <= 0xffff ∧
  ((tier s &? TCSR_OCFA) = true → passes (frc s) (frc s + n) (ocra s) = false) ∧
  ((tier s &? TCSR_OCFB) = true → passes (frc s) (frc s + n) (ocrb s) = false).
Proof.
  intros (Hf & Ha & Hb & _) Hn. unfold next_match, passes in *.
  destruct (tier s &? TCSR_OCFA), (tier s &? TCSR_OCFB); split_and!; intros; width_lia.
Qed.
Lemma next_match_range s : t16_ok s → 0 <= next_match s <= 65536.
Proof.
  intros (Hf & Ha & Hb & _). unfold next_match. repeat case_if; width_lia.
Qed.

(** C11: the schedule of the 16-bit timer is sound where a counter that clears on match A
    has the match A interrupt enabled (or does not clear).  When no interrupt is pending,
    the timer has been updated in the last 2^30 cycles and its cycle counts are below
    2^63, then after [t16_check_next_cycle] the counter can run on to any cycle before
    [next_timer_cycle] and still no enabled interrupt is flagged.  In the remaining case,
    clearing on a match A whose interrupt is disabled, the claim is false of the code
    ([t16_clear_missed] below). *)
Theorem t16_schedule_sound s c now :
  t16_ok s → pending s = 0 →
  ((tcsr s &? TCSR_CCLRA) = true → (tier s &? TCSR_OCFA) = true) →
  my_last_cycles s <= cycles c < my_last_cycles s + 1073741824 →
  -2147483648 <= next_timer_cycle c - cycles c < 2147483648 →
  cycles c <= now < next_timer_cycle (t16_check_next_cycle s c) →
  cycles c < 9223372036854775808 → now < my_last_cycles s + 2147483648 →
  ∃ f t, t16_jump now s = Some (f, t) ∧ tier s &! t &! 0xfe = 0.
Proof.
  intros Hs Hp Hcl Hc Hnt Hnow Hmax Hnow2.
  pose proof (proj2 (proj2 (proj2 (proj2 (proj2 (proj2 (proj2 (proj2 Hs)))))))) as Hq.
  pose proof (next_match_range s Hs) as Hr. pose proof (freq_range (tcr s &! 3)) as Hfr.
  assert (2 ^ 1 <= 2 ^ freq (tcr s &! 3) <= 2 ^ 5) as Hpow
    by (split; apply Z.pow_le_mono_r; lia).
  simpl (2 ^ 1) in Hpow. simpl (2 ^ 5) in Hpow. unfold qword in Hq.
  assert (now < my_last_cycles s + next_match s * 2 ^ freq (tcr s &! 3)) as Hlt.
  { revert Hnow. unfold t16_check_next_cycle. rewrite Hp. simpl negb. cbv iota.
    rewrite Z.shiftl_mul_pow2 by lia. set (d := next_match s * _) in *.
    assert (0 <= d <= 2097152) as Hd by (unfold d; nia).
    rewrite !s32_id by lia.
    destruct (Z.ltb_spec (d + my_last_cycles s - cycles c) (next_timer_cycle c - cycles c));
      cbn [next_timer_cycle set_next_timer_cycle]; [|lia].
    unfold add_to_cycle. rewrite u64_id by (unfold qword; lia). lia. }
  destruct (increment_div now s ltac:(lia)) as [Ei Hi].
  assert (0 <= increment now s < next_match s) as Hin.
  { split; [lia|]. rewrite Ei. apply Z.div_lt_upper_bound; lia. }
  destruct (next_match_bounds s _ Hs Hin) as (Hf & Ha & Hb).
  rewrite jump_ticks by (done || lia).
  replace (increment now s) with (frc s + increment now s - frc s) by lia.
  pose proof Hs as (Hw & _). unfold word in Hw.
  rewrite run_up; [|lia|simpl; lia|].
  2: { unfold passes_clear. simpl. destruct (tcsr s &? TCSR_CCLRA); [|done].
       rewrite Ha by auto. done. }
  eexists _, _. split; [reflexivity|]. apply pending_flags; done.
Qed.

(** Without that proviso an interrupt is late: the counter clears on match A,
    whose interrupt is off, and reaches match B 200 ticks from now, but the
    schedule looks for B only beyond the wrap, 65436 ticks away. *)
Definition t16_late : t16 := T16 100 200 50 1 0x05 0 0xe0 0 0.
Lemma t16_clear_missed :
  let c := t16_check_next_cycle t16_late (Clock 0 1600000 1600000) in
  next_timer_cycle c = 130872 ∧
  ∃ f t, t16_jump 400 t16_late = Some (f, t) ∧ tier t16_late &! t &! 0xfe = TCSR_OCFB.
Proof. split; [reflexivity|]. eexists _, _. split; vm_compute; reflexivity. Qed.

(** ** Witnesses *)
Definition t16_demo : t16 := T16 65000 200 50 1 0x0d 0 0xe0 0 1000.
Lemma t16_update_is_ticks_witness :
  ∃ s' c', t16_update_time t16_demo (Clock 4000 1600000 1600000) = Some (s', c') ∧
    frc s' = 160 ∧ tcsr s' = 15.
Proof.
  destruct (t16_update_is_ticks (Clock 4000 1600000 1600000) t16_demo)
    as (s' & c' & E & Hv & _); [plain_memory..|].
  exists s', c'. split; [exact E|].
  split; [etransitivity; [exact (f_equal fst Hv)|]|etransitivity; [exact (f_equal snd Hv)|]];
    vm_compute; reflexivity.
Defined.
Lemma t16_schedule_sound_witness :
  ∃ f t, t16_jump 2000 t16_demo = Some (f, t) ∧ 0x0d &! t &! 0xfe = 0.
Proof.
  apply (t16_schedule_sound t16_demo (Clock 1000 1600000 1600000) 2000);
    [plain_memory|reflexivity|reflexivity|plain_memory..].
Defined.
