(* ===== verification/Timer8.v ===== *)
(** * Timer8: the two 8-bit timers of [timer8.c]

    Timer 0 drives the speaker: every stretch of time in which its output
    keeps its level is reported with [sound_update(level, cycles)].  The calls
    are collected, latest last, in the field [sound].  The loops of the source
    run over [nr < 1]: the counter of timer 1 is never advanced. *)
From S2P Require Export Periph Counter.

Definition TCR_CMIEB : Z := 0x80.
Definition TCR_CMIEA : Z := 0x40.
Definition TCR_CCLR1 : Z := 0x10.
Definition TCR_CCLR0 : Z := 0x08.
Definition TCSR_CMFB : Z := 0x80.
Definition TCSR_CMFA : Z := 0x40.
Definition TCSR8_OVF : Z := 0x20.

(** The variables of one timer, the entries [nr] of the arrays. *)
Record tm := Tm {
  tcnt : Z; tm_tcr : Z; tm_tcsr : Z; tcora : Z; tcorb : Z; out : Z;
  last_cycles : Z; my_next_cycle : Z }.
Record t8 := T8 { tm0 : tm; tm1 : tm; stcr : Z; sound : list (Z * Z) }.

Definition set_tcnt v t := Tm v (tm_tcr t) (tm_tcsr t) (tcora t) (tcorb t) (out t) (last_cycles t) (my_next_cycle t).
Definition set_tm_tcr v t := Tm (tcnt t) v (tm_tcsr t) (tcora t) (tcorb t) (out t) (last_cycles t) (my_next_cycle t).
Definition set_tm_tcsr v t := Tm (tcnt t) (tm_tcr t) v (tcora t) (tcorb t) (out t) (last_cycles t) (my_next_cycle t).
Definition set_tcora v t := Tm (tcnt t) (tm_tcr t) (tm_tcsr t) v (tcorb t) (out t) (last_cycles t) (my_next_cycle t).
Definition set_tcorb v t := Tm (tcnt t) (tm_tcr t) (tm_tcsr t) (tcora t) v (out t) (last_cycles t) (my_next_cycle t).
Definition set_out v t := Tm (tcnt t) (tm_tcr t) (tm_tcsr t) (tcora t) (tcorb t) v (last_cycles t) (my_next_cycle t).
Definition set_last_cycles v t := Tm (tcnt t) (tm_tcr t) (tm_tcsr t) (tcora t) (tcorb t) (out t) v (my_next_cycle t).
Definition set_my_next_cycle v t := Tm (tcnt t) (tm_tcr t) (tm_tcsr t) (tcora t) (tcorb t) (out t) (last_cycles t) v.
Definition set_tm0 v s := T8 v (tm1 s) (stcr s) (sound s).
Definition set_tm1 v s := T8 (tm0 s) v (stcr s) (sound s).
Definition add_sound l s := T8 (tm0 s) (tm1 s) (stcr s) (sound s ++ l).

(** [freq[16]]; 31 stops the timer. *)
Definition t8_freq (i : Z) : Z :=
  match i with
  | 1 => 3 | 2 => 6 | 3 => 10 | 9 => 1 | 10 => 5 | 11 => 8 | _ => 31
  end.
Definition t8_shift (s : t8) : Z :=
  t8_freq ((tm_tcr (tm0 s) &! 7) |! ((stcr s &! 1) <<! 3)).

(** What a compare match does to the output, by the select bits OS. *)
Definition t8_output (os out : Z) : Z :=
  match os &! 3 with
  | 1 => 0 | 2 => 1 | 3 => (if out =? 0 then 1 else 0) | _ => out
  end.

(** ** Advancing the counter of timer 0 by [incr], up to its next clear *)

(** One of the two [if (cnt <= reg && cnt + incr > reg)] blocks. *)
Definition t8_segment (reg os shift : Z) (st : Z * Z * Z * list (Z * Z))
  : Z * Z * Z * list (Z * Z) :=
  let '(cnt, incr, out, snd) := st in
  if (cnt <=? reg) && (u32 (cnt + incr) >? reg) then
    (reg, u32 (incr - (reg - cnt + 1)), t8_output os out,
     snd ++ [(out, u32 ((reg - cnt + 1) <<! shift))])
  else st.
Definition t8_incr_tcnt (incr shift : Z) (t : tm) : tm * list (Z * Z) :=
  let tcsr := tm_tcsr t in
  let tcsr := if (tcnt t <=? tcora t) && (u32 (tcnt t + incr) >? tcora t)
              then tcsr |! TCSR_CMFA else tcsr in
  let tcsr := if (tcnt t <=? tcorb t) && (u32 (tcnt t + incr) >? tcorb t)
              then tcsr |! TCSR_CMFB else tcsr in
  let '(first, fshift, second) :=
    if tcora t <=? tcorb t then (tcora t, 0, tcorb t) else (tcorb t, 2, tcora t) in
  let st := (tcnt t, incr, out t, []) in
  let st := t8_segment first (tcsr >>! fshift) shift st in
  let '(cnt, incr, out, snd) := t8_segment second (tcsr >>! (2 - fshift)) shift st in
  (set_out out (set_tm_tcsr tcsr t),
   if incr =? 0 then snd else snd ++ [(out, u32 (incr <<! shift))]).

(** One turn of [while (incr)]. *)
Definition t8_loop (shift : Z) (st : tm * Z * list (Z * Z))
  : (tm * Z * list (Z * Z)) + (tm * list (Z * Z)) :=
  let '(t, incr, snd) := st in
  let clear_at reg :=
    let '(t', l) := t8_incr_tcnt (reg + 1 - tcnt t) shift t in
    inl (set_tcnt 0 t', incr - (reg + 1 - tcnt t), snd ++ l) in
  let count :=
    if tcnt t + incr >? 0xff then
      let t := set_tm_tcsr (tm_tcsr t |! TCSR8_OVF) t in
      let '(t', l) := t8_incr_tcnt (0x100 - tcnt t) shift t in
      inl (set_tcnt 0 t', incr - (0x100 - tcnt t), snd ++ l)
    else
      let '(t', l) := t8_incr_tcnt incr shift t in
      inr (set_tcnt (u8 (tcnt t + incr)) t', snd ++ l) in
  if incr =? 0 then inr (t, snd)
  else if tm_tcr t &! (TCR_CCLR1 |! TCR_CCLR0) =? TCR_CCLR0 then
    if (tcnt t <=? tcora t) && (tcnt t + incr >? tcora t) then clear_at (tcora t)
    else count
  else if tm_tcr t &! (TCR_CCLR1 |! TCR_CCLR0) =? TCR_CCLR1 then
    if (tcnt t <=? tcorb t) && (tcnt t + incr >? tcorb t) then clear_at (tcorb t)
    else count
  else count.
Definition t8_run (shift incr : Z) (t : tm) : option (tm * list (Z * Z)) :=
  match loop (t8_loop shift) 4294967296 (t, incr, []) with
  | inr r => Some r
  | inl _ => None
  end.

(** ** Scheduling and the update *)
Definition t8_reset (c : clock) (s : t8) : t8 :=
  let z t := Tm 0 0 0x10 0xff 0xff (out t) (cycles c) (my_next_cycle t) in
  T8 (z (tm0 s)) (z (tm1 s)) 0xf8 (sound s).

Definition t8_check_next_cycle (s : t8) (c : clock) : t8 * clock :=
  let t := tm0 s in
  if ((tm_tcsr t &! tm_tcr t) |! (tm_tcsr (tm1 s) &! tm_tcr (tm1 s))) &? 0xe0
  then (s, set_next_timer_cycle (cycles c) c)
  else
    let shift := t8_shift s in
    if shift =? 31 then (s, c)
    else
      let next := 0x100 <<! 10 in
      let next := Z.min next ((0x100 - tcnt t) <<! shift) in
      let next := if (tm_tcsr t &? TCR_CMIEA) && (tcnt t <? tcora t)
                  then Z.min next ((tcora t + 1 - tcnt t) <<! shift) else next in
      let next := if tm_tcsr t &? TCR_CMIEB
                  then Z.min next ((tcorb t + 1 - tcnt t) <<! shift) else next in
      let s := set_tm0 (set_my_next_cycle (u64 (last_cycles t + next)) t) s in
      (s, if next <? s32 (next_timer_cycle c - last_cycles t)
          then set_next_timer_cycle (u64 (last_cycles t + next)) c else c).

Definition t8_update_time (s : t8) (c : clock) : option (t8 * clock) :=
  let t := tm0 s in
  let shift := t8_shift s in
  if shift =? 31 then
    Some (t8_check_next_cycle
      (add_sound [(out t, u32 (cycles c - last_cycles t))]
        (set_tm0 (set_last_cycles (cycles c) t) s)) c)
  else if cycles c <? my_next_cycle t then Some (t8_check_next_cycle s c)
  else
    let incr := s32 (u64 (cycles c - last_cycles t) >>! shift) in
    let t := set_last_cycles (u64 (last_cycles t + s32 (incr <<! shift))) t in
    match t8_run shift incr t with
    | Some (t, l) => Some (t8_check_next_cycle (add_sound l (set_tm0 t s)) c)
    | None => None
    end.

Definition t8_check_irq (s : t8) : Z :=
  let irqs := (tm_tcsr (tm0 s) &! tm_tcr (tm0 s) &! 0xe0) |!
              ((tm_tcsr (tm1 s) &! tm_tcr (tm1 s) &! 0xe0) >>! 3) in
  default 255 (head (filter (λ n, irqs &? (1 <<! (7 - (n - 19))) = true)
                 [19; 20; 21; 22; 23; 24])).

(** ** The registers; [first] selects timer 0. *)
Definition timer (first : bool) (s : t8) : tm := if first then tm0 s else tm1 s.
Definition put_timer (first : bool) (t : tm) (s : t8) : t8 :=
  if first then set_tm0 t s else set_tm1 t s.
(** [my_next_cycle[nr] = cycles; t8_update_time();] *)
Definition t8_catch_up (first : bool) (s : t8) (c : clock) : option (t8 * clock) :=
  t8_update_time (put_timer first (set_my_next_cycle (cycles c) (timer first s)) s) c.
Definition t8_set_last_cycles (first : bool) (s : t8) (c : clock) : t8 :=
  let t := timer first s in
  let s := if first then add_sound [(out t, u32 (cycles c - last_cycles t))] s else s in
  put_timer first (set_last_cycles (cycles c) t) s.
(** A register write: catch up, change the timer, schedule. *)
Definition t8_write (first : bool) (f : tm → tm) (s : t8) (c : clock)
  : option (t8 * clock) :=
  '(s, c) ← t8_catch_up first s c;
  Some (t8_check_next_cycle (put_timer first (f (timer first s)) s) c).

Definition set_TCR8 (first : bool) (val : Z) (s : t8) (c : clock) : option (t8 * clock) :=
  '(s, c) ← t8_catch_up first s c;
  let s := t8_set_last_cycles first s c in
  Some (t8_check_next_cycle (put_timer first (set_tm_tcr val (timer first s)) s) c).
Definition set_TCSR0 (val : Z) : t8 → clock → option (t8 * clock) :=
  t8_write true (λ t, set_tm_tcsr ((val &! (tm_tcsr t |! 0x0f)) |! 0x10) t).
Definition set_TCSR1 (val : Z) : t8 → clock → option (t8 * clock) :=
  t8_write false (λ t, set_tm_tcsr ((val &! (val &! tm_tcsr t)) |! 0x10) t).
Definition get_TCSR8 (first : bool) (s : t8) (c : clock) : option (t8 * clock * Z) :=
  '(s, c) ← t8_catch_up first s c; Some (s, c, tm_tcsr (timer first s)).
Definition set_TCNT (first : bool) (val : Z) := t8_write first (set_tcnt val).
Definition set_TCORA (first : bool) (val : Z) := t8_write first (set_tcora val).
Definition set_TCORB (first : bool) (val : Z) := t8_write first (set_tcorb val).
Definition set_STCR (val : Z) (s : t8) (c : clock) : option (t8 * clock) :=
  if negb ((stcr s ^! val) &? 0x3) then Some (s, c)
  else
    let s := put_timer false (set_my_next_cycle (cycles c) (timer false s)) s in
    '(s, c) ← t8_catch_up true s c;
    let s := t8_set_last_cycles true s c in
    let s := t8_set_last_cycles false s c in
    Some (t8_check_next_cycle (T8 (tm0 s) (tm1 s) (val |! 0xf8) (sound s)) c).

(** ** Saving and loading *)
Record t8_save_type := T8Save {
  sv8_last_cycles : Z * Z; sv8_my_next_cycle : Z * Z; sv8_tcnt : Z * Z; sv8_tcr : Z * Z;
  sv8_tcsr : Z * Z; sv8_tcora : Z * Z; sv8_tcorb : Z * Z; sv8_out : Z * Z; sv8_stcr : Z }.
Definition both (f : tm → Z) (s : t8) : Z * Z := (f (tm0 s), f (tm1 s)).
Definition t8_save (s : t8) : t8_save_type :=
  T8Save (both (λ t, htonl (last_cycles t)) s) (both (λ t, htonl (my_next_cycle t)) s)
    (both tcnt s) (both tm_tcr s) (both tm_tcsr s) (both tcora s) (both tcorb s)
    (both out s) (stcr s).
Definition t8_load (d : t8_save_type) (s : t8) : t8 :=
  let get (pick : Z * Z → Z) :=
    Tm (pick (sv8_tcnt d)) (pick (sv8_tcr d)) (pick (sv8_tcsr d)) (pick (sv8_tcora d))
      (pick (sv8_tcorb d)) (pick (sv8_out d)) (htonl (pick (sv8_last_cycles d)))
      (htonl (pick (sv8_my_next_cycle d))) in
  T8 (get fst) (get snd) (sv8_stcr d) (sound s).

(** The counter of timer 0; CCLR selects the clearing register. *)
Definition t8_counter (t : tm) : counter :=
  Counter 0xff (tcora t) (tcorb t)
    (tm_tcr t &! (TCR_CCLR1 |! TCR_CCLR0) =? TCR_CCLR0)
    (tm_tcr t &! (TCR_CCLR1 |! TCR_CCLR0) =? TCR_CCLR1)
    TCSR_CMFA TCSR_CMFB TCSR8_OVF.
