(* ===== verification/Timer8Props.v ===== *)
(** * Timer8Props: the jump is the counter, and the sound has no gaps *)
From S2P Require Export Timer8.

(** The time a list of [sound_update] calls covers. *)
Definition duration (l : list (Z * Z)) : Z := foldr (λ x d, x.2 + d) 0 l.
Lemma duration_app l l' : duration (l ++ l') = duration l + duration l'.
Proof. unfold duration. induction l as [|x l IH]; simpl; lia. Qed.

(** The cycles of the calls are what [uint32] holds. *)
Definition spans (l : list (Z * Z)) : Prop := Forall (λ x, dword x.2) l.
Lemma spans_app l l' : spans l → spans l' → spans (l ++ l').
Proof. apply Forall_app_2. Qed.
Lemma spans_one o n : spans [(o, u32 n)].
Proof. apply Forall_singleton. cbn. width_lia. Qed.
Lemma segment_spans reg os shift cnt incr o sl cnt' incr' o' sl' :
  t8_segment reg os shift (cnt, incr, o, sl) = (cnt', incr', o', sl') → spans sl → spans sl'.
Proof. unfold t8_segment. case_match; intros [= <- <- <- <-] Hs; [apply spans_app; [exact Hs|apply spans_one]|exact Hs]. Qed.
Lemma incr_tcnt_spans incr shift t t' l : t8_incr_tcnt incr shift t = (t', l) → spans l.
Proof.
  unfold t8_incr_tcnt. destruct (if tcora t <=? tcorb t then _ else _) as [[first fshift] second].
  destruct (t8_segment first _ shift _) as [[[c1 i1] o1] s1] eqn:E1.
  destruct (t8_segment second _ shift _) as [[[c2 i2] o2] s2] eqn:E2.
  apply segment_spans in E1; [|constructor]. apply segment_spans in E2; [|exact E1].
  intros [= <- <-]. destruct (i2 =? 0); [exact E2|]. apply spans_app; [exact E2|apply spans_one].
Qed.

(** What a jump leaves alone. *)
Definition same_setup (t t' : tm) : Prop :=
  tm_tcr t' = tm_tcr t ∧ tcora t' = tcora t ∧ tcorb t' = tcorb t ∧
  last_cycles t' = last_cycles t ∧ my_next_cycle t' = my_next_cycle t.
Lemma same_setup_trans t1 t2 t3 : same_setup t1 t2 → same_setup t2 t3 → same_setup t1 t3.
Proof. unfold same_setup. intuition congruence. Qed.
Lemma same_setup_counter t t' : same_setup t t' → t8_counter t' = t8_counter t.
Proof. intros (E1 & E2 & E3 & _). unfold t8_counter. congruence. Qed.

Section Jump.
Context (shift : Z) (Hshift : 0 <= shift).

(** A segment keeps the sum of the reported and the remaining time. *)
Lemma segment_duration reg os cnt incr o sl cnt' incr' o' sl' :
  byte reg → byte cnt → 0 <= incr → incr * 2 ^ shift < 4294967296 →
  t8_segment reg os shift (cnt, incr, o, sl) = (cnt', incr', o', sl') →
  byte cnt' ∧ 0 <= incr' <= incr ∧
  duration sl' + incr' * 2 ^ shift = duration sl + incr * 2 ^ shift.
Proof.
  intros Hr Hc Hi Hb. unfold t8_segment.
  assert (1 <= 2 ^ shift) as Hp by (apply (Z.pow_le_mono_r 2 0); lia).
  assert (incr < 4294967296) by nia.
  destruct ((cnt <=? reg) && (u32 (cnt + incr) >? reg)) eqn:E; intros [= <- <- <- <-];
    [|split_and!; done || lia].
  assert (reg - cnt + 1 <= incr) as Hle by width_lia.
  assert (0 < reg - cnt + 1) as Hpos by lia.
  rewrite duration_app. cbn [duration foldr snd].
  rewrite Z.shiftl_mul_pow2 by done.
  assert ((reg - cnt + 1) * 2 ^ shift <= incr * 2 ^ shift) as Hm
    by (apply Z.mul_le_mono_nonneg_r; lia).
  rewrite (u32_id (incr - _)) by (unfold dword; lia).
  rewrite u32_id by (unfold dword; nia).
  split; [done|]. split; [lia|]. lia.
Qed.

Lemma incr_tcnt_spec incr t t' l :
  byte (tcnt t) → byte (tcora t) → byte (tcorb t) →
  0 <= incr → incr * 2 ^ shift < 4294967296 - 256 →
  t8_incr_tcnt incr shift t = (t', l) →
  same_setup t t' ∧ tcnt t' = tcnt t ∧
  tm_tcsr t' = tm_tcsr t |! match_flags (t8_counter t)
    (passes (tcnt t) (tcnt t + incr) (tcora t))
    (passes (tcnt t) (tcnt t + incr) (tcorb t)) false ∧
  duration l = incr * 2 ^ shift.
Proof.
  intros Hc Ha Hb Hi Hm. unfold t8_incr_tcnt.
  assert (1 <= 2 ^ shift) as Hp by (apply (Z.pow_le_mono_r 2 0); lia).
  assert (incr < 4294967296 - 256) by nia.
  rewrite !u32_id by width_lia.
  set (tcsr' := if (tcnt t <=? tcorb t) && _ then _ else _).
  assert (tcsr' = tm_tcsr t |! match_flags (t8_counter t)
    (passes (tcnt t) (tcnt t + incr) (tcora t))
    (passes (tcnt t) (tcnt t + incr) (tcorb t)) false) as Et.
  { unfold tcsr'. change TCSR_CMFA with (flag_a (t8_counter t)).
    change TCSR_CMFB with (flag_b (t8_counter t)).
    rewrite lor_flag_a, lor_flag_b, <- Z.lor_assoc, match_flags_lor.
    f_equal. unfold passes. f_equal; lia. }
  clearbody tcsr'.
  destruct (if tcora t <=? tcorb t then _ else _) as [[first fshift] second] eqn:Ef.
  assert (byte first ∧ byte second) as [H1 H2]
    by (destruct (tcora t <=? tcorb t); simplify_eq; done).
  destruct (t8_segment first _ shift _) as [[[c1 i1] o1] s1] eqn:E1.
  destruct (t8_segment second _ shift _) as [[[c2 i2] o2] s2] eqn:E2.
  apply segment_duration in E1 as (B1 & R1 & D1); [|done..|lia].
  apply segment_duration in E2 as (B2 & R2 & D2); [|done|done|lia|nia].
  intros [= <- <-]. split_and!; try done.
  change (duration []) with 0 in D1.
  destruct (Z.eqb_spec i2 0) as [->|Hne]; [lia|].
  rewrite duration_app. cbn [duration foldr snd].
  rewrite Z.shiftl_mul_pow2, u32_id by (done || (unfold dword; nia)). lia.
Qed.

Context (t0 : tm) (Ha : byte (tcora t0)) (Hb : byte (tcorb t0)).
Context (total : Z * Z) (time : Z) (Htime : time < 4294967296 - 256).
Abbreviation k := (t8_counter t0).

Definition t8_inv (st : tm * Z * list (Z * Z)) : Prop :=
  let '(t, incr, l) := st in
  same_setup t0 t ∧ byte (tcnt t) ∧ 0 <= incr ∧
  duration l + incr * 2 ^ shift = time ∧ (0 <= duration l ∧ spans l) ∧
  ticks k incr (tcnt t, tm_tcsr t) = total.
Definition t8_post (r : tm * list (Z * Z)) : Prop :=
  same_setup t0 r.1 ∧ (tcnt r.1, tm_tcsr r.1) = total ∧ duration r.2 = time ∧ spans r.2.

(** A block of the loop that runs [d] ticks and leaves the counter at [n']. *)
Lemma t8_block t incr l d n' flags t' l' :
  t8_inv (t, incr, l) → 0 <= d <= incr →
  t8_incr_tcnt d shift (set_tm_tcsr (tm_tcsr t |! flags) t) = (t', l') →
  byte n' →
  ticks k d (tcnt t, tm_tcsr t) =
    (n', tm_tcsr t |! flags |! match_flags k (passes (tcnt t) (tcnt t + d) (tcora t))
           (passes (tcnt t) (tcnt t + d) (tcorb t)) false) →
  t8_inv (set_tcnt n' t', incr - d, l ++ l').
Proof.
  intros (Hs & Hn & Hi & Htm & [Hl Hsp] & Ht) Hd E Hn' Hk. pose proof (incr_tcnt_spans _ _ _ _ _ E) as Hsp'.
  assert (1 <= 2 ^ shift) as Hp by (apply (Z.pow_le_mono_r 2 0); lia).
  assert (d * 2 ^ shift <= incr * 2 ^ shift) as Hm by (apply Z.mul_le_mono_nonneg_r; lia).
  pose proof Hs as (_ & Ea & Eb & _).
  pose proof (incr_tcnt_spec d (set_tm_tcsr (tm_tcsr t |! flags) t) t' l') as Hspec.
  cbn [tcnt tcora tcorb set_tm_tcsr tm_tcsr] in Hspec.
  rewrite Ea, Eb in Hspec.
  destruct Hspec as (Hs' & Hc' & Hf' & Hdur); [done..|lia|lia|done|].
  change (t8_counter (set_tm_tcsr _ t)) with (t8_counter t) in Hf'.
  rewrite (same_setup_counter t0 t Hs) in Hf'.
  unfold t8_inv. rewrite duration_app, Hdur.
  cbn [tcnt set_tcnt tm_tcsr]. split_and!; [|done|lia|lia|nia|apply spans_app; assumption|].
  - eapply same_setup_trans; [exact Hs|exact Hs'].
  - rewrite <- Ht. replace incr with (d + (incr - d)) at 2 by lia.
    rewrite ticks_add, Hk, Hf', Ea, Eb by lia. done.
Qed.

Lemma t8_loop_inv st :
  t8_inv st →
  match t8_loop shift st with
  | inl st' => t8_inv st' ∧ 0 <= st'.1.2 < st.1.2
  | inr r => t8_post r
  end.
Proof.
  destruct st as [[t incr] l]. intros Hinv. pose proof Hinv as (Hs & Hn & Hi & Htm & [Hl Hsp] & Ht).
  pose proof Hs as (Ec & Ea & Eb & _). unfold t8_loop.
  assert (Ek : match_a k = tcora t ∧ match_b k = tcorb t) by (simpl; auto).
  destruct Ek as [Eka Ekb].
  destruct (Z.eqb_spec incr 0) as [->|Hne].
  { split; [exact Hs|]. split; [exact Ht|]. split; [simpl in *; lia|exact Hsp]. }
  (* a clearing match *)
  assert (∀ reg, reg = tcora t ∨ reg = tcorb t → clears k reg = true →
    passes_clear k (tcnt t) reg = false → tcnt t <= reg < tcnt t + incr → byte reg →
    match (let '(t', l') := t8_incr_tcnt (reg + 1 - tcnt t) shift t in
           @inl _ (tm * list (Z * Z)) (set_tcnt 0 t', incr - (reg + 1 - tcnt t), l ++ l')) with
    | inl st' => t8_inv st' ∧ 0 <= st'.1.2 < incr
    | inr r => t8_post r
    end) as Hclear.
  { intros reg Hreg Hc Hp Hr Hbr.
    destruct (t8_incr_tcnt _ shift t) as [t' l'] eqn:E.
    split; [|simpl; lia].
    apply (t8_block t incr l (reg + 1 - tcnt t) 0 0 t' l' Hinv ltac:(lia));
      [|done|].
    - rewrite Z.lor_0_r. destruct t; exact E.
    - rewrite Z.lor_0_r. unfold byte in *. rewrite run_clear; [|lia|simpl; lia|done..].
      replace (tcnt t + (reg + 1 - tcnt t)) with (reg + 1) by lia.
      rewrite Eka, Ekb. done. }
  (* counting on *)
  assert (passes_clear k (tcnt t) (Z.min (tcnt t + incr) 0x100) = false →
    match (if tcnt t + incr >? 0xff then
             let t := set_tm_tcsr (tm_tcsr t |! TCSR8_OVF) t in
             let '(t', l') := t8_incr_tcnt (0x100 - tcnt t) shift t in
             inl (set_tcnt 0 t', incr - (0x100 - tcnt t), l ++ l')
           else let '(t', l') := t8_incr_tcnt incr shift t in
             inr (set_tcnt (u8 (tcnt t + incr)) t', l ++ l')) with
    | inl st' => t8_inv st' ∧ 0 <= st'.1.2 < incr
    | inr r => t8_post r
    end) as Hcount.
  { intros Hp. destruct (Z.gtb_spec (tcnt t + incr) 0xff) as [Hbig|Hsmall]; cbv zeta.
    - destruct (t8_incr_tcnt _ shift _) as [t' l'] eqn:E.
      unfold byte in *. split; [|simpl; lia].
      apply (t8_block t incr l (0x100 - tcnt t) 0 TCSR8_OVF t' l' Hinv ltac:(lia));
        [exact E|done|].
      replace (0x100 - tcnt t) with (top k + 1 - tcnt t) by (simpl; lia).
      rewrite run_wrap; [|simpl; lia|rewrite <- Hp; f_equal; simpl; lia].
      change TCSR8_OVF with (flag_o k). rewrite lor_flag_o.
      rewrite <- Z.lor_assoc, match_flags_lor, Eka, Ekb.
      replace (tcnt t + (top k + 1 - tcnt t)) with (top k + 1) by lia.
      apply flags_ext; rewrite ?orb_false_r; done.
    - destruct (t8_incr_tcnt incr shift t) as [t' l'] eqn:E.
      rewrite (u8_id (tcnt t + incr)) by width_lia.
      assert (t8_inv (set_tcnt (tcnt t + incr) t', incr - incr, l ++ l')) as Hpost.
      { apply (t8_block t incr l incr (tcnt t + incr) 0 t' l' Hinv ltac:(lia));
          [|width_lia|].
        - rewrite Z.lor_0_r. destruct t; exact E.
        - rewrite Z.lor_0_r. unfold byte in *.
          replace incr with (tcnt t + incr - tcnt t) at 1 by lia.
          rewrite run_up; [|lia|simpl; lia|rewrite <- Hp; f_equal; lia].
          rewrite Eka, Ekb. done. }
      rewrite Z.sub_diag in Hpost. destruct Hpost as (H1 & H2 & H3 & H4 & [H5 H5'] & H6).
      split; [exact H1|]. split; [exact H6|]. cbn [snd]. split; [lia|exact H5']. }
  cbv zeta. change (tm_tcr t) with (tm_tcr t). rewrite Ec.
  destruct (tm_tcr t0 &! (TCR_CCLR1 |! TCR_CCLR0) =? TCR_CCLR0) eqn:Hca;
  [|destruct (tm_tcr t0 &! (TCR_CCLR1 |! TCR_CCLR0) =? TCR_CCLR1) eqn:Hcb].
  - assert (clear_a k = true ∧ clear_b k = false) as [Ca Cb].
    { simpl. rewrite Hca. split; [done|]. apply Z.eqb_eq in Hca. rewrite Hca. done. }
    destruct ((tcnt t <=? tcora t) && (tcnt t + incr >? tcora t)) eqn:E.
    + apply Hclear; [by left| | |lia|rewrite Ea; done];
        unfold clears, passes_clear, passes; rewrite Ca, Cb, Eka; lia.
    + apply Hcount. unfold passes_clear, passes. rewrite Ca, Cb, Eka. lia.
  - assert (clear_a k = false ∧ clear_b k = true) as [Ca Cb] by (simpl; auto).
    destruct ((tcnt t <=? tcorb t) && (tcnt t + incr >? tcorb t)) eqn:E.
    + apply Hclear; [by right| | |lia|rewrite Eb; done];
        unfold clears, passes_clear, passes; rewrite Ca, Cb, Ekb; lia.
    + apply Hcount. unfold passes_clear, passes. rewrite Ca, Cb, Ekb. lia.
  - apply Hcount. unfold passes_clear.
    change (clear_a k) with (tm_tcr t0 &! (TCR_CCLR1 |! TCR_CCLR0) =? TCR_CCLR0).
    change (clear_b k) with (tm_tcr t0 &! (TCR_CCLR1 |! TCR_CCLR0) =? TCR_CCLR1).
    rewrite Hca, Hcb. done.
Qed.
End Jump.

Definition t8_ok (t : tm) : Prop := byte (tcnt t) ∧ byte (tcora t) ∧ byte (tcorb t).

Lemma t8_run_ticks shift incr t :
  0 <= shift → t8_ok t → 0 <= incr → incr * 2 ^ shift < 4294967296 - 256 →
  ∃ t' l, t8_run shift incr t = Some (t', l) ∧ same_setup t t' ∧
    (tcnt t', tm_tcsr t') = ticks (t8_counter t) incr (tcnt t, tm_tcsr t) ∧
    duration l = incr * 2 ^ shift ∧ spans l.
Proof.
  intros Hs (Hn & Ha & Hb) Hi Hm.
  assert (1 <= 2 ^ shift) as Hp by (apply (Z.pow_le_mono_r 2 0); lia).
  destruct (loop_correct (t8_loop shift)
    (t8_inv shift t (ticks (t8_counter t) incr (tcnt t, tm_tcsr t)) (incr * 2 ^ shift))
    (t8_post t (ticks (t8_counter t) incr (tcnt t, tm_tcsr t)) (incr * 2 ^ shift))
    (λ st, st.1.2)) with (p := 4294967296%positive) (s := (t, incr, @nil (Z * Z)))
    as ([t' l] & E & H1 & H2 & H3 & H4).
  - intros st Hst.
    pose proof (t8_loop_inv shift Hs t Ha Hb _ _ Hm st Hst) as Hr.
    destruct (t8_loop shift st); done.
  - unfold t8_inv. split_and!; try done; try (simpl; lia). constructor.
  - simpl. nia.
  - exists t', l. unfold t8_run. rewrite E. done.
Qed.


Lemma t8_freq_range i : t8_freq i = 31 ∨ 1 <= t8_freq i <= 10.
Proof. unfold t8_freq. repeat case_match; lia. Qed.

(** Scheduling only sets [my_next_cycle]. *)
Lemma check_next_fields s c s' c' :
  t8_check_next_cycle s c = (s', c') →
  same_setup (set_my_next_cycle 0 (tm0 s)) (set_my_next_cycle 0 (tm0 s')) ∧
  tcnt (tm0 s') = tcnt (tm0 s) ∧ tm_tcsr (tm0 s') = tm_tcsr (tm0 s) ∧
  out (tm0 s') = out (tm0 s) ∧ tm1 s' = tm1 s ∧ stcr s' = stcr s ∧ sound s' = sound s.
Proof.
  unfold t8_check_next_cycle. intros E.
  repeat case_match; simplify_eq; done.
Qed.

Section Update.
Context (s : t8) (c : clock).
Abbreviation t := (tm0 s).
Context (Hok : t8_ok t).
Context (Hlast : 0 <= last_cycles t < 9223372036854775808).
Context (Helapsed : 0 <= cycles c - last_cycles t < 2147483648).

(** The running case of [t8_update_time]. *)
Lemma t8_update_run :
  t8_shift s ≠ 31 → my_next_cycle t <= cycles c →
  let n := (cycles c - last_cycles t) / 2 ^ t8_shift s in
  ∃ s' c' l, t8_update_time s c = Some (s', c') ∧
    (tcnt (tm0 s'), tm_tcsr (tm0 s')) = ticks (t8_counter t) n (tcnt t, tm_tcsr t) ∧
    last_cycles (tm0 s') = last_cycles t + n * 2 ^ t8_shift s ∧
    sound s' = sound s ++ l ∧ duration l = n * 2 ^ t8_shift s ∧ spans l.
Proof.
  intros Hsh Hdue n. unfold t8_update_time.
  destruct (Z.eqb_spec (t8_shift s) 31) as [|_]; [done|].
  destruct (Z.ltb_spec (cycles c) (my_next_cycle t)) as [|_]; [lia|].
  assert (1 <= t8_shift s <= 10) as Hr.
  { destruct (t8_freq_range ((tm_tcr t &! 7) |! ((stcr s &! 1) <<! 3))); done. }
  assert (1 <= 2 ^ t8_shift s) as Hp by (apply (Z.pow_le_mono_r 2 0); lia).
  assert (0 <= n) by (apply Z.div_pos; lia).
  assert (n * 2 ^ t8_shift s <= cycles c - last_cycles t) as Hn
    by (rewrite Z.mul_comm; apply Z.mul_div_le; lia).
  assert (n < 2147483648) by nia.
  rewrite (u64_id (cycles c - last_cycles t)) by width_lia.
  rewrite Z.shiftr_div_pow2 by lia. fold n. rewrite (s32_id n) by lia.
  rewrite Z.shiftl_mul_pow2 by lia. rewrite s32_id by lia.
  rewrite u64_id by (unfold qword; lia).
  set (t1 := set_last_cycles _ t).
  destruct (t8_run_ticks (t8_shift s) n t1) as (t' & l & -> & Hset & Ht & Hd & Hsp);
    [lia|exact Hok|lia|lia|].
  destruct (t8_check_next_cycle _ c) as [s' c'] eqn:E.
  apply check_next_fields in E as (Hs1 & Hc1 & Hf1 & _ & _ & _ & Hsnd).
  exists s', c', l. split; [done|]. rewrite Hc1, Hf1, Hsnd.
  split_and!; [exact Ht| |done|done|exact Hsp].
  destruct Hs1 as (_ & _ & _ & Hl & _), Hset as (_ & _ & _ & Hl' & _).
  simpl in Hl. rewrite Hl, Hl'. done.
Qed.

(** C13: when timer 0 runs and is due, [t8_update_time] terminates and its jump
    is the tick-by-tick counter: counter and flag register end where that many
    single ticks with the selected clearing register would leave them. *)
Theorem t8_update_is_ticks :
  t8_shift s ≠ 31 → my_next_cycle t <= cycles c →
  let n := (cycles c - last_cycles t) / 2 ^ t8_shift s in
  ∃ s' c', t8_update_time s c = Some (s', c') ∧
    (tcnt (tm0 s'), tm_tcsr (tm0 s')) = ticks (t8_counter t) n (tcnt t, tm_tcsr t) ∧
    last_cycles (tm0 s') = last_cycles t + n * 2 ^ t8_shift s.
Proof.
  intros Hsh Hdue n. destruct (t8_update_run Hsh Hdue) as (s' & c' & l & H1 & H2 & H3 & _).
  eauto.
Qed.

(** The calls of one update, whether the timer is stopped, not yet due or runs. *)
Lemma t8_update_calls :
  ∃ s' c' l, t8_update_time s c = Some (s', c') ∧ sound s' = sound s ++ l ∧
    duration l = last_cycles (tm0 s') - last_cycles t ∧ duration l <= cycles c - last_cycles t ∧ spans l.
Proof.
  destruct (decide (t8_shift s = 31)) as [Hsh|Hsh].
  - unfold t8_update_time. rewrite Hsh. change (31 =? 31) with true. cbv iota.
    destruct (t8_check_next_cycle _ c) as [s' c'] eqn:E.
    apply check_next_fields in E as ((_ & _ & _ & Hl & _) & _ & _ & _ & _ & _ & Hsnd).
    eexists s', c', _. split; [done|]. rewrite Hsnd. split; [reflexivity|].
    simpl in Hl. rewrite Hl. split; [simpl; width_lia|]. split; [simpl; width_lia|apply spans_one].
  - destruct (Z.lt_ge_cases (cycles c) (my_next_cycle t)) as [Hnd|Hdue].
    + unfold t8_update_time.
      destruct (Z.eqb_spec (t8_shift s) 31) as [|_]; [done|].
      destruct (Z.ltb_spec (cycles c) (my_next_cycle t)) as [_|]; [|lia].
      destruct (t8_check_next_cycle _ c) as [s' c'] eqn:E.
      apply check_next_fields in E as ((_ & _ & _ & Hl & _) & _ & _ & _ & _ & _ & Hsnd).
      exists s', c', []. split; [done|]. rewrite Hsnd, app_nil_r. split; [done|].
      split; [simpl in *; lia|]. split; [simpl; lia|constructor].
    + destruct (t8_update_run Hsh Hdue) as (s' & c' & l & H1 & _ & H3 & H4 & H5 & H6).
      exists s', c', l. split_and!; [done..| | |exact H6]; [lia|].
      rewrite H5, Z.mul_comm. apply Z.mul_div_le. apply Z.pow_pos_nonneg; [done|].
      destruct (t8_freq_range ((tm_tcr t &! 7) |! ((stcr s &! 1) <<! 3))) as [E|E]; unfold t8_shift; lia.
Qed.

(** The sound has no gaps.  Whether the timer is stopped, not yet due or
    runs through any number of compare matches and clears, the cycles reported
    by the [sound_update] calls of one [t8_update_time] add up to exactly the
    time by which the timer's own clock [last_cycles] advances. *)
Theorem t8_sound_gapless :
  ∃ s' c' l, t8_update_time s c = Some (s', c') ∧ sound s' = sound s ++ l ∧
    duration l = last_cycles (tm0 s') - last_cycles t.
Proof. destruct t8_update_calls as (s' & c' & l & H1 & H2 & H3 & _). exists s', c', l. auto. Qed.
End Update.

(** ** A compare match that is lost

    The second of the two registers in counting order never acts on the
    output when the counter clears on it: match A is to set the output, match B
    to clear it, the counter clears on A; over a whole period [0 .. TCORA]
    only the action of B is taken, and the output stays 0. *)
Definition t8_square : tm := Tm 0 0x09 0x16 99 49 0 0 0.
Lemma t8_clear_output_lost :
  ∃ t' l, t8_run 3 100 t8_square = Some (t', l) ∧ out t' = 0 ∧
    (tm_tcsr t' &? TCSR_CMFA) = true ∧ l = [(0, 400); (0, 400)].
Proof. eexists _, _. vm_compute. auto. Qed.

(** The schedule tests the flag bits of TCSR instead of the enable bits of TCR:
    with the match A interrupt enabled and a match 11 ticks (88 cycles) away,
    the next call is scheduled 256 ticks (2048 cycles) away. *)
Lemma t8_match_missed :
  let s := T8 (Tm 0 (0x40 |! 0x01) 0x10 10 0xff 0 0 0) (Tm 0 0 0x10 0xff 0xff 0 0 0) 0xf8 [] in
  next_timer_cycle (t8_check_next_cycle s (Clock 0 1600000 1600000)).2 = 2048 ∧
  ∃ t' l, t8_run 3 11 (tm0 s) = Some (t', l) ∧
    tm_tcsr t' &! tm_tcr t' &! 0xe0 = TCSR_CMFA.
Proof. split; [reflexivity|]. eexists _, _. split; vm_compute; reflexivity. Qed.

(** ** Witnesses *)
Definition t8_demo : t8 :=
  T8 (Tm 0 0x09 0x16 99 49 0 1000 1500) (Tm 0 0 0x10 0xff 0xff 0 0 0) 0xf8 [].
Lemma t8_update_is_ticks_witness :
  ∃ s' c', t8_update_time t8_demo (Clock 4000 1600000 1600000) = Some (s', c') ∧
    tcnt (tm0 s') = 75.
Proof.
  destruct (t8_update_is_ticks t8_demo (Clock 4000 1600000 1600000))
    as (s' & c' & E & Hv & _); [plain_memory..|discriminate|plain_memory|].
  exists s', c'. split; [exact E|].
  etransitivity; [exact (f_equal fst Hv)|vm_compute; reflexivity].
Defined.
Lemma t8_sound_gapless_witness :
  ∃ s' c' l, t8_update_time t8_demo (Clock 4000 1600000 1600000) = Some (s', c') ∧
    sound s' = l ∧ duration l = last_cycles (tm0 s') - 1000.
Proof. apply (t8_sound_gapless t8_demo (Clock 4000 1600000 1600000)); plain_memory. Defined.
