(* ===== verification/Watchdog.v ===== *)
(** * Watchdog: the watchdog timer of [watchdog.c]

    Its counter runs while TME is set; on overflow it raises a reset (RST) or
    the NMI, in watchdog mode (WT/IT) 518 cycles later.  Both registers are
    written through a password, and the overflow flag can only be cleared after
    it has been read as 1. *)
From S2P Require Export Periph.

Definition WTCSR_OVF : Z := 0x80.
Definition WTCSR_WTIT : Z := 0x40.
Definition WTCSR_TME : Z := 0x20.
Definition WTCSR_RST : Z := 0x08.

Record wdog := Wdog {
  w_tcsr : Z; w_readtcsr : Z; w_tcnt : Z; w_pw : Z; w_last_cycles : Z }.

Definition set_w_tcsr v w := Wdog v (w_readtcsr w) (w_tcnt w) (w_pw w) (w_last_cycles w).
Definition set_w_readtcsr v w := Wdog (w_tcsr w) v (w_tcnt w) (w_pw w) (w_last_cycles w).
Definition set_w_tcnt v w := Wdog (w_tcsr w) (w_readtcsr w) v (w_pw w) (w_last_cycles w).
Definition set_w_pw v w := Wdog (w_tcsr w) (w_readtcsr w) (w_tcnt w) v (w_last_cycles w).
Definition set_w_last_cycles v w := Wdog (w_tcsr w) (w_readtcsr w) (w_tcnt w) (w_pw w) v.

(** [freq[8]] *)
Definition wdog_freq (i : Z) : Z :=
  match i with
  | 0 => 1 | 1 => 5 | 2 => 6 | 3 => 7 | 4 => 8 | 5 => 9 | 6 => 11 | _ => 12
  end.
Definition wdog_shift (w : wdog) : Z := wdog_freq (w_tcsr w &! 7).

Definition wdog_reset (c : clock) (w : wdog) : wdog := Wdog 0x10 0x10 0 0 (cycles c).

Definition wdog_check_next_cycle (w : wdog) (c : clock) : clock :=
  if w_tcsr w &? WTCSR_TME then
    let next_cycle := u64 (w_last_cycles w + ((0x100 - w_tcnt w) <<! wdog_shift w)) in
    let c := if next_cycle <? next_nmi_cycle c then set_next_nmi_cycle next_cycle c else c in
    if next_cycle <? next_timer_cycle c then set_next_timer_cycle next_cycle c else c
  else c.

Definition wdog_update_time (w : wdog) (c : clock) : wdog * clock :=
  if w_tcsr w &? WTCSR_TME then
    let f := wdog_shift w in
    let incr := s32 (u64 (cycles c - w_last_cycles w) >>! f) in
    if incr <? 0 then (w, wdog_check_next_cycle w c)
    else
      let w := set_w_last_cycles (u64 (w_last_cycles w + s32 (incr <<! f))) w in
      let '(w, incr) :=
        if w_tcnt w + incr >? 0xff then
          let w := set_w_tcsr (w_tcsr w |! WTCSR_OVF) w in
          if w_tcsr w &? WTCSR_WTIT then
            let l := u64 (w_last_cycles w - s32 ((w_tcnt w + incr - 0x100) <<! f)) in
            (set_w_tcnt 0 (set_w_last_cycles (u64 (l + 518)) w), 0)
          else (w, incr)
        else (w, incr) in
      let w := set_w_tcnt (u8 (w_tcnt w + incr)) w in
      (w, wdog_check_next_cycle w c)
  else (w, c).

Definition wdog_check_irq (w : wdog) (c : clock) : wdog * clock * Z :=
  if w_tcsr w &? WTCSR_OVF then
    let w := set_w_tcsr (u8 (w_tcsr w &! Z.lnot WTCSR_OVF)) w in
    if w_tcsr w &? WTCSR_RST then (w, set_next_nmi_cycle (w_last_cycles w) c, 0)
    else (w, c, 3)
  else (w, c, 255).

Definition set_pw (val : Z) (w : wdog) : wdog := set_w_pw val w.
Definition set_val (val : Z) (w : wdog) (c : clock) : wdog * clock :=
  if w_pw w =? 0xa5 then
    let '(w, c) := wdog_update_time w c in
    let val := val |! 0x10 in
    let val := val |! (0x80 &! Z.lnot (w_readtcsr w)) in
    let val := val &! (0x7f |! w_tcsr w) in
    let w := set_w_pw 0 (set_w_last_cycles (cycles c) (set_w_tcsr val w)) in
    (w, wdog_check_next_cycle w c)
  else if w_pw w =? 0x5a then
    let '(w, c) := wdog_update_time w c in
    let w := set_w_pw 0 (set_w_last_cycles (cycles c) (set_w_tcnt val w)) in
    (w, wdog_check_next_cycle w c)
  else (w, c).
Definition get_WTCSR (w : wdog) : wdog * Z := (set_w_readtcsr (w_tcsr w) w, w_tcsr w).
Definition get_WTCNT (w : wdog) : Z := w_tcnt w.

Record wdog_save_type := WdogSave {
  svw_last_cycles : Z; svw_tcsr : Z; svw_readtcsr : Z; svw_tcnt : Z; svw_pw : Z }.
Definition wdog_save (w : wdog) : wdog_save_type :=
  WdogSave (htonl (w_last_cycles w)) (w_tcsr w) (w_readtcsr w) (w_tcnt w) (w_pw w).
Definition wdog_load (d : wdog_save_type) (w : wdog) : wdog :=
  Wdog (svw_tcsr d) (svw_readtcsr d) (svw_tcnt d) (svw_pw d) (htonl (svw_last_cycles d)).

(** ** Properties *)
Record wdog_ok (w : wdog) : Prop := {
  wok_tcsr : byte (w_tcsr w); wok_readtcsr : byte (w_readtcsr w);
  wok_tcnt : byte (w_tcnt w); wok_pw : byte (w_pw w);
  wok_last : 0 <= w_last_cycles w < 9223372036854775808 }.

(** The cycle at which the counter overflows. *)
Definition deadline (w : wdog) : Z :=
  w_last_cycles w + (0x100 - w_tcnt w) * 2 ^ wdog_shift w.
Lemma wdog_freq_range i : 1 <= wdog_freq i <= 12.
Proof. unfold wdog_freq. repeat case_match; lia. Qed.
Lemma wdog_shift_pow w : 2 <= 2 ^ wdog_shift w <= 4096.
Proof.
  unfold wdog_shift. pose proof (wdog_freq_range (w_tcsr w &! 7)).
  split; [apply (Z.pow_le_mono_r 2 1)|apply (Z.pow_le_mono_r 2 _ 12)]; lia.
Qed.

Lemma check_next_schedules w c :
  wdog_ok w → (w_tcsr w &? WTCSR_TME) = true →
  let c' := wdog_check_next_cycle w c in
  next_nmi_cycle c' <= deadline w ∧ next_timer_cycle c' <= deadline w ∧
  cycles c' = cycles c.
Proof.
  intros [_ _ Hn _ Hl] Ht c'. subst c'. unfold wdog_check_next_cycle. rewrite Ht.
  pose proof (wdog_shift_pow w). unfold byte in *.
  assert (0 <= wdog_shift w) by (pose proof (wdog_freq_range (w_tcsr w &! 7)); unfold wdog_shift; lia).
  rewrite Z.shiftl_mul_pow2 by done. unfold deadline.
  assert (0 <= (0x100 - w_tcnt w) * 2 ^ wdog_shift w <= 1048576) by nia.
  rewrite u64_id by (unfold qword; lia).
  repeat match goal with |- context [if ?x <? ?y then _ else _] => destruct (Z.ltb_spec x y) end;
    cbn [next_nmi_cycle next_timer_cycle cycles set_next_nmi_cycle set_next_timer_cycle] in *; lia.
Qed.

Lemma ovf_keeps t mask :
  mask &! WTCSR_OVF = 0 → (t |! WTCSR_OVF) &! mask = t &! mask.
Proof.
  intros Hm. rewrite Z.land_lor_distr_l, (Z.land_comm WTCSR_OVF), Hm. apply Z.lor_0_r.
Qed.

(** The counter's steps since the last update, and when they overflow it. *)
Lemma wdog_elapsed w c :
  wdog_ok w → w_last_cycles w <= cycles c < w_last_cycles w + 2147483648 →
  let d := cycles c - w_last_cycles w in
  let n := d / 2 ^ wdog_shift w in
  s32 (u64 d >>! wdog_shift w) = n ∧ 0 <= n ∧
  n * 2 ^ wdog_shift w <= d < n * 2 ^ wdog_shift w + 2 ^ wdog_shift w ∧
  (w_tcnt w + n > 0xff ↔ deadline w <= cycles c).
Proof.
  intros [Hb1 Hb2 Hn Hb4 Hl] Hc d n. pose proof (wdog_shift_pow w) as Hp.
  assert (0 <= wdog_shift w) as Hs
    by (pose proof (wdog_freq_range (w_tcsr w &! 7)); unfold wdog_shift; lia).
  unfold deadline. set (f := wdog_shift w) in *.
  assert (0 <= n) by (apply Z.div_pos; lia).
  assert (n * 2 ^ f <= d < n * 2 ^ f + 2 ^ f) as Hnd
    by (unfold n; pose proof (Z.div_mod d (2 ^ f)); pose proof (Z.mod_pos_bound d (2 ^ f)); lia).
  split_and!; [| lia | lia | lia | ].
  - rewrite u64_id, Z.shiftr_div_pow2 by (unfold qword; lia). apply s32_id. fold n. nia.
  - unfold byte in Hn. split; intros; [nia|].
    assert ((0x100 - w_tcnt w) * 2 ^ f < (n + 1) * 2 ^ f) as Hm by lia.
    apply Z.mul_lt_mono_pos_r in Hm; lia.
Qed.

(** C18: the watchdog barks exactly at its deadline.  While it runs, an update
    before the cycle [last_cycles + (256 - TCNT) * divisor] only counts on and
    leaves the deadline where it is; an update at or after it sets the overflow
    flag and, in watchdog mode, restarts the counter 518 cycles after the
    deadline; and the next update is scheduled no later than the next deadline. *)
Theorem wdog_deadline w c :
  wdog_ok w → (w_tcsr w &? WTCSR_TME) = true →
  w_last_cycles w <= cycles c < w_last_cycles w + 2147483648 →
  cycles c < 4611686018427387904 →
  let '(w', c') := wdog_update_time w c in
  (cycles c < deadline w →
     w_tcsr w' = w_tcsr w ∧ deadline w' = deadline w ∧
     w_tcnt w' = w_tcnt w + (cycles c - w_last_cycles w) / 2 ^ wdog_shift w) ∧
  (deadline w <= cycles c →
     w_tcsr w' = w_tcsr w |! WTCSR_OVF ∧
     ((w_tcsr w &? WTCSR_WTIT) = true →
        w_tcnt w' = 0 ∧ w_last_cycles w' = deadline w + 518)) ∧
  next_nmi_cycle c' <= deadline w' ∧ next_timer_cycle c' <= deadline w'.
Proof.
  intros Hok Ht Hc Hmax. pose proof Hok as [Hb1 Hb2 Hn Hb4 Hl].
  unfold wdog_update_time. rewrite Ht.
  pose proof (wdog_shift_pow w) as Hp.
  destruct (wdog_elapsed w c Hok Hc) as (-> & Hn0 & Hnd & Hiff).
  assert (0 <= wdog_shift w) as Hs
    by (pose proof (wdog_freq_range (w_tcsr w &! 7)); unfold wdog_shift; lia).
  set (f := wdog_shift w) in *. set (d := cycles c - w_last_cycles w) in *. set (n := d / 2 ^ f) in *.
  destruct (Z.ltb_spec n 0) as [|_]; [lia|].
  rewrite !Z.shiftl_mul_pow2 by done. cbn [w_last_cycles set_w_last_cycles w_tcnt w_tcsr].
  rewrite (s32_id (n * 2 ^ f)) by lia. rewrite (u64_id (_ + n * 2 ^ f)) by (unfold qword; lia).
  unfold byte in Hn.
  assert (∀ w', wdog_ok w' → (w_tcsr w' &? WTCSR_TME) = true →
    next_nmi_cycle (wdog_check_next_cycle w' c) <= deadline w' ∧
    next_timer_cycle (wdog_check_next_cycle w' c) <= deadline w') as Hsched.
  { intros w' H1 H2. destruct (check_next_schedules w' c H1 H2) as (? & ? & _). auto. }
  destruct (Z.gtb_spec (w_tcnt w + n) 0xff) as [Hover|Hno];
    cbn [w_tcsr set_w_tcsr w_tcnt].
  - rewrite ovf_keeps by done.
    assert (((w_tcsr w |! WTCSR_OVF) &? WTCSR_TME) = true) as Ht' by (rewrite ovf_keeps; done).
    assert (byte (w_tcsr w |! WTCSR_OVF)) as Hb1' by (apply byte_lor; [done|apply byte_const; done]).
    destruct (w_tcsr w &? WTCSR_WTIT) eqn:Hw.
    + assert (0 <= (w_tcnt w + n - 0x100) * 2 ^ f) by (apply Z.mul_nonneg_nonneg; lia).
      assert ((w_tcnt w + n - 0x100) * 2 ^ f <= n * 2 ^ f) by (apply Z.mul_le_mono_nonneg_r; lia).
      cbn [w_last_cycles set_w_last_cycles set_w_tcsr w_tcnt]. rewrite s32_id by lia.
      rewrite (u64_id (_ - _)) by (unfold qword; lia).
      rewrite u64_id by (unfold qword; lia). split; [intros; lia|].
      split.
      * intros _. cbn [set_w_tcnt w_tcsr w_tcnt w_last_cycles]. split; [done|].
        intros _. split; [done|]. cbn [w_last_cycles set_w_last_cycles].
        unfold deadline. fold f. ring.
      * apply Hsched; [|exact Ht']. constructor; try done.
        cbn [w_last_cycles set_w_last_cycles set_w_tcnt]. lia.
    + split; [intros; lia|]. split; [intros _; split; [done|intros [=]]|].
      apply Hsched; [|exact Ht']. constructor; try done; [apply u8_byte|].
      cbn [set_w_tcnt set_w_tcsr set_w_last_cycles w_last_cycles]. lia.
  - cbn [w_tcnt set_w_last_cycles]. rewrite u8_id by (unfold byte; lia). split; [|split; [intros; lia|]].
    + intros _. cbn [set_w_tcnt set_w_last_cycles w_tcsr w_tcnt]. split; [done|]. split; [|done].
      unfold deadline. change (wdog_shift (set_w_tcnt _ _)) with f. fold f.
      cbn [set_w_tcnt set_w_last_cycles w_tcnt w_last_cycles]. lia.
    + apply Hsched; [|exact Ht]. constructor; try done; [unfold byte; simpl; lia|].
      cbn [set_w_tcnt set_w_last_cycles w_last_cycles]. lia.
Qed.

Lemma wdog_update_read w c :
  w_readtcsr (wdog_update_time w c).1 = w_readtcsr w.
Proof. unfold wdog_update_time. repeat case_match; simplify_eq; done. Qed.

(** The write protocol.  A value written without a valid password is
    ignored; each password is good for one write; and writing the control
    register can neither set the overflow flag nor clear one that the program
    has not read as 1 before. *)
Theorem wdog_protocol p v v' w c :
  byte v → byte (w_readtcsr w) →
  let '(w1, c1) := set_val v (set_pw p w) c in
  (p ≠ 0xa5 → p ≠ 0x5a → w1 = set_w_pw p w ∧ c1 = c) ∧
  (p = 0xa5 ∨ p = 0x5a → w_pw w1 = 0 ∧ set_val v' w1 c1 = (w1, c1)) ∧
  (p = 0xa5 →
     Z.testbit (w_tcsr w1) 7 =
       Z.testbit (w_tcsr (wdog_update_time (set_pw p w) c).1) 7 &&
       (Z.testbit v 7 || negb (Z.testbit (w_readtcsr w) 7))).
Proof.
  intros Hv Hr. unfold set_val at 1. cbn [w_pw set_pw set_w_pw].
  pose proof (wdog_update_read (set_pw p w) c) as Hread.
  destruct (Z.eqb_spec p 0xa5) as [->|Ha]; [|destruct (Z.eqb_spec p 0x5a) as [->|H5]].
  - destruct (wdog_update_time _ c) as [w1 c1]. cbn [fst] in Hread.
    split_and!; [done|intros _; done|intros _].
    cbn [w_tcsr set_w_pw set_w_last_cycles set_w_tcsr fst].
    rewrite Hread. cbn [w_readtcsr set_pw set_w_pw].
    rewrite !Z.land_spec, !Z.lor_spec, Z.land_spec, Z.lnot_spec by lia.
    simpl (Z.testbit 0x10 7). simpl (Z.testbit 0x80 7). simpl (Z.testbit 0x7f 7).
    rewrite orb_false_r, andb_comm. done.
  - destruct (wdog_update_time _ c) as [w1 c1].
    split_and!; [done|intros _; done|done].
  - split_and!; [done|intros [|]; done|done].
Qed.

(** ** Witnesses *)
Definition wdog_demo : wdog := Wdog 0x78 0x78 250 0 1000.
Lemma wdog_deadline_witness :
  let '(w', c') := wdog_update_time wdog_demo (Clock 1020 1600000 1600000) in
  w_tcsr w' = 0xf8 ∧ w_tcnt w' = 0.
Proof.
  assert (wdog_ok wdog_demo) as Hok by (constructor; plain_memory).
  pose proof (wdog_deadline wdog_demo (Clock 1020 1600000 1600000) Hok eq_refl) as H.
  destruct (wdog_update_time wdog_demo (Clock 1020 1600000 1600000)) as [w' c'] eqn:E.
  destruct H as (_ & H & _); [plain_memory..|].
  destruct H as [-> H]; [plain_memory|]. destruct H as [-> _]; done.
Defined.
Lemma wdog_protocol_witness :
  (set_val 0x20 (set_pw 0 wdog_demo) (Clock 1020 1600000 1600000)).1 = wdog_demo.
Proof.
  pose proof (wdog_protocol 0 0x20 0 wdog_demo (Clock 1020 1600000 1600000)) as H.
  destruct (set_val 0x20 (set_pw 0 wdog_demo) (Clock 1020 1600000 1600000)) as [w1 c1].
  destruct H as [H _]; [plain_memory..|]. destruct H as [-> _]; [discriminate..|]. done.
Defined.
