(* ===== verification/Buttons.v ===== *)
(** * Buttons: [buttons.c] and [waitstate.c]

    The four buttons of the brick and the interrupt controller's IRQ0..IRQ2;
    [btn_state] is active low. *)
From S2P Require Export Periph.

Definition BUTTON_RUN : Z := 0x01.
Definition BUTTON_ONOFF : Z := 0x02.
Definition BUTTON_VIEW : Z := 0x40.
Definition BUTTON_PRGM : Z := 0x80.

Record buttons := Buttons { btn_state : Z; iscr : Z; ier : Z; irqpending : Z }.

Definition btn_reset : buttons := Buttons 0xff 0 0 0.
Definition btn_check_next_cycle (b : buttons) (c : clock) : clock :=
  if negb ((Z.lnot (btn_state b) &! ier b &! Z.lnot (iscr b) &! 7)
           |! (irqpending b &! iscr b) =? 0)
  then set_next_timer_cycle (cycles c) c else c.

Definition btn_save (b : buttons) : buttons := b.
Definition btn_load (d b : buttons) (c : clock) : buttons * clock :=
  let pend := irqpending d |! (btn_state d &! Z.lnot (btn_state b) &! iscr d &! 7) in
  let b := Buttons (btn_state b) (iscr d) (ier d) (u8 pend) in
  (b, btn_check_next_cycle b c).

(** The button a GUI letter names. *)
Definition btn_mask (letter : Z) : Z :=
  match letter with
  | 79 | 111 => BUTTON_ONOFF
  | 80 | 112 => BUTTON_PRGM
  | 82 | 114 => BUTTON_RUN
  | 86 | 118 => BUTTON_VIEW
  | _ => 0
  end.
(** The three bytes of a message: letter, ['1'] for pressed, newline. *)
Definition btn_read_fd (letter val : Z) (b : buttons) (c : clock) : buttons * clock :=
  let mask := btn_mask letter in
  let newval := if val =? 49 then 0 else 0xff in
  if (btn_state b ^! newval) &? mask then
    let b := Buttons (u8 (btn_state b ^! mask)) (iscr b) (ier b)
               (u8 (irqpending b |! (btn_state b &! mask &! iscr b &! 7))) in
    (b, btn_check_next_cycle b c)
  else (b, c).

(** The first of the three interrupts in [irqs]. *)
Definition btn_first (irqs : Z) : option Z :=
  head (filter (λ i, irqs &? (1 <<! i) = true) [0; 1; 2]).
Definition btn_irqs (b : buttons) : Z :=
  (Z.lnot (btn_state b) &! ier b &! Z.lnot (iscr b) &! 7) |! irqpending b.
Definition btn_check_irq (b : buttons) : buttons * Z :=
  match btn_first (btn_irqs b) with
  | Some i =>
      (Buttons (btn_state b) (iscr b) (ier b)
         (u8 (irqpending b &! Z.lnot (1 <<! i))), 4 + i)
  | None => (b, 255)
  end.

Definition set_iscr (value : Z) (b : buttons) (c : clock) : buttons * clock :=
  let b := Buttons (btn_state b) (value &! 7) (ier b) (irqpending b &! (value &! 7)) in
  (b, btn_check_next_cycle b c).
(** The code returns [ier] here. *)
Definition get_iscr (b : buttons) : Z := ier b |! 0xf8.
Definition set_ier (value : Z) (b : buttons) (c : clock) : buttons * clock :=
  let b := Buttons (btn_state b) (iscr b) (value &! 7) (irqpending b) in
  (b, btn_check_next_cycle b c).
Definition get_ier (b : buttons) : Z := ier b |! 0xf8.
Definition get_port4 (b : buttons) : Z :=
  1 |! (btn_state b &! 2) |! ((btn_state b &! 1) <<! 2).
Definition get_port7 (b : buttons) : Z := btn_state b &! 0xc0.

(** ** [waitstate.c]: the WSCR register and the wait states it selects. *)
Definition PIN_WAIT_STATES : Z := 0.
Definition set_WCSR (val : Z) : Z * Z :=
  (val, match val &! 0x0c with
        | 0 => val &! 3 | 4 => 0 | 8 => PIN_WAIT_STATES | _ => val &! 3
        end).

(** ** Properties *)
Definition buttons_ok (b : buttons) : Prop :=
  byte (btn_state b) ∧ 0 <= iscr b < 8 ∧ 0 <= ier b < 8 ∧ 0 <= irqpending b < 8.

(** The messages that press the two buttons with an interrupt line. *)
Definition press_of (line : Z) : Z := if line =? 0 then 82 else 79.

(** How a button press reaches the processor.  On a quiet controller with
    all buttons released, pressing the Run button (IRQ0) or the On-Off button
    (IRQ1) is delivered exactly once when the line is edge-triggered - whether or
    not the line is enabled in IER - and as long as the button is held when it is
    level-triggered and enabled. *)
Theorem btn_press_delivery b c line :
  buttons_ok b → btn_state b = 0xff → irqpending b = 0 → (line = 0 ∨ line = 1) →
  let b1 := (btn_read_fd (press_of line) 49 b c).1 in
  if iscr b &? (1 <<! line) then
    (btn_check_irq b1).2 = 4 + line ∧
    btn_check_irq (btn_check_irq b1).1 = ((btn_check_irq b1).1, 255)
  else btn_check_irq b1 = (b1, if ier b &? (1 <<! line) then 4 + line else 255).
Proof.
  intros (_ & Hs & He & _) Hb Hp Hl. destruct b as [st sc en pe].
  cbn [btn_state irqpending iscr ier] in *. subst st pe.
  assert (∀ x, 0 <= x < 8 → x = 0 ∨ x = 1 ∨ x = 2 ∨ x = 3 ∨ x = 4 ∨ x = 5 ∨ x = 6 ∨ x = 7)
    as Hcases by lia.
  destruct (Hcases sc Hs) as [-> | [-> | [-> | [-> | [-> | [-> | [-> | ->]]]]]]],
    (Hcases en He) as [-> | [-> | [-> | [-> | [-> | [-> | [-> | ->]]]]]]],
    Hl as [-> | ->]; vm_compute; auto.
Qed.

(** Reading the sense-control register gives the enable register. *)
Lemma get_iscr_is_ier : get_iscr (Buttons 0xff 0x01 0x06 0) = 0xfe.
Proof. reflexivity. Qed.

Lemma btn_press_delivery_witness :
  (btn_check_irq (btn_read_fd 82 49 (Buttons 0xff 1 1 0) (Clock 0 100 100)).1).2 = 4.
Proof.
  apply (btn_press_delivery (Buttons 0xff 1 1 0) (Clock 0 100 100) 0);
    [plain_memory|reflexivity|reflexivity|left; reflexivity].
Defined.
