(* ===== verification/AdSensors.v ===== *)
(** * AdSensors: the A/D converter of [adsensors.c]

    Converts one channel, or in scan mode a group of up to four; a conversion
    takes 134 or 266 cycles.  [values] is what the GUI sent for the sensors,
    [polled] the four data registers. *)
From S2P Require Export Periph.

Definition ADCSR_ADF : Z := 0x80.
Definition ADCSR_ADIE : Z := 0x40.
Definition ADCSR_ADST : Z := 0x20.
Definition ADCSR_SCAN : Z := 0x10.
Definition ADCSR_CKS : Z := 0x08.
Definition ADCSR_CH : Z := 0x07.

Record ad := Ad {
  values : list Z; polled : list Z; ad_tmp : Z; adcsr : Z; read_adcsr : Z;
  adcr : Z; adchannel : Z; ad_start_cycle : Z }.

Definition set_values v s := Ad v (polled s) (ad_tmp s) (adcsr s) (read_adcsr s) (adcr s) (adchannel s) (ad_start_cycle s).
Definition set_polled v s := Ad (values s) v (ad_tmp s) (adcsr s) (read_adcsr s) (adcr s) (adchannel s) (ad_start_cycle s).
Definition set_ad_tmp v s := Ad (values s) (polled s) v (adcsr s) (read_adcsr s) (adcr s) (adchannel s) (ad_start_cycle s).
Definition put_adcsr v s := Ad (values s) (polled s) (ad_tmp s) v (read_adcsr s) (adcr s) (adchannel s) (ad_start_cycle s).
Definition set_read_adcsr v s := Ad (values s) (polled s) (ad_tmp s) (adcsr s) v (adcr s) (adchannel s) (ad_start_cycle s).
Definition put_adcr v s := Ad (values s) (polled s) (ad_tmp s) (adcsr s) (read_adcsr s) v (adchannel s) (ad_start_cycle s).
Definition set_channel ch start s := Ad (values s) (polled s) (ad_tmp s) (adcsr s) (read_adcsr s) (adcr s) ch start.

Definition ad_reset (s : ad) : ad := set_channel 0 (ad_start_cycle s) (put_adcsr 0 (put_adcr 0x7f s)).

(** A message: sensor digit and three hexadecimal digits. [None]: the index is
    outside the array. *)
Definition ad_digit (b : Z) : Z := if b >? 57 then b - 97 + 10 else b - 48.
Definition ad_value (b1 b2 b3 : Z) : Z :=
  u16 ((ad_digit b1 <<! 14) |! (ad_digit b2 <<! 10) |! (ad_digit b3 <<! 6)).
Definition ad_read_fd (b0 b1 b2 b3 : Z) (s : ad) : option ad :=
  let i := b0 - 48 in
  if (0 <=? i) && (i <? 8)
  then Some (set_values (<[Z.to_nat i := ad_value b1 b2 b3]> (values s)) s)
  else None.

Definition conv_time (s : ad) : Z := if adcsr s &? ADCSR_CKS then 134 else 266.
Definition ad_check_next_cycle (s : ad) (c : clock) : clock :=
  if adcsr s &! 0xc0 =? 0xc0 then set_next_timer_cycle (cycles c) c
  else if adcsr s &! (ADCSR_ADIE |! ADCSR_ADST) =? (ADCSR_ADIE |! ADCSR_ADST) then
    let next := add_to_cycle (ad_start_cycle s) (conv_time s) in
    if next <? next_timer_cycle c then set_next_timer_cycle next c else c
  else c.

(** One turn of the loop of [ad_update_time]; [inr None]: outside [values]. *)
Definition ad_done (a : Z) : Z := u8 ((a &! Z.lnot ADCSR_ADST) |! ADCSR_ADF).
Definition ad_turn (now conv : Z) (s : ad) : ad + option ad :=
  if negb (adcsr s &? ADCSR_ADST) then inr (Some s)
  else if s32 (now - ad_start_cycle s) <? conv then inr (Some s)
  else
    match values s !! Z.to_nat (adchannel s) with
    | None => inr None
    | Some v =>
        let s := set_polled (<[Z.to_nat (adchannel s &! 3) := v]> (polled s)) s in
        if adcsr s &? ADCSR_SCAN then
          let start := u64 (ad_start_cycle s + conv) in
          if adchannel s <? adcsr s &! ADCSR_CH
          then inl (set_channel (u8 (adchannel s + 1)) start s)
          else inl (put_adcsr (ad_done (adcsr s))
                      (set_channel (adchannel s &! 4) start s))
        else inl (put_adcsr (ad_done (adcsr s)) s)
    end.
Definition ad_update_time (s : ad) (c : clock) : option (ad * clock) :=
  match loop (ad_turn (cycles c) (conv_time s)) 256 s with
  | inr (Some s) => Some (s, ad_check_next_cycle s c)
  | _ => None
  end.

Definition ad_check_irq (s : ad) : Z := if adcsr s &! 0xc0 =? 0xc0 then 35 else 255.

Definition set_adcsr (value : Z) (s : ad) (c : clock) : ad * clock :=
  let value := value &! (0x7f |! read_adcsr s) in
  let s := if (Z.lnot (adcsr s) &! value) &? ADCSR_ADST
           then set_channel (if value &? ADCSR_SCAN then value &! 4 else value &! ADCSR_CH)
                  (cycles c) s
           else s in
  let s := put_adcsr value s in
  (s, ad_check_next_cycle s c).
Definition get_adcsr (s : ad) : ad * Z := (set_read_adcsr (adcsr s) s, adcsr s).
Definition set_adcr (value : Z) (s : ad) (c : clock) : ad * clock :=
  let s := put_adcr (value |! 0x7f) s in (s, ad_check_next_cycle s c).
Definition get_adcr (s : ad) : Z := adcr s.
(** The data registers A..D: the high byte latches the low one. *)
Definition get_addrh (i : nat) (s : ad) : ad * Z :=
  let p := polled s !!! i in (set_ad_tmp (p &! 0xc0) s, p >>! 8).
Definition get_addrl (s : ad) : Z := ad_tmp s.

Record ad_save_type := AdSave {
  sva_start_cycle : Z; sva_polled : list Z; sva_tmp : Z; sva_adcsr : Z;
  sva_read_adcsr : Z; sva_adcr : Z; sva_adchannel : Z }.
Definition ad_save (s : ad) : ad_save_type :=
  AdSave (htonl (ad_start_cycle s)) (htons <$> take 4 (polled s)) (ad_tmp s) (adcsr s)
    (read_adcsr s) (adcr s) (adchannel s).
Definition ad_load (d : ad_save_type) (s : ad) : ad :=
  Ad (values s) (htons <$> sva_polled d) (sva_tmp d) (sva_adcsr d) (sva_read_adcsr d)
    (sva_adcr d) (sva_adchannel d) (htonl (sva_start_cycle d)).

(** ** A scan group *)
Definition ad_arrays (s : ad) : Prop := length (values s) = 8%nat ∧ length (polled s) = 4%nat.

(** The data registers after the first [i] conversions of the group at [base]. *)
Definition group (base i : nat) (vals pol : list Z) : list Z :=
  take i (drop base vals) ++ drop i pol.

Lemma group_step base i vals pol v :
  length pol = 4%nat → (i < 4)%nat → vals !! (base + i)%nat = Some v →
  <[i := v]> (group base i vals pol) = group base (S i) vals pol.
Proof.
  intros Hp Hi Hv. unfold group.
  assert (drop base vals !! i = Some v) as Hd by (rewrite lookup_drop; done).
  assert (length (take i (drop base vals)) = i) as Hlen.
  { rewrite length_take. apply lookup_lt_Some in Hd. lia. }
  rewrite insert_app_r_alt by lia. rewrite Hlen, Nat.sub_diag.
  destruct (drop i pol) as [|x l] eqn:E.
  { apply (f_equal length) in E. rewrite length_drop in E. simpl in E. lia. }
  rewrite (take_S_r _ _ v) by done. rewrite <- app_assoc. simpl. do 2 f_equal.
  replace (S i) with (i + 1)%nat by lia. rewrite <- drop_drop, E. done.
Qed.

Lemma adcsr_bits a :
  byte a →
  (a &! ADCSR_CH = (a &! 4) + (a &! 3)) ∧ (a &! 4 = 0 ∨ a &! 4 = 4) ∧
  0 <= a &! 3 < 4 ∧ (ad_done a &? ADCSR_ADST) = false.
Proof.
  intros Ha.
  pose proof (forall_byte (λ a, (a &! ADCSR_CH =? (a &! 4) + (a &! 3)) &&
    ((a &! 4 =? 0) || (a &! 4 =? 4)) && (0 <=? a &! 3) && (a &! 3 <? 4) &&
    negb (ad_done a &? ADCSR_ADST)) eq_refl a Ha) as H. cbv beta in H.
  destruct (ad_done a &? ADCSR_ADST); lia.
Qed.
Lemma channel_index base i :
  base = 0 ∨ base = 4 → 0 <= i < 4 →
  Z.to_nat ((base + i) &! 3) = Z.to_nat i ∧
  Z.to_nat (base + i) = (Z.to_nat base + Z.to_nat i)%nat.
Proof.
  intros Hb Hi. split; [|destruct Hb; lia].
  assert (i = 0 ∨ i = 1 ∨ i = 2 ∨ i = 3) as Hc by lia.
  destruct Hb as [-> | ->], Hc as [-> | [-> | [-> | ->]]]; done.
Qed.

Section Scan.
Context (s : ad) (now : Z).
Context (Harr : ad_arrays s) (Hbyte : byte (adcsr s)).
Context (Hst : (adcsr s &? ADCSR_ADST) = true) (Hscan : (adcsr s &? ADCSR_SCAN) = true).
Context (Hch : adchannel s = adcsr s &! 4).
Context (Hstart : 0 <= ad_start_cycle s < 9223372036854775808).
Context (Hnow : 0 <= now - ad_start_cycle s < 2147483648).

Abbreviation T := (conv_time s).
Abbreviation base := (adcsr s &! 4).
(** The channels of the group, and the conversions there was time for. *)
Definition scan_length : Z := (adcsr s &! 3) + 1.
Definition scan_time : Z := (now - ad_start_cycle s) / T.

Definition scanned (i : Z) (flags : Z) (st : ad) : Prop :=
  values st = values s ∧ adcsr st = flags ∧
  ad_start_cycle st = ad_start_cycle s + i * T ∧
  polled st = group (Z.to_nat base) (Z.to_nat i) (values s) (polled s) ∧
  0 <= i <= scan_time.
Definition scan_inv (st : ad) : Prop :=
  (∃ i, scanned i (adcsr s) st ∧ adchannel st = base + i ∧ i < scan_length) ∨
  scanned scan_length (ad_done (adcsr s)) st.
Definition scan_post (r : option ad) : Prop :=
  ∃ st, r = Some st ∧
    let k := Z.min scan_length scan_time in
    scanned k (if k =? scan_length then ad_done (adcsr s) else adcsr s) st.

Lemma conv_time_range : 134 <= T <= 266.
Proof. unfold conv_time. case_if; lia. Qed.

Lemma scan_turn st :
  scan_inv st →
  match ad_turn now T st with
  | inl st' => scan_inv st' ∧
      0 <= (if adcsr st' &? ADCSR_ADST then 9 - adchannel st' else 0) <
           (if adcsr st &? ADCSR_ADST then 9 - adchannel st else 0)
  | inr r => scan_post r
  end.
Proof.
  destruct (adcsr_bits (adcsr s) Hbyte) as (HCH & Hb & Hn & Hdone).
  pose proof conv_time_range as HT. destruct Harr as [Hlv Hlp].
  intros [(i & (Hv & Ha & Hs & Hp & Hi) & Hc & Hlt) | (Hv & Ha & Hs & Hp & Hi)]; unfold ad_turn.
  - rewrite Ha, Hst. simpl negb. cbv iota. rewrite Hs.
    assert (i * T <= now - ad_start_cycle s) as Hle.
    { unfold scan_time in Hi. etransitivity;
        [apply (Z.mul_le_mono_nonneg_r i ((now - ad_start_cycle s) / T) T); lia|].
      rewrite Z.mul_comm. apply Z.mul_div_le. lia. }
    rewrite s32_id by lia. unfold scan_length in *.
    destruct (Z.ltb_spec (now - (ad_start_cycle s + i * T)) T) as [Hearly|Hready].
    + assert (scan_time = i) as Ek.
      { unfold scan_time. symmetry. apply Z.div_unique with (now - ad_start_cycle s - i * T); lia. }
      exists st. split; [done|]. cbv zeta. rewrite Ek. unfold scan_length. rewrite Z.min_r by lia.
      destruct (Z.eqb_spec i ((adcsr s &! 3) + 1)); [lia|].
      split_and!; try done; lia.
    + assert (i + 1 <= scan_time) as Hk.
      { unfold scan_time. apply Z.div_le_lower_bound; lia. }
      destruct (channel_index base i Hb ltac:(lia)) as [Hx Hy].
      rewrite Hv, Hc, Hy.
      destruct (lookup_lt_is_Some_2 (values s) (Z.to_nat base + Z.to_nat i)) as [v Ev]; [lia|].
      rewrite Ev. cbv beta zeta. cbn [adcsr set_polled]. rewrite Ha, Hscan. cbn [ad_start_cycle set_polled adchannel].
      rewrite Hs, Hc, Hx, HCH.
      assert (u64 (ad_start_cycle s + i * T + T) = ad_start_cycle s + (i + 1) * T) as Est
        by (rewrite u64_id by (unfold qword; lia); ring).
      assert (<[Z.to_nat i := v]> (polled st) =
        group (Z.to_nat base) (Z.to_nat (i + 1)) (values s) (polled s)) as Epol.
      { rewrite Hp, (group_step _ _ _ _ v) by (done || lia). f_equal. lia. }
      destruct (Z.ltb_spec (base + i) (base + (adcsr s &! 3))); split.
      * left. exists (i + 1). unfold scanned, scan_length.
        cbn [values polled adcsr adchannel ad_start_cycle set_channel set_polled].
        rewrite Est, u8_id by (unfold byte; lia). split_and!; try done; lia.
      * cbn [adcsr adchannel set_channel set_polled]. rewrite Ha, Hst, u8_id by (unfold byte; lia). lia.
      * right. unfold scanned, scan_length. assert (i = adcsr s &! 3) as -> by lia.
        split_and!; try done; cbn; lia.
      * cbn [adcsr put_adcsr]. rewrite Hdone. lia.
  - rewrite Ha, Hdone. exists st. split; [done|]. cbv zeta. rewrite Z.min_l by lia.
    rewrite Z.eqb_refl. split_and!; try done; lia.
Qed.

(** C19: a scan.  However late [ad_update_time] is called after the program has
    started a scan of a group of channels, its loop terminates and has performed
    exactly the conversions there was time for: the data registers of those
    channels hold the sensors' values, the others are unchanged; when the group
    is complete the converter is stopped and its end flag set, and not before. *)
Theorem ad_scan_group :
  ∃ s', loop (ad_turn now (conv_time s)) 256 s = inr (Some s') ∧
    let k := Z.min scan_length scan_time in
    values s' = values s ∧
    polled s' = group (Z.to_nat (adcsr s &! 4)) (Z.to_nat k) (values s) (polled s) ∧
    ad_start_cycle s' = ad_start_cycle s + k * conv_time s ∧
    adcsr s' = if k =? scan_length then ad_done (adcsr s) else adcsr s.
Proof.
  destruct (adcsr_bits (adcsr s) Hbyte) as (HCH & Hb & Hn & Hdone).
  pose proof conv_time_range as HT.
  assert (0 <= scan_time) by (apply Z.div_pos; lia).
  destruct (loop_correct (ad_turn now T) scan_inv scan_post
    (λ st, if adcsr st &? ADCSR_ADST then 9 - adchannel st else 0) scan_turn 256 s)
    as (r & E & s' & -> & H1 & H2 & H3 & H4 & _).
  - left. exists 0. unfold scanned, group, scan_length. simpl. split_and!; try done; lia.
  - rewrite Hst, Hch. lia.
  - exists s'. auto.
Qed.
End Scan.

(** ** Reading a sensor *)

(** The digits the GUI sends. *)
Definition hex_digit (n : Z) : Z := if n <? 10 then n + 48 else n - 10 + 97.

(** A 10-bit sensor value [v] sent by the GUI as three hexadecimal digits
    reaches the program unchanged: after a conversion of that channel, the high
    data register holds its upper 8 bits and the low register, latched by the
    read of the high one, the lower 2 bits in its two top bits. *)
Theorem ad_readout v s :
  0 <= v < 1024 → (4 <= length (polled s))%nat →
  let s1 := set_polled (<[0%nat := ad_value (hex_digit (v / 256))
                (hex_digit (v / 16 mod 16)) (hex_digit (v mod 16))]> (polled s)) s in
  let '(s2, h) := get_addrh 0 s1 in
  h = v / 4 ∧ get_addrl s2 = v mod 4 * 64.
Proof.
  intros Hv Hl s1. subst s1. unfold get_addrh, get_addrl. cbn [polled set_polled ad_tmp set_ad_tmp].
  rewrite list_lookup_total_insert_eq by lia.
  pose proof (forall_below 1024 (λ v,
    let p := ad_value (hex_digit (v / 256)) (hex_digit (v / 16 mod 16)) (hex_digit (v mod 16)) in
    (p >>! 8 =? v / 4) && (p &! 0xc0 =? v mod 4 * 64)) eq_refl v Hv) as H.
  cbv beta zeta in H. lia.
Qed.

(** The end flag can be set by a write, against the comment in [set_adcsr]: the
    mask is the value last read, not the current one. *)
Lemma adf_set_by_write s c :
  adcsr s = 0 → read_adcsr s = 0x80 →
  adcsr (set_adcsr 0x80 s c).1 = 0x80.
Proof. intros Ha Hr. unfold set_adcsr. rewrite Ha, Hr. done. Qed.

(** ** Witnesses *)
Definition ad_demo : ad :=
  Ad [1; 2; 3; 4; 5; 6; 7; 8] [0; 0; 0; 0] 0 0x3a 0 0x7f 0 1000.
Lemma ad_scan_group_witness :
  ∃ s', loop (ad_turn 1500 (conv_time ad_demo)) 256 ad_demo = inr (Some s') ∧
    polled s' = [1; 2; 3; 0] ∧ adcsr s' = 0x9a.
Proof.
  destruct (ad_scan_group ad_demo 1500) as (s' & E & _ & Hp & _ & Ha); [plain_memory..|].
  exists s'. rewrite Hp, Ha. split; [exact E|]. split; vm_compute; reflexivity.
Defined.
Lemma ad_readout_witness :
  let '(s2, h) := get_addrh 0 (set_polled [0x9640; 0; 0; 0] ad_demo) in
  h = 0x259 / 4 ∧ get_addrl s2 = 0x259 mod 4 * 64.
Proof. apply (ad_readout 0x259 ad_demo); [plain_memory|simpl; lia]. Defined.
