(* ===== verification/Motor.v ===== *)
(** * Motor: [motor.c], the duty cycles of the three motors

    The motor latch holds two direction bits per motor. The emulator adds up
    the cycles in which a motor is driven and reports, every 1600000 cycles, the
    motors whose direction or duty (0..256) changed, and the active sensors. *)
From S2P Require Export Periph.

Definition UPDATE_INTERVAL : Z := 100 * 16000.
Definition SCALER : Z := 256.

(** What is written to the GUI: ["M%1d,%1d,%d"] and ["A%d"]. *)
Inductive motor_msg := MotorMsg (i dir on : Z) | AnalogMsg (v : Z).

Record motors := Motors {
  next_output_cycles : Z; motor_cycles : Z;
  on : list Z; last_on : list Z; dir : list Z; last_dir : list Z;
  motor_val : Z; cur_analog_active : Z; analog_active : Z; last_analog_active : Z;
  motor_out : list motor_msg }.

(** The bits of motor [i] in the latch. *)
Definition motor_shift (i : nat) : Z := match i with 0%nat => 6 | 1%nat => 2 | _ => 0 end.
Definition motor_bits (i : nat) (val : Z) : Z := (val >>! motor_shift i) &! 3.
Definition motor_mask (i : nat) : Z := match i with 0%nat => 0xc0 | 1%nat => 0x0c | _ => 0x03 end.

Definition set_on v m := Motors (next_output_cycles m) (motor_cycles m) v (last_on m) (dir m) (last_dir m) (motor_val m) (cur_analog_active m) (analog_active m) (last_analog_active m) (motor_out m).
Definition set_last_on v m := Motors (next_output_cycles m) (motor_cycles m) (on m) v (dir m) (last_dir m) (motor_val m) (cur_analog_active m) (analog_active m) (last_analog_active m) (motor_out m).
Definition set_dir v m := Motors (next_output_cycles m) (motor_cycles m) (on m) (last_on m) v (last_dir m) (motor_val m) (cur_analog_active m) (analog_active m) (last_analog_active m) (motor_out m).
Definition set_last_dir v m := Motors (next_output_cycles m) (motor_cycles m) (on m) (last_on m) (dir m) v (motor_val m) (cur_analog_active m) (analog_active m) (last_analog_active m) (motor_out m).
Definition set_motor_cycles v m := Motors (next_output_cycles m) v (on m) (last_on m) (dir m) (last_dir m) (motor_val m) (cur_analog_active m) (analog_active m) (last_analog_active m) (motor_out m).
Definition set_next_output v m := Motors v (motor_cycles m) (on m) (last_on m) (dir m) (last_dir m) (motor_val m) (cur_analog_active m) (analog_active m) (last_analog_active m) (motor_out m).
Definition set_motor_val v m := Motors (next_output_cycles m) (motor_cycles m) (on m) (last_on m) (dir m) (last_dir m) v (cur_analog_active m) (analog_active m) (last_analog_active m) (motor_out m).
Definition set_analog cur act last m := Motors (next_output_cycles m) (motor_cycles m) (on m) (last_on m) (dir m) (last_dir m) (motor_val m) cur act last (motor_out m).
Definition emit v m := Motors (next_output_cycles m) (motor_cycles m) (on m) (last_on m) (dir m) (last_dir m) (motor_val m) (cur_analog_active m) (analog_active m) (last_analog_active m) (motor_out m ++ [v]).

(** [motor_update], the block of motor [i]. *)
Definition motor_add (dcycles : Z) (m : motors) (i : nat) : motors :=
  if motor_val m &? motor_mask i
  then set_dir (<[i := motor_bits i (motor_val m)]> (dir m))
         (set_on (<[i := u64 (on m !!! i + dcycles)]> (on m)) m)
  else m.
Definition motor_update (now : Z) (m : motors) : motors :=
  set_motor_cycles now
    (fold_left (motor_add (u64 (now - motor_cycles m))) [0; 1; 2]%nat m).

(** The report of motor [i] in [motor_update_time]. *)
Definition motor_report (m : motors) (i : nat) : motors :=
  let m := set_on (<[i := on m !!! i `div` (UPDATE_INTERVAL `div` SCALER)]> (on m)) m in
  let m := if negb (dir m !!! i =? last_dir m !!! i) || negb (on m !!! i =? last_on m !!! i)
           then set_last_dir (<[i := dir m !!! i]> (last_dir m))
                  (set_last_on (<[i := on m !!! i]> (last_on m))
                    (emit (MotorMsg (Z.of_nat i) (dir m !!! i) (on m !!! i)) m))
           else m in
  set_dir (<[i := 0]> (dir m)) (set_on (<[i := 0]> (on m)) m).
Definition motor_update_time (m : motors) (c : clock) : motors * clock :=
  let m := motor_update (cycles c) m in
  let m :=
    if next_output_cycles m <=? cycles c then
      let m := set_next_output (add_to_cycle (next_output_cycles m) UPDATE_INTERVAL) m in
      let m := fold_left motor_report [0; 1; 2]%nat m in
      let m := if negb (analog_active m ^! last_analog_active m =? 0)
               then set_analog (cur_analog_active m) (analog_active m) (analog_active m)
                      (emit (AnalogMsg (analog_active m &! 7)) m)
               else m in
      set_analog (cur_analog_active m) (cur_analog_active m) (last_analog_active m) m
    else m in
  (m, if next_output_cycles m <? next_timer_cycle c
      then set_next_timer_cycle (next_output_cycles m) c else c).
Definition set_analog_active (val : Z) (m : motors) : motors :=
  set_analog val (analog_active m |! val) (last_analog_active m) m.
Definition motor_set (val now : Z) (m : motors) : motors :=
  set_motor_val val (motor_update now m).

(** ** Duty cycles *)

(** The cycles in which motor [i] is driven: from [t] on with the latch at
    [val], through the latch writes [ws], up to [t_end]. *)
Fixpoint driven (i : nat) (t val : Z) (ws : list (Z * Z)) (t_end : Z) : Z :=
  match ws with
  | [] => if val &? motor_mask i then t_end - t else 0
  | (t', val') :: ws =>
      (if val &? motor_mask i then t' - t else 0) + driven i t' val' ws t_end
  end.
(** The times of the writes do not decrease. *)
Fixpoint ordered (t : Z) (ws : list (Z * Z)) (t_end : Z) : Prop :=
  match ws with
  | [] => t <= t_end
  | (t', _) :: ws => t <= t' ∧ ordered t' ws t_end
  end.
Definition motor_writes (ws : list (Z * Z)) (m : motors) : motors :=
  fold_left (λ m w, motor_set w.2 w.1 m) ws m.

Lemma motor_add_other d m i j : i ≠ j → on (motor_add d m i) !!! j = on m !!! j.
Proof.
  intros Hne. unfold motor_add. case_if; [|done]. cbn [on set_dir set_on].
  apply list_lookup_total_insert_ne. done.
Qed.
Lemma motor_add_val d m i : motor_val (motor_add d m i) = motor_val m.
Proof. unfold motor_add. case_if; done. Qed.
Lemma motor_add_length d m i : length (on (motor_add d m i)) = length (on m).
Proof. unfold motor_add. case_if; [|done]. apply length_insert. Qed.
Lemma motor_add_eq d m i :
  (i < length (on m))%nat →
  on (motor_add d m i) !!! i =
    if motor_val m &? motor_mask i then u64 (on m !!! i + d) else on m !!! i.
Proof.
  intros Hi. unfold motor_add. case_if; [|done]. cbn [on set_dir set_on].
  apply list_lookup_total_insert_eq. done.
Qed.

Lemma motor_update_on now m i :
  length (on m) = 3%nat → (i < 3)%nat →
  length (on (motor_update now m)) = 3%nat ∧
  on (motor_update now m) !!! i =
    (if motor_val m &? motor_mask i
     then u64 (on m !!! i + u64 (now - motor_cycles m)) else on m !!! i).
Proof.
  intros Hl Hi. unfold motor_update. cbn [fold_left].
  set (d := u64 (now - motor_cycles m)). cbn [on set_motor_cycles].
  split; [rewrite !motor_add_length; done|].
  destruct i as [|[|[|]]]; [| | |lia];
    repeat first [ rewrite motor_add_other by done
                 | rewrite motor_add_eq by (rewrite ?motor_add_length; lia)
                 | rewrite motor_add_val ]; done.
Qed.

Lemma motor_writes_on ws m t_end i :
  length (on m) = 3%nat → (i < 3)%nat → 0 <= on m !!! i → 0 <= motor_cycles m →
  ordered (motor_cycles m) ws t_end →
  on m !!! i + (t_end - motor_cycles m) < 18446744073709551616 →
  length (on (motor_update t_end (motor_writes ws m))) = 3%nat ∧
  on (motor_update t_end (motor_writes ws m)) !!! i =
    on m !!! i + driven i (motor_cycles m) (motor_val m) ws t_end.
Proof.
  revert m. induction ws as [|[t v] ws IH]; intros m Hl Hi Hon Hc Ho Hmax.
  - cbn [motor_writes fold_left driven ordered] in *.
    destruct (motor_update_on t_end m i Hl Hi) as [Hl' ->]. split; [done|].
    case_if; [width_lia|lia].
  - cbn [ordered driven] in *. destruct Ho as [Hle Ho].
    assert (t <= t_end) as Hte.
    { clear -Ho. revert t Ho. induction ws as [|[t' v'] ws IH]; intros t Ho; simpl in *; [lia|].
      destruct Ho as [? Ho]. specialize (IH _ Ho). lia. }
    destruct (motor_update_on t m i Hl Hi) as [Hl' Hon'].
    assert (on (motor_update t m) !!! i =
      on m !!! i + (if motor_val m &? motor_mask i then t - motor_cycles m else 0)) as E.
    { rewrite Hon'. case_if; [width_lia|lia]. }
    destruct (IH (motor_set v t m)) as [H1 H2];
      change (on (motor_set v t m)) with (on (motor_update t m)) in *;
      change (motor_cycles (motor_set v t m)) with t in *;
      change (motor_val (motor_set v t m)) with v in *.
    + done.
    + done.
    + rewrite E. case_if; lia.
    + lia.
    + done.
    + rewrite E. case_if; lia.
    + split; [exact H1|]. change (motor_writes ((t, v) :: ws) m) with
        (motor_writes ws (motor_set v t m)). rewrite H2, E. lia.
Qed.

Lemma motor_report_other m i j :
  i ≠ j → on (motor_report m i) !!! j = on m !!! j ∧
          last_on (motor_report m i) !!! j = last_on m !!! j.
Proof.
  intros Hne. unfold motor_report. cbv zeta. case_if;
    cbn [on last_on set_dir set_on set_last_dir set_last_on emit dir last_dir];
    rewrite !list_lookup_total_insert_ne by done; done.
Qed.
Lemma motor_report_length m i :
  length (on (motor_report m i)) = length (on m) ∧
  length (last_on (motor_report m i)) = length (last_on m).
Proof.
  unfold motor_report. cbv zeta. case_if;
    cbn [on last_on set_dir set_on set_last_dir set_last_on emit];
    rewrite ?length_insert; done.
Qed.
Lemma motor_report_eq m i :
  (i < length (on m))%nat → (i < length (last_on m))%nat →
  last_on (motor_report m i) !!! i = on m !!! i `div` 6250.
Proof.
  intros H1 H2. unfold motor_report. cbv zeta.
  cbn [on set_on]. rewrite list_lookup_total_insert_eq by done.
  change (UPDATE_INTERVAL `div` SCALER) with 6250. cbn [dir last_dir last_on set_on].
  destruct (negb (dir m !!! i =? last_dir m !!! i) || _) eqn:E;
    cbn [last_on set_dir set_on set_last_dir set_last_on emit on].
  - rewrite !list_lookup_total_insert_eq by done. done.
  - apply orb_false_iff in E as [_ E]. lia.
Qed.

Lemma reports_last_on m i :
  length (on m) = 3%nat → length (last_on m) = 3%nat → (i < 3)%nat →
  last_on (fold_left motor_report [0; 1; 2]%nat m) !!! i = on m !!! i `div` 6250.
Proof.
  intros H1 H2 Hi. cbn [fold_left].
  pose proof (motor_report_length m 0) as [L0 L0'].
  pose proof (motor_report_length (motor_report m 0) 1) as [L1 L1'].
  destruct i as [|[|[|]]]; [| | |lia].
  - rewrite (proj2 (motor_report_other _ 2 0%nat ltac:(done))).
    rewrite (proj2 (motor_report_other _ 1 0%nat ltac:(done))).
    apply motor_report_eq; lia.
  - rewrite (proj2 (motor_report_other _ 2 1%nat ltac:(done))).
    rewrite motor_report_eq by lia.
    rewrite (proj1 (motor_report_other m 0 1%nat ltac:(done))). done.
  - rewrite motor_report_eq by lia.
    rewrite (proj1 (motor_report_other _ 1 2%nat ltac:(done))).
    rewrite (proj1 (motor_report_other m 0 2%nat ltac:(done))). done.
Qed.

(** C20: the duty cycle the GUI sees.  After a report, whatever the program
    writes to the motor latch and whenever, the next due report leaves as the
    last reported power of motor [i] the cycles in which its bits were not both
    zero, in units of 1/256 of the update interval; so at most 256 when the
    report comes on time. *)
Theorem motor_duty ws m c i :
  length (on m) = 3%nat → length (last_on m) = 3%nat → (i < 3)%nat →
  on m !!! i = 0 → 0 <= motor_cycles m → ordered (motor_cycles m) ws (cycles c) →
  next_output_cycles (motor_writes ws m) <= cycles c →
  cycles c < 18446744073709551616 →
  let power := last_on (motor_update_time (motor_writes ws m) c).1 !!! i in
  power = driven i (motor_cycles m) (motor_val m) ws (cycles c) `div` 6250 ∧
  (cycles c - motor_cycles m <= UPDATE_INTERVAL → 0 <= power <= 256).
Proof.
  intros Hl Hl' Hi Hon Hc Ho Hnext Hmax power.
  destruct (motor_writes_on ws m (cycles c) i Hl Hi ltac:(lia) Hc Ho ltac:(lia)) as [L E].
  assert (length (last_on (motor_update (cycles c) (motor_writes ws m))) = 3%nat ∧
          next_output_cycles (motor_update (cycles c) (motor_writes ws m)) =
          next_output_cycles (motor_writes ws m)) as [L' En].
  { assert (∀ d m i, last_on (motor_add d m i) = last_on m ∧
      next_output_cycles (motor_add d m i) = next_output_cycles m) as Ha.
    { intros d m0 i0. unfold motor_add. case_if; done. }
    assert (∀ now m, last_on (motor_update now m) = last_on m ∧
      next_output_cycles (motor_update now m) = next_output_cycles m) as Hu.
    { intros now m0. unfold motor_update. cbn [fold_left last_on next_output_cycles set_motor_cycles].
      rewrite !(proj1 (Ha _ _ _)), !(proj2 (Ha _ _ _)). done. }
    rewrite !(proj1 (Hu _ _)), !(proj2 (Hu _ _)). split; [|done].
    clear -Hl' Hu. revert m Hl'. induction ws as [|[t v] ws IH]; intros m Hl'; [done|].
    apply (IH (motor_set v t m)). change (last_on (motor_set v t m)) with (last_on (motor_update t m)).
    rewrite (proj1 (Hu _ _)). done. }
  assert (power = driven i (motor_cycles m) (motor_val m) ws (cycles c) `div` 6250) as Ep.
  { unfold power, motor_update_time. cbv zeta. rewrite En.
    destruct (Z.leb_spec (next_output_cycles (motor_writes ws m)) (cycles c)) as [_|]; [|lia].
    rewrite Hon, Z.add_0_l in E. rewrite <- E.
    change (on (motor_update (cycles c) (motor_writes ws m))) with (on (set_next_output
      (add_to_cycle (next_output_cycles (motor_writes ws m)) UPDATE_INTERVAL)
      (motor_update (cycles c) (motor_writes ws m)))).
    rewrite <- (reports_last_on (set_next_output
      (add_to_cycle (next_output_cycles (motor_writes ws m)) UPDATE_INTERVAL)
      (motor_update (cycles c) (motor_writes ws m))) i) by done.
    generalize (fold_left motor_report [0; 1; 2]%nat (set_next_output
      (add_to_cycle (next_output_cycles (motor_writes ws m)) UPDATE_INTERVAL)
      (motor_update (cycles c) (motor_writes ws m)))) as M.
    intros M. cbn [fst]. destruct (negb _); done. }
  split; [exact Ep|]. intros Hint. rewrite Ep.
  assert (∀ t v, ordered t ws (cycles c) → 0 <= driven i t v ws (cycles c) <= cycles c - t) as Hd.
  { clear. induction ws as [|[t' v'] ws IH]; intros t v Ho; cbn [driven ordered] in *.
    - case_if; lia.
    - destruct Ho as [H1 H2]. specialize (IH t' v' H2). case_if; lia. }
  specialize (Hd _ (motor_val m) Ho). unfold UPDATE_INTERVAL in Hint.
  split; [apply Z.div_pos; lia|]. apply Z.div_le_upper_bound; lia.
Qed.

(** Motor A forward for half of the interval. *)
Definition motor_demo : motors :=
  Motors UPDATE_INTERVAL 0 [0; 0; 0] [0; 0; 0] [0; 0; 0] [0; 0; 0] 0x40 0 0 0 [].
Lemma motor_duty_witness :
  last_on (motor_update_time (motor_writes [(800000, 0)] motor_demo)
    (Clock UPDATE_INTERVAL 0 0)).1 !!! 0%nat = 128.
Proof.
  destruct (motor_duty [(800000, 0)] motor_demo (Clock UPDATE_INTERVAL 0 0) 0) as [-> _];
    [reflexivity|reflexivity|lia|plain_memory..|].
  reflexivity.
Defined.
