(* ===== verification/Symbols.v ===== *)
(** * Symbols: the splay tree of [symbols.c]

    The debugger's symbols, ordered by address and type.  The top-down [splay]
    keeps its left and right trees as the lists of their spines; [l] and [r] of
    the source point to the heads of the lists.  The tree refines a finite map
    ([symbols_spec]). *)
From stdpp Require Import strings.
From Stdlib Require Import Sorting.Sorted.
From S2P Require Export Prelude.

Definition key : Type := (Z * Z)%type.
(** [addr < t->addr || (addr == t->addr && type < t->type)] *)
Definition key_lt (a b : key) : bool :=
  (a.1 <? b.1) || ((a.1 =? b.1) && (a.2 <? b.2)).
Definition key_eq (a b : key) : bool := (a.1 =? b.1) && (a.2 =? b.2).

Inductive tree :=
  | Leaf
  | Node (left : tree) (k : key) (name : string) (right : tree).

#[global] Instance tree_eq_dec : EqDecision tree.
Proof. solve_decision. Defined.

(** ** Operations *)

(** [l->right = t->left; t->left = N.right;] and its mirror image. *)
Definition assemble_left (L : list (tree * key * string)) (t : tree) : tree :=
  fold_left (λ acc '(lt, k, n), Node lt k n acc) L t.
Definition assemble_right (R : list (key * string * tree)) (t : tree) : tree :=
  fold_left (λ acc '(k, n, rt), Node acc k n rt) R t.
Definition assemble (L : list (tree * key * string)) (R : list (key * string * tree))
    (left : tree) (k : key) (n : string) (right : tree) : tree :=
  Node (assemble_left L left) k n (assemble_right R right).

(** The loop of [splay]; the result says whether the key was found. *)
Fixpoint splay_loop (a : key) (t : tree) (L : list (tree * key * string))
    (R : list (key * string * tree)) : tree * bool :=
  match t with
  | Leaf => (Leaf, false)
  | Node tl k n tr =>
      if key_lt a k then
        match tl with
        | Leaf => (assemble L R Leaf k n tr, false)
        | Node yl ky ny yr =>
            if key_lt a ky then
              (* rotate right *)
              match yl with
              | Leaf => (assemble L R Leaf ky ny (Node yr k n tr), false)
              | _ => splay_loop a yl L ((ky, ny, Node yr k n tr) :: R)
              end
            else splay_loop a tl L ((k, n, tr) :: R)
        end
      else if key_lt k a then
        match tr with
        | Leaf => (assemble L R tl k n Leaf, false)
        | Node yl ky ny yr =>
            if key_lt ky a then
              (* rotate left *)
              match yr with
              | Leaf => (assemble L R (Node tl k n yl) ky ny Leaf, false)
              | _ => splay_loop a yr ((Node tl k n yl, ky, ny) :: L) R
              end
            else splay_loop a tr ((tl, k, n) :: L) R
        end
      else (assemble L R tl k n tr, true)
  end.
Definition splay (a : key) (t : tree) : tree * bool :=
  match t with
  | Leaf => (Leaf, false)
  | Node _ k _ _ => if key_eq k a then (t, true) else splay_loop a t [] []
  end.

Definition symbols_add (a : key) (name : string) (root : tree) : tree :=
  match (splay a root).1 with
  | Leaf => Node Leaf a name Leaf
  | Node l k n r =>
      if (a.1 <? k.1) || ((a.1 =? k.1) && (a.2 <=? k.2))
      then Node l a name (Node Leaf k n r)
      else Node (Node l k n Leaf) a name r
  end.
Definition symbols_get (a : key) (root : tree) : tree * option string :=
  let '(t, found) := splay a root in
  (t, if found then match t with Node _ _ n _ => Some n | Leaf => None end else None).
(** The tree left when the root with the key [a] is taken out. *)
Definition symbols_unlink (a : key) (l r : tree) : tree :=
  match l with
  | Leaf => r
  | _ => match (splay a l).1 with
         | Node l' k' n' _ => Node l' k' n' r
         | Leaf => Leaf
         end
  end.
Definition symbols_remove (a : key) (root : tree) : tree * bool :=
  let '(t, found) := splay a root in
  if found then
    (match t with Node l _ _ r => symbols_unlink a l r | Leaf => t end, true)
  else (t, false).
(** The emptied tree and the nodes in the order they are freed. *)
Fixpoint symbols_removeall (root : tree) : tree * list (key * string) :=
  match root with
  | Leaf => (root, [])
  | Node l k n r =>
      let '(_, freed_r) := symbols_removeall r in
      let '(_, freed_l) := symbols_removeall l in
      (Leaf, freed_r ++ freed_l ++ [(k, n)])
  end.
(** The calls of the callback, in order. *)
Fixpoint symbols_iterate (root : tree) : list (key * string) :=
  match root with
  | Leaf => []
  | Node l k n r => symbols_iterate l ++ (k, n) :: symbols_iterate r
  end.
Fixpoint symbols_getaddr (name : string) (root : tree) : Z :=
  match root with
  | Leaf => 0
  | Node l k n r =>
      let addr := symbols_getaddr name l in
      if negb (addr =? 0) then addr
      else if bool_decide (name = n) then k.1 else symbols_getaddr name r
  end.

(** ** The order of the keys *)
Lemma key_lt_irrefl a : key_lt a a = false.
Proof. unfold key_lt. lia. Qed.
Lemma key_lt_trans a b c : key_lt a b = true → key_lt b c = true → key_lt a c = true.
Proof. unfold key_lt. lia. Qed.
Lemma key_lt_asym a b : key_lt a b = true → key_lt b a = false.
Proof. unfold key_lt. lia. Qed.
Lemma key_total a b : key_lt a b = false → key_lt b a = false → a = b.
Proof. destruct a, b. unfold key_lt. simpl. intros. f_equal; lia. Qed.
Lemma key_eq_spec a b : key_eq a b = true ↔ a = b.
Proof. destruct a, b. unfold key_eq. simpl. rewrite andb_true_iff, !Z.eqb_eq. split; [intros []; subst; done|intros [= -> ->]; done]. Qed.

Abbreviation elements := symbols_iterate.
Definition keys (l : list (key * string)) : list key := l.*1.
Abbreviation below_key a := (Forall (λ x : key * string, key_lt x.1 a = true)).
Abbreviation above_key a := (Forall (λ x : key * string, key_lt a x.1 = true)).
Definition sorted (l : list (key * string)) : Prop :=
  StronglySorted (λ x y, key_lt x.1 y.1 = true) l.

Lemma sorted_app l1 l2 :
  sorted (l1 ++ l2) ↔
  sorted l1 ∧ sorted l2 ∧ ∀ x y, x ∈ l1 → y ∈ l2 → key_lt x.1 y.1 = true.
Proof.
  unfold sorted. induction l1 as [|z l1 IH]; simpl.
  - split; [intros H; split_and!; [constructor|done|set_solver]|tauto].
  - split.
    + intros H. apply StronglySorted_inv in H as [H Hf]. apply IH in H as (H1 & H2 & H3).
      rewrite Forall_app in Hf. destruct Hf as [F1 F2]. split_and!; [constructor; done|done|].
      intros x y Hx Hy. apply elem_of_cons in Hx as [->|Hx]; [|auto].
      rewrite Forall_forall in F2. auto.
    + intros (H1 & H2 & H3). apply StronglySorted_inv in H1 as [H1 F1].
      constructor; [apply IH; split_and!; [done|done|set_solver]|].
      apply Forall_app. split; [done|]. apply Forall_forall. intros y Hy.
      apply H3; set_solver.
Qed.
Lemma sorted_node l x r :
  sorted (l ++ x :: r) ↔
  sorted l ∧ sorted r ∧ below_key x.1 l ∧ above_key x.1 r.
Proof.
  rewrite (sorted_app l (x :: r)). split.
  - intros (Hl & Hr & Hlr). apply StronglySorted_inv in Hr as [Hr Hx].
    split_and!; try done. apply Forall_forall. intros y Hy. apply Hlr; set_solver.
  - intros (Hl & Hr & Hbl & Har). split; [done|]. split; [constructor; done|].
    intros y z Hy Hz. rewrite Forall_forall in Hbl, Har.
    apply elem_of_cons in Hz as [->|Hz]; [auto|].
    eapply key_lt_trans; [apply Hbl|apply Har]; done.
Qed.
Lemma below_weaken a b l : key_lt a b = true → below_key a l → below_key b l.
Proof.
  intros H Hl. eapply Forall_impl; [exact Hl|]. intros x Hx.
  cbv beta in *. eapply key_lt_trans; done.
Qed.
Lemma above_weaken a b l : key_lt b a = true → above_key a l → above_key b l.
Proof.
  intros H Hl. eapply Forall_impl; [exact Hl|]. intros x Hx.
  cbv beta in *. eapply key_lt_trans; done.
Qed.

(** ** Splaying keeps the sequence of the symbols *)
Definition left_elems (L : list (tree * key * string)) : list (key * string) :=
  fold_right (λ '(lt, k, n) acc, acc ++ elements lt ++ [(k, n)]) [] L.
Definition right_elems (R : list (key * string * tree)) : list (key * string) :=
  fold_right (λ '(k, n, rt) acc, (k, n) :: elements rt ++ acc) [] R.

Lemma elements_assemble_left L t :
  elements (assemble_left L t) = left_elems L ++ elements t.
Proof.
  revert t. induction L as [|[[lt k] n] L IH]; intros t; simpl; [done|].
  rewrite IH. simpl. rewrite <- !app_assoc. done.
Qed.
Lemma elements_assemble_right R t :
  elements (assemble_right R t) = elements t ++ right_elems R.
Proof.
  revert t. induction R as [|[[k n] rt] R IH]; intros t; simpl; [rewrite app_nil_r; done|].
  rewrite IH. simpl. rewrite <- !app_assoc. done.
Qed.

(** What a splay establishes at the root, for a key [a]. *)
Definition splayed (a : key) (es : list (key * string)) (res : tree * bool) : Prop :=
  match res with
  | (Leaf, _) => False
  | (Node l k n r, found) =>
      elements l ++ (k, n) :: elements r = es ∧
      (if found then k = a
       else (key_lt a k = true ∧ below_key a (elements l)) ∨
            (key_lt k a = true ∧ above_key a (elements r)))
  end.

Lemma splayed_ext a es es' res : es = es' → splayed a es res → splayed a es' res.
Proof. intros ->. done. Qed.

Lemma assemble_splayed a L R l k n r (found : bool) :
  below_key a (left_elems L) → above_key a (right_elems R) →
  (if found then k = a
   else (key_lt a k = true ∧ below_key a (elements l)) ∨
        (key_lt k a = true ∧ above_key a (elements r))) →
  splayed a (left_elems L ++ (elements l ++ (k, n) :: elements r) ++ right_elems R)
    (assemble L R l k n r, found).
Proof.
  intros HL HR Hf. unfold splayed, assemble.
  rewrite elements_assemble_left, elements_assemble_right. split.
  - rewrite <- !app_assoc. done.
  - destruct found; [done|]. rewrite !Forall_app. tauto.
Qed.

Fixpoint tree_size (t : tree) : nat :=
  match t with Leaf => 0%nat | Node l _ _ r => S (tree_size l + tree_size r) end.

Lemma splay_loop_splayed a N t L R :
  (tree_size t < N)%nat → t ≠ Leaf → sorted (elements t) →
  below_key a (left_elems L) → above_key a (right_elems R) →
  splayed a (left_elems L ++ elements t ++ right_elems R) (splay_loop a t L R).
Proof.
  revert t L R. induction N as [|N IH]; [lia|].
  intros t L R Hsz Hne Hs HL HR. destruct t as [|l k n r]; [done|].
  apply sorted_node in Hs as (Hsl & Hsr & Hbl & Har). cbn [fst] in Hbl, Har.
  cbn [splay_loop symbols_iterate].
  destruct (key_lt a k) eqn:E1; [|destruct (key_lt k a) eqn:E2].
  - destruct l as [|yl ky ny yr].
    { apply (assemble_splayed a L R Leaf k n r false HL HR). left. done. }
    apply sorted_node in Hsl as (Hsyl & Hsyr & Hbyl & Hayr). cbn [fst] in Hbyl, Hayr.
    cbn [symbols_iterate] in Hbl. rewrite Forall_app, Forall_cons in Hbl.
    destruct Hbl as (Hbl1 & Hkyk & Hbl2). cbn [fst] in Hkyk.
    destruct (key_lt a ky) eqn:E3.
    + assert (above_key a (right_elems ((ky, ny, Node yr k n r) :: R))) as HR'.
      { cbn [right_elems fold_right symbols_iterate].
        rewrite Forall_cons, !Forall_app, Forall_cons. split_and!; try done.
        - eapply above_weaken; [exact E3|]. exact Hayr.
        - eapply above_weaken; [exact E1|]. exact Har. }
      destruct yl as [|zl kz nz zr].
      * eapply splayed_ext; [|apply (assemble_splayed a L R Leaf ky ny (Node yr k n r) false HL HR);
          left; done].
        cbn [symbols_iterate]. repeat (rewrite <- !app_assoc; simpl). done.
      * eapply splayed_ext; [|apply (IH (Node zl kz nz zr) L ((ky, ny, Node yr k n r) :: R));
          try done; simpl in *; lia].
        cbn [right_elems fold_right symbols_iterate]. repeat (rewrite <- !app_assoc; simpl). done.
    + eapply splayed_ext; [|apply (IH (Node yl ky ny yr) L ((k, n, r) :: R)); try done].
      * cbn [right_elems fold_right symbols_iterate]. repeat (rewrite <- !app_assoc; simpl). done.
      * simpl in *. lia.
      * apply sorted_node. done.
      * cbn [right_elems fold_right]. rewrite Forall_cons, Forall_app. split_and!; try done.
        eapply above_weaken; [exact E1|]. exact Har.
  - destruct r as [|yl ky ny yr].
    { apply (assemble_splayed a L R l k n Leaf false HL HR). right. done. }
    apply sorted_node in Hsr as (Hsyl & Hsyr & Hbyl & Hayr). cbn [fst] in Hbyl, Hayr.
    cbn [symbols_iterate] in Har. rewrite Forall_app, Forall_cons in Har.
    destruct Har as (Har1 & Hkky & Har2). cbn [fst] in Hkky.
    destruct (key_lt ky a) eqn:E3.
    + assert (below_key a (left_elems ((Node l k n yl, ky, ny) :: L))) as HL'.
      { cbn [left_elems fold_right symbols_iterate].
        rewrite !Forall_app, !Forall_cons. split_and!; try done.
        - eapply below_weaken; [exact E2|]. exact Hbl.
        - eapply below_weaken; [exact E3|]. exact Hbyl. }
      destruct yr as [|zl kz nz zr].
      * eapply splayed_ext; [|apply (assemble_splayed a L R (Node l k n yl) ky ny Leaf false HL HR);
          right; done].
        cbn [symbols_iterate]. repeat (rewrite <- !app_assoc; simpl). done.
      * eapply splayed_ext; [|apply (IH (Node zl kz nz zr) ((Node l k n yl, ky, ny) :: L) R);
          try done; simpl in *; lia].
        cbn [left_elems fold_right symbols_iterate]. repeat (rewrite <- !app_assoc; simpl). done.
    + eapply splayed_ext; [|apply (IH (Node yl ky ny yr) ((l, k, n) :: L) R); try done].
      * cbn [left_elems fold_right symbols_iterate]. repeat (rewrite <- !app_assoc; simpl). done.
      * simpl in *. lia.
      * apply sorted_node. done.
      * cbn [left_elems fold_right]. rewrite !Forall_app, Forall_cons. split_and!; try done.
        eapply below_weaken; [exact E2|]. exact Hbl.
  - apply (assemble_splayed a L R l k n r true HL HR). apply key_total; done.
Qed.

Lemma splay_splayed a t :
  t ≠ Leaf → sorted (elements t) → splayed a (elements t) (splay a t).
Proof.
  intros Hne Hs. destruct t as [|l k n r]; [done|]. unfold splay.
  destruct (key_eq k a) eqn:E.
  - apply key_eq_spec in E. split; done.
  - pose proof (splay_loop_splayed a _ (Node l k n r) [] [] (Nat.lt_succ_diag_r _) Hne Hs) as H.
    simpl app in H. rewrite app_nil_r in H. apply H; constructor.
Qed.

(** ** The tree as a finite map *)
Definition contents (t : tree) : gmap key string := list_to_map (elements t).

Lemma key_lt_neq a b : key_lt a b = true → a ≠ b.
Proof. intros H ->. rewrite key_lt_irrefl in H. done. Qed.
Lemma below_fresh a l : below_key a l → a ∉ l.*1.
Proof.
  intros H Hin. apply list_elem_of_fmap in Hin as (x & -> & Hx).
  rewrite Forall_forall in H. apply H, key_lt_neq in Hx. done.
Qed.
Lemma above_fresh a l : above_key a l → a ∉ l.*1.
Proof.
  intros H Hin. apply list_elem_of_fmap in Hin as (x & -> & Hx).
  rewrite Forall_forall in H. apply H, key_lt_neq in Hx. done.
Qed.
Lemma sorted_NoDup l : sorted l → NoDup l.*1.
Proof.
  induction l as [|x l IH]; intros Hs; [constructor|].
  apply StronglySorted_inv in Hs as [Hs Hx]. simpl. constructor; [|auto].
  apply above_fresh. done.
Qed.
Lemma list_to_map_middle (l r : list (key * string)) k n :
  k ∉ l.*1 → (list_to_map (l ++ (k, n) :: r) : gmap key string) =
  <[k:=n]> (list_to_map (l ++ r)).
Proof.
  intros Hk. rewrite !list_to_map_app. simpl. rewrite insert_union_r; [done|].
  apply not_elem_of_list_to_map. done.
Qed.
Lemma list_to_map_fresh (l : list (key * string)) k :
  k ∉ l.*1 → (list_to_map l : gmap key string) !! k = None.
Proof. apply not_elem_of_list_to_map. Qed.

(** Where a key that is not found lies relative to the root of the splayed tree. *)
Lemma splayed_fresh a t l k n r :
  sorted (elements t) → splayed a (elements t) (Node l k n r, false) →
  a ∉ (elements t).*1.
Proof.
  intros Hs [He Hf]. rewrite <- He in *. apply sorted_node in Hs as (_ & _ & Hb & Ha).
  cbn [fst] in Hb, Ha. rewrite fmap_app. simpl. rewrite elem_of_app, elem_of_cons.
  destruct Hf as [[H1 H2]|[H1 H2]].
  - pose proof (below_fresh _ _ H2). pose proof (above_fresh a (elements r)) as H3.
    pose proof (key_lt_neq _ _ H1).
    assert (above_key a (elements r)) by (eapply above_weaken; done). naive_solver.
  - pose proof (above_fresh _ _ H2). pose proof (below_fresh a (elements l)) as H3.
    pose proof (key_lt_neq _ _ H1).
    assert (below_key a (elements l)) by (eapply below_weaken; done). naive_solver.
Qed.

(** The result of a splay in terms of the map. *)
Lemma splay_found a t :
  sorted (elements t) →
  elements (splay a t).1 = elements t ∧
  match contents t !! a with
  | Some n => ∃ l r, splay a t = (Node l a n r, true)
  | None => (splay a t).2 = false
  end.
Proof.
  intros Hs. destruct (decide (t = Leaf)) as [->|Hne]; [done|].
  pose proof (splay_splayed a t Hne Hs) as H.
  destruct (splay a t) as [[|l k n r] found] eqn:E; [done|]. cbn [fst snd].
  split; [apply H|]. destruct found.
  - destruct H as [He ->]. unfold contents. rewrite <- He in *.
    apply sorted_node in Hs as (_ & _ & Hb & _).
    rewrite list_to_map_middle by (apply below_fresh; done).
    rewrite lookup_insert_eq. eauto.
  - pose proof (splayed_fresh a t l k n r Hs H) as Hf. unfold contents.
    rewrite list_to_map_fresh; done.
Qed.

Lemma get_refines a t :
  sorted (elements t) →
  elements (symbols_get a t).1 = elements t ∧ (symbols_get a t).2 = contents t !! a.
Proof.
  intros Hs. destruct (splay_found a t Hs) as [He Hm]. unfold symbols_get.
  destruct (contents t !! a).
  - destruct Hm as (l & r & Hm). rewrite Hm in *. done.
  - destruct (splay a t). simpl in *. subst. done.
Qed.

Lemma add_refines a n t :
  sorted (elements t) → contents t !! a = None →
  sorted (elements (symbols_add a n t)) ∧
  contents (symbols_add a n t) = <[a:=n]> (contents t).
Proof.
  intros Hs Ha. destruct (decide (t = Leaf)) as [->|Hne].
  { split; [repeat constructor|done]. }
  pose proof (splay_splayed a t Hne Hs) as H. unfold symbols_add.
  destruct (splay_found a t Hs) as [_ Hm]. rewrite Ha in Hm.
  destruct (splay a t) as [[|l k m r] found] eqn:E; [done|]. cbn [fst snd] in *. subst found.
  pose proof (splayed_fresh a t l k m r Hs H) as Hf. destruct H as [He Hcmp]. unfold contents.
  rewrite <- He in *. pose proof Hs as Hs'. apply sorted_node in Hs' as (Hl & Hr & Hb & Hab).
  cbn [fst] in *. rewrite fmap_app in Hf. simpl in Hf. rewrite elem_of_app, elem_of_cons in Hf.
  assert (((a.1 <? k.1) || ((a.1 =? k.1) && (a.2 <=? k.2))) = key_lt a k) as ->.
  { destruct a, k. unfold key_lt. simpl in *.
    apply eq_true_iff_eq. rewrite !orb_true_iff, !andb_true_iff.
    assert (¬ (z = z1 ∧ z0 = z2)) by (intros [-> ->]; tauto). lia. }
  destruct Hcmp as [[H1 H2]|[H1 H2]].
  - rewrite H1. cbn [symbols_iterate]. simpl app. split.
    + apply sorted_node. split_and!; [done|apply (sorted_node [] (k, m)); split_and!; done||constructor|done|].
      constructor; [done|]. eapply above_weaken; done.
    + apply list_to_map_middle. tauto.
  - assert (key_lt a k = false) as ->.
    { apply key_lt_asym. done. }
    cbn [symbols_iterate]. simpl app. split.
    + apply sorted_node. split_and!; [apply sorted_node; split_and!; done||constructor|done| |done].
      rewrite Forall_app, Forall_cons. split_and!; [eapply below_weaken; done|done|constructor].
    + rewrite list_to_map_middle.
      * rewrite <- app_assoc. done.
      * rewrite fmap_app. simpl. rewrite elem_of_app, elem_of_cons, elem_of_nil. tauto.
Qed.

Lemma unlink_elements a l r :
  sorted (elements l) → below_key a (elements l) →
  elements (symbols_unlink a l r) = elements l ++ elements r.
Proof.
  intros Hl Hbl. destruct l as [|l1 k1 n1 r1] eqn:El; [done|].
  unfold symbols_unlink. rewrite <- El in *.
  pose proof (splay_splayed a l ltac:(subst; done) Hl) as Hsp.
  destruct (splay a l) as [[|l' k' n' r'] found']; [done|]. cbn [fst].
  destruct Hsp as [Hel Hf]. rewrite <- Hel in Hbl |- *.
  rewrite Forall_app, Forall_cons in Hbl. destruct Hbl as (_ & Hk & Hr'). cbn [fst] in Hk.
  assert (elements r' = []) as ->.
  { destruct found'; [subst; rewrite key_lt_irrefl in Hk; done|].
    destruct Hf as [[H1 _]|[_ H2]]; [rewrite (key_lt_asym k' a) in H1; done|].
    destruct (elements r') as [|x xs]; [done|]. apply Forall_cons in H2 as [H2 _].
    apply Forall_cons in Hr' as [Hr' _]. rewrite (key_lt_asym a x.1) in Hr'; done. }
  cbn [symbols_iterate]. rewrite <- app_assoc. done.
Qed.
Lemma remove_refines a t :
  sorted (elements t) →
  sorted (elements (symbols_remove a t).1) ∧
  contents (symbols_remove a t).1 = delete a (contents t) ∧
  (symbols_remove a t).2 = bool_decide (is_Some (contents t !! a)).
Proof.
  intros Hs. destruct (splay_found a t Hs) as [He Hm]. unfold symbols_remove, contents in *.
  destruct (list_to_map (elements t) !! a) as [n|] eqn:E.
  - destruct Hm as (l & r & Hm). rewrite Hm in *. cbn [fst snd] in *. rewrite <- He in *.
    cbn [symbols_iterate] in *. apply sorted_node in Hs as Hs'.
    destruct Hs' as (Hl & Hr & Hb & Ha). cbn [fst] in *.
    pose proof (below_fresh _ _ Hb) as Hfb. pose proof (above_fresh _ _ Ha) as Hfa.
    rewrite unlink_elements by done. split_and!.
    + apply sorted_app. split_and!; [done|done|]. intros x y Hx Hy.
      rewrite Forall_forall in Hb, Ha. eapply key_lt_trans; eauto.
    + rewrite list_to_map_middle by done. rewrite delete_insert_id; [done|].
      apply list_to_map_fresh. rewrite fmap_app, elem_of_app. tauto.
    + symmetry. apply bool_decide_eq_true. eauto.
  - destruct (splay a t) as [t' found]. cbn [fst snd] in *. subst found. cbn [fst snd].
    rewrite He. split_and!; [done| |done]. rewrite delete_id; done.
Qed.

(** ** The interface: the debugger's operations on the symbols *)
Inductive symbols_op :=
  | Add (a : key) (name : string)
  | Get (a : key)
  | Remove (a : key)
  | Iterate.
Inductive symbols_out :=
  | Done
  | Name (o : option string)
  | Removed (b : bool)
  | Called (calls : list (key * string)).
Definition symbols_step (t : tree) (o : symbols_op) : tree * symbols_out :=
  match o with
  | Add a n => (symbols_add a n t, Done)
  | Get a => let '(t', r) := symbols_get a t in (t', Name r)
  | Remove a => let '(t', r) := symbols_remove a t in (t', Removed r)
  | Iterate => (t, Called (symbols_iterate t))
  end.
(** What a finite map answers; the calls of the iteration are those of any
    strictly increasing enumeration of the map. *)
Definition symbols_spec (m : gmap key string) (o : symbols_op) (out : symbols_out) :
    gmap key string → Prop := λ m',
  match o with
  | Add a n => m !! a = None ∧ m' = <[a:=n]> m ∧ out = Done
  | Get a => m' = m ∧ out = Name (m !! a)
  | Remove a => m' = delete a m ∧ out = Removed (bool_decide (is_Some (m !! a)))
  | Iterate => m' = m ∧ ∃ l, out = Called l ∧ sorted l ∧ list_to_map l = m
  end.
Definition symbols_ready (m : gmap key string) (o : symbols_op) : Prop :=
  match o with Add a _ => m !! a = None | _ => True end.

(** C15: The splay tree refines a finite map: whatever the shape of the tree, each
    operation keeps the keys strictly ordered, answers what the map answers and
    leaves the map's next state.  An added key has to be new. *)
Theorem symbols_refine t o :
  sorted (elements t) → symbols_ready (contents t) o →
  sorted (elements (symbols_step t o).1) ∧
  symbols_spec (contents t) o (symbols_step t o).2 (contents (symbols_step t o).1).
Proof.
  intros Hs Hr. destruct o as [a n|a|a|]; simpl in *.
  - destruct (add_refines a n t Hs Hr). done.
  - destruct (get_refines a t Hs) as [He Hv]. destruct (symbols_get a t) as [t' r].
    simpl in *. unfold contents in *. rewrite He. rewrite Hv. done.
  - destruct (remove_refines a t Hs) as (H1 & H2 & H3). destruct (symbols_remove a t).
    simpl in *. rewrite H3. done.
  - split; [done|]. split; [done|]. eauto.
Qed.

(** [symbols_removeall] empties the tree and frees every node exactly once. *)
Theorem removeall_frees t :
  (symbols_removeall t).1 = Leaf ∧ (symbols_removeall t).2 ≡ₚ symbols_iterate t.
Proof.
  induction t as [|l [_ IHl] k n r [_ IHr]]; [done|]. simpl.
  destruct (symbols_removeall r), (symbols_removeall l). simpl in *. split; [done|].
  rewrite IHl, IHr, Permutation_app_comm, <- app_assoc. done.
Qed.

(** With a key added several times [symbols_remove] may find another node of that
    key, instead of the greatest one, when it splays the left subtree;
    [root->right = sym->right] then drops the nodes to the right of it. *)
Definition symbols_run (t : tree) (ops : list symbols_op) : tree :=
  foldl (λ t o, (symbols_step t o).1) t ops.
Lemma remove_loses_duplicates :
  let t := symbols_run Leaf
             [Add (1, 0) "a"; Add (1, 0) "b"; Add (1, 0) "c"; Add (1, 0) "d";
              Get (2, 0); Add (1, 0) "e"] in
  (length (symbols_iterate t) = 5 ∧
   length (symbols_iterate (symbols_remove (1, 0)%Z t).1) = 3)%nat.
Proof. split; reflexivity. Qed.

(** ** Witness *)
Lemma symbols_refine_witness :
  let t := symbols_add (0x8100, 0) "main" (symbols_add (0x8000, 0) "start" Leaf) in
  (symbols_step t (Get (0x8000, 0))).2 = Name (Some "start"%string).
Proof.
  intros t. assert (sorted (elements t)) as Hs by (repeat constructor).
  destruct (symbols_refine t (Get (0x8000, 0)) Hs I) as (_ & _ & ->). reflexivity.
Defined.
