(* ===== verification/Hash.v ===== *)
(** * Hash: the chained hash table of [hash.c]

    A table of [size] chains; the payload of a bucket is of an arbitrary type [V],
    as the C code leaves its size and contents to the caller.  The table refines
    a finite map from keys to payloads ([hash_refine]). *)
From S2P Require Export Prelude.

Section Table.
Context {V : Type}.

Abbreviation bucket := (Z * V)%type.
Record hash_type := Hash { size : Z; elems : Z; chains : list (list bucket) }.

(** ** Chains *)
Fixpoint chain_get (key : Z) (c : list bucket) : option V :=
  match c with
  | [] => None
  | (k, v) :: c' => if k =? key then Some v else chain_get key c'
  end.
(** [*pbucket = bucket->next;] at the first bucket of the key. *)
Fixpoint chain_take (key : Z) (c : list bucket) : option (V * list bucket) :=
  match c with
  | [] => None
  | (k, v) :: c' =>
      if k =? key then Some (v, c')
      else match chain_take key c' with
           | Some (v', c'') => Some (v', (k, v) :: c'')
           | None => None
           end
  end.
Fixpoint chain_set (key : Z) (f : V → V) (c : list bucket) : option (list bucket) :=
  match c with
  | [] => None
  | (k, v) :: c' =>
      if k =? key then Some ((k, f v) :: c') else cons (k, v) <$> chain_set key f c'
  end.

Definition idx (key n : Z) : nat := Z.to_nat (key mod n).
Definition chain (h : hash_type) (key : Z) : list bucket :=
  default [] (chains h !! idx key (size h)).
(** [bucket->next = list[idx]; list[idx] = bucket;] *)
Definition push (n : Z) (l : list (list bucket)) (b : bucket) : list (list bucket) :=
  <[idx b.1 n := b :: default [] (l !! idx b.1 n)]> l.

(** ** Operations *)
Definition hash_init (initsize : Z) : hash_type :=
  Hash initsize 0 (replicate (Z.to_nat initsize) []).
Definition hash_get (h : hash_type) (key : Z) : option V := chain_get key (chain h key).
Definition hash_remove (h : hash_type) (key : Z) : hash_type * Z :=
  match chain_take key (chain h key) with
  | Some (_, c) => (Hash (size h) (elems h) (<[idx key (size h) := c]> (chains h)), 1)
  | None => (h, 0)
  end.
Definition hash_move (h : hash_type) (key newkey : Z) : hash_type * option V :=
  match chain_take key (chain h key) with
  | Some (v, c) =>
      (Hash (size h) (elems h)
         (push (size h) (<[idx key (size h) := c]> (chains h)) (newkey, v)), Some v)
  | None => (h, None)
  end.
Definition hash_grow (h : hash_type) : hash_type :=
  let nsize := s32 (2 * size h + 1) in
  let nlist := replicate (Z.to_nat nsize) [] in
  Hash nsize (elems h)
    (foldl (λ l c, foldl (push nsize) l c) nlist (chains h)).
(** [v] is what the caller stores in the returned block. *)
Definition hash_create (h : hash_type) (key : Z) (v : V) : hash_type :=
  let h := if u32 (size h * 4) <? u32 (elems h * 5) then hash_grow h else h in
  Hash (size h) (u32 (elems h + 1)) (push (size h) (chains h) (key, v)).
(** [f] is the change of the payload by [realloc] and the caller. *)
Definition hash_realloc (h : hash_type) (key : Z) (f : V → V) (v : V) : hash_type :=
  match chain_set key f (chain h key) with
  | Some c => Hash (size h) (elems h) (<[idx key (size h) := c]> (chains h))
  | None => hash_create h key v
  end.
(** The block that [hash_get] found is changed through the pointer. *)
Definition hash_write (h : hash_type) (key : Z) (f : V → V) : hash_type :=
  match chain_set key f (chain h key) with
  | Some c => Hash (size h) (elems h) (<[idx key (size h) := c]> (chains h))
  | None => h
  end.
(** The calls of the function, in order. *)
Definition hash_enumerate (h : hash_type) : list bucket := concat (chains h).

(** ** The invariant *)
Record wf (h : hash_type) : Prop := {
  wf_size : 0 < size h < 2147483648;
  wf_length : length (chains h) = Z.to_nat (size h);
  wf_placed : ∀ i c b, chains h !! i = Some c → b ∈ c → idx b.1 (size h) = i;
  wf_unique : NoDup (hash_enumerate h).*1;
}.
Definition contents (h : hash_type) : gmap Z V := list_to_map (hash_enumerate h).

Lemma idx_lt key n : 0 < n → (idx key n < Z.to_nat n)%nat.
Proof. intros. unfold idx. pose proof (Z.mod_pos_bound key n). lia. Qed.

(** *** Chains as lists of buckets *)
Lemma chain_get_map key c : chain_get key c = (list_to_map c : gmap Z V) !! key.
Proof.
  induction c as [|[k v] c IH]; simpl; [done|].
  destruct (Z.eqb_spec k key) as [->|]; [rewrite lookup_insert_eq|rewrite lookup_insert_ne]; done.
Qed.
Lemma chain_take_spec key c :
  match chain_take key c with
  | Some (v, c') => c ≡ₚ (key, v) :: c'
  | None => key ∉ c.*1
  end.
Proof.
  induction c as [|[k v] c IH]; simpl; [set_solver|].
  destruct (Z.eqb_spec k key) as [->|]; [done|].
  destruct (chain_take key c) as [[v' c']|]; [rewrite IH; apply perm_swap|set_solver].
Qed.
Lemma chain_set_spec key f c :
  match chain_set key f c with
  | Some c' => ∃ v r, c ≡ₚ (key, v) :: r ∧ c' ≡ₚ (key, f v) :: r
  | None => key ∉ c.*1
  end.
Proof.
  induction c as [|[k v] c IH]; simpl; [set_solver|].
  destruct (Z.eqb_spec k key) as [->|]; [eauto|].
  destruct (chain_set key f c) as [c'|]; simpl; [|set_solver].
  destruct IH as (v' & r & H1 & H2). exists v', ((k, v) :: r).
  rewrite H1, H2. split; apply perm_swap.
Qed.

(** *** Tables as lists of buckets *)
(** The buckets outside chain [i]. *)
Lemma concat_insert (l : list (list bucket)) i c :
  l !! i = Some c →
  ∃ rest, (∀ c', concat (<[i:=c']> l) ≡ₚ c' ++ rest) ∧
          ∀ b, b ∈ rest → ∃ j d, j ≠ i ∧ l !! j = Some d ∧ b ∈ d.
Proof.
  revert i. induction l as [|d l IH]; intros [|i] H; simplify_eq/=.
  - exists (concat l). split; [done|]. intros b Hb.
    apply list_elem_of_In, in_concat in Hb as (d & Hd & Hb).
    apply list_elem_of_In, list_elem_of_lookup in Hd as [j Hj].
    exists (S j), d. rewrite list_elem_of_In. done.
  - destruct (IH i H) as (rest & H1 & H2). exists (d ++ rest). split.
    + intros c'. rewrite H1. apply Permutation_app_swap_app.
    + intros b Hb. apply elem_of_app in Hb as [Hb|Hb]; [exists 0%nat, d; done|].
      destruct (H2 b Hb) as (j & e & Hj & Hl & Hb'). exists (S j), e. auto.
Qed.
Definition placed (n : Z) (l : list (list bucket)) : Prop :=
  ∀ i c b, l !! i = Some c → b ∈ c → idx b.1 n = i.
Lemma placed_insert n l i c :
  placed n l → (∀ b, b ∈ c → idx b.1 n = i) → placed n (<[i:=c]> l).
Proof.
  intros Hl Hc j d b Hj Hb. apply list_lookup_insert_Some in Hj as [(-> & -> & _)|[_ Hj]]; eauto.
Qed.
Lemma push_insert n (l : list (list bucket)) b c :
  l !! idx b.1 n = Some c → push n l b = <[idx b.1 n := b :: c]> l.
Proof. intros H. unfold push. rewrite H. done. Qed.
Lemma push_ok n l b :
  (idx b.1 n < length l)%nat → placed n l →
  placed n (push n l b) ∧ length (push n l b) = length l ∧
  concat (push n l b) ≡ₚ b :: concat l.
Proof.
  intros Hi Hp. apply lookup_lt_is_Some in Hi as [c Hc].
  rewrite (push_insert n l b c Hc). split_and!.
  - apply placed_insert; [done|]. intros b' Hb. apply elem_of_cons in Hb as [->|Hb]; eauto.
  - apply length_insert.
  - destruct (concat_insert l _ c Hc) as (rest & H & _).
    rewrite H, <- (list_insert_id l _ c Hc) at 1. rewrite H. done.
Qed.
Lemma push_all n bs l :
  0 < n → length l = Z.to_nat n → placed n l →
  placed n (foldl (push n) l bs) ∧ length (foldl (push n) l bs) = length l ∧
  concat (foldl (push n) l bs) ≡ₚ bs ++ concat l.
Proof.
  intros Hn. revert l. induction bs as [|b bs IH]; intros l Hl Hp; [done|]. simpl.
  destruct (push_ok n l b) as (H1 & H2 & H3); [rewrite Hl; apply idx_lt; done|done|].
  destruct (IH (push n l b)) as (H4 & H5 & H6); [congruence|done|].
  split_and!; [done|congruence|]. rewrite H6, H3. symmetry. apply Permutation_middle.
Qed.
Lemma foldl_concat {A B} (f : A → B → A) (a : A) (ls : list (list B)) :
  foldl (λ x l, foldl f x l) a ls = foldl f a (concat ls).
Proof. revert a. induction ls as [|l ls IH]; intros; simpl; [done|]. rewrite foldl_app. apply IH. Qed.

Lemma contents_perm (h h' : hash_type) :
  NoDup (hash_enumerate h).*1 → hash_enumerate h ≡ₚ hash_enumerate h' → contents h = contents h'.
Proof. intros. apply list_to_map_proper; done. Qed.

(** The chain of a key and the rest of the table. *)
Lemma chain_split h key :
  wf h →
  ∃ rest, (key ∉ rest.*1) ∧ hash_enumerate h ≡ₚ chain h key ++ rest ∧
    (∀ c, concat (<[idx key (size h) := c]> (chains h)) ≡ₚ c ++ rest) ∧
    chains h !! idx key (size h) = Some (chain h key).
Proof.
  intros Hw. assert (idx key (size h) < length (chains h))%nat as Hi.
  { rewrite wf_length by done. apply idx_lt, wf_size, Hw. }
  apply lookup_lt_is_Some in Hi as [c Hc]. unfold chain. rewrite Hc. simpl.
  destruct (concat_insert _ _ c Hc) as (rest & H1 & H2). exists rest. split_and!; [|rewrite <- H1; rewrite list_insert_id; done|done|done].
  intros Hin. apply list_elem_of_fmap in Hin as ([k v] & -> & Hb).
  destruct (H2 _ Hb) as (j & d & Hj & Hd & Hb'). apply Hj.
  symmetry. apply (wf_placed h Hw j d (k, v) Hd Hb').
Qed.
Lemma get_contents h key : wf h → hash_get h key = contents h !! key.
Proof.
  intros Hw. destruct (chain_split h key Hw) as (rest & Hr & He & _).
  unfold hash_get, contents. rewrite chain_get_map.
  rewrite (list_to_map_proper _ _ (wf_unique h Hw) He).
  rewrite list_to_map_app.
  apply not_elem_of_list_to_map in Hr. rewrite lookup_union, Hr. symmetry. apply right_id, _.
Qed.

(** The invariant without the last clause: a key may be there twice. *)
Record shaped (h : hash_type) : Prop := {
  shaped_size : 0 < size h < 2147483648;
  shaped_length : length (chains h) = Z.to_nat (size h);
  shaped_placed : placed (size h) (chains h) }.
Lemma wf_shaped h : wf h → shaped h.
Proof. intros [H1 H2 H3 _]. constructor; done. Qed.
Lemma shaped_grow h :
  shaped h → size h < 1073741823 →
  shaped (hash_grow h) ∧ hash_enumerate (hash_grow h) ≡ₚ hash_enumerate h ∧
  size (hash_grow h) = 2 * size h + 1.
Proof.
  intros [Hs Hl Hp] Hb. unfold hash_grow. rewrite s32_id by lia.
  set (n := 2 * size h + 1). rewrite foldl_concat.
  destruct (push_all n (concat (chains h)) (replicate (Z.to_nat n) [])) as (H1 & H2 & H3).
  { lia. } { apply length_replicate. }
  { intros i c b Hc Hb'. apply lookup_replicate in Hc as [-> _]. set_solver. }
  assert (concat (replicate (Z.to_nat n) []) = @nil bucket) as E.
  { clear. induction (Z.to_nat n); simpl; auto. }
  rewrite E, app_nil_r in H3. split_and!; [|exact H3|done].
  constructor; cbn [size chains]; [lia|rewrite H2; apply length_replicate|done].
Qed.
Lemma grow_ok h :
  wf h → size h < 1073741823 →
  wf (hash_grow h) ∧ hash_enumerate (hash_grow h) ≡ₚ hash_enumerate h.
Proof.
  intros Hw Hs. destruct (shaped_grow h (wf_shaped h Hw) Hs) as ([H1 H2 H3] & He & _).
  split; [|done]. constructor; [done|done|done|]. rewrite He. apply (wf_unique h Hw).
Qed.

(** Replacing the chain of a key by buckets of that chain, or one of another key. *)
Lemma replace_ok h key c es e :
  wf h → (∀ b, b ∈ c → idx b.1 (size h) = idx key (size h)) →
  (∀ rest, hash_enumerate h ≡ₚ chain h key ++ rest → key ∉ rest.*1 → c ++ rest ≡ₚ es) →
  NoDup es.*1 →
  let h' := Hash (size h) e (<[idx key (size h) := c]> (chains h)) in
  wf h' ∧ hash_enumerate h' ≡ₚ es.
Proof.
  intros Hw Hc Hes Hnd h'. destruct (chain_split h key Hw) as (rest & Hr & He & Hi & _).
  assert (hash_enumerate h' ≡ₚ es) as E.
  { unfold hash_enumerate. simpl. rewrite Hi. auto. }
  split; [|done]. constructor; cbn [size chains elems h'].
  - apply (wf_size h Hw).
  - rewrite length_insert. apply (wf_length h Hw).
  - apply placed_insert; [exact (wf_placed h Hw)|done].
  - rewrite E. done.
Qed.
Lemma push_wf h b e :
  wf h → contents h !! b.1 = None →
  let h' := Hash (size h) e (push (size h) (chains h) b) in
  wf h' ∧ contents h' = <[b.1 := b.2]> (contents h).
Proof.
  intros Hw Hb h'. pose proof (wf_size h Hw) as Hs.
  destruct (push_ok (size h) (chains h) b) as (H1 & H2 & H3).
  { rewrite wf_length by done. apply idx_lt. lia. } { exact (wf_placed h Hw). }
  assert (NoDup (b :: hash_enumerate h).*1) as Hnd.
  { simpl. constructor; [|apply (wf_unique h Hw)]. apply not_elem_of_list_to_map. done. }
  assert (hash_enumerate h' ≡ₚ b :: hash_enumerate h) as E by exact H3.
  split.
  - constructor; simpl; [done|rewrite H2; apply (wf_length h Hw)|done|rewrite E; done].
  - unfold contents. rewrite <- (list_to_map_proper _ _ Hnd (symmetry E)). destruct b. done.
Qed.
Lemma wf_elems h e : wf h → wf (Hash (size h) e (chains h)).
Proof. intros [H1 H2 H3 H4]. constructor; done. Qed.

(** Taking the bucket of a key out. *)
Lemma take_ok h key :
  wf h →
  match chain_take key (chain h key) with
  | Some (v, c) =>
      let h' := Hash (size h) (elems h) (<[idx key (size h) := c]> (chains h)) in
      contents h !! key = Some v ∧ wf h' ∧ contents h' = delete key (contents h)
  | None => contents h !! key = None
  end.
Proof.
  intros Hw. pose proof (chain_take_spec key (chain h key)) as Hsp.
  destruct (chain_split h key Hw) as (rest & Hr & He & Hi & Hch).
  destruct (chain_take key (chain h key)) as [[v c]|].
  - assert (hash_enumerate h ≡ₚ (key, v) :: c ++ rest) as E by (rewrite He, Hsp; done).
    pose proof (wf_unique h Hw) as Hnd. rewrite E in Hnd. apply NoDup_cons in Hnd as [Hk Hnd].
    assert (contents h = <[key := v]> (list_to_map (c ++ rest))) as Hco.
    { unfold contents. rewrite (list_to_map_proper _ _ (wf_unique h Hw) E). done. }
    destruct (replace_ok h key c (c ++ rest) (elems h) Hw) as [Hw' E'].
    { intros b Hb. eapply (wf_placed h Hw); [exact Hch|]. rewrite Hsp. set_solver. }
    { intros rest' He' _. f_equiv. rewrite He in He'. apply Permutation_app_inv_l in He'. done. }
    { done. }
    cbv zeta. rewrite Hco, lookup_insert_eq. split_and!; [done|done|].
    rewrite delete_insert_id by (apply not_elem_of_list_to_map; done).
    apply list_to_map_proper; [apply (wf_unique _ Hw')|done].
  - rewrite <- get_contents by done. unfold hash_get. rewrite chain_get_map.
    apply not_elem_of_list_to_map. done.
Qed.

Lemma create_ok h key v :
  wf h → size h < 1073741823 → contents h !! key = None →
  wf (hash_create h key v) ∧ contents (hash_create h key v) = <[key := v]> (contents h).
Proof.
  intros Hw Hs Hk. unfold hash_create. case_if; [|apply (push_wf h (key, v)); done].
  destruct (grow_ok h Hw Hs) as [Hw' Eg].
  assert (contents h = contents (hash_grow h)) as Ec.
  { apply contents_perm; [apply (wf_unique h Hw)|symmetry; exact Eg]. }
  rewrite Ec in *.
  apply (push_wf (hash_grow h) (key, v)); done.
Qed.
Lemma set_ok h key f c :
  wf h → chain_set key f (chain h key) = Some c →
  let h' := Hash (size h) (elems h) (<[idx key (size h) := c]> (chains h)) in
  ∃ v, contents h !! key = Some v ∧ wf h' ∧ contents h' = <[key := f v]> (contents h).
Proof.
  intros Hw Hset. pose proof (chain_set_spec key f (chain h key)) as Hsp. rewrite Hset in Hsp.
  destruct Hsp as (v & r & H1 & H2). destruct (chain_split h key Hw) as (rest & Hr & He & Hi & Hch).
  assert (hash_enumerate h ≡ₚ (key, v) :: r ++ rest) as E by (rewrite He, H1; done).
  pose proof (wf_unique h Hw) as Hnd. rewrite E in Hnd.
  destruct (replace_ok h key c ((key, f v) :: r ++ rest) (elems h) Hw) as [Hw' E'].
  { intros b Hb. rewrite H2 in Hb. apply elem_of_cons in Hb as [->|Hb]; [done|].
    eapply (wf_placed h Hw); [exact Hch|]. rewrite H1. set_solver. }
  { intros rest' He' _. rewrite H2. simpl. do 2 f_equiv. rewrite He in He'.
    apply Permutation_app_inv_l in He'. done. }
  { done. }
  exists v. unfold contents. rewrite (list_to_map_proper _ _ (wf_unique h Hw) E).
  split_and!; [apply lookup_insert_eq|done|].
  rewrite (list_to_map_proper _ _ (wf_unique _ Hw') E'). simpl. rewrite insert_insert_eq. done.
Qed.

Lemma hash_write_ok h key f v :
  wf h → contents h !! key = Some v →
  wf (hash_write h key f) ∧ contents (hash_write h key f) = <[key := f v]> (contents h).
Proof.
  intros Hw Hk. unfold hash_write. destruct (chain_set key f (chain h key)) as [c|] eqn:Hset.
  - destruct (set_ok h key f c Hw Hset) as (v0 & Hv & Hw' & Hc). simplify_eq. done.
  - pose proof (chain_set_spec key f (chain h key)) as Hsp. rewrite Hset in Hsp.
    rewrite <- get_contents in Hk by done. unfold hash_get in Hk. rewrite chain_get_map in Hk.
    apply not_elem_of_list_to_map in Hsp. congruence.
Qed.

(** ** The interface *)
Inductive hash_op :=
  | Get (key : Z) | Create (key : Z) (v : V) | Move (key newkey : Z)
  | Realloc (key : Z) (f : V → V) (v : V) | Remove (key : Z) | Enumerate.
Inductive hash_out := Block (o : option V) | Count (n : Z) | Calls (l : list bucket).
Definition hash_step (h : hash_type) (o : hash_op) : hash_type * hash_out :=
  match o with
  | Get key => (h, Block (hash_get h key))
  | Create key v => (hash_create h key v, Block (Some v))
  | Move key newkey => let '(h', r) := hash_move h key newkey in (h', Block r)
  | Realloc key f v => let h' := hash_realloc h key f v in (h', Block (hash_get h' key))
  | Remove key => let '(h', r) := hash_remove h key in (h', Count r)
  | Enumerate => (h, Calls (hash_enumerate h))
  end.

(** What the callers respect: a key is created once, a bucket is not moved onto
    another one, and the size stays an [int] when the table grows. *)
Definition hash_ready (h : hash_type) (o : hash_op) : Prop :=
  match o with
  | Create key _ => size h < 1073741823 ∧ contents h !! key = None
  | Move key newkey => key = newkey ∨ contents h !! newkey = None
  | Realloc _ _ _ => size h < 1073741823
  | _ => True
  end.
(** The finite map: its next state and its answer. *)
Definition hash_spec (m : gmap Z V) (o : hash_op) (m' : gmap Z V) (out : hash_out) : Prop :=
  match o with
  | Get key => m' = m ∧ out = Block (m !! key)
  | Create key v => m' = <[key := v]> m ∧ out = Block (Some v)
  | Move key newkey =>
      out = Block (m !! key) ∧
      m' = match m !! key with Some v => <[newkey := v]> (delete key m) | None => m end
  | Realloc key f v =>
      let v' := match m !! key with Some v0 => f v0 | None => v end in
      m' = <[key := v']> m ∧ out = Block (Some v')
  | Remove key => m' = delete key m ∧ out = Count (if m !! key is Some _ then 1 else 0)
  | Enumerate => m' = m ∧ ∃ l, out = Calls l ∧ NoDup l.*1 ∧ list_to_map l = m
  end.

(** C17: The hash table refines a finite map: every operation keeps the buckets in
    the chains of their keys, without a key twice, answers what the map answers
    and leaves the map's next state, also when the table grows. *)
Theorem hash_refine h o :
  wf h → hash_ready h o →
  wf (hash_step h o).1 ∧
  hash_spec (contents h) o (contents (hash_step h o).1) (hash_step h o).2.
Proof.
  intros Hw Hr. destruct o as [key|key v|key newkey|key f v|key|]; cbn [hash_step hash_spec fst snd].
  - rewrite get_contents; done.
  - destruct Hr. destruct (create_ok h key v); done.
  - pose proof (take_ok h key Hw) as Ht. unfold hash_move.
    destruct (chain_take key (chain h key)) as [[v c]|]; [|simpl; rewrite Ht; done].
    destruct Ht as (Hv & Hw' & Hc). rewrite Hv.
    destruct (push_wf _ (newkey, v) (elems h) Hw') as [Hw'' Hc''].
    { rewrite Hc. cbn [fst]. destruct Hr as [<-|Hr]; [apply lookup_delete_eq|].
      apply lookup_delete_None. auto. }
    split; [exact Hw''|]. rewrite Hc in Hc''. split; [done|exact Hc''].
  - unfold hash_realloc. destruct (chain_set key f (chain h key)) as [c|] eqn:Hset.
    + destruct (set_ok h key f c Hw Hset) as (v0 & Hv & Hw' & Hc).
      rewrite get_contents by done. rewrite Hc, Hv, lookup_insert_eq. done.
    + pose proof (chain_set_spec key f (chain h key)) as Hsp. rewrite Hset in Hsp.
      assert (contents h !! key = None) as Hk.
      { rewrite <- get_contents by done. unfold hash_get. rewrite chain_get_map.
        apply not_elem_of_list_to_map. done. }
      destruct (create_ok h key v Hw Hr Hk) as [Hw' Hc].
      rewrite get_contents by done. rewrite Hc, Hk, lookup_insert_eq. done.
  - pose proof (take_ok h key Hw) as Ht. unfold hash_remove.
    destruct (chain_take key (chain h key)) as [[v c]|].
    + destruct Ht as (Hv & Hw' & Hc). cbn [fst snd]. rewrite Hv. done.
    + cbn [fst snd]. rewrite Ht, delete_id; done.
  - split; [done|]. split; [done|]. eexists. split; [done|]. split; [apply (wf_unique h Hw)|done].
Qed.

(** A table that is fresh from [hash_init] is well-formed and empty. *)
Lemma init_ok n : 0 < n < 2147483648 → wf (hash_init n) ∧ contents (hash_init n) = ∅.
Proof.
  intros Hn. assert (hash_enumerate (hash_init n) = []) as E.
  { unfold hash_enumerate. simpl. clear. induction (Z.to_nat n); simpl; auto. }
  split; [|unfold contents; rewrite E; done]. constructor.
  - done.
  - apply length_replicate.
  - intros i c b Hc Hb. apply lookup_replicate in Hc as [-> _]. set_solver.
  - rewrite E. constructor.
Qed.
(** ** Tables with a key twice

    [hash_create] and [hash_move] do not look for a bucket with the new key; the
    newer bucket is then in front of the older one.  What follows holds for such
    tables as well: the payloads are those of before, and the bucket just put in
    is the one [hash_get] finds. *)
Definition payloads (h : hash_type) : list V := (hash_enumerate h).*2.

Lemma shaped_init n : 0 < n < 2147483648 → shaped (hash_init n) ∧ payloads (hash_init n) = [].
Proof.
  intros Hn. destruct (init_ok n Hn) as [Hw _]. split; [apply wf_shaped; done|].
  unfold payloads, hash_enumerate. simpl. clear. induction (Z.to_nat n); simpl; auto.
Qed.
Lemma shaped_chain h key :
  shaped h → chains h !! idx key (size h) = Some (chain h key).
Proof.
  intros [Hs Hl _]. unfold chain.
  destruct (lookup_lt_is_Some_2 (chains h) (idx key (size h))) as [c Hc].
  { rewrite Hl. apply idx_lt. lia. }
  rewrite Hc. done.
Qed.
Lemma shaped_push h b e :
  shaped h →
  let h' := Hash (size h) e (push (size h) (chains h) b) in
  shaped h' ∧ hash_get h' b.1 = Some b.2 ∧ payloads h' ≡ₚ b.2 :: payloads h.
Proof.
  intros Hh h'. pose proof (shaped_chain h b.1 Hh) as Hc. destruct Hh as [Hs Hl Hp].
  destruct (push_ok (size h) (chains h) b) as (H1 & H2 & H3); [rewrite Hl; apply idx_lt; lia|done|].
  split_and!.
  - constructor; cbn [size chains h']; [done|congruence|done].
  - unfold hash_get, chain. cbn [size chains h']. rewrite (push_insert _ _ b _ Hc).
    rewrite list_lookup_insert_eq by (apply lookup_lt_Some in Hc; exact Hc).
    destruct b as [k v]. simpl. rewrite Z.eqb_refl. done.
  - unfold payloads, hash_enumerate. cbn [chains h']. rewrite H3. done.
Qed.
Lemma shaped_take h key v c :
  shaped h → chain_take key (chain h key) = Some (v, c) →
  let h' := Hash (size h) (elems h) (<[idx key (size h) := c]> (chains h)) in
  shaped h' ∧ payloads h ≡ₚ v :: payloads h'.
Proof.
  intros Hh Ht h'. pose proof (shaped_chain h key Hh) as Hc. destruct Hh as [Hs Hl Hp].
  pose proof (chain_take_spec key (chain h key)) as Hsp. rewrite Ht in Hsp.
  destruct (concat_insert _ _ _ Hc) as (rest & Hi & _). split.
  - constructor; cbn [size chains h']; [done|rewrite length_insert; done|].
    apply placed_insert; [done|]. intros b Hb. eapply Hp; [exact Hc|]. rewrite Hsp. set_solver.
  - unfold payloads, hash_enumerate. cbn [chains h']. rewrite Hi.
    rewrite <- (list_insert_id _ _ _ Hc) at 1. rewrite Hi, Hsp. done.
Qed.
Lemma shaped_move h key newkey :
  shaped h →
  let '(h', r) := hash_move h key newkey in
  shaped h' ∧ payloads h' ≡ₚ payloads h ∧ size h' = size h ∧ elems h' = elems h ∧
  match r with Some v => hash_get h' newkey = Some v | None => h' = h end.
Proof.
  intros Hh. unfold hash_move. destruct (chain_take key (chain h key)) as [[v c]|] eqn:Ht; [|done].
  destruct (shaped_take h key v c Hh Ht) as [H1 H2].
  destruct (shaped_push _ (newkey, v) (elems h) H1) as (H3 & H4 & H5).
  split_and!; try done. rewrite H5, H2. done.
Qed.
(** The table grows no faster than the number of the buckets created. *)
Definition sized (n : Z) (h : hash_type) : Prop :=
  0 <= elems h <= n ∧ size h <= Z.max 5 (3 * n).
Lemma shaped_create h key v n :
  shaped h → sized n h → 0 <= n < 268435456 →
  shaped (hash_create h key v) ∧ hash_get (hash_create h key v) key = Some v ∧
  payloads (hash_create h key v) ≡ₚ v :: payloads h ∧ sized (n + 1) (hash_create h key v).
Proof.
  intros Hh [He Hz] Hn. pose proof (shaped_size h Hh) as Hs. unfold hash_create.
  rewrite !u32_id by (unfold dword; lia).
  destruct (_ <? _) eqn:Hg; [apply Z.ltb_lt in Hg|apply Z.ltb_ge in Hg].
  - destruct (shaped_grow h Hh) as (H1 & H2 & H3); [lia|].
    destruct (shaped_push _ (key, v) (elems h + 1) H1) as (H4 & H5 & H6).
    assert (elems (hash_grow h) = elems h) as Ee by done. rewrite Ee, u32_id by (unfold dword; lia).
    split_and!; [done|done| |].
    { rewrite H6. unfold payloads. rewrite H2. done. }
    split; cbn [elems size]; lia.
  - destruct (shaped_push h (key, v) (elems h + 1) Hh) as (H4 & H5 & H6).
    rewrite u32_id by (unfold dword; lia).
    split_and!; [done|done|done|]. split; cbn [elems size]; lia.
Qed.
Lemma realloc_same h key v0 v :
  shaped h → hash_get h key = Some v0 → hash_realloc h key id v = h.
Proof.
  intros Hh Hg. unfold hash_realloc, hash_get in *.
  assert (chain_set key id (chain h key) = Some (chain h key)) as ->.
  { induction (chain h key) as [|[k w] c IH]; simpl in *; [done|].
    case_if; [done|]. rewrite IH by done. done. }
  rewrite list_insert_id by (apply shaped_chain; done). destruct h. done.
Qed.
End Table.
#[global] Arguments hash_type : clear implicits.
#[global] Arguments hash_op : clear implicits.

(** [hash_remove] does not count the element out: a table in which one key is
    created and removed again and again grows while it is empty. *)
Definition create_remove (n : nat) (h : hash_type Z) : hash_type Z :=
  Nat.iter n (λ h, (hash_remove (hash_create h 1 0) 1).1) h.
Lemma remove_keeps_elems :
  let h := create_remove 20 (hash_init 5) in
  hash_enumerate h = [] ∧ size h = 47 ∧ elems h = 20.
Proof. split_and!; reflexivity. Qed.

(** ** Witness *)
Lemma hash_refine_witness :
  let h := hash_create (hash_create (hash_init 1) 7 70) 8 80 in
  (hash_step h (Move 7 9)).2 = Block (Some 70).
Proof.
  intros h. assert (wf h) as Hw.
  { destruct (init_ok (V := Z) 1) as [H1 E1]; [lia|].
    destruct (create_ok (hash_init 1) 7 70 H1) as [H2 E2]; [simpl; lia|rewrite E1; done|].
    destruct (create_ok _ 8 80 H2) as [H3 _]; [vm_compute; reflexivity| |exact H3].
    rewrite E2, E1. done. }
  destruct (hash_refine h (Move 7 9) Hw) as (_ & -> & _); [right; vm_compute; reflexivity|].
  reflexivity.
Defined.
