(* ===== verification/Printf.v ===== *)
(** * Printf: the [debug_printf] of [printf.c]

    The program under emulation prints through a trap: its stack holds the
    address of a format string and the arguments.  [debug_printf] is the state
    machine of the source; one turn is [printf_step].  What the formatting
    functions write through [dopr_outch] is the list of their characters; the local array
    [buffer] is the map of the cells that have been stored, whatever their index. *)
From S2P Require Export CpuSym.

(** ** Characters and constants *)
Inductive dp_state := DP_S_DEFAULT | DP_S_FLAGS | DP_S_MIN | DP_S_DOT | DP_S_MAX
  | DP_S_MOD | DP_S_CONV | DP_S_DONE.
#[export] Instance dp_state_eq_dec : EqDecision dp_state.
Proof. solve_decision. Defined.

Definition DP_F_MINUS : Z := 1 <<! 0.
Definition DP_F_PLUS : Z := 1 <<! 1.
Definition DP_F_SPACE : Z := 1 <<! 2.
Definition DP_F_NUM : Z := 1 <<! 3.
Definition DP_F_ZERO : Z := 1 <<! 4.
Definition DP_F_UP : Z := 1 <<! 5.
Definition DP_F_UNSIGNED : Z := 1 <<! 6.
Definition DP_C_SHORT : Z := 1.
Definition DP_C_LONG : Z := 2.
Definition BUFFER_SIZE : Z := 4096.

Definition char_to_int (p : Z) : Z := p - 48.
Definition isdigit (ch : Z) : bool := (48 <=? ch) && (ch <=? 57).
Definition spaces (n : Z) : list Z := replicate (Z.to_nat n) 32.

(** ** Formatting *)

(** The [do ... while (uvalue && place < 20)] loop; the digits in the order of
    [convert], lowest first. *)
Definition digit_char (caps : bool) (d : Z) : Z :=
  if d <? 10 then 48 + d else (if caps then 65 else 97) + (d - 10).
Fixpoint convert (room : nat) (caps : bool) (base uvalue : Z) : list Z :=
  match room with
  | O => []
  | S room =>
      digit_char caps (uvalue mod base) ::
      (if uvalue / base =? 0 then [] else convert room caps base (uvalue / base))
  end.
Definition fmtint (value base min max flags : Z) : list Z :=
  let max := if max <? 0 then 0 else max in
  let signed := negb (flags &? DP_F_UNSIGNED) in
  let negative := signed && (value <? 0) in
  let sign := if negative then [45]
              else if signed && (flags &? DP_F_PLUS) then [43]
              else if signed && (flags &? DP_F_SPACE) then [32] else [] in
  let uvalue := u64 (if negative then - value else value) in
  let digits := convert 20 (flags &? DP_F_UP) base uvalue in
  (* if (place == 20) place--; *)
  let place := Z.min 19 (Z.of_nat (length digits)) in
  let zpadlen := Z.max 0 (max - place) in
  let spadlen := Z.max 0 (min - Z.max max place - Z.of_nat (length sign)) in
  let '(zpadlen, spadlen) :=
    if flags &? DP_F_ZERO then (Z.max zpadlen spadlen, 0) else (zpadlen, spadlen) in
  let spadlen := if flags &? DP_F_MINUS then - spadlen else spadlen in
  spaces spadlen ++ sign ++ replicate (Z.to_nat zpadlen) 48 ++
  reverse (take (Z.to_nat place) digits) ++ spaces (- spadlen).
(** At most [max] characters are written. *)
Definition fmtstr (value : list Z) (flags min max : Z) : list Z :=
  let padlen := Z.max 0 (min - Z.of_nat (length value)) in
  let padlen := if flags &? DP_F_MINUS then - padlen else padlen in
  take (Z.to_nat max) (spaces padlen ++ value ++ spaces (- padlen)).

(** ** The state machine *)
Record pf := Pf {
  state : dp_state; ch : Z; format : Z; fp : Z; min : Z; max : Z; flags : Z; cflags : Z;
  buffer : gmap Z Z; currlen : Z }.
Definition set_state v s := Pf v (ch s) (format s) (fp s) (min s) (max s) (flags s) (cflags s) (buffer s) (currlen s).
Definition set_ch v s := Pf (state s) v (format s + 1) (fp s) (min s) (max s) (flags s) (cflags s) (buffer s) (currlen s).
Definition set_fp v s := Pf (state s) (ch s) (format s) v (min s) (max s) (flags s) (cflags s) (buffer s) (currlen s).
Definition set_min v s := Pf (state s) (ch s) (format s) (fp s) v (max s) (flags s) (cflags s) (buffer s) (currlen s).
Definition set_max v s := Pf (state s) (ch s) (format s) (fp s) (min s) v (flags s) (cflags s) (buffer s) (currlen s).
Definition set_flags v s := Pf (state s) (ch s) (format s) (fp s) (min s) (max s) v (cflags s) (buffer s) (currlen s).
Definition set_cflags v s := Pf (state s) (ch s) (format s) (fp s) (min s) (max s) (flags s) v (buffer s) (currlen s).
Definition set_buffer b n s := Pf (state s) (ch s) (format s) (fp s) (min s) (max s) (flags s) (cflags s) b n.

Definition dopr_outch (maxlen : Z) (s : pf) (c : Z) : pf :=
  set_buffer (if currlen s <? maxlen then <[currlen s := c]> (buffer s) else buffer s) (currlen s + 1) s.
Definition outs (maxlen : Z) (l : list Z) (s : pf) : pf := foldl (dopr_outch maxlen) s l.
(** The 0 behind the text. *)
Definition terminate (maxlen : Z) (s : pf) : pf :=
  if negb (maxlen =? 0) then
    set_buffer (<[(if currlen s <? maxlen - 1 then currlen s else maxlen - 1) := 0]> (buffer s)) (currlen s) s
  else s.
(** What [%s] prints of the buffer; a cell that has not been stored is [None]. *)
Fixpoint text_from (room : nat) (buf : gmap Z Z) (i : Z) : option (list Z) :=
  match room with
  | O => None
  | S room => c ← buf !! i; if c =? 0 then Some [] else cons c <$> text_from room buf (i + 1)
  end.
Definition printed (maxlen : Z) (s : pf) : option (list Z) := text_from (Z.to_nat maxlen) (buffer s) 0.

(** The characters of the string at an address of [memory]. *)
Fixpoint cstring (room : nat) (mem : gmap Z Z) (addr : Z) : option (list Z) :=
  match room with
  | O => None
  | S room =>
      if get0 mem addr =? 0 then Some []
      else cons (get0 mem addr) <$> cstring room mem (addr + 1)
  end.
Definition NULL_TEXT : list Z := [40; 78; 85; 76; 76; 41].

Section Printf.
Context {P : Type} `{!Board P}.

(** [ch = *format++;] *)
Definition next_char (s : pf) : M P pf :=
  c ← memory_at (format s); mret (set_ch c s).
Definition string_arg (addr : Z) : M P (list Z) :=
  if addr =? 0 then mret NULL_TEXT
  else o ← gets (λ m, cstring (Z.to_nat (65536 - addr)) (memory m) addr);
       match o with Some l => mret l | None => undefined end.

Section Buffer.
Context (maxlen : Z).
(** The argument of an integer conversion: with [l] two words, and the frame
    pointer moved behind it. *)
Definition int_arg (signed : bool) (cflags fp : Z) : M P (Z * Z) :=
  if cflags =? DP_C_LONG then
    hi ← GET_WORD fp;
    lo ← GET_WORD (fp + 2);
    let v := if signed then s32 ((s16 hi <<! 16) |! lo) else (hi <<! 16) |! lo in
    mret (v, fp + 4)
  else
    w ← GET_WORD fp;
    mret (if signed then s16 w else w, fp + 2).
Definition put_int (signed up : bool) (base : Z) (s : pf) : M P pf :=
  let s := if up then set_flags (flags s |! DP_F_UP) s else s in
  let s := if signed then s else set_flags (flags s |! DP_F_UNSIGNED) s in
  x ← int_arg signed (cflags s) (fp s);
  mret (outs maxlen (fmtint x.1 base (min s) (max s) (flags s)) (set_fp x.2 s)).

(** The [switch] on the conversion character. *)
Definition conversion (s : pf) : M P pf :=
  match ch s with
  | 100 | 105 => put_int true false 10 s                     (* d i *)
  | 111 => put_int false false 8 s                           (* o *)
  | 117 => put_int false false 10 s                          (* u *)
  | 88 => put_int false true 16 s                            (* X *)
  | 120 => put_int false false 16 s                          (* x *)
  | 99 =>                                                    (* c *)
      w ← GET_WORD (fp s);
      mret (set_fp (fp s + 2) (dopr_outch maxlen s (u8 w)))
  | 115 =>                                                   (* s *)
      addr ← GET_WORD (fp s);
      str ← string_arg addr;
      let max := if max s =? -1 then Z.of_nat (length str) else max s in
      let max := if (min s >? 0) && (max >=? 0) && (min s >? max) then min s else max in
      mret (outs maxlen (fmtstr str (flags s) (min s) max) (set_max max s))
  | 112 =>                                                   (* p *)
      w ← GET_WORD (fp s);
      mret (outs maxlen (fmtint w 16 (min s) (max s) (flags s)) s)
  | 37 => mret (dopr_outch maxlen s 37)                             (* % *)
  | _ => mret s
  end.

Definition flag_of (c : Z) : option Z :=
  match c with
  | 45 => Some DP_F_MINUS | 43 => Some DP_F_PLUS | 32 => Some DP_F_SPACE
  | 35 => Some DP_F_NUM | 48 => Some DP_F_ZERO | _ => None
  end.
(** One turn of the loop. *)
Definition printf_step (s : pf) : M P pf :=
  if ch s =? 0 then mret (set_state DP_S_DONE s)
  else
    match state s with
    | DP_S_DEFAULT =>
        next_char (if ch s =? 37 then set_state DP_S_FLAGS s else dopr_outch maxlen s (ch s))
    | DP_S_FLAGS =>
        match flag_of (ch s) with
        | Some f => next_char (set_flags (flags s |! f) s)
        | None => mret (set_state DP_S_MIN s)
        end
    | DP_S_MIN =>
        if isdigit (ch s) then next_char (set_min (s32 (10 * min s + char_to_int (ch s))) s)
        else if ch s =? 42 then
          w ← GET_WORD (fp s);
          s ← next_char (set_fp (fp s + 2) (set_min (s16 w) s));
          mret (set_state DP_S_DOT s)
        else mret (set_state DP_S_DOT s)
    | DP_S_DOT =>
        if ch s =? 46 then next_char (set_state DP_S_MAX s)
        else mret (set_state DP_S_MOD s)
    | DP_S_MAX =>
        if isdigit (ch s) then
          let max := if max s <? 0 then 0 else max s in
          next_char (set_max (s32 (10 * max + char_to_int (ch s))) s)
        else if ch s =? 42 then
          (* min, not max *)
          w ← GET_WORD (fp s);
          s ← next_char (set_fp (fp s + 2) (set_min (s16 w) s));
          mret (set_state DP_S_MOD s)
        else mret (set_state DP_S_MOD s)
    | DP_S_MOD =>
        s ← (if ch s =? 104 then next_char (set_cflags DP_C_SHORT s)
             else if ch s =? 108 then next_char (set_cflags DP_C_LONG s)
             else mret s);
        mret (set_state DP_S_CONV s)
    | DP_S_CONV =>
        s ← conversion s;
        s ← next_char s;
        mret (set_max (-1) (set_min 0 (set_cflags 0 (set_flags 0 (set_state DP_S_DEFAULT s)))))
    | DP_S_DONE => mret s
    end.

(** The loop, with the machine as its state. *)
Definition printf_turn (st : pf * machine P) : (pf * machine P) + outcome P pf :=
  let '(s, m) := st in
  if bool_decide (state s = DP_S_DONE) then inr (Done s m)
  else match printf_step s m with
       | Done s m => inl (s, m)
       | Goto l m => inr (Goto l m)
       | Halt => inr Halt
       | Undefined => inr Undefined
       | Blocked => inr Blocked
       end.
Definition printf_loop (s : pf) : M P pf := λ m,
  match loop printf_turn 1048576 (s, m) with
  | inr o => o
  | inl _ => Blocked
  end.
(** Up to the call of [printf]. *)
Definition printf_buffer : M P pf :=
  r7 ← GET_REG16 7;
  let fp := r7 + 2 in
  addr ← GET_WORD fp;
  s ← next_char (Pf DP_S_DEFAULT 0 addr (fp + 2) 0 (-1) 0 0 ∅ 0);
  s ← printf_loop s;
  mret (terminate maxlen s).
End Buffer.
Definition printf_text : M P (list Z) :=
  s ← printf_buffer BUFFER_SIZE;
  match printed BUFFER_SIZE s with Some l => mret l | None => undefined end.

(** ** Computations that run to a result *)
(** [c] ends, and its values satisfy [Q]; the only other end is an access outside of an
    array. *)
Definition runs {A} (Q : A → Prop) (c : M P A) : Prop :=
  ∀ m, match c m with Done a _ => Q a | Undefined => True | _ => False end.
Lemma runs_ret {A} (Q : A → Prop) a : Q a → runs Q (mret a).
Proof. intros H m. exact H. Qed.
Lemma runs_bind {A B} (R : A → Prop) (Q : B → Prop) (c : M P A) (k : A → M P B) :
  runs R c → (∀ a, R a → runs Q (k a)) → runs Q (c ≫= k).
Proof.
  intros Hc Hk m. unfold mbind, M_bind. specialize (Hc m). destruct (c m) as [a m'|l m'| | |]; try done.
  apply (Hk a Hc m').
Qed.
Lemma runs_weaken {A} (R Q : A → Prop) (c : M P A) :
  runs R c → (∀ a, R a → Q a) → runs Q c.
Proof. intros Hc HQ m. specialize (Hc m). destruct (c m); auto. Qed.
Lemma runs_gets {A} (f : machine P → A) : runs (λ _, True) (gets f).
Proof. intros m. exact I. Qed.
Lemma runs_modify (f : machine P → machine P) : runs (λ _, True) (modify f).
Proof. intros m. exact I. Qed.
Lemma runs_undefined {A} (Q : A → Prop) : runs Q undefined.
Proof. intros m. exact I. Qed.
Lemma runs_if {A} (Q : A → Prop) (b : bool) c1 c2 : runs Q c1 → runs Q c2 → runs Q (if b then c1 else c2).
Proof. destruct b; done. Qed.
Lemma runs_memory_at i : runs (λ _, in_array i = true) (memory_at i).
Proof. unfold memory_at. destruct (in_array i) eqn:E; [intros m; reflexivity|apply runs_undefined]. Qed.
Lemma runs_memory_store i v : runs (λ _, True) (memory_store i v).
Proof. unfold memory_store. apply runs_if; [apply runs_modify|apply runs_undefined]. Qed.
Lemma runs_memtype_at i : runs (λ _, True) (memtype_at i).
Proof. unfold memtype_at. apply runs_if; [apply runs_gets|apply runs_undefined]. Qed.

(** The ports answer reads. *)
Context (Hports : ∀ i g, port_get i = Some g → runs (λ _, True) g).
Ltac runs_step :=
  match goal with
  | |- runs _ (mbind _ _) => eapply (runs_bind (λ _, True)); [|intros ? _]
  | |- runs _ (if _ then _ else _) => apply runs_if
  | |- runs _ (mret _) => apply runs_ret
  | |- runs _ (memory_at _) => eapply runs_weaken; [apply runs_memory_at|done]
  | |- runs _ (memory_store _ _) => apply runs_memory_store
  | |- runs _ (memtype_at _) => apply runs_memtype_at
  | |- runs _ (gets _) => apply runs_gets
  | |- runs _ (modify _) => apply runs_modify
  | |- runs _ undefined => apply runs_undefined
  end.
Lemma runs_port_refresh addr : runs (λ _, True) (port_refresh addr).
Proof.
  unfold port_refresh. repeat runs_step.
  destruct (port_get (addr - 0xff88)) eqn:E; repeat runs_step; eauto.
Qed.
Lemma runs_GET_WORD addr : runs (λ _, True) (GET_WORD addr).
Proof.
  unfold GET_WORD, get_word_div, memory_word, illegal_access.
  repeat (runs_step || apply runs_port_refresh); done.
Qed.

(** *** Progress *)
Definition rank (st : dp_state) : Z :=
  match st with
  | DP_S_DEFAULT => 0 | DP_S_FLAGS => 1 | DP_S_MIN => 2 | DP_S_DOT => 3
  | DP_S_MAX => 4 | DP_S_MOD => 5 | DP_S_CONV => 6 | DP_S_DONE => 7 end.
Definition measure (s : pf) : Z := (65536 - format s) * 8 + (7 - rank (state s)).
Definition progress (s s' : pf) : Prop :=
  format s < format s' <= 65536 ∨ format s' = format s ∧ rank (state s) < rank (state s').
Lemma progress_measure s s' :
  format s <= 65536 → progress s s' → 0 <= measure s' < measure s ∧ format s' <= 65536.
Proof.
  intros Hf Hp. unfold measure, progress in *.
  assert (0 <= rank (state s) <= 7) by (destruct (state s); simpl; lia).
  assert (0 <= rank (state s') <= 7) by (destruct (state s'); simpl; lia). lia.
Qed.

(** *** What is in the buffer

    A computation is [sized] when the size [n] of the buffer makes no difference but to
    the buffer: on every machine it ends in the same way, and when it returns, the
    characters that were put out are the same [text]; the buffer holds the first [n] of
    them. *)
Definition written (n : Z) (text : list Z) : gmap Z Z := store_bytes 0 (take (Z.to_nat n) text) ∅.
Definition holds (n : Z) (text : list Z) (s : pf) : pf := set_buffer (written n text) (Z.of_nat (length text)) s.
Definition sized (R : pf → Prop) (c : Z → M P pf) : Prop := ∀ m,
  (∃ text s m', R s ∧ ∀ n, 0 < n → c n m = Done (holds n text s) m') ∨
  (∀ n, 0 < n → c n m = Undefined).

Lemma store_bytes_snoc l c : ∀ a mem,
  store_bytes a (l ++ [c]) mem = <[a + Z.of_nat (length l) := c]> (store_bytes a l mem).
Proof.
  induction l as [|b l IH]; intros a mem; cbn [app store_bytes length]; [rewrite Z.add_0_r; done|].
  rewrite IH. f_equal. lia.
Qed.
Lemma written_snoc n text c : 0 < n →
  written n (text ++ [c]) =
    if Z.of_nat (length text) <? n then <[Z.of_nat (length text) := c]> (written n text) else written n text.
Proof.
  intros Hn. unfold written. destruct (Z.ltb_spec (Z.of_nat (length text)) n).
  - rewrite !take_ge by (rewrite ?length_app; simpl; lia). apply store_bytes_snoc.
  - rewrite take_app_le by lia. done.
Qed.
Lemma outch_holds n text s c : 0 < n → dopr_outch n (holds n text s) c = holds n (text ++ [c]) s.
Proof.
  intros Hn. unfold holds. rewrite (written_snoc n text c Hn), length_app. unfold dopr_outch, set_buffer. cbn.
  f_equal. lia.
Qed.
Lemma outs_holds n l : ∀ text s, 0 < n → outs n l (holds n text s) = holds n (text ++ l) s.
Proof.
  induction l as [|c l IH]; intros text s Hn; [rewrite app_nil_r; done|]. cbn [outs foldl].
  rewrite outch_holds by exact Hn. fold (outs n l (holds n (text ++ [c]) s)). rewrite IH, <- app_assoc by exact Hn. done.
Qed.
Lemma sized_ext R c c' : (∀ n, 0 < n → c n = c' n) → sized R c' → sized R c.
Proof.
  intros He Hc m. destruct (Hc m) as [(text & s & m' & Hs & H)|H]; [left|right].
  - exists text, s, m'. split; [exact Hs|]. intros n Hn. rewrite He by exact Hn. auto.
  - intros n Hn. rewrite He by exact Hn. auto.
Qed.
Lemma sized_ret (R : pf → Prop) text s : R s → sized R (λ n, mret (holds n text s)).
Proof. intros Hs m. left. exists text, s, m. done. Qed.
Lemma sized_outs (R : pf → Prop) text l s : R s → sized R (λ n, mret (outs n l (holds n text s))).
Proof.
  intros Hs. apply (sized_ext _ _ (λ n, mret (holds n (text ++ l) s))); [|apply sized_ret, Hs].
  intros n Hn. rewrite outs_holds by exact Hn. done.
Qed.
Lemma sized_after {A} (Q : A → Prop) R (c : M P A) (k : Z → A → M P pf) :
  runs Q c → (∀ a, Q a → sized R (λ n, k n a)) → sized R (λ n, c ≫= k n).
Proof.
  intros Hc Hk m. unfold mbind, M_bind. specialize (Hc m). destruct (c m) as [a m'|l m'| | |]; try done; [apply Hk, Hc|].
  right. done.
Qed.
Lemma sized_bind Q R (c : Z → M P pf) (k : Z → pf → M P pf) :
  sized Q c → (∀ text s, Q s → sized R (λ n, k n (holds n text s))) → sized R (λ n, c n ≫= k n).
Proof.
  intros Hc Hk m. destruct (Hc m) as [(text & s & m' & Hs & H)|H].
  - destruct (Hk text s Hs m') as [(text' & s' & m2 & Hs' & H')|H']; [left; exists text', s', m2; split; [exact Hs'|]|right];
      intros n Hn; unfold mbind, M_bind; rewrite H by exact Hn; auto.
  - right. intros n Hn. unfold mbind, M_bind. rewrite H by exact Hn. done.
Qed.
Lemma sized_if R (b : bool) c1 c2 : sized R c1 → sized R c2 → sized R (λ n, if b then c1 n else c2 n).
Proof. destruct b; done. Qed.
Lemma sized_weaken (Q R : pf → Prop) c : sized Q c → (∀ s, Q s → R s) → sized R c.
Proof. intros Hc HQ m. destruct (Hc m) as [(text & s & m' & Hs & H)|H]; [left; exists text, s, m'; auto|right; exact H]. Qed.

(** The next character of the format. *)
Definition taken (s s' : pf) : Prop := format s < format s' <= 65536.
Lemma sized_next s text s1 : format s1 = format s → sized (taken s) (λ n, next_char (holds n text s1)).
Proof.
  intros Hf. unfold next_char. apply (sized_after _ _ _ (λ n c, mret (set_ch c (holds n text s1))) (runs_memory_at (format s1))).
  intros c Hc. apply (sized_ret _ text (set_ch c s1)). unfold taken. cbn. unfold in_array in Hc. lia.
Qed.
Lemma sized_move (R : pf → Prop) text st s : R (set_state st s) → sized R (λ n, mret (set_state st (holds n text s))).
Proof. intros H. exact (sized_ret _ text (set_state st s) H). Qed.
Definition in_place (s s' : pf) : Prop := format s' = format s.
Lemma runs_int_arg signed cf p : runs (λ _, True) (int_arg signed cf p).
Proof.
  unfold int_arg. apply runs_if; repeat (eapply runs_bind; [apply runs_GET_WORD|intros ? _]); apply runs_ret; exact I.
Qed.
Lemma sized_put_int signed up base text s :
  sized (in_place s) (λ n, put_int n signed up base (holds n text s)).
Proof.
  set (s1 := if up then set_flags (flags s |! DP_F_UP) s else s).
  set (s2 := if signed then s1 else set_flags (flags s1 |! DP_F_UNSIGNED) s1).
  apply (sized_ext _ _ (λ n, x ← int_arg signed (cflags s2) (fp s2);
    mret (outs n (fmtint x.1 base (min s2) (max s2) (flags s2)) (holds n text (set_fp x.2 s2))))).
  { intros n _. unfold put_int, s2, s1. destruct signed, up; done. }
  apply (sized_after _ _ _ _ (runs_int_arg _ _ _)). intros x _. apply sized_outs.
  unfold in_place, s2, s1. destruct signed, up; done.
Qed.
Lemma runs_string_arg addr : runs (λ _, True) (string_arg addr).
Proof.
  unfold string_arg. apply runs_if; [apply runs_ret; done|].
  eapply runs_bind; [apply runs_gets|intros o _]. destruct o; [apply runs_ret|apply runs_undefined]; done.
Qed.
Lemma sized_conversion text s : sized (in_place s) (λ n, conversion n (holds n text s)).
Proof.
  assert (∀ l s1, in_place s s1 → sized (in_place s) (λ n, mret (outs n l (holds n text s1)))) as Hout
    by (intros; apply sized_outs; assumption).
  assert (sized (in_place s) (λ n, mret (holds n text s))) as Hret by (apply sized_ret; done).
  pose proof (runs_GET_WORD (fp s)) as Hg.
  unfold conversion. cbn [ch holds set_buffer].
  repeat case_match; try exact Hret; try apply (sized_put_int _ _ _ text s); try exact (Hout [37] s eq_refl).
  - set (mx (str : list Z) := let max := if max s =? -1 then Z.of_nat (length str) else max s in
      if (min s >? 0) && (max >=? 0) && (min s >? max) then min s else max).
    apply (sized_after _ _ _ (λ n addr, str ← string_arg addr;
      mret (outs n (fmtstr str (flags s) (min s) (mx str)) (holds n text (set_max (mx str) s)))) Hg).
    intros addr _. apply (sized_after _ _ _ (λ n str, mret (outs n (fmtstr str (flags s) (min s) (mx str))
      (holds n text (set_max (mx str) s)))) (runs_string_arg addr)). intros; apply Hout; done.
  - apply (sized_after _ _ _ (λ n w, mret (outs n [u8 w] (holds n text (set_fp (fp s + 2) s)))) Hg). intros; apply Hout; done.
  - apply (sized_after _ _ _ (λ n w, mret (outs n (fmtint w 16 (min s) (max s) (flags s)) (holds n text s))) Hg). intros; apply Hout; done.
Qed.

Lemma sized_printf_step text s : state s ≠ DP_S_DONE → sized (progress s) (λ n, printf_step n (holds n text s)).
Proof.
  intros Hs.
  assert (∀ st t s1, format s1 = format s → rank (state s) < rank st →
    sized (progress s) (λ n, mret (set_state st (holds n t s1)))) as Hmove.
  { intros st t s1 Hf Hr. apply sized_move. right. done. }
  assert (∀ t s1, format s1 = format s → sized (progress s) (λ n, next_char (holds n t s1))) as Hnext.
  { intros t s1 Hf. apply (sized_weaken (taken s)); [apply sized_next, Hf|]. left. done. }
  assert (∀ t s1 f, format s1 = format s → (∀ x, format (f x) = format x) →
    (∀ n t x, f (holds n t x) = holds n t (f x)) →
    sized (progress s) (λ n, x ← next_char (holds n t s1); mret (f x))) as Htake.
  { intros t s1 f Hf Hk Hh. apply (sized_bind (taken s) _ _ (λ n x, mret (f x))); [apply sized_next, Hf|].
    intros t1 x Hx. apply (sized_ext _ _ (λ n, mret (holds n t1 (f x)))); [intros; rewrite Hh; done|].
    apply sized_ret. left. unfold taken in Hx. rewrite Hk. lia. }
  pose proof (runs_GET_WORD (fp s)) as Hg. unfold printf_step. cbn [ch state format fp holds set_buffer].
  destruct (ch s =? 0). { apply (Hmove DP_S_DONE text s); [done|]. destruct (state s); done. }
  destruct (state s) eqn:E; cbn [rank] in *.
  - destruct (ch s =? 37); [exact (Hnext text (set_state DP_S_FLAGS s) eq_refl)|].
    apply (sized_ext _ _ (λ n, next_char (holds n (text ++ [ch s]) s))); [|exact (Hnext _ s eq_refl)].
    intros n Hn. rewrite <- outch_holds by exact Hn. done.
  - destruct (flag_of (ch s)) as [f|]; [exact (Hnext text (set_flags (flags s |! f) s) eq_refl)|].
    apply (Hmove DP_S_MIN text s); done || lia.
  - destruct (isdigit (ch s)); [exact (Hnext text (set_min (s32 (10 * min s + char_to_int (ch s))) s) eq_refl)|].
    destruct (ch s =? 42); [|apply (Hmove DP_S_DOT text s); done || lia].
    apply (sized_after _ _ _ (λ n w, x ← next_char (holds n text (set_fp (fp s + 2) (set_min (s16 w) s)));
      mret (set_state DP_S_DOT x)) Hg). intros w _. apply Htake; done.
  - destruct (ch s =? 46); [exact (Hnext text (set_state DP_S_MAX s) eq_refl)|apply (Hmove DP_S_MOD text s); done || lia].
  - destruct (isdigit (ch s));
      [exact (Hnext text (set_max (s32 (10 * (if max s <? 0 then 0 else max s) + char_to_int (ch s))) s) eq_refl)|].
    destruct (ch s =? 42); [|apply (Hmove DP_S_MOD text s); done || lia].
    apply (sized_after _ _ _ (λ n w, x ← next_char (holds n text (set_fp (fp s + 2) (set_min (s16 w) s)));
      mret (set_state DP_S_MOD x)) Hg). intros w _. apply Htake; done.
  - destruct (ch s =? 104); [exact (Htake text (set_cflags DP_C_SHORT s) (set_state DP_S_CONV) eq_refl (λ _, eq_refl) (λ _ _ _, eq_refl))|].
    destruct (ch s =? 108); [exact (Htake text (set_cflags DP_C_LONG s) (set_state DP_S_CONV) eq_refl (λ _, eq_refl) (λ _ _ _, eq_refl))|].
    apply (Hmove DP_S_CONV text s); done || lia.
  - apply (sized_bind (in_place s) _ _ (λ n s, s ← next_char s;
      mret (set_max (-1) (set_min 0 (set_cflags 0 (set_flags 0 (set_state DP_S_DEFAULT s))))))); [apply sized_conversion|].
    intros t1 s1 H1. apply (Htake t1 s1 (λ s, set_max (-1) (set_min 0 (set_cflags 0 (set_flags 0 (set_state DP_S_DEFAULT s))))));
      done.
  - done.
Qed.

(** ** Theorems about the whole function *)
Lemma sized_printf_loop text s :
  0 <= format s <= 65536 → sized (λ _, True) (λ n, printf_loop n (holds n text s)).
Proof.
  intros Hf m. unfold printf_loop.
  assert (∀ k text s m, format s <= 65536 → 0 <= measure s < Z.of_nat k →
    (∃ text' s' m', ∀ n, 0 < n → loop_nat (printf_turn n) k (holds n text s, m) = inr (Done (holds n text' s') m')) ∨
    (∀ n, 0 < n → loop_nat (printf_turn n) k (holds n text s, m) = inr Undefined)) as Hloop.
  { clear Hf text s m. induction k as [|k IH]; intros text s m Hf Hk; [lia|]. cbn [loop_nat].
    unfold printf_turn. cbn [state holds set_buffer].
    case_bool_decide as Hd; [left; exists text, s, m; done|].
    destruct (sized_printf_step text s Hd m) as [(t1 & s1 & m1 & Hp & E)|E].
    - destruct (progress_measure s s1 Hf Hp) as [Hm1 Hf1].
      destruct (IH t1 s1 m1 Hf1 ltac:(lia)) as [(t2 & s2 & m2 & E2)|E2]; [left|right].
      + exists t2, s2, m2. intros n Hn. rewrite E by exact Hn. apply E2, Hn.
      + intros n Hn. rewrite E by exact Hn. apply E2, Hn.
    - right. intros n Hn. rewrite E by exact Hn. done. }
  destruct (Hloop (Pos.to_nat 1048576) text s m) as [(t & s' & m' & E)|E]; [lia| |left|right].
  - unfold measure. destruct (state s); cbn [rank]; lia.
  - exists t, s', m'. split; [exact I|]. intros n Hn. rewrite loop_loop_nat, E by exact Hn. done.
  - intros n Hn. rewrite loop_loop_nat, E by exact Hn. done.
Qed.
Lemma runs_GET_REG16 nr : runs (λ _, True) (GET_REG16 nr).
Proof. intros m. exact I. Qed.
Lemma printf_buffer_sized m :
  (∃ text s m', ∀ n, 0 < n → printf_buffer n m = Done (terminate n (holds n text s)) m') ∨
  (∀ n, 0 < n → printf_buffer n m = Undefined).
Proof.
  assert (sized (λ _, True) (λ n, r7 ← GET_REG16 7; addr ← GET_WORD (r7 + 2);
    s ← next_char (holds n [] (Pf DP_S_DEFAULT 0 addr (r7 + 2 + 2) 0 (-1) 0 0 ∅ 0)); printf_loop n s)) as Hs.
  { apply (sized_after _ _ _ (λ n r7, addr ← GET_WORD (r7 + 2);
      s ← next_char (holds n [] (Pf DP_S_DEFAULT 0 addr (r7 + 2 + 2) 0 (-1) 0 0 ∅ 0)); printf_loop n s) (runs_GET_REG16 7)).
    intros r7 _.
    apply (sized_after _ _ _ (λ n addr, s ← next_char (holds n [] (Pf DP_S_DEFAULT 0 addr (r7 + 2 + 2) 0 (-1) 0 0 ∅ 0));
      printf_loop n s) (runs_GET_WORD (r7 + 2))). intros addr _.
    apply (sized_bind (λ s, 0 <= format s <= 65536) _ _ printf_loop); [|intros text s Hf; apply sized_printf_loop, Hf].
    set (s0 := Pf _ _ _ _ _ _ _ _ _ _). unfold next_char.
    apply (sized_after _ _ _ (λ n c, mret (set_ch c (holds n [] s0))) (runs_memory_at (format s0))).
    intros c Hc. apply (sized_ret _ [] (set_ch c s0)). unfold in_array in Hc. unfold s0 in *. cbn in *. lia. }
  assert (∀ n, printf_buffer n m = (s ← (r7 ← GET_REG16 7; addr ← GET_WORD (r7 + 2);
    s ← next_char (holds n [] (Pf DP_S_DEFAULT 0 addr (r7 + 2 + 2) 0 (-1) 0 0 ∅ 0)); printf_loop n s);
    mret (terminate n s)) m) as E.
  { intros n. unfold printf_buffer, holds, written. rewrite take_nil. cbn [store_bytes set_buffer length].
    unfold mbind, M_bind. destruct (GET_REG16 7 m) as [r7 m1| | | |]; [|done..].
    destruct (GET_WORD (r7 + 2) m1) as [addr m2| | | |]; [|done..].
    change (set_buffer ∅ (Z.of_nat 0)) with (set_buffer ∅ 0). cbn [set_buffer].
    destruct (next_char _ m2) as [s m3| | | |]; [|done..]. destruct (printf_loop n s m3); done. }
  destruct (Hs m) as [(text & s & m' & _ & H)|H]; [left|right].
  - exists text, s, m'. intros n Hn. rewrite E. unfold mbind at 1, M_bind at 1. rewrite H by exact Hn. done.
  - intros n Hn. rewrite E. unfold mbind at 1, M_bind at 1. rewrite H by exact Hn. done.
Qed.
(** The text up to its first 0. *)
Fixpoint until_nul (l : list Z) : list Z :=
  match l with [] => [] | c :: l => if c =? 0 then [] else c :: until_nul l end.
Lemma text_from_until l : ∀ room buf a,
  (∀ (i : nat) x, l !! i = Some x → buf !! (a + Z.of_nat i) = Some x) → buf !! (a + Z.of_nat (length l)) = Some 0 →
  (length l < room)%nat → text_from room buf a = Some (until_nul l).
Proof.
  induction l as [|c l IH]; intros room buf a Hl H0 Hr; (destruct room as [|room]; [cbn in Hr; lia|]); cbn [text_from until_nul].
  { rewrite Z.add_0_r in H0. rewrite H0. done. }
  pose proof (Hl 0%nat c eq_refl) as Hc. rewrite Z.add_0_r in Hc. rewrite Hc. cbn [mbind option_bind].
  destruct (c =? 0); [done|]. rewrite (IH room buf (a + 1)); [done| | |cbn in Hr; lia].
  - intros i x Hi. rewrite <- (Hl (S i) x Hi). f_equal. lia.
  - cbn [length] in H0. rewrite <- H0. f_equal. lia.
Qed.
Lemma lookup_store_bytes l : ∀ a mem i,
  store_bytes a l mem !! i = if decide (a <= i < a + Z.of_nat (length l)) then l !! Z.to_nat (i - a) else mem !! i.
Proof.
  induction l as [|c l IH]; intros a mem i; cbn [store_bytes length]; [case_decide; [lia|done]|].
  rewrite IH. destruct (decide (i = a)) as [->|Hne].
  - rewrite decide_False, lookup_insert_eq, decide_True by lia. replace (a - a) with 0 by lia. done.
  - rewrite lookup_insert_ne by congruence. repeat case_decide; try lia; [|done].
    replace (Z.to_nat (i - a)) with (S (Z.to_nat (i - (a + 1)))) by lia. done.
Qed.
(** The cells are those of the buffer, and the text printed is the first [n - 1] characters. *)
Lemma buffer_terminated n text s : 0 < n →
  (∀ i v, buffer (terminate n (holds n text s)) !! i = Some v → 0 <= i < n) ∧
  printed n (terminate n (holds n text s)) = Some (until_nul (take (Z.to_nat (n - 1)) text)).
Proof.
  intros Hn. unfold terminate. rewrite (proj2 (Z.eqb_neq n 0)) by lia. cbn [negb holds set_buffer buffer currlen].
  set (e := if Z.of_nat (length text) <? n - 1 then Z.of_nat (length text) else n - 1).
  assert (Z.of_nat (length (take (Z.to_nat (n - 1)) text)) = e) as He.
  { rewrite length_take. unfold e. destruct (Z.ltb_spec (Z.of_nat (length text)) (n - 1)); lia. }
  assert (0 <= e < n) as He' by (unfold e; destruct (Z.ltb_spec (Z.of_nat (length text)) (n - 1)); lia).
  unfold printed, written. cbn [holds set_buffer buffer]. split.
  - intros i v. destruct (decide (i = e)) as [->|Hne]; [lia|]. rewrite lookup_insert_ne by congruence.
    rewrite lookup_store_bytes. case_decide as Hi; [|rewrite lookup_empty; done]. rewrite length_take in Hi. lia.
  - apply text_from_until.
    + intros i x Hi. pose proof (lookup_lt_Some _ _ _ Hi) as Hlt. rewrite length_take in Hlt.
      rewrite length_take in He. rewrite lookup_insert_ne, lookup_store_bytes, decide_True by (rewrite ?length_take; lia).
      rewrite lookup_take_lt in Hi by lia. replace (Z.to_nat (0 + Z.of_nat i - 0)) with i by lia.
      rewrite lookup_take_lt by lia. exact Hi.
    + rewrite Z.add_0_l, He. apply lookup_insert_eq.
    + lia.
Qed.
(** [debug_printf] terminates and respects its buffer, for any size of it. *)
Definition printf_ends (m : machine P) : Prop :=
  match printf_text m with
  | Done shown m' => ∃ text, shown = until_nul (take 4095 text) ∧
      ∀ maxlen, 0 < maxlen → ∃ s, printf_buffer maxlen m = Done s m' ∧
        (∀ i v, buffer s !! i = Some v → 0 <= i < maxlen) ∧
        printed maxlen s = Some (until_nul (take (Z.to_nat (maxlen - 1)) text))
  | Undefined => ∀ maxlen, 0 < maxlen → printf_buffer maxlen m = Undefined
  | _ => False
  end.
Lemma printf_text_ends m : printf_ends m.
Proof.
  unfold printf_ends, printf_text, mbind, M_bind.
  destruct (printf_buffer_sized m) as [(text & s & m' & E)|E].
  - rewrite E by done. destruct (buffer_terminated BUFFER_SIZE text s eq_refl) as [_ ->].
    exists text. split; [done|]. intros n Hn. exists (terminate n (holds n text s)).
    split; [apply E, Hn|]. exact (buffer_terminated n text s Hn).
  - rewrite E by done. exact E.
Qed.
End Printf.

(** ** Numbers *)

(** What a reader makes of a number: blanks, a sign, digits. *)
Definition digit_value (c : Z) : Z := if c <? 65 then c - 48 else if c <? 97 then c - 55 else c - 87.
Definition read_digits (base : Z) (l : list Z) : Z := foldl (λ v c, v * base + digit_value c) 0 l.

Lemma digit_char_value caps d : 0 <= d < 16 → digit_value (digit_char caps d) = d.
Proof.
  intros Hd. unfold digit_char, digit_value.
  destruct (Z.ltb_spec d 10), caps; repeat case_if; lia.
Qed.
Lemma convert_value room caps base u :
  2 <= base <= 16 → 0 <= u < base ^ Z.of_nat room → (0 < room)%nat →
  let l := convert room caps base u in
  read_digits base (reverse l) = u ∧ (0 < length l <= room)%nat ∧
  u < base ^ Z.of_nat (length l) ∧ (u < base → length l = 1%nat) ∧
  (base <= u → base ^ (Z.of_nat (length l) - 1) <= u).
Proof.
  intros Hb. revert u. induction room as [|room IH]; intros u Hu Hr; [lia|]. cbn [convert].
  pose proof (Z.mod_pos_bound u base ltac:(lia)) as Hm. pose proof (Z.div_mod u base ltac:(lia)) as Hdm.
  destruct (Z.eqb_spec (u / base) 0) as [E|E].
  - assert (u < base) by nia. cbn. rewrite digit_char_value by lia.
    rewrite Z.mod_small by lia. split_and!; lia.
  - assert (0 < u / base) as Hq by (assert (0 <= u / base) by (apply Z.div_pos; lia); lia).
    rewrite Nat2Z.inj_succ, Z.pow_succ_r in Hu by lia.
    assert (u / base < base ^ Z.of_nat room) as Hlt by (apply Z.div_lt_upper_bound; lia).
    assert (0 < room)%nat as Hr'.
    { destruct room; [change (base ^ Z.of_nat 0) with 1 in Hlt; lia|lia]. }
    destruct (IH (u / base)) as (H1 & H2 & H3 & H4 & H5); [lia|done|].
    set (l := convert room caps base (u / base)) in *. cbv zeta.
    unfold read_digits in *. rewrite reverse_cons, foldl_app. cbn [foldl length].
    rewrite H1, digit_char_value by lia. rewrite Nat2Z.inj_succ, Z.pow_succ_r by lia.
    split_and!; [lia|lia|lia|nia|nia|]. intros _.
    destruct (Z.le_gt_cases base (u / base)) as [Hle|Hgt].
    + replace (Z.succ (Z.of_nat (length l)) - 1) with (Z.succ (Z.of_nat (length l) - 1)) by lia.
      rewrite Z.pow_succ_r by lia. specialize (H5 Hle). nia.
    + rewrite H4 by lia. change (base ^ (Z.succ (Z.of_nat 1) - 1)) with (base ^ 1).
      rewrite Z.pow_1_r. nia.
Qed.

(** The parts of a formatted number. *)
Definition number_text (blanks : Z) (sign : list Z) (zeros : Z) (digits : list Z) (trail : Z) : list Z :=
  spaces blanks ++ sign ++ replicate (Z.to_nat zeros) 48 ++ digits ++ spaces trail.
Lemma read_zeros base n l : read_digits base (replicate n 48 ++ l) = read_digits base l.
Proof.
  unfold read_digits. rewrite foldl_app. f_equal.
  induction n as [|n IH]; [done|]. cbn [replicate foldl]. exact IH.
Qed.

Lemma number_text_length blanks sign zeros digits trail :
  Z.of_nat (length (number_text blanks sign zeros digits trail)) =
    Z.max 0 blanks + Z.of_nat (length sign) + Z.max 0 zeros + Z.of_nat (length digits) + Z.max 0 trail.
Proof. unfold number_text, spaces. rewrite !length_app, !length_replicate. lia. Qed.
(** Numbers of 32 bits have at most 11 digits; the room of [convert] suffices. *)
Lemma convert_32 caps base u :
  8 <= base <= 16 → 0 <= u < 4294967296 →
  let l := convert 20 caps base u in
  read_digits base (reverse l) = u ∧ (0 < length l <= 11)%nat ∧
  (base ^ (Z.of_nat (length l) - 1) <= u ∨ length l = 1%nat).
Proof.
  intros Hb Hu l. destruct (convert_value 20 caps base u) as (H1 & H2 & H3 & H4 & H5); [lia| |lia|].
  { split; [lia|]. apply Z.lt_le_trans with (8 ^ 20); [change (8 ^ 20) with 1152921504606846976; lia|]. apply Z.pow_le_mono_l. lia. }
  split; [done|]. fold l in H1, H2, H3, H4, H5.
  destruct (Z.lt_ge_cases u base) as [Hlt|Hge]; [rewrite H4 by done; lia|]. specialize (H5 Hge).
  split; [|auto]. split; [lia|].
  destruct (Nat.le_gt_cases (length l) 11) as [|Hgt]; [done|exfalso].
  assert (8 ^ 11 <= base ^ (Z.of_nat (length l) - 1)) as H6.
  { transitivity (base ^ 11); [apply Z.pow_le_mono_l; lia|apply Z.pow_le_mono_r; lia]. }
  change (8 ^ 11) with 8589934592 in H6. lia.
Qed.

(** C26: [fmtint] prints the number.  For the values the conversions pass it and
    any flags, width and precision, the text is blanks, sign, zeros, digits and
    blanks; the digits read back as the magnitude of the value, without
    superfluous zeros of their own; the sign is minus exactly for a negative
    value; and - unless the flag 0 meets a precision above the number of digits -
    the text is as wide as the larger of the field width and of sign, precision
    and digits. *)
Theorem fmtint_prints value base mn mx fl :
  8 <= base <= 16 → -2147483648 <= value < 4294967296 → (0 <= value ∨ (fl &? DP_F_UNSIGNED) = false) →
  ∃ blanks sign zeros digits trail,
    fmtint value base mn mx fl = number_text blanks sign zeros digits trail ∧
    read_digits base (replicate (Z.to_nat zeros) 48 ++ digits) = Z.abs value ∧
    (base ^ (Z.of_nat (length digits) - 1) <= Z.abs value ∨ length digits = 1%nat) ∧
    (sign = [45] ↔ value < 0) ∧
    ((fl &? DP_F_ZERO) = false ∨ mx <= Z.of_nat (length digits) →
     Z.of_nat (length (fmtint value base mn mx fl)) =
       Z.max mn (Z.of_nat (length sign) + Z.max (Z.max 0 mx) (Z.of_nat (length digits)))).
Proof.
  intros Hb Hv Hu. unfold fmtint. cbv zeta.
  set (neg := negb (fl &? DP_F_UNSIGNED) && (value <? 0)).
  assert (neg = (value <? 0)) as Hneg.
  { unfold neg. destruct Hu as [Hu| ->]; [|done]. destruct (Z.ltb_spec value 0); [lia|]. apply andb_false_r. }
  assert (u64 (if neg then - value else value) = Z.abs value) as ->.
  { rewrite Hneg. destruct (Z.ltb_spec value 0); rewrite u64_id by (unfold qword; lia); lia. }
  destruct (convert_32 (fl &? DP_F_UP) base (Z.abs value)) as (H1 & H2 & H3); [done|lia|].
  set (l := convert 20 (fl &? DP_F_UP) base (Z.abs value)) in *.
  set (sign := if neg then [45] else _).
  replace (Z.min 19 (Z.of_nat (length l))) with (Z.of_nat (length l)) by lia.
  rewrite Nat2Z.id, firstn_all. set (pl := Z.of_nat (length l)).
  set (zp := Z.max 0 ((if mx <? 0 then 0 else mx) - pl)).
  set (sp := Z.max 0 (mn - _ - _)).
  assert (sign = [45] ↔ value < 0) as Hsign.
  { unfold sign. rewrite Hneg. destruct (Z.ltb_spec value 0); [split; [lia|done]|].
    repeat case_if; split; intros ?; discriminate || lia. }
  assert (∃ blanks zeros trail,
    (let '(zpadlen, spadlen) := if fl &? DP_F_ZERO then (Z.max zp sp, 0) else (zp, sp) in
     spaces (if fl &? DP_F_MINUS then - spadlen else spadlen) ++ sign ++
     replicate (Z.to_nat zpadlen) 48 ++ reverse l ++
     spaces (- (if fl &? DP_F_MINUS then - spadlen else spadlen))) =
    number_text blanks sign zeros (reverse l) trail ∧
    ((fl &? DP_F_ZERO) = false ∨ mx <= pl → Z.max 0 blanks + Z.max 0 zeros + Z.max 0 trail = zp + sp))
    as (blanks & zeros & trail & E & Hw).
  { destruct (fl &? DP_F_ZERO), (fl &? DP_F_MINUS);
      eexists _, _, _; (split; [reflexivity|]); intros Hc;
      unfold zp in *; destruct (Z.ltb_spec mx 0), Hc; try done; lia. }
  exists blanks, sign, zeros, (reverse l), trail. rewrite E, length_reverse, read_zeros.
  split_and!; try done. intros Hc. rewrite number_text_length, length_reverse. fold pl.
  specialize (Hw Hc). unfold zp, sp in Hw. destruct (Z.ltb_spec mx 0); lia.
Qed.

(** The flag 0 with a precision: three characters of the field are missing. *)
Lemma zero_flag_narrow : length (fmtint 12 10 10 5 DP_F_ZERO) = 7%nat.
Proof. reflexivity. Qed.

(** ** A whole call *)
Section Call.
Context {P : Type} `{!Board P}.

Implicit Types m : machine P.

Lemma run_next_char s m :
  word (format s) → next_char s m = Done (set_ch (get0 (memory m) (format s)) s) m.
Proof.
  intros Hw. unfold next_char. rewrite (bind_done _ _ _ _ _ (run_memory_at m _ Hw)). done.
Qed.
Lemma run_GET_WORD m a :
  word (a + 1) → executable m a → GET_WORD a m = Done (word_at m a) m.
Proof.
  intros Hw1 (Hw & He & Hd). unfold GET_WORD, mbind, M_bind.
  rewrite u16_id, run_memtype_at by done. rewrite Hd, even_land1 by done. simpl.
  unfold memory_word, mbind, M_bind. rewrite !run_memory_at by done. done.
Qed.

(** [n] turns of the loop on a machine that they do not change. *)
Inductive turns m : nat → pf → pf → Prop :=
  | turns_done s : turns m 0 s s
  | turns_step n s s1 s2 : state s ≠ DP_S_DONE → printf_step BUFFER_SIZE s m = Done s1 m →
      turns m n s1 s2 → turns m (S n) s s2.
Lemma loop_turns m n s s' :
  turns m n s s' → state s' = DP_S_DONE → Z.of_nat n < 1048576 → printf_loop BUFFER_SIZE s m = Done s' m.
Proof.
  intros Ht Hd Hn. unfold printf_loop. rewrite loop_loop_nat.
  replace (Pos.to_nat 1048576) with (n + S (Pos.to_nat 1048576 - n - 1))%nat by lia.
  generalize (Pos.to_nat 1048576 - n - 1)%nat as k. intros k.
  assert (loop_nat (printf_turn BUFFER_SIZE) (n + S k) (s, m) = inr (Done s' m)) as ->; [|done].
  clear Hn. induction Ht as [s|n s s1 s2 Hs E _ IH].
  - simpl. rewrite bool_decide_eq_true_2 by done. done.
  - simpl. rewrite bool_decide_eq_false_2, E by done. auto.
Qed.

(** The conversions of a word: character, base, signedness. *)
Definition word_conversions : list (Z * Z * bool) :=
  [(100, 10, true); (105, 10, true); (117, 10, false); (111, 8, false); (120, 16, false)].
(** The stack of a call: the address of the format and a word of argument. *)
Record call_ready m (c : Z) : Prop := {
  cr_format : executable m (reg16 m 7 + 2) ∧ word (reg16 m 7 + 2 + 1);
  cr_arg : executable m (reg16 m 7 + 4) ∧ word (reg16 m 7 + 4 + 1);
  cr_room : word (word_at m (reg16 m 7 + 2)) ∧ word (word_at m (reg16 m 7 + 2) + 3);
  cr_percent : get0 (memory m) (word_at m (reg16 m 7 + 2)) = 37;
  cr_conv : get0 (memory m) (word_at m (reg16 m 7 + 2) + 1) = c;
  cr_end : get0 (memory m) (word_at m (reg16 m 7 + 2) + 2) = 0 }.

(** Onto an empty buffer. *)
Lemma outs_empty l s : buffer s = ∅ → currlen s = 0 → outs BUFFER_SIZE l s = holds BUFFER_SIZE l s.
Proof.
  intros Hb Hn. rewrite <- (app_nil_l l) at 2. rewrite <- outs_holds by done. f_equal.
  destruct s. cbn in *. subst. done.
Qed.
Lemma fmtint_short v base (signed : bool) :
  (length (fmtint v base 0 (-1) (if signed then 0 else DP_F_UNSIGNED)) <= 20)%nat.
Proof.
  unfold fmtint. cbv zeta.
  assert (∀ sign digits, (length sign <= 1)%nat →
    let place := Z.min 19 (Z.of_nat (length digits)) in
    let spad := Z.max 0 (0 - Z.max (if -1 <? 0 then 0 else -1) place - Z.of_nat (length sign)) in
    Z.of_nat (length (number_text spad sign (Z.max 0 ((if -1 <? 0 then 0 else -1) - place))
      (reverse (take (Z.to_nat place) digits)) (- spad))) <= 20) as H.
  { intros sign digits Hs place spad. rewrite number_text_length, length_reverse, length_take.
    subst spad. change (-1 <? 0) with true. cbv iota. lia. }
  apply Nat2Z.inj_le.
  destruct signed; apply (H _ (convert 20 _ base _)); simpl; repeat case_if; simpl; lia.
Qed.

(** None of the characters ends the text. *)
Lemma until_nul_none l : Forall (λ c, c ≠ 0) l → until_nul l = l.
Proof. induction 1 as [|c l Hc _ IH]; [done|]. cbn. rewrite (proj2 (Z.eqb_neq c 0) Hc), IH. done. Qed.
Lemma convert_nonzero room caps base u : 0 < base → Forall (λ c, c ≠ 0) (convert room caps base u).
Proof.
  intros Hb. revert u. induction room as [|room IH]; intros u; cbn [convert]; constructor.
  - pose proof (Z.mod_pos_bound u base Hb). unfold digit_char. destruct (_ <? 10), caps; lia.
  - destruct (_ =? 0); [constructor|apply IH].
Qed.
Lemma fmtint_nonzero v c base signed fl : (c, base, signed) ∈ word_conversions →
  Forall (λ c, c ≠ 0) (fmtint v base 0 (-1) fl).
Proof.
  intros Hc. assert (0 < base) as Hb.
  { repeat (apply elem_of_cons in Hc as [[= -> -> ->]|Hc]; [done|]). apply elem_of_nil in Hc. done. }
  unfold fmtint. cbv zeta. unfold spaces. destruct (fl &? DP_F_ZERO); rewrite !Forall_app; split_and!.
  all: try (apply Forall_replicate; done).
  all: try (apply Forall_reverse, Forall_take, convert_nonzero, Hb).
  all: repeat case_match; repeat constructor; done.
Qed.

(** A turn of which [printf_step] is known. *)
Ltac turn_to s1 := apply (turns_step _ _ _ s1); [discriminate| |].

Lemma run_word_conversion m (c base : Z) (signed : bool) fmt sp w :
  (c, base, signed) ∈ word_conversions → word fmt → GET_WORD sp m = Done w m →
  let text := fmtint (if signed then s16 w else w) base 0 (-1) (if signed then 0 else DP_F_UNSIGNED) in
  printf_step BUFFER_SIZE (Pf DP_S_CONV c fmt sp 0 (-1) 0 0 ∅ 0) m =
    Done (Pf DP_S_DEFAULT (get0 (memory m) fmt) (fmt + 1) (sp + 2) 0 (-1) 0 0
            (written BUFFER_SIZE text) (Z.of_nat (length text))) m.
Proof.
  intros Hc Hw Hg text.
  assert (conversion BUFFER_SIZE (Pf DP_S_CONV c fmt sp 0 (-1) 0 0 ∅ 0) m =
    Done (Pf DP_S_CONV c fmt (sp + 2) 0 (-1) (if signed then 0 else DP_F_UNSIGNED) 0
            (written BUFFER_SIZE text) (Z.of_nat (length text))) m) as E.
  { assert (conversion BUFFER_SIZE (Pf DP_S_CONV c fmt sp 0 (-1) 0 0 ∅ 0) =
      put_int BUFFER_SIZE signed false base (Pf DP_S_CONV c fmt sp 0 (-1) 0 0 ∅ 0)) as ->.
    { repeat (apply elem_of_cons in Hc as [[= -> -> ->]|Hc]; [done|]). apply elem_of_nil in Hc. done. }
    assert (int_arg signed 0 sp m = Done (if signed then s16 w else w, sp + 2) m) as Harg.
    { unfold int_arg. change (0 =? DP_C_LONG) with false. cbv iota. rewrite (bind_done _ _ _ _ _ Hg). done. }
    unfold put_int. destruct signed; cbv zeta iota; cbn [cflags fp set_flags];
      rewrite (bind_done _ _ _ _ _ Harg), outs_empty by done; done. }
  unfold printf_step. cbn [ch state].
  assert ((c =? 0) = false) as ->.
  { repeat (apply elem_of_cons in Hc as [[= -> -> ->]|Hc]; [done|]). apply elem_of_nil in Hc. done. }
  rewrite (bind_done _ _ _ _ _ E). run_by (apply run_next_char; exact Hw). done.
Qed.

(** C25: A format of one conversion prints its argument: with ["%d"], ["%i"],
    ["%u"], ["%o"] or ["%x"] the text is what [fmtint] makes of the word on the
    stack, in the conversion's base, sign-extended exactly for [d] and [i]; the
    machine is not changed.  The words on the stack are in memory, and the format
    ends behind the conversion ([call_ready]). *)
Theorem printf_word m (c base : Z) (signed : bool) :
  (c, base, signed) ∈ word_conversions → call_ready m c →
  let w := word_at m (reg16 m 7 + 4) in
  printf_text m =
    Done (fmtint (if signed then s16 w else w) base 0 (-1) (if signed then 0 else DP_F_UNSIGNED)) m.
Proof.
  intros Hc [Hf Ha [Hr0 Hr] Hp Hcv He] w.
  set (f := word_at m (reg16 m 7 + 2)) in *. set (r := reg16 m 7) in *.
  set (text := fmtint (if signed then s16 w else w) base 0 (-1) (if signed then 0 else DP_F_UNSIGNED)).
  assert (printf_loop BUFFER_SIZE (set_ch 37 (Pf DP_S_DEFAULT 0 f (r + 2 + 2) 0 (-1) 0 0 ∅ 0)) m =
    Done (holds BUFFER_SIZE text (Pf DP_S_DONE 0 (f + 3) (r + 6) 0 (-1) 0 0 ∅ 0)) m) as Hloop.
  2: { assert (printf_buffer BUFFER_SIZE m =
         Done (terminate BUFFER_SIZE (holds BUFFER_SIZE text (Pf DP_S_DONE 0 (f + 3) (r + 6) 0 (-1) 0 0 ∅ 0))) m) as Hb.
       { unfold printf_buffer. rewrite (bind_done _ _ _ _ _ (run_GET_REG16 m 7)). cbv zeta. fold r.
         rewrite (bind_done _ _ _ _ _ (run_GET_WORD m _ (proj2 Hf) (proj1 Hf))). fold f.
         run_by (apply run_next_char; exact Hr0). cbn [format]. rewrite Hp, (bind_done _ _ _ _ _ Hloop). done. }
       unfold printf_text. rewrite (bind_done _ _ _ _ _ Hb), (proj2 (buffer_terminated BUFFER_SIZE text _ eq_refl)).
       rewrite take_ge; [rewrite until_nul_none; [done|exact (fmtint_nonzero _ _ _ _ _ Hc)]|].
       pose proof (fmtint_short (if signed then s16 w else w) base signed) as Hl. fold text in Hl.
       change (Z.to_nat (BUFFER_SIZE - 1)) with (Z.to_nat 4095). lia. }
  assert (word (f + 1) ∧ word (f + 2)) as [Hw1 Hw2] by (unfold word in *; lia).
  replace (f + 3) with (f + 2 + 1) by lia. replace (r + 6) with (r + 4 + 2) by lia.
  unfold set_ch. cbn [state ch format fp min max flags cflags buffer currlen].
  replace (r + 2 + 2) with (r + 4) by lia. unfold holds, set_buffer. cbn [state ch format fp min max flags cflags buffer currlen].
  apply (loop_turns _ 7); [|done|done].
  turn_to (Pf DP_S_FLAGS c (f + 1 + 1) (r + 4) 0 (-1) 0 0 ∅ 0).
  { unfold printf_step. cbn [ch state]. change (37 =? 0) with false. cbv iota.
    change (37 =? 37) with true. cbv iota. rewrite run_next_char by done. cbn [format set_state].
    rewrite Hcv. done. }
  replace (f + 1 + 1) with (f + 2) by lia.
  set (s2 := Pf DP_S_FLAGS c (f + 2) (r + 4) 0 (-1) 0 0 ∅ 0).
  assert (∀ st st', (st, st') ∈ [(DP_S_FLAGS, DP_S_MIN); (DP_S_MIN, DP_S_DOT); (DP_S_DOT, DP_S_MOD);
    (DP_S_MOD, DP_S_CONV)] → printf_step BUFFER_SIZE (set_state st s2) m = Done (set_state st' s2) m) as Hmoves.
  { intros st st' Hst.
    repeat (apply elem_of_cons in Hst as [[= -> ->]|Hst]); [..|apply elem_of_nil in Hst; done];
    repeat (apply elem_of_cons in Hc as [[= -> -> ->]|Hc]); try (apply elem_of_nil in Hc; done); done. }
  turn_to (set_state DP_S_MIN s2); [apply (Hmoves DP_S_FLAGS); repeat constructor|].
  turn_to (set_state DP_S_DOT s2); [apply (Hmoves DP_S_MIN); repeat constructor|].
  turn_to (set_state DP_S_MOD s2); [apply (Hmoves DP_S_DOT); repeat constructor|].
  turn_to (set_state DP_S_CONV s2); [apply (Hmoves DP_S_MOD); repeat constructor|].
  turn_to (Pf DP_S_DEFAULT (get0 (memory m) (f + 2)) (f + 2 + 1) (r + 4 + 2) 0 (-1) 0 0 (written BUFFER_SIZE text) (Z.of_nat (length text))).
  { apply (run_word_conversion m c base signed); [done|done|]. apply run_GET_WORD; apply Ha. }
  rewrite He. apply (turns_step _ _ _ (Pf DP_S_DONE 0 (f + 2 + 1) (r + 4 + 2) 0 (-1) 0 0 (written BUFFER_SIZE text) (Z.of_nat (length text)))); [discriminate|done|].
  constructor.
Qed.
End Call.

(** ** What the board promises: printing keeps the machine well-formed *)
Section Keeps.
Context {P : Type} `{!Board P, !BoardInv P, !BoardOk P}.

Lemma keeps_next_char s : keeps (λ _, True) (next_char s).
Proof. unfold next_char. keeps_auto. done. Qed.
Ltac keeps_part :=
  progress cbv zeta ||
  match goal with
  | |- keeps _ (mret _) => apply keeps_ret; exact I
  | |- keeps _ (gets _) => apply keeps_gets; done
  | |- keeps _ undefined => apply keeps_undefined
  | |- keeps _ (mbind _ _) => eapply (keeps_bind (λ _, True)); [|intros ? _]
  | |- keeps _ (if _ then _ else _) => apply keeps_if
  | |- keeps _ (next_char _) => apply keeps_next_char
  | |- keeps _ _ => eapply keeps_any; solve [eauto with keeps]
  end.
Lemma keeps_put_int n signed up base s : keeps (λ _, True) (put_int n signed up base s).
Proof.
  unfold put_int, int_arg. eapply (keeps_bind (λ _, True)).
  - repeat keeps_part.
  - intros x _. apply keeps_ret. done.
Qed.
Lemma keeps_conversion n s : keeps (λ _, True) (conversion n s).
Proof.
  unfold conversion. repeat case_match; try apply keeps_put_int; try (apply keeps_ret; done);
    repeat keeps_part; unfold string_arg; repeat keeps_part.
  all: repeat (case_match || keeps_part).
Qed.
Lemma keeps_printf_step n s : keeps (λ _, True) (printf_step n s).
Proof.
  unfold printf_step. apply keeps_if; [repeat keeps_part|].
  destruct (state s); try (destruct (flag_of (ch s)));
    repeat (apply keeps_conversion || keeps_part).
Qed.
(** So [debug_printf] meets the board's obligation [debug_printf_ok]. *)
Lemma keeps_printf_loop n s : keeps (λ _, True) (printf_loop n s).
Proof.
  intros m Hm. unfold printf_loop. destruct (loop _ _ _) as [|o] eqn:E; [done|].
  refine (loop_sound (printf_turn n) (λ st, wf st.2) (λ o, match o with
    | Done _ m' => True ∧ wf m' | Goto _ m' => wf m' | _ => True end) _ _ (s, m) o Hm E).
  intros [s1 m1] Hm1. unfold printf_turn. case_bool_decide; [done|].
  pose proof (keeps_printf_step n s1 m1 Hm1) as H1. destruct (printf_step n s1 m1); tauto.
Qed.
Lemma keeps_printf_text : keeps (λ _, True) printf_text.
Proof.
  unfold printf_text. eapply (keeps_bind (λ _, True)).
  - unfold printf_buffer. cbv zeta.
    repeat match goal with |- keeps _ (printf_loop _ _) => apply keeps_printf_loop | _ => keeps_part end.
    apply keeps_gets; done.
  - intros s _. destruct (printed BUFFER_SIZE s); repeat keeps_part.
Qed.
End Keeps.
