(* ===== verification/Lcd.v ===== *)
(** * Lcd: the display controller behind port 6 ([lcd.c])

    The program drives an I2C bus by hand: bit 5 of port 6 is the clock, bit 6
    the data line, the three low bits switch the sensors' power.  [set_port6]
    decodes start and stop conditions, bits and bytes and runs the display's
    commands.  The array [lcd_data] has 12 bytes; a write outside of it is
    [None]. *)
From S2P Require Export Prelude.

Definition LCD_DEV_ID : Z := 0x7c.
Definition I2C_WRITE : Z := 0.

(** What the emulator does to the outside: the call of [wait_peripherals], the
    messages to the GUI and the call of [set_analog_active]. *)
Inductive lcd_msg :=
  | WaitPeripherals
  | Segments (ptr data : Z)
  | Enable (on : Z)
  | AnalogActive (val : Z).

Record lcd := Lcd {
  lcd_data : list Z; lcd_mode : Z; lcd_ptr : Z; lcd_subaddr : Z;
  i2c_state : Z; i2c_data : Z; i2c_bitnr : Z; port6 : Z; lcd_out : list lcd_msg }.
Definition set_lcd_data v s := Lcd v (lcd_mode s) (lcd_ptr s) (lcd_subaddr s) (i2c_state s) (i2c_data s) (i2c_bitnr s) (port6 s) (lcd_out s).
Definition set_lcd_mode v s := Lcd (lcd_data s) v (lcd_ptr s) (lcd_subaddr s) (i2c_state s) (i2c_data s) (i2c_bitnr s) (port6 s) (lcd_out s).
Definition set_lcd_ptr v s := Lcd (lcd_data s) (lcd_mode s) v (lcd_subaddr s) (i2c_state s) (i2c_data s) (i2c_bitnr s) (port6 s) (lcd_out s).
Definition set_lcd_subaddr v s := Lcd (lcd_data s) (lcd_mode s) (lcd_ptr s) v (i2c_state s) (i2c_data s) (i2c_bitnr s) (port6 s) (lcd_out s).
Definition set_i2c_state v s := Lcd (lcd_data s) (lcd_mode s) (lcd_ptr s) (lcd_subaddr s) v (i2c_data s) (i2c_bitnr s) (port6 s) (lcd_out s).
Definition set_i2c_bits data bitnr s := Lcd (lcd_data s) (lcd_mode s) (lcd_ptr s) (lcd_subaddr s) (i2c_state s) data bitnr (port6 s) (lcd_out s).
Definition put_port6 v s := Lcd (lcd_data s) (lcd_mode s) (lcd_ptr s) (lcd_subaddr s) (i2c_state s) (i2c_data s) (i2c_bitnr s) v (lcd_out s).
Definition send msgs s := Lcd (lcd_data s) (lcd_mode s) (lcd_ptr s) (lcd_subaddr s) (i2c_state s) (i2c_data s) (i2c_bitnr s) (port6 s) (lcd_out s ++ msgs).

(** ** Operations *)
Definition lcd_display (ptr data : Z) (s : lcd) : option lcd :=
  if (0 <=? ptr) && (ptr <? 12) then
    if lcd_data s !!! Z.to_nat ptr =? data then Some s
    else Some (send [WaitPeripherals; Segments ptr data]
                 (set_lcd_data (<[Z.to_nat ptr := data]> (lcd_data s)) s))
  else None.
Definition lcd_enable (data : Z) (s : lcd) : lcd := send [WaitPeripherals; Enable data] s.

(** The inner [switch] on the command byte. *)
Definition lcd_command (s : lcd) : lcd :=
  let d := i2c_data s in
  let op := d &! 0x60 in
  if op =? 0x40 then
    let s := if (lcd_mode s ^! d) &? 0x08
             then lcd_enable (if d &? 0x08 then 1 else 0) s else s in
    set_lcd_mode (d &! 0x1f) s
  else if op =? 0x00 then set_lcd_ptr (d &! 0x1f) s
  else if op =? 0x60 then set_lcd_subaddr (d &! 0x7) s
  else s.
(** The [switch] on [i2c_state] when a byte is complete. *)
Definition i2c_byte (s : lcd) : option lcd :=
  let st := i2c_state s in
  if st =? 0 then
    Some (set_i2c_state (if i2c_data s =? (LCD_DEV_ID |! I2C_WRITE) then 1 else -1) s)
  else if st =? 1 then
    let s := lcd_command s in
    Some (if i2c_data s &? 0x80 then s else set_i2c_state 2 s)
  else if st =? 2 then
    if lcd_subaddr s =? 0 then
      s ← lcd_display (lcd_ptr s >>! 1) (i2c_data s) s;
      Some (set_lcd_ptr (s8 (lcd_ptr s + 2)) s)
    else Some s
  else Some s.
(** A rising edge of the clock while the bus is in use. *)
Definition i2c_clock (val : Z) (s : lcd) : option lcd :=
  let bitnr := u8 (i2c_bitnr s + 1) in
  if bitnr <? 8
  then Some (set_i2c_bits (i2c_data s |! (((val + val) &! 0x80) >>! bitnr)) bitnr s)
  else set_i2c_bits 0 255 <$> i2c_byte (set_i2c_bits (i2c_data s) bitnr s).
Definition set_port6 (val : Z) (s : lcd) : option lcd :=
  put_port6 val <$>
  if val &? 0x20 then
    let old := port6 s in
    let decoded :=
      if negb (old &? 0x20) && (0 <=? i2c_state s) then i2c_clock val s
      else if old &! Z.lnot val &? 0x40 then
        Some (set_i2c_bits 0 255 (set_i2c_state 0 s))
      else if Z.lnot old &! val &? 0x40 then Some (set_i2c_state (-1) s)
      else Some s in
    if (old ^! val) &? 7 then send [AnalogActive (val &! 7)] <$> decoded else decoded
  else Some s.

(** The same write as it is cut in two by the call of [wait_peripherals], which runs
    other parts of the emulator (it may even load a file of savefile.c) before the rest of
    the function goes on: where the call is, if there is one, with the arguments that the
    function still holds. *)
Inductive lcd_call :=
  | NoCall
  | InEnable (on : Z)
  | InDisplay (ptr data : Z).
Definition port6_before (val : Z) (s : lcd) : option (lcd * lcd_call) :=
  if val &? 0x20 then
    let old := port6 s in
    if negb (old &? 0x20) && (0 <=? i2c_state s) then
      let bitnr := u8 (i2c_bitnr s + 1) in
      let s1 := set_i2c_bits (i2c_data s) bitnr s in
      let d := i2c_data s in
      if bitnr <? 8 then (λ s, (s, NoCall)) <$> i2c_clock val s
      else if (i2c_state s =? 1) && (d &! 0x60 =? 0x40) && ((lcd_mode s ^! d) &? 0x08) then
        Some (send [WaitPeripherals] s1, InEnable (if d &? 0x08 then 1 else 0))
      else if (i2c_state s =? 2) && (lcd_subaddr s =? 0) then
        let ptr := lcd_ptr s >>! 1 in
        if (0 <=? ptr) && (ptr <? 12) then
          if lcd_data s !!! Z.to_nat ptr =? d then (λ s, (s, NoCall)) <$> i2c_clock val s
          else Some (send [WaitPeripherals] (set_lcd_data (<[Z.to_nat ptr := d]> (lcd_data s1)) s1), InDisplay ptr d)
        else None
      else (λ s, (s, NoCall)) <$> i2c_clock val s
    else if old &! Z.lnot val &? 0x40 then
      Some (set_i2c_bits 0 255 (set_i2c_state 0 s), NoCall)
    else if Z.lnot old &! val &? 0x40 then Some (set_i2c_state (-1) s, NoCall)
    else Some (s, NoCall)
  else Some (s, NoCall).
(** What comes after the call, on the state it left. *)
Definition port6_after (val : Z) (call : lcd_call) (s : lcd) : lcd :=
  let s := match call with
    | NoCall => s
    | InEnable on =>
      let s := send [Enable on] s in
      let s := set_lcd_mode (i2c_data s &! 0x1f) s in
      set_i2c_bits 0 255 (if i2c_data s &? 0x80 then s else set_i2c_state 2 s)
    | InDisplay ptr data =>
      let s := send [Segments ptr data] s in
      set_i2c_bits 0 255 (set_lcd_ptr (s8 (lcd_ptr s + 2)) s)
    end in
  put_port6 val
    (if (val &? 0x20) && ((port6 s ^! val) &? 7) then send [AnalogActive (val &! 7)] s else s).

Record lcd_save_type := LcdSave {
  svl_data : list Z; svl_mode : Z; svl_ptr : Z; svl_subaddr : Z;
  svl_i2c_state : Z; svl_i2c_data : Z; svl_i2c_bitnr : Z; svl_port6 : Z }.
Definition lcd_save (s : lcd) : lcd_save_type :=
  LcdSave (take 12 (lcd_data s)) (lcd_mode s) (lcd_ptr s) (lcd_subaddr s)
    (i2c_state s) (s8 (i2c_data s)) (s8 (i2c_bitnr s)) (port6 s).
(** The analog lines are sent as an [A] message, the same as of [set_analog_active]. *)
Definition lcd_load (d : lcd_save_type) (s : lcd) : lcd :=
  send (imap (λ i v, Segments (Z.of_nat i) v) (svl_data d) ++
        [Enable (if svl_mode d &? 0x08 then 1 else 0); AnalogActive (svl_port6 d &! 7)])
    (Lcd (svl_data d) (svl_mode d) (svl_ptr d) (svl_subaddr d) (svl_i2c_state d)
       (u8 (svl_i2c_data d)) (u8 (svl_i2c_bitnr d)) (svl_port6 d) (lcd_out s)).

(** ** The GUI *)

(** What the GUI shows after the messages: segments and display enable. *)
Definition gui_msg (g : list Z * bool) (m : lcd_msg) : list Z * bool :=
  match m with
  | Segments ptr data => (<[Z.to_nat ptr := data]> g.1, g.2)
  | Enable on => (g.1, negb (on =? 0))
  | _ => g
  end.
Definition gui (g : list Z * bool) (ms : list lcd_msg) : list Z * bool := foldl gui_msg g ms.
Definition shown (s : lcd) : list Z * bool := (lcd_data s, lcd_mode s &? 0x08).

(** A run of port writes. *)
Fixpoint port6_writes (vals : list Z) (s : lcd) : option lcd :=
  match vals with
  | [] => Some s
  | v :: vals => set_port6 v s ≫= port6_writes vals
  end.

(** ** The GUI stays in step *)

(** [s'] is [s] after some messages that bring the GUI from the one to the other. *)
Definition in_step (s s' : lcd) : Prop :=
  ∃ ms, lcd_out s' = lcd_out s ++ ms ∧ gui (shown s) ms = shown s'.
Lemma in_step_refl s s' :
  lcd_out s' = lcd_out s → lcd_data s' = lcd_data s → lcd_mode s' = lcd_mode s → in_step s s'.
Proof. intros H1 H2 H3. exists []. rewrite app_nil_r. unfold shown. rewrite H2, H3. done. Qed.
Lemma in_step_trans s1 s2 s3 : in_step s1 s2 → in_step s2 s3 → in_step s1 s3.
Proof.
  intros (m1 & E1 & G1) (m2 & E2 & G2). exists (m1 ++ m2). rewrite E2, E1, app_assoc.
  unfold gui in *. rewrite foldl_app, G1. done.
Qed.
Create HintDb lcd.
#[export] Hint Resolve in_step_refl in_step_trans : lcd.

Lemma display_in_step ptr data s s' : lcd_display ptr data s = Some s' → in_step s s'.
Proof.
  unfold lcd_display. repeat case_if; intros [= <-]; eauto with lcd.
  eexists. split; [reflexivity|]. done.
Qed.
Lemma mode_bit x : (x &? 0x08) = Z.testbit x 3.
Proof. apply (bit_test 3). done. Qed.
Lemma command_in_step s : in_step s (lcd_command s).
Proof.
  unfold lcd_command. set (on := if i2c_data s &? 0x08 then 1 else 0).
  repeat case_if; eauto with lcd.
  - exists [WaitPeripherals; Enable on]. split; [reflexivity|]. unfold on, shown. simpl.
    rewrite !mode_bit, Z.land_spec, andb_true_r. destruct (Z.testbit (i2c_data s) 3); done.
  - exists []. split; [rewrite app_nil_r; done|]. unfold shown. simpl. f_equal.
    rewrite mode_bit, Z.lxor_spec in *. rewrite mode_bit, Z.land_spec, andb_true_r.
    destruct (Z.testbit (lcd_mode s) 3), (Z.testbit (i2c_data s) 3); done.
Qed.
Lemma byte_in_step s s' : i2c_byte s = Some s' → in_step s s'.
Proof.
  unfold i2c_byte. repeat case_if; intros H; simplify_eq; eauto with lcd.
  - eauto using command_in_step.
  - eapply in_step_trans; [apply command_in_step|]. eauto with lcd.
  - apply bind_Some in H as (s1 & H & [= <-]).
    eapply in_step_trans; [eapply display_in_step, H|]. eauto with lcd.
Qed.

Lemma port6_in_step v s s' : set_port6 v s = Some s' → in_step s s'.
Proof.
  unfold set_port6. intros H. apply fmap_Some in H as (s1 & H & ->).
  assert (in_step s s1) as H1; [|eapply in_step_trans; [exact H1|]; eauto with lcd].
  destruct (v &? 0x20); [|simplify_eq; eauto with lcd].
  assert (∀ s2, (if negb (port6 s &? 0x20) && (0 <=? i2c_state s) then i2c_clock v s
      else if port6 s &! Z.lnot v &? 0x40 then Some (set_i2c_bits 0 255 (set_i2c_state 0 s))
      else if Z.lnot (port6 s) &! v &? 0x40 then Some (set_i2c_state (-1) s)
      else Some s) = Some s2 → in_step s s2) as Hd.
  { intros s2. unfold i2c_clock. repeat case_if; intros H2; simplify_eq; eauto with lcd.
    apply fmap_Some in H2 as (s3 & H2 & ->). apply byte_in_step in H2.
    eapply in_step_trans; [|eapply in_step_trans; [exact H2|]]; eauto with lcd. }
  destruct ((port6 s ^! v) &? 7); [|auto].
  apply fmap_Some in H as (s2 & H & ->). eapply in_step_trans; [apply Hd, H|].
  eexists. split; [reflexivity|]. done.
Qed.

(** The two halves, with a call in between that changes nothing of the display, are the
    write. *)
Lemma send_send a b s : send b (send a s) = send (a ++ b) s.
Proof. unfold send. cbn. rewrite <- app_assoc. done. Qed.
Lemma i2c_clock_port6 v s s' : i2c_clock v s = Some s' → port6 s' = port6 s.
Proof.
  unfold i2c_clock, i2c_byte, lcd_command, lcd_enable, lcd_display.
  repeat (case_if; cbn [fmap option_fmap option_map mbind option_bind]); intros H; simplify_eq; done.
Qed.
Ltac by_port6 E := cbn [mbind option_bind fmap option_fmap option_map];
  unfold port6_after; cbv zeta; try rewrite E; cbn [andb]; try done.
Lemma set_port6_halves val s :
  set_port6 val s = ('(s, call) ← port6_before val s; Some (port6_after val call s)).
Proof.
  assert (∀ o : option lcd, put_port6 val <$> (if (port6 s ^! val) &? 7 then send [AnalogActive (val &! 7)] <$> o else o) =
    (s' ← o; Some (put_port6 val (if (port6 s ^! val) &? 7 then send [AnalogActive (val &! 7)] s' else s')))) as Ho
    by (intros [s'|]; cbn; case_if; done).
  unfold set_port6, port6_before. destruct (val &? 0x20) eqn:E5; [|by_port6 E5].
  cbv zeta. rewrite Ho. clear Ho.
  destruct (negb _ && _) eqn:Ec; [|destruct (port6 s &! Z.lnot val &? 0x40); [|destruct (Z.lnot (port6 s) &! val &? 0x40)]; by_port6 E5].
  assert ((s' ← i2c_clock val s; Some (put_port6 val (if (port6 s ^! val) &? 7 then send [AnalogActive (val &! 7)] s' else s'))) =
    '(s, call) ← (λ s, (s, NoCall)) <$> i2c_clock val s; Some (port6_after val call s)) as Hno.
  { destruct (i2c_clock val s) as [s'|] eqn:E; by_port6 E5. rewrite (i2c_clock_port6 _ _ _ E). done. }
  rewrite Hno. destruct (u8 (i2c_bitnr s + 1) <? 8) eqn:Eb; [done|]. rewrite <- Hno.
  destruct (((i2c_state s =? 1) && _) && _) eqn:E1; [|destruct ((i2c_state s =? 2) && _) eqn:E2; [|exact Hno]].
  - apply andb_prop in E1 as [E1 Em]. apply andb_prop in E1 as [E1 Eo]. apply Z.eqb_eq in E1.
    unfold i2c_clock, i2c_byte, lcd_command, lcd_enable. rewrite Eb. cbn [i2c_state set_i2c_bits i2c_data lcd_mode].
    rewrite E1, Eo, Em. by_port6 E5. cbn -[Z.land]. repeat (case_if; cbn -[Z.land]); unfold send; cbn -[Z.land]; rewrite <- ?app_assoc; done.
  - apply andb_prop in E2 as [E2 Es]. apply Z.eqb_eq in E2.
    unfold i2c_clock, i2c_byte, lcd_display in *. rewrite Eb in *. cbn [i2c_state set_i2c_bits i2c_data lcd_subaddr lcd_data lcd_ptr] in *.
    rewrite E2, Es in *. cbn [Z.eqb] in *. destruct ((0 <=? lcd_ptr s >>! 1) && _); [|done]. destruct (_ =? i2c_data s); [exact Hno|].
    by_port6 E5. cbn -[Z.land]. repeat (case_if; cbn -[Z.land]); unfold send; cbn -[Z.land]; rewrite <- ?app_assoc; done.
Qed.

(** C22: the GUI always shows the controller's state.  Whatever the program
    writes to port 6, well-formed I2C traffic or not, the messages sent bring
    the segments and the display switch of the GUI exactly to [lcd_data] and the
    enable bit of [lcd_mode]. *)
Theorem lcd_gui_in_step vals s s' :
  port6_writes vals s = Some s' →
  ∃ ms, lcd_out s' = lcd_out s ++ ms ∧ gui (shown s) ms = shown s'.
Proof.
  fold (in_step s s'). revert s. induction vals as [|v vals IH]; intros s H; simpl in H.
  { injection H as <-. eauto with lcd. }
  apply bind_Some in H as (s1 & H1 & H). apply port6_in_step in H1.
  eapply in_step_trans; [exact H1|]. auto.
Qed.

(** ** Bytes on the bus *)

(** The port values that put a bit on the data line and pulse the clock, with
    the analog lines at [a]; a byte is its eight bits, highest first, and the
    acknowledge bit. *)
Definition wave_bit (a : Z) (b : bool) : list Z :=
  let sda := if b then 0x40 else 0 in [a |! sda; a |! sda |! 0x20].
Definition wave_byte (a byte : Z) : list Z :=
  mjoin (wave_bit a <$> (Z.testbit byte <$> [7; 6; 5; 4; 3; 2; 1; 0])) ++ wave_bit a true.
(** A start condition from the idle bus, and a stop condition. *)
Definition wave_start (a : Z) : list Z := [a |! 0x20].
Definition wave_stop (a : Z) : list Z := [a; a |! 0x20; a |! 0x60].

Lemma port6_writes_app l1 l2 s :
  port6_writes (l1 ++ l2) s = port6_writes l1 s ≫= port6_writes l2.
Proof.
  revert s. induction l1 as [|v l1 IH]; intros s; simpl; [done|].
  destruct (set_port6 v s); simpl; auto.
Qed.

Lemma analog_cases a (P : Z → Prop) :
  0 <= a < 8 → P 0 → P 1 → P 2 → P 3 → P 4 → P 5 → P 6 → P 7 → P a.
Proof.
  intros Ha. assert (a = 0 ∨ a = 1 ∨ a = 2 ∨ a = 3 ∨ a = 4 ∨ a = 5 ∨ a = 6 ∨ a = 7) as H by lia.
  repeat (destruct H as [->|H]; [auto|]). subst. auto.
Qed.

(** One pulse of the clock: the ninth completes a byte. *)
Lemma clock_pulse v1 v2 s :
  (v1 &? 0x20) = false → (v2 &? 0x20) = true → ((v1 ^! v2) &? 7) = false → 0 <= i2c_state s →
  port6_writes [v1; v2] s = put_port6 v2 <$> i2c_clock v2 (put_port6 v1 s).
Proof.
  intros H1 H2 H3 Hs. unfold port6_writes, set_port6. rewrite H1. cbn [fmap option_fmap option_map mbind option_bind].
  cbn [port6 put_port6 i2c_state]. rewrite H2, H1, H3, (proj2 (Z.leb_le _ _) Hs). cbn [negb andb].
  destruct (i2c_clock v2 (put_port6 v1 s)); done.
Qed.
Definition line (a : Z) (b : bool) : Z := a |! (if b then 0x40 else 0).
Lemma wave_pulse a b s :
  0 <= a < 8 → 0 <= i2c_state s →
  let v := line a b |! 0x20 in
  port6_writes (wave_bit a b) s = put_port6 v <$> i2c_clock v (put_port6 (line a b) s) ∧
  (v + v) &! 0x80 = if b then 0x80 else 0.
Proof.
  intros Ha Hs v. split.
  - apply clock_pulse; [..|done]; unfold v; pattern a; apply analog_cases; try done; destruct b; done.
  - unfold v. pattern a; apply analog_cases; try done; destruct b; done.
Qed.
(** The first eight pulses shift the bits of the byte in. *)
Lemma wave_data_bit a b k s :
  0 <= a < 8 → 0 <= i2c_state s → u8 (i2c_bitnr s + 1) = k → k < 8 →
  port6_writes (wave_bit a b) s =
    Some (put_port6 (line a b |! 0x20)
            (set_i2c_bits (i2c_data s |! ((if b then 0x80 else 0) >>! k)) k s)).
Proof.
  intros Ha Hs Hk Hk8. destruct (wave_pulse a b s Ha Hs) as [-> Hv].
  unfold i2c_clock. cbn [i2c_bitnr i2c_data put_port6]. rewrite Hk, Hv.
  rewrite (proj2 (Z.ltb_lt _ _) Hk8). done.
Qed.
Fixpoint shift_in (a k : Z) (bits : list bool) (s : lcd) : lcd :=
  match bits with
  | [] => s
  | b :: bits => shift_in a (k + 1) bits (put_port6 (line a b |! 0x20)
      (set_i2c_bits (i2c_data s |! ((if b then 0x80 else 0) >>! k)) k s))
  end.
Lemma wave_bits a bits k s :
  0 <= a < 8 → 0 <= i2c_state s → u8 (i2c_bitnr s + 1) = k → k + Z.of_nat (length bits) <= 8 →
  port6_writes (mjoin (wave_bit a <$> bits)) s = Some (shift_in a k bits s).
Proof.
  intros Ha. revert k s. induction bits as [|b bits IH]; intros k s Hs Hk Hl; [done|].
  cbn [length] in Hl. rewrite fmap_cons. cbn [mjoin list_join]. rewrite port6_writes_app, (wave_data_bit a b k) by (done || lia).
  cbn [mbind option_bind shift_in]. apply IH; [done| |lia].
  cbn [i2c_bitnr set_i2c_bits put_port6]. pose proof (u8_byte (i2c_bitnr s + 1)).
  width_lia.
Qed.
Fixpoint shift_bits (d k : Z) (bits : list bool) : Z :=
  match bits with
  | [] => d
  | b :: bits => shift_bits (d |! ((if b then 0x80 else 0) >>! k)) (k + 1) bits
  end.
Lemma shift_in_bits p a bits k s :
  put_port6 p (set_i2c_bits 0 0 (shift_in a k bits s)) = put_port6 p (set_i2c_bits 0 0 s) ∧
  i2c_data (shift_in a k bits s) = shift_bits (i2c_data s) k bits ∧
  i2c_bitnr (shift_in a k bits s) = match bits with [] => i2c_bitnr s | _ => k + Z.of_nat (length bits) - 1 end.
Proof.
  revert k s. induction bits as [|b bits IH]; intros k s; [done|].
  cbn [shift_in shift_bits]. destruct (IH (k + 1) (put_port6 (line a b |! 0x20)
    (set_i2c_bits (i2c_data s |! ((if b then 0x80 else 0) >>! k)) k s))) as (-> & -> & ->).
  split; [done|]. split; [done|]. destruct bits; cbn [length i2c_bitnr put_port6 set_i2c_bits]; lia.
Qed.
Definition bits_of (b : Z) : list bool := Z.testbit b <$> [7; 6; 5; 4; 3; 2; 1; 0].
Lemma shifted_byte b : byte b → shift_bits 0 0 (bits_of b) = b.
Proof.
  intros Hb. apply Z.eqb_eq, (forall_byte (λ b, shift_bits 0 0 (bits_of b) =? b)); [|done].
  vm_compute. reflexivity.
Qed.
Lemma lcd_eta p s s' :
  put_port6 p (set_i2c_bits 0 0 s) = put_port6 p (set_i2c_bits 0 0 s') →
  put_port6 p s = put_port6 p (set_i2c_bits (i2c_data s) (i2c_bitnr s) s').
Proof. destruct s, s'. unfold put_port6, set_i2c_bits. simpl. congruence. Qed.

(** A byte on the bus reaches the byte-level receiver. *)
Lemma wave_byte_received a b s :
  0 <= a < 8 → 0 <= i2c_state s → i2c_bitnr s = 255 → i2c_data s = 0 → byte b →
  port6_writes (wave_byte a b) s =
    (λ s', put_port6 (a |! 0x60) (set_i2c_bits 0 255 s')) <$>
      i2c_byte (put_port6 (line a true) (set_i2c_bits b 8 s)).
Proof.
  intros Ha Hs Hn Hd Hb. change (wave_byte a b) with (mjoin (wave_bit a <$> bits_of b) ++ wave_bit a true).
  rewrite port6_writes_app, (wave_bits a _ 0) by (done || rewrite Hn; done).
  cbn [mbind option_bind].
  destruct (shift_in_bits (line a true) a (bits_of b) 0 s) as (E & Ed & En).
  rewrite Hd, shifted_byte in Ed by done. change (i2c_bitnr (shift_in a 0 (bits_of b) s) = 7) in En.
  apply lcd_eta in E. rewrite Ed, En in E.
  assert (i2c_state (shift_in a 0 (bits_of b) s) = i2c_state s) as Est.
  { change (i2c_state (put_port6 (line a true) (shift_in a 0 (bits_of b) s)) = i2c_state s).
    rewrite E. done. }
  destruct (wave_pulse a true (shift_in a 0 (bits_of b) s) Ha) as [-> _]; [rewrite Est; done|].
  rewrite E. unfold i2c_clock. cbn [i2c_bitnr put_port6 set_i2c_bits i2c_data].
  change (u8 (7 + 1) <? 8) with false. change (u8 (7 + 1)) with 8. cbv iota.
  assert (line a true |! 0x20 = a |! 0x60) as -> by (unfold line; rewrite <- Z.lor_assoc; done).
  unfold put_port6 at 1 3, set_i2c_bits at 1 3. cbn [lcd_data lcd_mode lcd_ptr lcd_subaddr i2c_state lcd_out].
  destruct (i2c_byte _); done.
Qed.

(** ** Frames *)
Record receiving (p : Z) (s : lcd) : Prop := {
  rv_state : i2c_state s = 2; rv_subaddr : lcd_subaddr s = 0; rv_ptr : lcd_ptr s = 2 * p;
  rv_bits : i2c_bitnr s = 255 ∧ i2c_data s = 0; rv_length : length (lcd_data s) = 12%nat }.

Lemma display_sends ptr d s :
  0 <= ptr < 12 → length (lcd_data s) = 12%nat →
  ∃ ms, lcd_display ptr d s = Some (send ms (set_lcd_data (<[Z.to_nat ptr := d]> (lcd_data s)) s)).
Proof.
  intros Hp Hl. unfold lcd_display.
  assert ((0 <=? ptr) && (ptr <? 12) = true) as -> by lia. cbv iota.
  destruct (Z.eqb_spec (lcd_data s !!! Z.to_nat ptr) d) as [E|E]; [|eauto].
  exists []. rewrite list_insert_id.
  - destruct s. unfold send, set_lcd_data. simpl. rewrite app_nil_r. done.
  - rewrite <- E. apply list_lookup_lookup_total_lt. lia.
Qed.
Lemma data_byte a b p s :
  0 <= a < 8 → byte b → receiving p s → 0 <= p < 12 →
  ∃ s', port6_writes (wave_byte a b) s = Some s' ∧ receiving (p + 1) s' ∧
    lcd_data s' = <[Z.to_nat p := b]> (lcd_data s) ∧ lcd_mode s' = lcd_mode s ∧
    port6 s' = a |! 0x60.
Proof.
  intros Ha Hb [Hst Hsub Hptr [Hn Hd] Hl] Hp.
  rewrite wave_byte_received by (done || lia).
  unfold i2c_byte. cbn [i2c_state i2c_data lcd_subaddr lcd_ptr put_port6 set_i2c_bits].
  rewrite Hst, Hsub, Hptr. rewrite Z.shiftr_div_pow2 by lia.
  replace (2 * p / 2 ^ 1) with p by (change (2 ^ 1) with 2; rewrite Z.mul_comm, Z.div_mul; lia).
  destruct (display_sends p b (put_port6 (line a true) (set_i2c_bits b 8 s)) Hp Hl) as [ms E].
  cbn [Z.eqb]. simpl (_ =? _). cbv iota. rewrite E. eexists. split; [reflexivity|].
  split; [|done]. constructor; cbn; try done.
  - rewrite Hptr. width_lia.
  - rewrite length_insert. done.
Qed.
Lemma data_bytes a ds p s :
  0 <= a < 8 → Forall byte ds → receiving p s → 0 <= p → p + Z.of_nat (length ds) <= 12 →
  (port6 s = a |! 0x60) →
  ∃ s', port6_writes (mjoin (wave_byte a <$> ds)) s = Some s' ∧
    0 <= i2c_state s' ∧ i2c_bitnr s' = 255 ∧
    lcd_data s' = list_inserts (Z.to_nat p) ds (lcd_data s) ∧ lcd_mode s' = lcd_mode s ∧
    port6 s' = a |! 0x60.
Proof.
  intros Ha Hds. revert p s. induction Hds as [|d ds Hd Hds IH]; intros p s Hr Hp Hl Hport.
  { exists s. destruct Hr as [-> _ _ [-> _] _]. split_and!; done. }
  cbn [length] in Hl. rewrite fmap_cons. cbn [mjoin list_join]. rewrite port6_writes_app.
  destruct (data_byte a d p s) as (s1 & -> & Hr1 & Hd1 & Hm1 & Hp1); [done..|lia|].
  destruct (IH (p + 1) s1 Hr1) as (s2 & E2 & H1 & H2 & H3 & H4 & H5); [lia|lia|done|].
  exists s2. cbn [mbind option_bind]. rewrite H3, Hd1, H4, Hm1.
  split_and!; try done. replace (Z.to_nat (p + 1)) with (S (Z.to_nat p)) by lia.
  cbn [list_inserts]. rewrite list_insert_inserts_lt by lia. done.
Qed.

(** The three bytes that open a frame: the device, subaddress 0, the data pointer. *)
Definition frame_head (p : Z) : list Z := [LCD_DEV_ID |! I2C_WRITE; 0xe0; 2 * p].
Definition wave_frame (a p : Z) (ds : list Z) : list Z :=
  wave_start a ++ mjoin (wave_byte a <$> frame_head p) ++ mjoin (wave_byte a <$> ds) ++ wave_stop a.

(** What the bytes of the head leave alone. *)
Record heading (st : Z) (s0 s : lcd) : Prop := {
  hd_state : i2c_state s = st; hd_bits : i2c_bitnr s = 255 ∧ i2c_data s = 0;
  hd_data : lcd_data s = lcd_data s0; hd_mode : lcd_mode s = lcd_mode s0 }.

Lemma device_byte a s0 s :
  0 <= a < 8 → heading 0 s0 s →
  ∃ s', port6_writes (wave_byte a (LCD_DEV_ID |! I2C_WRITE)) s = Some s' ∧ heading 1 s0 s'.
Proof.
  intros Ha [Hst [Hn Hd] Hda Hm]. rewrite wave_byte_received by (done || lia).
  unfold i2c_byte. cbn [i2c_state i2c_data put_port6 set_i2c_bits]. rewrite Hst.
  eexists. split; [reflexivity|]. constructor; done.
Qed.
Lemma subaddr_byte a s0 s :
  0 <= a < 8 → heading 1 s0 s →
  ∃ s', port6_writes (wave_byte a 0xe0) s = Some s' ∧ heading 1 s0 s' ∧ lcd_subaddr s' = 0.
Proof.
  intros Ha [Hst [Hn Hd] Hda Hm]. rewrite wave_byte_received by (done || lia).
  unfold i2c_byte. cbn [i2c_state i2c_data put_port6 set_i2c_bits]. rewrite Hst.
  eexists. split; [reflexivity|]. split; [constructor; done|done].
Qed.
Lemma pointer_bits p :
  0 <= p < 12 → byte (2 * p) ∧ (2 * p) &! 0x60 = 0 ∧ (2 * p) &! 0x1f = 2 * p ∧
    ((2 * p) &? 0x80) = false.
Proof.
  intros Hp. pose proof (forall_below 12 (λ p, ((2 * p) &! 0x60 =? 0) && ((2 * p) &! 0x1f =? 2 * p)
    && negb ((2 * p) &? 0x80)) eq_refl p Hp) as H. cbv beta in H.
  rewrite !andb_true_iff, !Z.eqb_eq, negb_true_iff in H. unfold byte. split_and!; [lia|lia|tauto..].
Qed.
Lemma pointer_byte a p s0 s :
  0 <= a < 8 → 0 <= p < 12 → heading 1 s0 s → lcd_subaddr s = 0 →
  length (lcd_data s0) = 12%nat →
  ∃ s', port6_writes (wave_byte a (2 * p)) s = Some s' ∧ receiving p s' ∧
    lcd_data s' = lcd_data s0 ∧ lcd_mode s' = lcd_mode s0 ∧ port6 s' = a |! 0x60.
Proof.
  intros Ha Hp [Hst [Hn Hd] Hda Hm] Hsub Hl.
  destruct (pointer_bits p Hp) as (Hb & H60 & H1f & H80).
  rewrite wave_byte_received by (done || lia).
  unfold i2c_byte, lcd_command. cbn [i2c_state i2c_data put_port6 set_i2c_bits].
  rewrite Hst, H60, H1f. change (1 =? 0) with false. change (0 =? 0x40) with false.
  change (1 =? 1) with true. change (0 =? 0) with true. cbv iota.
  cbn [i2c_data set_lcd_ptr put_port6 set_i2c_bits]. rewrite H80. eexists.
  split; [reflexivity|]. split; [|done]. constructor; try done. simpl. rewrite Hda. done.
Qed.
Lemma start_heading a s :
  0 <= a < 8 → port6 s = a |! 0x60 →
  ∃ s', port6_writes (wave_start a) s = Some s' ∧ heading 0 s s'.
Proof.
  intros Ha Hport.
  exists (put_port6 (a |! 0x20) (set_i2c_bits 0 255 (set_i2c_state 0 s))). split; [|constructor; done].
  unfold wave_start, port6_writes, set_port6. rewrite Hport. pattern a. apply analog_cases; done.
Qed.
Lemma stop_writes a s :
  0 <= a < 8 → 0 <= i2c_state s → i2c_bitnr s = 255 → port6 s = a |! 0x60 →
  ∃ s', port6_writes (wave_stop a) s = Some s' ∧ i2c_state s' = -1 ∧ port6 s' = a |! 0x60 ∧
    lcd_data s' = lcd_data s ∧ lcd_mode s' = lcd_mode s.
Proof.
  intros Ha Hst Hn Hport.
  change (wave_stop a) with ([a; a |! 0x20] ++ [a |! 0x60]). rewrite port6_writes_app.
  rewrite clock_pulse; [|pattern a; apply analog_cases; done..|done].
  unfold i2c_clock. cbn [i2c_bitnr i2c_data put_port6]. rewrite Hn.
  change (u8 (255 + 1) <? 8) with true. cbv iota.
  cbn [fmap option_fmap option_map mbind option_bind port6_writes].
  eexists. split; [unfold set_port6; cbn [port6 put_port6]; pattern a; apply analog_cases; done|].
  done.
Qed.

(** C21: a frame on the bus writes the display.  Driven bit by bit as two-level
    signals on port 6 - start condition, device address, subaddress and data
    pointer, data bytes with their acknowledge clocks, stop condition - the
    bytes appear from the pointer on in [lcd_data], the rest of it and the mode
    are unchanged, and the bus is idle again. *)
Theorem lcd_frame a p ds s :
  0 <= a < 8 → Forall byte ds → 0 <= p → p + Z.of_nat (length ds) <= 12 → p < 12 →
  port6 s = a |! 0x60 → length (lcd_data s) = 12%nat →
  ∃ s', port6_writes (wave_frame a p ds) s = Some s' ∧
    lcd_data s' = list_inserts (Z.to_nat p) ds (lcd_data s) ∧
    lcd_mode s' = lcd_mode s ∧ i2c_state s' = -1 ∧ port6 s' = a |! 0x60.
Proof.
  intros Ha Hds Hp Hlen Hp12 Hport Hl. unfold wave_frame, frame_head.
  cbn [fmap list_fmap mjoin list_join]. rewrite !port6_writes_app.
  destruct (start_heading a s Ha Hport) as (s1 & -> & H1). cbn [mbind option_bind].
  rewrite !port6_writes_app. destruct (device_byte a s s1 Ha H1) as (s2 & -> & H2).
  cbn [mbind option_bind]. rewrite !port6_writes_app.
  destruct (subaddr_byte a s s2 Ha H2) as (s3 & -> & H3 & Hsub). cbn [mbind option_bind].
  rewrite !port6_writes_app.
  destruct (pointer_byte a p s s3) as (s4 & -> & H4 & Hd4 & Hm4 & Hp4); [done|lia|done..|].
  cbn [mbind option_bind port6_writes app]. rewrite port6_writes_app.
  destruct (data_bytes a ds p s4) as (s5 & -> & Hs5 & Hn5 & Hd5 & Hm5 & Hp5); [done..|].
  cbn [mbind option_bind]. destruct (stop_writes a s5) as (s6 & -> & Hs6 & Hp6 & Hd6 & Hm6); [done..|].
  exists s6. rewrite Hd6, Hd5, Hd4, Hm6, Hm5, Hm4. done.
Qed.

(** The pointer of a frame is not checked: at 24 and more, the first data byte is
    written behind [lcd_data]. *)
Definition lcd_idle : lcd := Lcd (replicate 12 0) 0 0 0 (-1) 0 0 0x60 [].
Lemma lcd_overrun : port6_writes (wave_frame 0 12 [1]) lcd_idle = None.
Proof. vm_compute. reflexivity. Qed.
(** And the analog lines are not passed on when they change while the clock is low. *)
Lemma lcd_analog_lost :
  lcd_out <$> port6_writes [0; 3; 0x23; 0x63] lcd_idle = Some [].
Proof. vm_compute. reflexivity. Qed.

(** ** Witnesses *)
Lemma lcd_gui_in_step_witness :
  ∃ s' ms, port6_writes (wave_frame 5 2 [0xaa; 0x55]) lcd_idle = Some s' ∧
    lcd_out s' = ms ∧ gui (shown lcd_idle) ms = shown s'.
Proof.
  assert (∃ s', port6_writes (wave_frame 5 2 [0xaa; 0x55]) lcd_idle = Some s') as [s' E]
    by (eexists; vm_compute; reflexivity).
  destruct (lcd_gui_in_step _ _ _ E) as (ms & E1 & E2). exists s', ms. auto.
Defined.
Lemma lcd_frame_witness :
  ∃ s', port6_writes (wave_frame 0 2 [0xaa; 0x55]) lcd_idle = Some s' ∧
    lcd_data s' = [0; 0; 0xaa; 0x55; 0; 0; 0; 0; 0; 0; 0; 0].
Proof.
  destruct (lcd_frame 0 2 [0xaa; 0x55] lcd_idle) as (s' & E & Hd & _);
    [lia|repeat constructor; done|lia|simpl; lia|lia|reflexivity|reflexivity|].
  exists s'. split; [exact E|exact Hd].
Defined.
