(* ===== verification/Serial.v ===== *)
(** * Serial: the serial interface of [serial.c]

    A character takes [ser_cycles] cycles.  The transmitter holds one byte in
    TDR while TDRE is 0 and writes it to the infrared server when the previous
    character is over ([tx_cycle]); the receiver polls the server at
    [rx_cycle].  [tx_line] collects the bytes written; what [read] returns is
    an argument. *)
From S2P Require Export Periph.

Definition SMR_CHR : Z := 0x40.
Definition SMR_PE : Z := 0x20.
Definition SMR_STOP : Z := 0x08.
Definition SCR_TE : Z := 0x20.
Definition SCR_RE : Z := 0x10.
Definition SSR_TDRE : Z := 0x80.
Definition SSR_RDRF : Z := 0x40.
Definition SSR_ORER : Z := 0x20.
Definition SSR_FER : Z := 0x10.
Definition SSR_PER : Z := 0x08.
Definition SSR_TEND : Z := 0x04.
Definition SSR_MPBT : Z := 0x01.
Definition RXI_HANDLER : Z := 28.
Definition TXI_HANDLER : Z := 29.
Definition TEI_HANDLER : Z := 30.

(** The registers, the timing, and the bytes written to the server. *)
Record ser_regs := SerRegs {
  rdr : Z; tdr : Z; smr : Z; scr : Z; ssr : Z; readssr : Z; brr : Z; ser_stcr : Z }.
Record ser := Ser {
  regs : ser_regs; receiving : bool; ser_cycles : Z; rx_cycle : Z; tx_cycle : Z;
  tx_line : list Z }.
Definition set_regs v s := Ser v (receiving s) (ser_cycles s) (rx_cycle s) (tx_cycle s) (tx_line s).
Definition set_receiving v s := Ser (regs s) v (ser_cycles s) (rx_cycle s) (tx_cycle s) (tx_line s).
Definition set_ser_cycles v s := Ser (regs s) (receiving s) v (rx_cycle s) (tx_cycle s) (tx_line s).
Definition set_rx_cycle v s := Ser (regs s) (receiving s) (ser_cycles s) v (tx_cycle s) (tx_line s).
Definition set_tx_cycle v s := Ser (regs s) (receiving s) (ser_cycles s) (rx_cycle s) v (tx_line s).
Definition write_line v s := Ser (regs s) (receiving s) (ser_cycles s) (rx_cycle s) (tx_cycle s) (tx_line s ++ [v]).
Definition set_rdr v r := SerRegs v (tdr r) (smr r) (scr r) (ssr r) (readssr r) (brr r) (ser_stcr r).
Definition set_tdr v r := SerRegs (rdr r) v (smr r) (scr r) (ssr r) (readssr r) (brr r) (ser_stcr r).
Definition set_smr v r := SerRegs (rdr r) (tdr r) v (scr r) (ssr r) (readssr r) (brr r) (ser_stcr r).
Definition set_scr v r := SerRegs (rdr r) (tdr r) (smr r) v (ssr r) (readssr r) (brr r) (ser_stcr r).
Definition set_ssr v r := SerRegs (rdr r) (tdr r) (smr r) (scr r) v (readssr r) (brr r) (ser_stcr r).
Definition set_readssr v r := SerRegs (rdr r) (tdr r) (smr r) (scr r) (ssr r) v (brr r) (ser_stcr r).
Definition set_brr v r := SerRegs (rdr r) (tdr r) (smr r) (scr r) (ssr r) (readssr r) v (ser_stcr r).
Definition put_ssr v s := set_regs (set_ssr v (regs s)) s.

(** ** Operations *)

(** Data bits, parity, stop bits and the start bit. *)
Definition char_bits (r : ser_regs) : Z :=
  (if smr r &? SMR_CHR then 7 else 8) + (if smr r &? SMR_PE then 1 else 0)
  + (if smr r &? SMR_STOP then 2 else 1) + 1.
Definition ser_update_cycles (s : ser) (c : clock) : ser :=
  let n := s32 (((brr (regs s) + 1) <<! (2 * (smr (regs s) &! 3) + 5)) * char_bits (regs s)) in
  set_rx_cycle (add_to_cycle (cycles c) n) (set_ser_cycles n s).
Definition ser_save (s : ser) : ser_regs := regs s.
Definition ser_load (d : ser_regs) (s : ser) (c : clock) : ser :=
  let s := ser_update_cycles (set_regs d s) c in
  set_tx_cycle (add_to_cycle (cycles c) (ser_cycles s)) s.
Definition ser_reset (s : ser) (c : clock) : ser :=
  let r := SerRegs 0 0xff 0 0 0x84 0x84 0xff 0xf8 in
  set_tx_cycle (cycles c) (ser_update_cycles (set_receiving false (set_regs r s)) c).

Definition ser_irqs (s : ser) : Z :=
  scr (regs s) &! ssr (regs s) &! (SSR_RDRF |! SSR_TDRE |! SSR_TEND).
Definition ser_check_next_cycle (s : ser) (c : clock) : clock :=
  if negb (ser_irqs s =? 0) then set_next_timer_cycle (cycles c) c
  else
    let next := u32 (ser_cycles s) in
    let rx := u64 (rx_cycle s - cycles c) in
    let next := if negb (rx_cycle s =? cycles c) && (u32 rx <? next) && (scr (regs s) &? SSR_RDRF)
                then u32 rx else next in
    let tx := u64 (tx_cycle s - cycles c) in
    let next := if (u32 tx <? next) && (scr (regs s) &? (SSR_TDRE |! SSR_TEND))
                then u32 tx else next in
    if s32 next <? s32 (next_timer_cycle c - cycles c)
    then set_next_timer_cycle (add_to_cycle (cycles c) (s32 next)) c else c.

(** The transmitter's half of [ser_update_time]. *)
Definition ser_transmit (s : ser) (c : clock) : ser :=
  if 0 <=? s32 (cycles c - tx_cycle s) then
    if negb (ssr (regs s) &? SSR_TDRE) then
      let s := if scr (regs s) &? SCR_TE then write_line (tdr (regs s)) s else s in
      let s := put_ssr (ssr (regs s) |! SSR_TDRE) s in
      set_tx_cycle (add_to_cycle (tx_cycle s) (ser_cycles s)) s
    else set_tx_cycle (u64 (cycles c - 1)) (put_ssr (ssr (regs s) |! SSR_TEND) s)
  else s.
(** The receiver's half; [rx] is the byte that [read] delivers, if any. *)
Definition ser_receive (rx : option Z) (s : ser) (c : clock) : ser :=
  if 0 <=? s32 (cycles c - rx_cycle s) then
    match rx with
    | Some buf =>
        if scr (regs s) &? SCR_RE then
          let s := set_receiving true
                     (set_rx_cycle (add_to_cycle (rx_cycle s) (ser_cycles s)) s) in
          if ssr (regs s) &? SSR_RDRF then put_ssr (ssr (regs s) |! SSR_ORER) s
          else
            let buf := if smr (regs s) &? SMR_CHR then buf &! 0x7f else buf in
            set_regs (set_ssr (ssr (regs s) |! SSR_RDRF) (set_rdr buf (regs s))) s
        else set_receiving false (set_rx_cycle (u64 (cycles c - 1)) s)
    | None => set_receiving false (set_rx_cycle (u64 (cycles c - 1)) s)
    end
  else s.
Definition ser_update_time (rx : option Z) (s : ser) (c : clock) : ser * clock :=
  let s := ser_receive rx (ser_transmit s c) c in (s, ser_check_next_cycle s c).

Definition ser_check_irq (s : ser) : Z :=
  let irqs := ser_irqs s in
  if irqs &? SSR_RDRF then RXI_HANDLER
  else if irqs &? SSR_TDRE then TXI_HANDLER
  else if irqs &? SSR_TEND then TEI_HANDLER else 255.

Definition set_SMR (val : Z) (s : ser) (c : clock) : ser :=
  ser_update_cycles (set_regs (set_smr val (regs s)) s) c.
Definition set_BRR (val : Z) (s : ser) (c : clock) : ser :=
  ser_update_cycles (set_regs (set_brr val (regs s)) s) c.
Definition set_SCR (val : Z) (s : ser) (c : clock) : ser * clock :=
  let s := set_regs (set_scr val (regs s)) s in (s, ser_check_next_cycle s c).
(** The program takes back TDRE, which it has read as 1: TDR holds a byte to send. *)
Definition ser_start (s : ser) (c : clock) : ser :=
  let s := put_ssr (ssr (regs s) &! Z.lnot (SSR_TDRE |! SSR_TEND)) s in
  if s32 (tx_cycle s - cycles c) <? 0 then
    let s := if scr (regs s) &? SCR_TE then write_line (tdr (regs s)) s else s in
    put_ssr (ssr (regs s) |! SSR_TDRE)
      (set_tx_cycle (add_to_cycle (cycles c) (ser_cycles s)) s)
  else s.
Definition SSR_CLEARABLE : Z := SSR_RDRF |! SSR_ORER |! SSR_FER |! SSR_PER.
Definition set_SSR (val : Z) (s : ser) (c : clock) : ser * clock :=
  let s := if (readssr (regs s) &! Z.lnot val) &? SSR_TDRE then ser_start s c else s in
  let x := ssr (regs s) &! (Z.lnot (readssr (regs s)) |! val |! Z.lnot SSR_CLEARABLE) in
  let x := u8 (x ^! ((x ^! val) &! SSR_MPBT)) in
  let s := put_ssr x s in (s, ser_check_next_cycle s c).
Definition get_SSR (s : ser) : ser * Z :=
  (set_regs (set_readssr (ssr (regs s)) (regs s)) s, ssr (regs s)).
Definition set_TDR (val : Z) (s : ser) : ser := set_regs (set_tdr val (regs s)) s.
Definition get_TDR (s : ser) : Z := tdr (regs s).
Definition get_RDR (s : ser) : Z := rdr (regs s).

(** ** The transmitter is a queue of one byte *)

Definition tdre (s : ser) : bool := ssr (regs s) &? SSR_TDRE.
Definition held (s : ser) : list Z := if tdre s then [] else [tdr (regs s)].

Lemma tdre_bit s : tdre s = Z.testbit (ssr (regs s)) 7.
Proof. apply (bit_test 7). done. Qed.
Lemma transmit_queue s c :
  (scr (regs s) &? SCR_TE) = true →
  let s' := ser_transmit s c in
  tx_line s' ++ held s' = tx_line s ++ held s ∧ scr (regs s') = scr (regs s).
Proof.
  intros Hte. unfold ser_transmit, held. rewrite Hte. fold (tdre s).
  case_if; [|done]. destruct (tdre s) eqn:Et; cbn [negb]; rewrite tdre_bit in *;
    cbn [set_tx_cycle put_ssr write_line set_regs tx_line regs ssr set_ssr scr tdr].
  - rewrite Z.lor_spec, Et. done.
  - rewrite Z.lor_spec, orb_true_r, app_nil_r. done.
Qed.
Lemma receive_fields rx s c :
  let s' := ser_receive rx s c in
  tx_line s' = tx_line s ∧ tdr (regs s') = tdr (regs s) ∧ scr (regs s') = scr (regs s) ∧
  Z.testbit (ssr (regs s')) 7 = Z.testbit (ssr (regs s)) 7.
Proof.
  unfold ser_receive. repeat (case_if || case_match); try done;
    cbn [set_receiving set_rx_cycle put_ssr set_regs tx_line regs ssr set_ssr set_rdr scr tdr];
    rewrite Z.lor_spec, orb_false_r; done.
Qed.
Lemma receive_queue rx s c :
  let s' := ser_receive rx s c in
  tx_line s' = tx_line s ∧ held s' = held s ∧ scr (regs s') = scr (regs s).
Proof.
  destruct (receive_fields rx s c) as (E1 & E2 & E3 & E4). cbv zeta in *.
  unfold held. rewrite !tdre_bit, E2, E4. done.
Qed.
Lemma ssr_write_bit x r v k :
  0 <= k < 8 → k ≠ 0 →
  Z.testbit (u8 ((x &! (Z.lnot r |! v |! Z.lnot SSR_CLEARABLE)) ^!
    (((x &! (Z.lnot r |! v |! Z.lnot SSR_CLEARABLE)) ^! v) &! SSR_MPBT))) k =
  Z.testbit x k && (negb (Z.testbit r k) || Z.testbit v k || negb (Z.testbit SSR_CLEARABLE k)).
Proof.
  intros Hk Hk0. unfold u8. rewrite <- land_255, Z.land_spec.
  assert (Z.testbit 255 k = true) as ->.
  { apply (Z.ones_spec_low 8). lia. }
  assert (Z.testbit SSR_MPBT k = false) as Hm by (apply (Z.pow2_bits_false 0); lia).
  rewrite Z.lxor_spec, (Z.land_spec _ SSR_MPBT), Hm, andb_false_r, xorb_false_r, andb_true_r.
  rewrite !Z.land_spec, !Z.lor_spec, !Z.lnot_spec by lia. done.
Qed.
Lemma start_queue s c :
  (scr (regs s) &? SCR_TE) = true →
  let s' := ser_start s c in
  tx_line s' ++ held s' = tx_line s ++ [tdr (regs s)] ∧ scr (regs s') = scr (regs s).
Proof.
  intros Hte. unfold ser_start, held. rewrite !tdre_bit.
  cbn [put_ssr set_regs regs ssr set_ssr scr tx_cycle tdr]. rewrite Hte.
  case_if; cbn [set_tx_cycle put_ssr write_line set_regs tx_line regs ssr set_ssr scr tdr].
  - rewrite Z.lor_spec, orb_true_r, app_nil_r. done.
  - rewrite Z.land_spec, andb_false_r. done.
Qed.

(** The program's view: [Update] is a call of [ser_update_time]; [Send] is the
    program's sequence for a byte - read SSR, write TDR, write SSR with TDRE 0. *)
Inductive ser_event := Update (rx : option Z) (c : clock) | Send (v : Z) (c : clock).
Definition send_byte (v : Z) (c : clock) (s : ser) : ser :=
  let '(s, x) := get_SSR s in
  (set_SSR (x &! Z.lnot SSR_TDRE) (set_TDR v s) c).1.
Definition ser_step (s : ser) (e : ser_event) : ser :=
  match e with
  | Update rx c => (ser_update_time rx s c).1
  | Send v c => send_byte v c s
  end.
Fixpoint ser_run (es : list ser_event) (s : ser) : ser :=
  match es with [] => s | e :: es => ser_run es (ser_step s e) end.
(** The program sends only when it has read TDRE as 1. *)
Fixpoint polite (es : list ser_event) (s : ser) : Prop :=
  match es with
  | [] => True
  | e :: es => (if e is Send _ _ then tdre s = true else True) ∧ polite es (ser_step s e)
  end.
Definition sent (es : list ser_event) : list Z :=
  omap (λ e, if e is Send v _ then Some v else None) es.

Lemma step_queue s e :
  (scr (regs s) &? SCR_TE) = true → (if e is Send _ _ then tdre s = true else True) →
  let s' := ser_step s e in
  tx_line s' ++ held s' = tx_line s ++ held s ++ sent [e] ∧ scr (regs s') = scr (regs s).
Proof.
  intros Hte Hp. destruct e as [rx c|v c]; unfold ser_step.
  - unfold ser_update_time. cbn [fst].
    destruct (transmit_queue s c Hte) as [E1 S1].
    destruct (receive_queue rx (ser_transmit s c) c) as (E2 & E3 & S2).
    cbv zeta in *. rewrite E2, E3, S2, S1, E1, app_nil_r. done.
  - unfold send_byte, get_SSR, set_SSR, set_TDR. rewrite tdre_bit in Hp.
    cbn [set_regs regs set_readssr set_tdr readssr ssr fst].
    set (x := ssr (regs s)) in *.
    assert (x &! Z.lnot (x &! Z.lnot SSR_TDRE) &? SSR_TDRE = true) as ->.
    { change SSR_TDRE with (2 ^ 7) at 2. rewrite bit_test by done.
      rewrite Z.land_spec, Z.lnot_spec, Z.land_spec, Hp by done. done. }
    set (s1 := set_regs _ _).
    destruct (start_queue s1 c) as [E S]; [exact Hte|]. cbv zeta in *.
    cbn [put_ssr set_regs regs set_ssr scr tx_line]. rewrite S. split; [|done].
    unfold held in *. rewrite !tdre_bit in *. cbn [put_ssr set_regs regs set_ssr ssr tdr].
    rewrite ssr_write_bit by done. change (negb (Z.testbit SSR_CLEARABLE 7)) with true.
    rewrite orb_true_r, andb_true_r, E. fold x. rewrite Hp. done.
Qed.

(** C23: no byte is lost, repeated or reordered on its way out.  For a program
    that sends only when TDRE is 1, over any sequence of sends and of updates
    at any times, the bytes written to the server, followed by the byte still
    held in TDR, are exactly the bytes sent. *)
Theorem ser_transmits es s :
  (scr (regs s) &? SCR_TE) = true → polite es s →
  tx_line (ser_run es s) ++ held (ser_run es s) = tx_line s ++ held s ++ sent es.
Proof.
  revert s. induction es as [|e es IH]; intros s Hte Hp; [rewrite app_nil_r; done|].
  destruct Hp as [He Hp]. destruct (step_queue s e Hte He) as [E S]. cbv zeta in *.
  cbn [ser_run]. rewrite IH by (congruence || done).
  rewrite app_assoc, E, <- !app_assoc. change (e :: es) with ([e] ++ es).
  unfold sent. rewrite omap_app. done.
Qed.

(** ** The receiver *)

(** Reception and overrun.  A byte that is due while the receiver is enabled
    goes to RDR (without its top bit in 7-bit mode) and sets RDRF when the
    previous one has been taken; otherwise the overrun flag is set and RDR keeps
    the previous byte.  Without a byte, or with the receiver disabled, neither
    RDR nor SSR changes; and a byte that is not due is not looked at. *)
Theorem ser_reception rx s c :
  let s' := ser_receive rx s c in
  let due := 0 <=? s32 (cycles c - rx_cycle s) in
  match rx with
  | Some b =>
      if due && (scr (regs s) &? SCR_RE) then
        receiving s' = true ∧ rx_cycle s' = u64 (rx_cycle s + ser_cycles s) ∧
        if ssr (regs s) &? SSR_RDRF
        then rdr (regs s') = rdr (regs s) ∧ ssr (regs s') = ssr (regs s) |! SSR_ORER
        else rdr (regs s') = (if smr (regs s) &? SMR_CHR then b mod 128 else b) ∧
             ssr (regs s') = ssr (regs s) |! SSR_RDRF
      else regs s' = regs s
  | None => regs s' = regs s
  end.
Proof.
  unfold ser_receive. destruct rx as [b|]; cbv zeta; [|case_if; done].
  destruct (0 <=? s32 (cycles c - rx_cycle s)); cbn [andb]; [|done].
  destruct (scr (regs s) &? SCR_RE); [|done].
  cbn [regs set_receiving set_rx_cycle put_ssr set_regs ssr set_ssr rdr set_rdr].
  destruct (ssr (regs s) &? SSR_RDRF); [done|]. split_and!; try done.
  cbn. destruct (smr (regs s) &? SMR_CHR); [|done]. apply (Z.land_ones b 7). done.
Qed.

(** The flag protocol of SSR.  Writing SSR never sets a receive or error
    flag, and clears one only if the program has read it as 1 and writes 0. *)
Theorem ser_flags_protocol val s c k :
  3 <= k <= 6 →
  Z.testbit (ssr (regs (set_SSR val s c).1)) k =
    Z.testbit (ssr (regs s)) k && (negb (Z.testbit (readssr (regs s)) k) || Z.testbit val k).
Proof.
  intros Hk. unfold set_SSR. cbn [fst put_ssr set_regs regs ssr set_ssr].
  set (s1 := if (readssr (regs s) &! Z.lnot val) &? SSR_TDRE then ser_start s c else s).
  assert (Z.testbit (ssr (regs s1)) k = Z.testbit (ssr (regs s)) k ∧
          readssr (regs s1) = readssr (regs s)) as [E1 ->].
  { assert (k = 3 ∨ k = 4 ∨ k = 5 ∨ k = 6) as Hc by lia.
    unfold s1, ser_start. repeat case_if; split; try done;
      cbn [set_tx_cycle put_ssr write_line set_regs regs ssr set_ssr];
      rewrite ?Z.lor_spec, Z.land_spec;
      destruct Hc as [->|[->|[->| ->]]]; rewrite ?orb_false_r, andb_true_r; done. }
  rewrite ssr_write_bit by lia. rewrite E1.
  assert (k = 3 ∨ k = 4 ∨ k = 5 ∨ k = 6) as Hc by lia.
  destruct Hc as [->|[->|[->| ->]]]; rewrite orb_false_r; done.
Qed.

(** ** Timing *)

Lemma char_bits_range r : 9 <= char_bits r <= 12.
Proof. unfold char_bits. repeat case_if; lia. Qed.
(** The character time.  For any register contents [ser_cycles] is the number
    of bits of a character times the bit time 32 * 4^CKS * (BRR + 1) of the
    hardware, positive and without overflow of the [int] computation. *)
Theorem ser_baud s c :
  byte (brr (regs s)) →
  let n := ser_cycles (ser_update_cycles s c) in
  n = 32 * 4 ^ (smr (regs s) &! 3) * (brr (regs s) + 1) * char_bits (regs s) ∧
  288 <= n <= 6291456.
Proof.
  intros Hb n. pose proof (char_bits_range (regs s)) as Hc.
  assert (0 <= smr (regs s) &! 3 < 4) as Hk.
  { change 3 with (Z.ones 2). rewrite Z.land_ones by done. apply Z.mod_pos_bound. done. }
  subst n. unfold ser_update_cycles. cbn [ser_cycles set_rx_cycle set_ser_cycles].
  set (k := smr (regs s) &! 3) in *. set (m := char_bits (regs s)) in *.
  rewrite Z.shiftl_mul_pow2 by lia.
  assert (2 ^ (2 * k + 5) = 32 * 4 ^ k) as ->.
  { rewrite Z.pow_add_r, Z.pow_mul_r by lia. change (2 ^ 5) with 32. change (2 ^ 2) with 4. ring. }
  assert (1 <= 4 ^ k <= 64) as Hp by (split; [apply (Z.pow_le_mono_r 4 0)|apply (Z.pow_le_mono_r 4 k 3)]; lia).
  unfold byte in Hb.
  assert (288 <= (brr (regs s) + 1) * (32 * 4 ^ k) * m <= 6291456) as Hr.
  { assert (1 <= (brr (regs s) + 1) * 4 ^ k <= 256 * 64) by nia. nia. }
  rewrite s32_id by lia. split; [ring|done].
Qed.

(** The interface is polled in time.  With no interrupt pending, the next
    update is due within one character time, and not after the end of the
    character being sent when a transmit interrupt is enabled. *)
Theorem ser_polled s c :
  ser_irqs s = 0 → 0 <= cycles c < 9223372036854775808 → 0 < ser_cycles s <= 6291456 →
  -2147483648 <= next_timer_cycle c - cycles c < 2147483648 →
  let t := next_timer_cycle (ser_check_next_cycle s c) in
  t <= cycles c + ser_cycles s ∧ t <= next_timer_cycle c ∧
  (cycles c <= tx_cycle s → tx_cycle s - cycles c < 4294967296 →
   (scr (regs s) &? (SSR_TDRE |! SSR_TEND)) = true → t <= tx_cycle s).
Proof.
  intros Hi Hc Hn Hnt. unfold ser_check_next_cycle. rewrite Hi.
  change (negb (0 =? 0)) with false. cbv iota. cbv zeta.
  set (rx := u32 (u64 (rx_cycle s - cycles c))). set (tx := u32 (u64 (tx_cycle s - cycles c))).
  assert (0 <= rx < 4294967296 ∧ 0 <= tx < 4294967296) as [Hrx Htx] by (split; apply u32_dword).
  rewrite (u32_id (ser_cycles s)) by (unfold dword; lia).
  set (n1 := if negb (rx_cycle s =? cycles c) && (rx <? ser_cycles s) && (scr (regs s) &? SSR_RDRF)
             then rx else ser_cycles s).
  assert (0 <= n1 <= ser_cycles s) as Hn1 by (unfold n1; case_if; lia).
  set (n2 := if (tx <? n1) && (scr (regs s) &? (SSR_TDRE |! SSR_TEND)) then tx else n1).
  assert (0 <= n2 <= n1) as Hn2 by (unfold n2; case_if; lia).
  rewrite !s32_id by lia.
  assert (cycles c <= tx_cycle s → tx_cycle s - cycles c < 4294967296 →
    (scr (regs s) &? (SSR_TDRE |! SSR_TEND)) = true → cycles c + n2 <= tx_cycle s) as Hend.
  { intros H1 H2 H3. assert (tx = tx_cycle s - cycles c) as Et.
    { unfold tx. rewrite u64_id, u32_id by (unfold dword, qword; lia). done. }
    unfold n2. rewrite H3, andb_true_r. destruct (Z.ltb_spec tx n1); lia. }
  destruct (Z.ltb_spec n2 (next_timer_cycle c - cycles c)); cbn [next_timer_cycle set_next_timer_cycle].
  - unfold add_to_cycle. rewrite u64_id by (unfold qword; lia). split; [lia|]. split; [lia|auto].
  - split; [lia|]. split; [lia|]. intros H1 H2 H3. specialize (Hend H1 H2 H3). lia.
Qed.

(** ** Witnesses *)
Definition ser_demo : ser :=
  Ser (SerRegs 0 0xff 0 0x30 0x84 0x84 0xff 0xf8) false 90112 1000 1000 [].
Lemma ser_transmits_witness :
  let es := [Send 0x55 (Clock 2000 90000 90000); Update None (Clock 92112 200000 200000);
             Send 0xaa (Clock 92200 200000 200000)] in
  tx_line (ser_run es ser_demo) ++ held (ser_run es ser_demo) = [0x55; 0xaa].
Proof. intros es. rewrite (ser_transmits es ser_demo); [reflexivity|reflexivity|]. repeat split. Defined.
Lemma ser_flags_protocol_witness :
  Z.testbit (ssr (regs (set_SSR 0 (put_ssr 0xc4 ser_demo) (Clock 2000 90000 90000)).1)) 6 = true.
Proof. rewrite ser_flags_protocol by lia. reflexivity. Defined.
Lemma ser_baud_witness :
  ser_cycles (ser_update_cycles ser_demo (Clock 0 1 1)) = 32 * 1 * 256 * 10.
Proof.
  destruct (ser_baud ser_demo (Clock 0 1 1)) as [-> _]; [plain_memory|]. reflexivity.
Defined.
Lemma ser_polled_witness :
  next_timer_cycle (ser_check_next_cycle ser_demo (Clock 900 500000 500000)) <= 900 + 90112.
Proof.
  destruct (ser_polled ser_demo (Clock 900 500000 500000)) as [H _]; [reflexivity|plain_memory..|].
  exact H.
Defined.
