(* ===== verification/Debugger.v ===== *)
(** * Debugger: the GDB remote protocol of [debugger.c]

    Packets [$payload#checksum] are collected in [db_in_buffer], answered
    through [db_out_buffer], and read or change the machine.  The two buffers
    are arrays of 2048 bytes ([in_buffer] a list of that length); an access
    outside of them, of [memory] or of [memtype], and a [memcpy] of a negative
    size are [None].  [connected] is [gdbfd >= 0]: [debuggerfd] is [gdbfd] then
    and [serverfd] otherwise.  [wire] collects what is written to the socket. *)
From S2P Require Export Memory.

Definition SIGINT_EXCEPTION : Z := 7.
Definition NUM_REGS : Z := 13.
Definition NUM_REG_BYTES : Z := NUM_REGS * 4.
Definition BUFFER : Z := 2048.
Definition DB_LIMIT : Z := 0xff88.

(** ** Hexadecimal digits *)
Definition hexchar (d : Z) : Z := if d <? 10 then 48 + d else 97 + (d - 10).
Definition hex (ch : Z) : Z :=
  if (97 <=? ch) && (ch <=? 102) then ch - 97 + 10
  else if (48 <=? ch) && (ch <=? 57) then ch - 48
  else if (65 <=? ch) && (ch <=? 70) then ch - 65 + 10
  else -1.
Fixpoint mem2hex (mem : list Z) : list Z :=
  match mem with
  | [] => []
  | b :: mem => hexchar (b >>! 4) :: hexchar (b mod 16) :: mem2hex mem
  end.
(** [count] bytes from the characters at [buf], which have to be there. *)
Fixpoint hex_bytes (count : nat) (buf : list Z) : option (list Z) :=
  match count, buf with
  | O, _ => Some []
  | S n, h :: l :: buf => cons (u8 (u8 (hex h <<! 4) + hex l)) <$> hex_bytes n buf
  | _, _ => None
  end.
(** The breakpoint instruction of gdb is replaced by a branch. *)
Definition hex2mem (buf : list Z) (count : Z) : option (list Z) :=
  let buf := if (count =? 2) && bool_decide (take 4 buf = [53; 55; 51; 48])
             then [53; 102; 48; 99] ++ drop 4 buf else buf in
  hex_bytes (Z.to_nat count) buf.
(** Whether there were digits, the value, and the rest of the characters. *)
Fixpoint hexToInt_from (any : bool) (value : Z) (ptr : list Z) : option (bool * Z * list Z) :=
  match ptr with
  | [] => None
  | ch :: rest =>
      if ch =? 0 then Some (any, value, ptr)
      else if 0 <=? hex ch then hexToInt_from true (s32 ((value <<! 4) |! hex ch)) rest
      else Some (any, value, ptr)
  end.
Definition hexToInt (ptr : list Z) : option (bool * Z * list Z) := hexToInt_from false 0 ptr.

(** ** The state *)
Record db := Db {
  in_buffer : list Z; db_len : Z; out_buffer : gmap Z Z; db_out_len : Z;
  connected : bool; sigval : Z; remote_debug : bool; db_cont : bool;
  db_registers : list Z; wire : list Z }.
Definition set_in a n d := Db a n (out_buffer d) (db_out_len d) (connected d) (sigval d) (remote_debug d) (db_cont d) (db_registers d) (wire d).
Definition set_out a n d := Db (in_buffer d) (db_len d) a n (connected d) (sigval d) (remote_debug d) (db_cont d) (db_registers d) (wire d).
Definition set_connected v d := Db (in_buffer d) (db_len d) (out_buffer d) (db_out_len d) v (sigval d) (remote_debug d) (db_cont d) (db_registers d) (wire d).
Definition set_sigval v d := Db (in_buffer d) (db_len d) (out_buffer d) (db_out_len d) (connected d) v (remote_debug d) (db_cont d) (db_registers d) (wire d).
Definition toggle_debug d := Db (in_buffer d) (db_len d) (out_buffer d) (db_out_len d) (connected d) (sigval d) (negb (remote_debug d)) (db_cont d) (db_registers d) (wire d).
Definition set_db_cont v d := Db (in_buffer d) (db_len d) (out_buffer d) (db_out_len d) (connected d) (sigval d) (remote_debug d) v (db_registers d) (wire d).
Definition set_db_registers v d := Db (in_buffer d) (db_len d) (out_buffer d) (db_out_len d) (connected d) (sigval d) (remote_debug d) (db_cont d) v (wire d).
Definition set_wire v d := Db (in_buffer d) (db_len d) (out_buffer d) (db_out_len d) (connected d) (sigval d) (remote_debug d) (db_cont d) (db_registers d) v.

(** [db_out_buffer[db_out_len++] = c;] *)
Definition put (c : Z) (d : db) : option db :=
  if (0 <=? db_out_len d) && (db_out_len d <? BUFFER)
  then Some (set_out (<[db_out_len d := c]> (out_buffer d)) (db_out_len d + 1) d) else None.
Fixpoint puts (l : list Z) (d : db) : option db :=
  match l with [] => Some d | c :: l => put c d ≫= puts l end.


Definition ERR (n : Z) : list Z := [69; 48; 48 + n].
Definition OK : list Z := [79; 75].

Definition bptype2mask (type : Z) : Z :=
  match type with
  | 2 => MEMTYPE_WRITETRAP
  | 3 => MEMTYPE_READTRAP
  | 4 => MEMTYPE_BREAKPOINT |! MEMTYPE_WRITETRAP |! MEMTYPE_READTRAP
  | _ => MEMTYPE_BREAKPOINT
  end.

Section Debugger.
Context {P : Type}.
(** Whether [write] to the socket succeeds. *)
Context (can_write : list Z → bool).
Abbreviation St := (db * machine P)%type.

Definition on_db (f : db → option db) (s : St) : option St := d ← f s.1; Some (d, s.2).
Definition on_machine (f : machine P → machine P) (s : St) : St := (s.1, f s.2).

Definition db_send_packet (d : db) : option db :=
  if connected d then
    if db_out_len d <? 0 then None
    else
      let l := chars_from (out_buffer d) 0 (Z.to_nat (db_out_len d)) in
      let d := if can_write l then set_wire (wire d ++ l) d else set_connected false d in
      Some (set_out (out_buffer d) 0 d)
  else Some (set_out (out_buffer d) 0 d).
Definition checksum_of (l : list Z) : Z := foldl (λ c x, u8 (c + x)) 0 l.
Definition db_checksum_packet (start : Z) (d : db) : option db :=
  let sum := checksum_of (chars_from (out_buffer d) start (Z.to_nat (db_out_len d - start))) in
  puts [35; hexchar (sum >>! 4); hexchar (sum &! 0xf)] d.

(** A loop over [memory] or [memtype]: no step for a negative length. *)
Definition accessible (addr length : Z) : bool :=
  (length <=? 0) || (0 <=? addr) && (addr + length <=? 0x10000).
Definition memory_bytes (m : machine P) (addr length : Z) : option (list Z) :=
  if accessible addr length then Some (chars_from (memory m) addr (Z.to_nat length)) else None.
Definition write_bytes (addr length : Z) (l : list Z) (s : St) : option St :=
  if accessible addr length
  then Some (on_machine (λ m, set_memory (store_bytes addr l (memory m)) m) s) else None.
(** The sum of two [int]s wraps around. *)
Definition in_limit (addr length : Z) : bool := (0 <=? addr) && (s32 (addr + length) <=? DB_LIMIT).

Definition gdb_registers (m : machine P) : list Z :=
  concat ((λ i, [reg m !!! i; reg m !!! (i + 8)%nat; 0; 0]) <$> seq 0 8) ++
  [0; ccr m; 0; 0] ++ [pc m >>! 8; pc m &! 0xff; 0; 0] ++
  [(cycles (clk m) >>! 8) &! 0xff; cycles (clk m) &! 0xff; 0; 0] ++ replicate 8 0.

(** ** Commands.  Each takes the characters behind the command letter. *)

(** [mAA..AA,LLLL]: also reached from [P]. *)
Definition cmd_read (packet : list Z) (s : St) : option St :=
  '(ok, addr, packet) ← hexToInt packet;
  if ok : bool then
    match packet with
    | [] => None
    | c :: packet =>
        if c =? 44 then
          '(ok, length, packet) ← hexToInt packet;
          if ok : bool then
            if in_limit addr length then
              (* [mem2hex] does nothing for a negative length *)
              bytes ← memory_bytes s.2 addr length;
              d ← puts (mem2hex bytes) s.1;
              Some (set_out (out_buffer d) (s32 (db_out_len s.1 + s32 (2 * length))) d, s.2)
            else on_db (puts (ERR 3)) s
          else on_db (puts (ERR 1)) s
        else on_db (puts (ERR 1)) s
    end
  else on_db (puts (ERR 1)) s.
(** [MAA..AA,LLLL:data] *)
Definition cmd_write (packet : list Z) (s : St) : option St :=
  let bad := on_db (puts (ERR 2)) s in
  '(ok, addr, packet) ← hexToInt packet;
  if ok : bool then
    match packet with
    | [] => None
    | c :: packet =>
        if c =? 44 then
          '(ok, length, packet) ← hexToInt packet;
          if ok : bool then
            match packet with
            | [] => None
            | c :: packet =>
                if c =? 58 then
                  if in_limit addr length then
                    bytes ← hex2mem packet length;
                    s ← write_bytes addr length bytes s; on_db (puts OK) s
                  else on_db (puts (ERR 3)) s
                else bad
            end
          else bad
        else bad
    end
  else bad.
(** [PR=VVVV] *)
Definition set_register (r : Z) (value : list Z) (m : machine P) : machine P :=
  if (0 <=? r) && (r <? 8) then
    set_reg (<[Z.to_nat (r + 8) := value !!! 1%nat]> (<[Z.to_nat r := value !!! 0%nat]> (reg m))) m
  else if r =? 8 then set_ccr (value !!! 1%nat) m
  else if r =? 9 then set_pc (u16 ((value !!! 0%nat <<! 8) + value !!! 1%nat)) m
  else m.
Definition cmd_set_register (packet : list Z) (s : St) : option St :=
  '(ok, r, packet) ← hexToInt packet;
  if ok : bool then
    match packet with
    | [] => None
    | c :: packet =>
        if (c =? 61) && (0 <=? r) && (r <? NUM_REGS) then
          value ← hex2mem packet 4;
          s ← on_db (puts OK) (on_machine (set_register r value) s);
          (* no [break]: falls through into [m] *)
          cmd_read packet s
        else on_db (puts (ERR 1)) s
    end
  else on_db (puts (ERR 1)) s.
(** [Zt,AA..AA,LLLL] and [zt,AA..AA,LLLL] *)
Fixpoint map_range (f : Z → Z) (addr : Z) (n : nat) (t : gmap Z Z) : gmap Z Z :=
  match n with O => t | S n => map_range f (addr + 1) n (<[addr := f (get0 t addr)]> t) end.
Definition change_memtype (f : Z → Z) (addr length : Z) (s : St) : option St :=
  if accessible addr length
  then Some (on_machine (λ m, set_memtype (map_range f addr (Z.to_nat length) (memtype m)) m) s)
  else None.
Definition set_mask (set : bool) (mask t : Z) : Z :=
  if set then t |! mask else u8 (t &! Z.lnot mask).
Definition cmd_breakpoint (set : bool) (packet : list Z) (s : St) : option St :=
  let bad := on_db (puts (ERR 1)) s in
  '(ok, type, packet) ← hexToInt packet;
  if ok : bool then
    match packet with
    | [] => None
    | c :: packet =>
        if c =? 44 then
          '(ok, addr, packet) ← hexToInt packet;
          if ok : bool then
            match packet with
            | [] => None
            | c :: packet =>
                if c =? 44 then
                  '(ok, length, packet) ← hexToInt packet;
                  if ok : bool then
                    if in_limit addr length && (0 <=? type) && (type <? 6) then
                      let mask := bptype2mask type in
                      s ← change_memtype (set_mask set mask) addr length s; on_db (puts OK) s
                    else on_db (puts (ERR 3)) s
                  else bad
                else bad
            end
          else bad
        else bad
    end
  else bad.
(** [sAA..AA] and [cAA..AA]: the reply is only sent when the machine stops again. *)
Definition cmd_continue (step : bool) (start : Z) (packet : list Z) (s : St) : option St :=
  '(ok, addr, packet) ← hexToInt packet;
  let m := set_db_trap 0 (set_db_singlestep (if step then 1 else 0) s.2) in
  let m := if ok : bool then set_pc (u16 addr) m else m in
  d ← db_send_packet (set_out (out_buffer s.1) (start - 1) s.1);
  Some (d, m).

Definition db_reply (start : Z) (s : St) : option St :=
  on_db (λ d, d ← db_checksum_packet start d; db_send_packet d) s.
(** [packet]: the characters of the buffer behind the frame's [$]. *)
Definition db_handle_packet (packet : list Z) (s : St) : option St :=
  s ← on_db (put 36) s;
  let start := db_out_len s.1 in
  match packet with
  | [] => None
  | c :: packet =>
      match c with
      | 63 =>                                                     (* ? *)
          s ← on_db (puts [83; hexchar (sigval s.1 >>! 4); hexchar (sigval s.1 &! 0xf); 0]) s;
          db_reply start s
      | 100 => db_reply start (toggle_debug s.1, s.2)             (* d *)
      | 103 =>                                                    (* g *)
          let regs := gdb_registers s.2 in
          s ← on_db (puts (mem2hex regs)) (set_db_registers regs s.1, s.2);
          db_reply start s
      | 71 =>                                                     (* G *)
          regs ← hex2mem packet NUM_REG_BYTES;
          s ← on_db (puts OK) (set_db_registers regs s.1, s.2);
          db_reply start s
      | 80 => s ← cmd_set_register packet s; db_reply start s     (* P *)
      | 109 => s ← cmd_read packet s; db_reply start s            (* m *)
      | 77 => s ← cmd_write packet s; db_reply start s            (* M *)
      | 115 => cmd_continue true start packet s                   (* s *)
      | 99 => cmd_continue false start packet s                   (* c *)
      | 68 => db_reply start (set_db_cont true s.1, s.2)          (* D *)
      | 90 => s ← cmd_breakpoint true packet s; db_reply start s  (* Z *)
      | 122 => s ← cmd_breakpoint false packet s; db_reply start s (* z *)
      | _ => db_reply start s
      end
  end.

(** ** Collecting packets *)

(** [memcpy(db_in_buffer, db_in_buffer + i, n)] *)
Definition shift (i n : Z) (buf : list Z) : option (list Z) :=
  if (0 <=? i) && (0 <=? n) && (i + n <=? BUFFER)
  then Some (take (Z.to_nat n) (drop (Z.to_nat i) buf) ++ drop (Z.to_nat n) buf) else None.
(** The characters of the buffer from [i] to before [j]. *)
Definition between (i j : Z) (buf : list Z) : list Z :=
  take (Z.to_nat (j - i)) (drop (Z.to_nat i) buf).
(** The index of the next [$] or the end, and [db_trap]. *)
Fixpoint skip_garbage (l : list Z) (i trap : Z) : Z * Z :=
  match l with
  | [] => (i, trap)
  | c :: l => if c =? 36 then (i, trap)
              else skip_garbage l (i + 1) (if c =? 3 then SIGINT_EXCEPTION else trap)
  end.
(** The index of the next [#] or the end, and the sum of what is before. *)
Fixpoint sum_payload (l : list Z) (i checksum : Z) : Z * Z :=
  match l with
  | [] => (i, checksum)
  | c :: l => if c =? 35 then (i, checksum) else sum_payload l (i + 1) (u8 (checksum + c))
  end.
(** The packet in [buf] with its [#] at [i]. *)
Definition answer (buf : list Z) (i checksum : Z) (s : St) : option St :=
  if negb (checksum =? (hex (buf !!! Z.to_nat (i + 1)) <<! 4) |! hex (buf !!! Z.to_nat (i + 2)))
  then on_db (λ d, d ← put 45 d; db_send_packet d) s
  else
    s ← on_db (put 43) s;
    let buf := <[Z.to_nat i := 0]> buf in
    if (buf !!! 3%nat) =? 58 then
      s ← on_db (puts [buf !!! 1%nat; buf !!! 2%nat]) s; db_handle_packet (drop 4 buf) s
    else db_handle_packet (drop 1 buf) s.
Definition on_in (buf : list Z) (n : Z) (s : St) : St := (set_in buf n s.1, s.2).
(** [while (i < db_len)]: every packet takes at least three characters. *)
Fixpoint parse_loop (fuel : nat) (i : Z) (s : St) : option St :=
  if i <? db_len s.1 then
    match fuel with
    | O => None
    | S fuel =>
        let '(i, trap) := skip_garbage (between i (db_len s.1) (in_buffer s.1)) i (db_trap s.2) in
        let s := on_machine (set_db_trap trap) s in
        if db_len s.1 <=? i then Some (on_in (in_buffer s.1) 0 s)
        else
          let n := db_len s.1 - i in
          buf ← shift i n (in_buffer s.1);
          let '(i, checksum) := sum_payload (between 1 (n - 2) buf) 1 0 in
          if i =? n - 2 then Some (on_in buf n s)
          else
            let buf := <[Z.to_nat (i + 3) := 0]> buf in
            s ← answer buf i checksum s;
            (* [i] keeps its value: the search for the next [$] starts behind it *)
            let i := i + 3 in
            buf ← shift i (n - i) buf;
            parse_loop fuel i (on_in buf (n - i) s)
    end
  else Some s.
Definition db_parse_packet (s : St) : option St :=
  if (0 <=? db_len s.1) && (db_len s.1 <? BUFFER) then
    parse_loop (S (Z.to_nat (db_len s.1))) 0
      (on_in (<[Z.to_nat (db_len s.1) := 0]> (in_buffer s.1)) (db_len s.1) s)
  else None.

(** [db_handletrap]: the answer to [s] and [c]. *)
Definition db_handletrap (s : St) : option St :=
  let s := (set_sigval (db_trap s.2) s.1, s.2) in
  if connected s.1 then
    s ← on_db (put 36) s;
    let start := db_out_len s.1 in
    s ← on_db (puts [83; hexchar (sigval s.1 >>! 4); hexchar (sigval s.1 mod 16); 0]) s;
    db_reply start s
  else Some s.

(** [db_handlefd]: what [read] delivers, at most what there is room for;
    [None] is its error result, -1. *)
Definition db_handlefd (data : option (list Z)) (s : St) : option St :=
  let s := (set_connected true s.1, s.2) in
  match data with
  | Some [] => Some (set_connected false s.1, set_db_trap 0 s.2)
  | Some l =>
      if (0 <=? db_len s.1) && (db_len s.1 + Z.of_nat (length l) <? BUFFER) then
        let i := Z.to_nat (db_len s.1) in
        let buf := take i (in_buffer s.1) ++ l ++ drop (i + length l) (in_buffer s.1) in
        db_parse_packet (on_in buf (db_len s.1 + Z.of_nat (length l)) s)
      else None
  | None => db_parse_packet (on_in (in_buffer s.1) (db_len s.1 - 1) s)
  end.
End Debugger.
