(* ===== verification/DebuggerProps.v ===== *)
(** * DebuggerProps: packets, memory access and errors of the debugger stub

    What goes over the wire for a complete packet: the acknowledgement, the
    effect of the command and the framed reply. *)
From S2P Require Import Bare.
From S2P Require Export Debugger.

(** ** Hexadecimal *)
Lemma hex_hexchar d : 0 <= d < 16 → hex (hexchar d) = d.
Proof.
  intros Hd. apply Z.eqb_eq. revert d Hd.
  apply (forall_below 16 (λ d, hex (hexchar d) =? d)). vm_compute. done.
Qed.
Lemma hexchar_range d : 0 <= d < 16 → 48 <= hexchar d < 58 ∨ 97 <= hexchar d < 103.
Proof. unfold hexchar. intros. case_if; lia. Qed.
Lemma hi_nibble b : byte b → 0 <= b >>! 4 < 16.
Proof. intros. rewrite Z.shiftr_div_pow2 by lia. width_lia. Qed.
Lemma nibbles b : byte b → u8 (u8 ((b >>! 4) <<! 4) + b mod 16) = b.
Proof.
  intros. rewrite Z.shiftl_mul_pow2, Z.shiftr_div_pow2 by lia. width_lia.
Qed.
Lemma hex_bytes_mem2hex l rest :
  Forall byte l → hex_bytes (length l) (mem2hex l ++ rest) = Some l.
Proof.
  induction 1 as [|b l Hb _ IH]; [done|]. cbn [length mem2hex app hex_bytes].
  rewrite IH, !hex_hexchar, nibbles by (auto using hi_nibble; apply Z.mod_pos_bound; lia). done.
Qed.
Lemma length_mem2hex l : length (mem2hex l) = (2 * length l)%nat.
Proof. induction l; simpl; lia. Qed.
(** What [hex2mem] makes of the two bytes of gdb's breakpoint instruction. *)
Definition translate (l : list Z) : list Z := if decide (l = [0x57; 0x30]) then [0x5f; 0x0c] else l.
Lemma hex2mem_mem2hex l rest :
  Forall byte l → hex2mem (mem2hex l ++ rest) (Z.of_nat (length l)) = Some (translate l).
Proof.
  intros Hl. unfold hex2mem, translate. rewrite Nat2Z.id.
  destruct (decide (l = _)) as [->|Hne]; [done|].
  destruct (Z.eqb_spec (Z.of_nat (length l)) 2) as [E|]; simpl andb.
  - rewrite bool_decide_eq_false_2; [apply hex_bytes_mem2hex; done|].
    intros Ht. apply Hne. destruct l as [|a [|b [|? ?]]]; try (simpl in E; lia).
    pose proof (hex_bytes_mem2hex [a; b] [] Hl) as H. rewrite app_nil_r in H.
    change (take 4 (mem2hex [a; b] ++ rest)) with (mem2hex [a; b]) in Ht. rewrite Ht in H.
    vm_compute in H. injection H as <- <-. done.
  - apply hex_bytes_mem2hex. done.
Qed.

(** The four digits of a 16-bit number, as gdb writes it. *)
Definition hex4 (v : Z) : list Z :=
  hexchar (v / 4096) :: hexchar (v / 256 mod 16) :: hexchar (v / 16 mod 16) :: [hexchar (v mod 16)].
Lemma hexToInt_digit any v d rest :
  0 <= d < 16 → 0 <= v < 4096 →
  hexToInt_from any v (hexchar d :: rest) = hexToInt_from true (16 * v + d) rest.
Proof.
  intros Hd Hv. cbn [hexToInt_from]. rewrite hex_hexchar by done.
  pose proof (hexchar_range d Hd).
  rewrite (proj2 (Z.eqb_neq (hexchar d) 0)), (proj2 (Z.leb_le 0 d)) by lia.
  rewrite (lor_shift_add 4) by lia. rewrite s32_id by lia. f_equal. lia.
Qed.
Lemma hexToInt_hex4 v c rest :
  0 <= v < 65536 → hex c = -1 → hexToInt (hex4 v ++ c :: rest) = Some (true, v, c :: rest).
Proof.
  intros Hv Hc. unfold hexToInt, hex4. cbn [app].
  rewrite !hexToInt_digit by (Z.div_mod_to_equations; lia). cbn [hexToInt_from]. rewrite Hc.
  replace (16 * (16 * (16 * (16 * 0 + v / 4096) + v / 256 mod 16) + v / 16 mod 16) + v mod 16)
    with v by (Z.div_mod_to_equations; lia).
  destruct (c =? 0); done.
Qed.
Lemma hex4_plain v x : 0 <= v < 65536 → (x < 48 ∨ x = 58) → x ∉ hex4 v.
Proof.
  intros Hv Hx. unfold hex4.
  repeat (rewrite not_elem_of_cons; split); try apply not_elem_of_nil;
  match goal with |- x ≠ hexchar ?d =>
    pose proof (hexchar_range d ltac:(Z.div_mod_to_equations; lia)); lia end.
Qed.

(** ** The output buffer *)
Definition pending (d : db) : list Z := chars_from (out_buffer d) 0 (Z.to_nat (db_out_len d)).
Lemma puts_store l d :
  0 <= db_out_len d → db_out_len d + Z.of_nat (length l) <= BUFFER →
  puts l d = Some (set_out (store_bytes (db_out_len d) l (out_buffer d))
                     (db_out_len d + Z.of_nat (length l)) d).
Proof.
  revert d. induction l as [|c l IH]; intros d H0 Hl.
  - cbn. rewrite Z.add_0_r. destruct d; done.
  - cbn [length] in Hl. cbn [puts]. unfold put.
    rewrite (proj2 (Z.leb_le _ _)), (proj2 (Z.ltb_lt _ _)) by lia. cbn [andb mbind option_bind].
    rewrite IH by (cbn; lia). unfold set_out. cbn [db_out_len out_buffer in_buffer db_len connected
      sigval remote_debug db_cont db_registers wire store_bytes length].
    replace (db_out_len d + 1 + Z.of_nat (length l)) with (db_out_len d + Z.of_nat (S (length l))) by lia.
    done.
Qed.
Lemma puts_pending l d :
  0 <= db_out_len d → db_out_len d + Z.of_nat (length l) <= BUFFER →
  ∃ out, puts l d = Some (set_out out (db_out_len d + Z.of_nat (length l)) d) ∧
    pending (set_out out (db_out_len d + Z.of_nat (length l)) d) = pending d ++ l.
Proof.
  intros H0 Hl. exists (store_bytes (db_out_len d) l (out_buffer d)).
  rewrite puts_store by done. split; [done|]. unfold pending. cbn.
  rewrite Z2Nat.inj_add, Nat2Z.id, chars_from_app by lia. f_equal.
  - apply chars_from_ext. intros. apply store_bytes_out. lia.
  - rewrite Z2Nat.id by lia. apply chars_from_store.
Qed.
(** [d] with the characters [l] pending: what matters of the buffer. *)
Definition holds (d : db) (l : list Z) (d' : db) : Prop :=
  ∃ out, d' = set_out out (Z.of_nat (length l)) d ∧ pending d' = l.
Lemma holds_self d : 0 <= db_out_len d → holds d (pending d) d.
Proof.
  intros. exists (out_buffer d). split; [|done].
  unfold pending. rewrite length_chars_from, Z2Nat.id by done. destruct d; done.
Qed.
Lemma holds_nil d : db_out_len d = 0 → holds d [] d.
Proof. intros H. exists (out_buffer d). destruct d; cbn in *. subst. done. Qed.
Lemma holds_puts d l d' l' :
  holds d l d' → Z.of_nat (length l + length l') <= BUFFER →
  ∃ d'', puts l' d' = Some d'' ∧ holds d (l ++ l') d''.
Proof.
  intros [out [-> Hp]] Hl.
  destruct (puts_pending l' (set_out out (Z.of_nat (length l)) d)) as [out' [H1 H2]]; [cbn; lia..|].
  cbn [db_out_len set_out] in H1, H2. rewrite <- Nat2Z.inj_add, <- length_app in H1, H2.
  eexists. split; [exact H1|]. exists out'. rewrite H2, Hp. done.
Qed.
Lemma holds_put d l d' c :
  holds d l d' → Z.of_nat (length l) < BUFFER →
  ∃ d'', put c d' = Some d'' ∧ holds d (l ++ [c]) d''.
Proof.
  intros Hh Hl. destruct (holds_puts d l d' [c] Hh) as [d'' [H1 H2]]; [cbn; lia|].
  exists d''. split; [|done]. cbn in H1. destruct (put c d'); done.
Qed.

(** The checksum and its two digits. *)
Lemma checksum_byte p : byte (checksum_of p).
Proof.
  unfold checksum_of. induction p as [|c p IH] using rev_ind; [done|].
  rewrite foldl_app. cbn. auto with width.
Qed.
Definition trailer (p : list Z) : list Z :=
  [35; hexchar (checksum_of p >>! 4); hexchar (checksum_of p &! 0xf)].
(** A packet as both sides send it. *)
Definition frame (p : list Z) : list Z := 36 :: p ++ trailer p.
Lemma checksum_digits c :
  byte c → (hex (hexchar (c >>! 4)) <<! 4) |! hex (hexchar (c &! 0xf)) = c.
Proof.
  intros Hc. apply Z.eqb_eq. revert c Hc.
  apply (forall_byte (λ c, (hex (hexchar (c >>! 4)) <<! 4) |! hex (hexchar (c &! 0xf)) =? c)).
  vm_compute. done.
Qed.

Section Props.
Context {P : Type} (can_write : list Z → bool).
Hypothesis Hwrite : ∀ l, can_write l = true.
Abbreviation St := (db * machine P)%type.

(** The connection survives and [l] went out. *)
Definition sent (l : list Z) (d d' : db) : Prop := ∃ out, d' = set_wire (wire d ++ l) (set_out out 0 d).
Lemma send_spec d l d' :
  connected d = true → holds d l d' →
  ∃ d'', db_send_packet can_write d' = Some d'' ∧ sent l d d''.
Proof.
  intros Hc [out [-> Hp]]. unfold db_send_packet. cbn in *. rewrite Hc.
  rewrite (proj2 (Z.ltb_ge _ _)) by lia. unfold pending in Hp. cbn in Hp. rewrite Hp, Hwrite.
  eexists. split; [done|]. exists out. done.
Qed.
Lemma reply_spec d pre p d' (m : machine P) :
  connected d = true → holds d (pre ++ p) d' → Z.of_nat (length (pre ++ p)) + 3 <= BUFFER →
  ∃ d'', db_reply can_write (Z.of_nat (length pre)) (d', m) = Some (d'', m) ∧
    sent (pre ++ p ++ trailer p) d d''.
Proof.
  intros Hc Hh Hl. unfold db_reply, on_db, db_checksum_packet. cbn [fst snd].
  assert (checksum_of (chars_from (out_buffer d') (Z.of_nat (length pre))
    (Z.to_nat (db_out_len d' - Z.of_nat (length pre)))) = checksum_of p) as ->.
  { f_equal. destruct Hh as [out [-> Hp]]. unfold pending in Hp. cbn in *.
    rewrite length_app, Nat2Z.id, chars_from_app in Hp. rewrite length_app.
    apply app_inj_1 in Hp as [_ Hp]; [|apply length_chars_from].
    rewrite <- Hp at 2. f_equal. lia. }
  destruct (holds_puts d _ d' (trailer p) Hh) as [d1 [H1 H2]]; [cbn; lia|].
  fold (trailer p). rewrite H1. cbn [mbind option_bind].
  destruct (send_spec d _ d1 Hc H2) as [d2 [H3 H4]]. rewrite H3. cbn.
  exists d2. rewrite app_assoc. done.
Qed.

(** *** The commands *)
Lemma in_limit_ok addr n : 0 <= addr → 0 <= n → addr + n <= DB_LIMIT → in_limit addr n = true.
Proof.
  unfold in_limit, DB_LIMIT. intros. rewrite s32_id by lia.
  rewrite !(proj2 (Z.leb_le _ _)) by lia. done.
Qed.
Lemma accessible_ok addr n : 0 <= addr → addr + n <= DB_LIMIT → accessible addr n = true.
Proof.
  unfold accessible, DB_LIMIT. intros.
  rewrite (proj2 (Z.leb_le 0 addr)), (proj2 (Z.leb_le (addr + n) _)) by lia. apply orb_true_r.
Qed.
Definition range_args (addr n : Z) : list Z := hex4 addr ++ 44 :: hex4 n.
(** The bytes the request asks for. *)
Definition window (m : machine P) (addr n : Z) : list Z := chars_from (memory m) addr (Z.to_nat n).
Lemma cmd_read_ok d l d' m addr n tail :
  holds d l d' → 0 <= addr → 0 <= n → addr + n <= DB_LIMIT →
  Z.of_nat (length l) + 2 * n <= BUFFER →
  ∃ d'', cmd_read (range_args addr n ++ 0 :: tail) (d', m) = Some (d'', m) ∧
    holds d (l ++ mem2hex (window m addr n)) d''.
Proof.
  intros Hh Ha Hn Hlim Hl.
  assert (length (mem2hex (window m addr n)) = Z.to_nat (2 * n)) as Hlen
    by (unfold window; rewrite length_mem2hex, length_chars_from; lia).
  unfold cmd_read, range_args, DB_LIMIT in *. rewrite <- app_assoc. cbn [app].
  rewrite hexToInt_hex4 by (done || lia). cbn [mbind option_bind].
  change (44 =? 44) with true. cbv iota.
  rewrite hexToInt_hex4 by (done || lia). cbn [mbind option_bind].
  rewrite in_limit_ok by done. unfold memory_bytes. cbn [fst snd].
  rewrite accessible_ok by done. cbn [mbind option_bind]. fold (window m addr n).
  destruct (holds_puts d l d' (mem2hex (window m addr n)) Hh) as [d1 [H1 H2]]; [lia|].
  rewrite H1. cbn [mbind option_bind]. eexists. split; [done|].
  assert (s32 (db_out_len d' + s32 (2 * n))
    = Z.of_nat (length (l ++ mem2hex (window m addr n)))) as ->.
  { destruct Hh as [o1 [-> _]]. cbn [db_out_len set_out]. unfold BUFFER in Hl.
    rewrite length_app, Hlen, (s32_id (2 * n)), s32_id by lia. lia. }
  destruct H2 as [o2 [-> Hp]]. exists o2. done.
Qed.
Definition poke (addr : Z) (data : list Z) (m : machine P) : machine P :=
  set_memory (store_bytes addr (translate data) (memory m)) m.
Lemma cmd_write_ok d l d' m addr data tail :
  holds d l d' → 0 <= addr → Forall byte data → addr + Z.of_nat (length data) <= DB_LIMIT →
  Z.of_nat (length l) + 2 <= BUFFER →
  ∃ d'', cmd_write (range_args addr (Z.of_nat (length data)) ++ 58 :: mem2hex data ++ tail) (d', m)
    = Some (d'', poke addr data m) ∧ holds d (l ++ OK) d''.
Proof.
  intros Hh Ha Hd Hlim Hl. unfold cmd_write, range_args, DB_LIMIT in *.
  rewrite <- app_assoc. cbn [app].
  rewrite hexToInt_hex4 by (done || lia). cbn [mbind option_bind].
  change (44 =? 44) with true. cbv iota.
  rewrite hexToInt_hex4 by (done || lia). cbn [mbind option_bind].
  change (58 =? 58) with true. cbv iota.
  rewrite in_limit_ok, hex2mem_mem2hex by (done || lia). cbn [mbind option_bind].
  unfold write_bytes. rewrite accessible_ok by done. cbn [mbind option_bind].
  destruct (holds_puts d l d' OK Hh) as [d1 [H1 H2]]; [cbn; lia|].
  unfold on_db, on_machine. cbn [fst snd]. rewrite H1. cbn.
  exists d1. done.
Qed.

(** *** Collecting one packet *)
Definition trap_after (g : list Z) (trap : Z) : Z := if decide (3 ∈ g) then SIGINT_EXCEPTION else trap.
Lemma skip_garbage_spec g rest i trap :
  36 ∉ g → skip_garbage (g ++ 36 :: rest) i trap = (i + Z.of_nat (length g), trap_after g trap).
Proof.
  revert i trap. induction g as [|c g IH]; intros i trap Hg; [cbn; rewrite Z.add_0_r; done|].
  apply not_elem_of_cons in Hg as [Hc Hg]. cbn [app skip_garbage length].
  rewrite (proj2 (Z.eqb_neq c 36)), IH by done. f_equal; [lia|]. unfold trap_after.
  destruct (Z.eqb_spec c 3) as [->|Hc3].
  - rewrite (decide_True _ _ (P := 3 ∈ 3 :: g)) by (constructor). case_decide; done.
  - destruct (decide (3 ∈ g)) as [H|H].
    + rewrite decide_True by (constructor; done). done.
    + rewrite decide_False by (apply not_elem_of_cons; done). done.
Qed.
Lemma sum_payload_spec p rest i sum :
  35 ∉ p → sum_payload (p ++ 35 :: rest) i sum
    = (i + Z.of_nat (length p), foldl (λ c x, u8 (c + x)) sum p).
Proof.
  revert i sum. induction p as [|c p IH]; intros i sum Hp; [cbn; rewrite Z.add_0_r; done|].
  apply not_elem_of_cons in Hp as [Hc Hp]. cbn [app sum_payload length foldl].
  rewrite (proj2 (Z.eqb_neq c 35)), IH by done. f_equal. lia.
Qed.

(** Garbage, a packet with the check digits [h1] and [h2], and stale
    characters behind [db_len]. *)
Definition receives (g p : list Z) (h1 h2 : Z) (d : db) : Prop :=
  ∃ stale, in_buffer d = (g ++ 36 :: p ++ 35 :: h1 :: h2 :: stale) ∧
    length (in_buffer d) = 2048%nat ∧
    db_len d = Z.of_nat (length g + length p + 4) ∧ db_len d < BUFFER ∧ (36 ∉ g) ∧ (35 ∉ p).

Lemma nat_len {A} (l : list A) : Z.to_nat (Z.of_nat (length l)) = length l.
Proof. lia. Qed.
Lemma take_drop_app {A} (l1 l2 l3 : list A) :
  take (length l2) (drop (length l1) (l1 ++ l2 ++ l3)) = l2.
Proof. rewrite drop_app_length, take_app_length. done. Qed.

(** The buffer that [answer] sees: the packet at its start. *)
Definition packet_buffer (p : list Z) (h1 h2 : Z) (tail : list Z) : list Z :=
  36 :: p ++ 35 :: h1 :: h2 :: 0 :: tail.
Lemma shift_packet g p h1 h2 buf stale :
  length buf = 2048%nat → buf = g ++ (36 :: p ++ [35; h1; h2]) ++ stale →
  Z.of_nat (length g + length p + 4) < BUFFER →
  ∃ c tail, shift (Z.of_nat (length g)) (Z.of_nat (length p + 4)) buf
    = Some (36 :: p ++ 35 :: h1 :: h2 :: c :: tail) ∧ length (packet_buffer p h1 h2 tail) = 2048%nat.
Proof.
  unfold shift, BUFFER. intros Hlen Hb Hroom.
  rewrite !(proj2 (Z.leb_le _ _)) by lia. cbn [andb].
  assert (length (36%Z :: p ++ [35%Z; h1; h2]) = length p + 4)%nat as Hp
    by (cbn; rewrite length_app; cbn; lia).
  rewrite !Nat2Z.id, <- Hp.
  assert (take (length (36 :: p ++ [35; h1; h2])) (drop (length g) buf) = 36 :: p ++ [35; h1; h2])
    as -> by (rewrite Hb; apply take_drop_app).
  assert (length (drop (length (36%Z :: p ++ [35%Z; h1; h2])) buf) = 2048 - (length p + 4))%nat as Hd
    by (rewrite length_drop, Hp, Hlen; lia).
  destruct (drop _ buf) as [|c tail]; [cbn in Hd; lia|].
  exists c, tail. split; [cbn; rewrite <- app_assoc; done|].
  unfold packet_buffer. cbn in *. rewrite length_app. cbn. lia.
Qed.
Lemma insert_behind (p : list Z) h1 h2 c tail :
  <[Z.to_nat (Z.of_nat (length p + 4)) := 0]> (36 :: p ++ 35 :: h1 :: h2 :: c :: tail)
    = packet_buffer p h1 h2 tail.
Proof.
  assert (∀ c, 36 :: p ++ 35 :: h1 :: h2 :: c :: tail = (36 :: p ++ [35; h1; h2]) ++ c :: tail)
    as Happ by (intros; cbn; rewrite <- app_assoc; done).
  unfold packet_buffer. rewrite !Happ, Nat2Z.id.
  replace (length p + 4)%nat with (length (36%Z :: p ++ [35%Z; h1; h2]) + 0)%nat
    by (cbn; rewrite length_app; cbn; lia).
  rewrite insert_app_r. done.
Qed.

Lemma terminated g p h1 h2 stale :
  ∃ stale', <[(length g + length p + 4)%nat := 0]> (g ++ 36 :: p ++ 35 :: h1 :: h2 :: stale)
    = g ++ (36 :: p ++ [35; h1; h2]) ++ stale'.
Proof.
  exists (<[0%nat := 0]> stale).
  replace (length g + length p + 4)%nat with (length g + (length (36%Z :: p ++ [35%Z; h1; h2]) + 0))%nat
    by (cbn; rewrite length_app; cbn; lia).
  rewrite insert_app_r. f_equal.
  replace (36 :: p ++ 35 :: h1 :: h2 :: stale) with ((36 :: p ++ [35; h1; h2]) ++ stale)
    by (cbn; rewrite <- app_assoc; done).
  rewrite insert_app_r. done.
Qed.
Lemma between_all g p h1 h2 stale n :
  n = Z.of_nat (length g + length p + 4) →
  between 0 n (g ++ (36 :: p ++ [35; h1; h2]) ++ stale) = g ++ 36 :: p ++ [35; h1; h2].
Proof.
  intros ->. unfold between. rewrite app_assoc. change (Z.to_nat 0) with 0%nat. rewrite drop_0.
  apply take_app_length'. rewrite length_app. cbn. rewrite length_app. cbn. lia.
Qed.
Lemma between_payload p l : between 1 (Z.of_nat (length p + 4) - 2) (36 :: p ++ 35 :: l) = p ++ [35].
Proof.
  unfold between. change (Z.to_nat 1) with 1%nat. cbn [drop].
  replace (p ++ 35 :: l) with ((p ++ [35]) ++ l) by (rewrite <- app_assoc; done).
  apply take_app_length'. rewrite length_app. cbn. lia.
Qed.

(** What [db_parse_packet] does with a complete packet: the command is run
    once, on the packet's characters, and the buffer is empty afterwards. *)
Lemma parse_packet g p h1 h2 d (m : machine P) :
  receives g p h1 h2 d →
  ∃ b0 tail, length (packet_buffer p h1 h2 tail) = 2048%nat ∧
  ∀ d' m', answer can_write (packet_buffer p h1 h2 tail) (Z.of_nat (length p) + 1) (checksum_of p)
       (set_in b0 (db_len d) d, set_db_trap (trap_after g (db_trap m)) m) = Some (d', m') →
  db_parse_packet can_write (d, m) = Some (set_in (packet_buffer p h1 h2 tail) 0 d', m').
Proof.
  intros (stale & Hbuf & Hlen & Hl & Hroom & Hg & Hp).
  set (buf := <[Z.to_nat (db_len d) := 0]> (in_buffer d)).
  assert (∃ stale', buf = g ++ (36 :: p ++ [35; h1; h2]) ++ stale') as [stale' Hb]
    by (unfold buf; rewrite Hbuf, Hl, Nat2Z.id; apply terminated).
  destruct (shift_packet g p h1 h2 buf stale') as (c & tail & Hs & Ht);
    [unfold buf; rewrite length_insert; done|done|lia|].
  exists buf, tail. split; [done|]. intros d' m' Ha.
  unfold db_parse_packet. cbn [fst snd].
  rewrite (proj2 (Z.leb_le 0 _)), (proj2 (Z.ltb_lt _ _)) by lia. cbn [andb].
  fold buf. cbn [parse_loop]. unfold on_in at 1. cbn [fst snd db_len set_in].
  rewrite (proj2 (Z.ltb_lt 0 _)) by lia.
  unfold on_in. cbn [fst snd db_len in_buffer set_in].
  rewrite Hb at 1. rewrite between_all by done.
  rewrite skip_garbage_spec by done. unfold on_machine. cbn [fst snd db_len in_buffer set_in].
  rewrite (proj2 (Z.leb_gt _ _)) by lia. rewrite Z.add_0_l.
  replace (db_len d - Z.of_nat (length g)) with (Z.of_nat (length p + 4)) by lia.
  rewrite Hs. cbn [mbind option_bind].
  rewrite between_payload.
  rewrite sum_payload_spec by done. rewrite (proj2 (Z.eqb_neq _ _)) by lia.
  replace (1 + Z.of_nat (length p) + 3) with (Z.of_nat (length p + 4)) by lia.
  rewrite insert_behind. replace (1 + Z.of_nat (length p)) with (Z.of_nat (length p) + 1) by lia.
  fold (checksum_of p). rewrite Ha. cbn [mbind option_bind].
  rewrite Z.sub_diag. unfold shift at 1. cbn [fst snd].
  unfold BUFFER in *. rewrite !(proj2 (Z.leb_le _ _)) by lia. cbn [andb mbind option_bind].
  destruct (Z.to_nat (db_len d)); cbn [parse_loop]; unfold on_in;
    cbn [fst snd db_len set_in]; rewrite (proj2 (Z.ltb_ge _ _)) by lia; done.
Qed.

(** *** Acknowledgement *)
Lemma lookup_behind p h1 h2 tail k :
  packet_buffer p h1 h2 tail !!! Z.to_nat (Z.of_nat (length p) + 1 + Z.of_nat k)
    = (35 :: h1 :: h2 :: 0 :: tail) !!! k.
Proof.
  unfold packet_buffer. rewrite app_comm_cons, lookup_total_app_r by (cbn; lia).
  f_equal. cbn. lia.
Qed.
(** The packet's characters as the command sees them. *)
Definition command (p : list Z) (h1 h2 : Z) (tail : list Z) : list Z := p ++ 0 :: h1 :: h2 :: 0 :: tail.
Lemma cut_packet p h1 h2 tail :
  <[Z.to_nat (Z.of_nat (length p) + 1) := 0]> (packet_buffer p h1 h2 tail) = 36 :: command p h1 h2 tail.
Proof.
  unfold packet_buffer, command. rewrite !app_comm_cons.
  replace (Z.to_nat _) with (length (36%Z :: p) + 0)%nat by (cbn; lia).
  rewrite insert_app_r. done.
Qed.
Definition check1 p := hexchar (checksum_of p >>! 4).
Definition check2 p := hexchar (checksum_of p &! 0xf).
Lemma answer_good p tail (s : St) :
  command p (check1 p) (check2 p) tail !!! 2%nat ≠ 58 →
  answer can_write (packet_buffer p (check1 p) (check2 p) tail) (Z.of_nat (length p) + 1)
    (checksum_of p) s
  = s ← on_db (put 43) s; db_handle_packet can_write (command p (check1 p) (check2 p) tail) s.
Proof.
  intros H3. pose proof (lookup_behind p (check1 p) (check2 p) tail 1) as H1.
  pose proof (lookup_behind p (check1 p) (check2 p) tail 2) as H2.
  unfold answer. change (Z.of_nat 1) with 1 in H1. change (Z.of_nat 2) with 2 in H2.
  rewrite H1, H2.
  unfold check1, check2 in *. cbn [lookup_total list_lookup_total].
  rewrite checksum_digits, Z.eqb_refl by apply checksum_byte. cbn [negb].
  rewrite cut_packet.
  destruct (on_db (put 43) s); [|done]. cbn [mbind option_bind].
  change ((36 :: ?l) !!! 3%nat) with (l !!! 2%nat).
  rewrite (proj2 (Z.eqb_neq _ 58)) by done. done.
Qed.
Lemma answer_bad p h1 h2 tail (s : St) :
  (hex h1 <<! 4) |! hex h2 ≠ checksum_of p →
  answer can_write (packet_buffer p h1 h2 tail) (Z.of_nat (length p) + 1) (checksum_of p) s
  = on_db (λ d, d ← put 45 d; db_send_packet can_write d) s.
Proof.
  intros Hne. pose proof (lookup_behind p h1 h2 tail 1) as H1.
  pose proof (lookup_behind p h1 h2 tail 2) as H2.
  unfold answer. change (Z.of_nat 1) with 1 in H1. change (Z.of_nat 2) with 2 in H2.
  rewrite H1, H2.
  cbn [lookup_total list_lookup_total].
  rewrite (proj2 (Z.eqb_neq _ _)) by done. done.
Qed.

(** *** A connection between packets *)
Definition idle (d : db) : Prop :=
  connected d = true ∧ length (in_buffer d) = 2048%nat ∧ db_len d = 0 ∧ db_out_len d = 0.
Lemma incoming g p h1 h2 d (m : machine P) :
  idle d → Z.of_nat (length g + length p + 4) < BUFFER → 36 ∉ g → 35 ∉ p →
  ∃ b0 n, db_handlefd can_write (Some (g ++ 36 :: p ++ [35; h1; h2])) (d, m)
    = db_parse_packet can_write (set_in b0 n d, m) ∧ receives g p h1 h2 (set_in b0 n d).
Proof.
  intros (Hc & Hlen & Hl & Ho) Hroom Hg Hp. set (l := g ++ _).
  assert (length l = length g + length p + 4)%nat as Hll
    by (unfold l; rewrite length_app; cbn; rewrite length_app; cbn; lia).
  exists (take 0 (in_buffer d) ++ l ++ drop (length l) (in_buffer d)), (Z.of_nat (length l)).
  split.
  - unfold db_handlefd. destruct l as [|c l]; [cbn in Hll; lia|]. cbn [fst snd].
    cbn [db_len set_connected in_buffer]. rewrite Hl. unfold BUFFER in *.
    rewrite (proj2 (Z.leb_le 0 0)), (proj2 (Z.ltb_lt _ _)) by lia. cbn [andb].
    unfold on_in. cbn [fst snd]. do 3 f_equal. destruct d; cbn in *. subst. done.
  - exists (drop (length l) (in_buffer d)). cbn. rewrite Hll. unfold BUFFER in *. repeat split; try done.
    + unfold l. rewrite <- app_assoc. cbn. rewrite <- app_assoc. done.
    + rewrite take_0, app_nil_l, length_app, length_drop, Hll, Hlen. lia.
Qed.

(** A well-formed packet whose command, run with the acknowledgement pending,
    makes [m'] of the machine and sends [reply]. *)
Lemma serve g p reply d (m m' : machine P) :
  idle d → Z.of_nat (length g + length p + 4) < BUFFER → 36 ∉ g → 35 ∉ p →
  (∀ tail, command p (check1 p) (check2 p) tail !!! 2%nat ≠ 58) →
  (∀ d0 d1 tail, connected d0 = true → holds d0 [43] d1 →
     ∃ d2, db_handle_packet can_write (command p (check1 p) (check2 p) tail)
         (d1, set_db_trap (trap_after g (db_trap m)) m)
       = Some (d2, m') ∧ sent (43 :: reply) d0 d2) →
  ∃ d', db_handlefd can_write (Some (g ++ frame p)) (d, m) = Some (d', m') ∧
    idle d' ∧ wire d' = wire d ++ 43 :: reply.
Proof.
  intros Hi Hroom Hg Hp H3 Hrun.
  destruct (incoming g p (check1 p) (check2 p) d m Hi Hroom Hg Hp) as (b0 & n & Hfd & Hrcv).
  destruct (parse_packet _ _ _ _ _ m Hrcv) as (b1 & tail & Htl & Hparse).
  destruct Hi as (Hc & Hlen & Hl & Ho).
  set (d0 := set_in b1 (db_len (set_in b0 n d)) (set_in b0 n d)) in *.
  destruct (holds_put d0 [] d0 43) as (d1 & Hput & Hh); [apply holds_nil; done|cbn; lia|].
  destruct (Hrun d0 d1 tail Hc Hh) as (d2 & Hrun2 & [out Hs]).
  eexists. split; [|].
  - unfold frame, trailer. fold (check1 p) (check2 p). rewrite Hfd. apply Hparse.
    rewrite answer_good by apply H3. unfold on_db. cbn [fst snd]. rewrite Hput.
    cbn [mbind option_bind fst snd]. exact Hrun2.
  - rewrite Hs. cbn. done.
Qed.
Lemma reject g p h1 h2 d (m : machine P) :
  idle d → Z.of_nat (length g + length p + 4) < BUFFER → 36 ∉ g → 35 ∉ p →
  (hex h1 <<! 4) |! hex h2 ≠ checksum_of p →
  ∃ d', db_handlefd can_write (Some (g ++ 36 :: p ++ [35; h1; h2])) (d, m)
      = Some (d', set_db_trap (trap_after g (db_trap m)) m) ∧
    idle d' ∧ wire d' = wire d ++ [45].
Proof.
  intros Hi Hroom Hg Hp Hne.
  destruct (incoming g p h1 h2 d m Hi Hroom Hg Hp) as (b0 & n & Hfd & Hrcv).
  destruct (parse_packet _ _ _ _ _ m Hrcv) as (b1 & tail & Htl & Hparse).
  destruct Hi as (Hc & Hlen & Hl & Ho).
  set (d0 := set_in b1 (db_len (set_in b0 n d)) (set_in b0 n d)) in *.
  destruct (holds_put d0 [] d0 45) as (d1 & Hput & Hh); [apply holds_nil; done|cbn; lia|].
  destruct (send_spec d0 _ d1 Hc Hh) as (d2 & Hsend & [out Hs]).
  eexists. split.
  - rewrite Hfd. apply Hparse. rewrite answer_bad by done. unfold on_db. cbn [fst snd].
    rewrite Hput. cbn [mbind option_bind]. rewrite Hsend. done.
  - rewrite Hs. cbn. done.
Qed.

(** A command that appends [l] to the reply. *)
Lemma opened d0 d1 : holds d0 [43] d1 →
  ∃ d2, put 36 d1 = Some d2 ∧ holds d0 [43; 36] d2 ∧ db_out_len d2 = 2.
Proof.
  intros Hh. destruct (holds_put _ _ _ 36 Hh) as (d2 & Hput & H2); [unfold BUFFER; cbn; lia|].
  exists d2. repeat split; [done..|]. destruct H2 as (out & -> & _). done.
Qed.
Lemma hex4_third x v rest : 0 <= v < 65536 → (x :: hex4 v ++ rest) !!! 2%nat ≠ 58.
Proof.
  intros Hv. change (hexchar (v / 256 mod 16) ≠ 58).
  pose proof (hexchar_range (v / 256 mod 16) ltac:(apply Z.mod_pos_bound; lia)). lia.
Qed.
Lemma plain_args c x addr n l :
  c ≠ x → x < 48 → x ≠ 44 → 0 <= addr < 65536 → 0 <= n < 65536 → x ∉ l →
  x ∉ c :: range_args addr n ++ l.
Proof.
  intros Hc Hx H44 Ha Hn Hl. unfold range_args.
  rewrite not_elem_of_cons, !not_elem_of_app, not_elem_of_cons.
  repeat split; try done; try (apply hex4_plain; lia); lia.
Qed.
Lemma mem2hex_plain x l : x < 48 → Forall byte l → x ∉ mem2hex l.
Proof.
  intros Hx. induction 1 as [|b l Hb _ IH]; [apply not_elem_of_nil|]. cbn [mem2hex].
  pose proof (hexchar_range (b >>! 4) (hi_nibble b Hb)).
  pose proof (hexchar_range (b mod 16) ltac:(apply Z.mod_pos_bound; lia)).
  rewrite !not_elem_of_cons. repeat split; [lia..|done].
Qed.

Lemma length_range_args addr n : length (range_args addr n) = 9%nat.
Proof. done. Qed.
Lemma serve_read g addr n d (m : machine P) :
  idle d → Z.of_nat (length g) + 14 < BUFFER → 36 ∉ g →
  0 <= addr → 0 <= n → addr + n <= DB_LIMIT → 2 * n + 5 <= BUFFER →
  ∃ d', db_handlefd can_write (Some (g ++ frame (109 :: range_args addr n))) (d, m)
      = Some (d', set_db_trap (trap_after g (db_trap m)) m) ∧
    idle d' ∧ wire d' = wire d ++ 43 :: frame (mem2hex (window m addr n)).
Proof.
  intros Hi Hroom Hg Ha Hn Hlim Hfit. unfold DB_LIMIT in Hlim.
  assert (length (mem2hex (window m addr n)) = Z.to_nat (2 * n)) as Hlen
    by (unfold window; rewrite length_mem2hex, length_chars_from; lia).
  apply serve; [done| |done| | |].
  - cbn [length]. rewrite length_range_args. unfold BUFFER in *. lia.
  - rewrite <- (app_nil_r (range_args addr n)). apply plain_args; try lia. apply not_elem_of_nil.
  - intros tail. unfold command, range_args. cbn [app]. rewrite <- app_assoc. apply hex4_third. lia.
  - intros d0 d1 tail Hc Hh. destruct (opened _ _ Hh) as (d2 & Hput & H2 & Hstart).
    unfold db_handle_packet, on_db, command. cbn [fst snd]. rewrite Hput.
    cbn [mbind option_bind app fst snd]. rewrite Hstart.
    destruct (cmd_read_ok d0 _ d2 (set_db_trap (trap_after g (db_trap m)) m) addr n
      (check1 (109 :: range_args addr n) :: check2 (109 :: range_args addr n) :: 0 :: tail) H2)
      as (d3 & Hrd & H3); [done|done|done|cbn [length]; unfold BUFFER in *; lia|].
    rewrite Hrd. cbn [mbind option_bind].
    change (window (set_db_trap _ m) addr n) with (window m addr n) in H3.
    destruct (reply_spec d0 [43; 36] _ d3 (set_db_trap (trap_after g (db_trap m)) m) Hc H3)
      as (d4 & Hrep & Hsent); [rewrite length_app, Hlen; cbn [length]; unfold BUFFER in *; lia|].
    exists d4. split; [exact Hrep|exact Hsent].
Qed.
Lemma serve_write addr data d (m : machine P) :
  idle d → Forall byte data → 0 <= addr → addr + Z.of_nat (length data) <= DB_LIMIT →
  2 * Z.of_nat (length data) + 15 < BUFFER →
  ∃ d', db_handlefd can_write (Some (frame (77 :: range_args addr (Z.of_nat (length data)) ++
        58 :: mem2hex data))) (d, m)
      = Some (d', poke addr data m) ∧ idle d' ∧ wire d' = wire d ++ 43 :: frame OK.
Proof.
  intros Hi Hd Ha Hlim Hfit. unfold DB_LIMIT in Hlim. apply (serve []); [done| |apply not_elem_of_nil| | |].
  - cbn [length Nat.add]. rewrite length_app, length_range_args. cbn [length].
    rewrite length_mem2hex. unfold BUFFER in *. lia.
  - apply plain_args; try lia. apply not_elem_of_cons. split; [lia|]. apply mem2hex_plain; [lia|done].
  - intros tail. unfold command, range_args. cbn [app]. rewrite <- !app_assoc. apply hex4_third. lia.
  - intros d0 d1 tail Hc Hh. destruct (opened _ _ Hh) as (d2 & Hput & H2 & Hstart).
    unfold db_handle_packet, on_db, command. cbn [fst snd]. rewrite Hput.
    cbn [mbind option_bind app fst snd]. rewrite Hstart. rewrite <- app_assoc. cbn [app].
    destruct (cmd_write_ok d0 _ d2 (set_db_trap (trap_after [] (db_trap m)) m) addr data
      (0 :: check1 (77 :: range_args addr (Z.of_nat (length data)) ++ 58 :: mem2hex data)
         :: check2 (77 :: range_args addr (Z.of_nat (length data)) ++ 58 :: mem2hex data) :: 0 :: tail) H2)
      as (d3 & Hwr & H3); [done..|cbn [length]; unfold BUFFER in *; lia|].
    rewrite Hwr. cbn [mbind option_bind].
    destruct (reply_spec d0 [43; 36] OK d3 (poke addr data m) Hc H3) as (d4 & Hrep & Hsent);
      [cbn; unfold BUFFER; lia|].
    exists d4. split; [|exact Hsent]. replace (poke addr data (set_db_trap _ m)) with (poke addr data m)
      by (destruct m; done). exact Hrep.
Qed.
End Props.

(** ** Over the wire *)

(** C27: Reading memory through the debugger works end to end. On a connection
    with nothing pending, when [read] delivers a packet [m addr,n] for a range
    below 0xff88 whose reply fits the output buffer, after any characters that
    do not contain [$], the emulator sends the acknowledgement and a framed
    packet with exactly the [n] bytes of [memory] in hexadecimal; the machine is
    unchanged but for [db_trap], which is SIGINT when a Ctrl-C was among the
    characters before the packet; and the buffers are empty again. *)
Theorem debugger_reads {P} can_write g addr n d (m : machine P) :
  (∀ l, can_write l = true) → idle d →
  Z.of_nat (length g) + 14 < BUFFER → 36 ∉ g →
  0 <= addr → 0 <= n → addr + n <= DB_LIMIT → 2 * n + 5 <= BUFFER →
  ∃ d', db_handlefd can_write (Some (g ++ frame (109 :: range_args addr n))) (d, m)
      = Some (d', set_db_trap (trap_after g (db_trap m)) m) ∧
    idle d' ∧ wire d' = wire d ++ 43 :: frame (mem2hex (window m addr n)).
Proof. intros. apply serve_read; done. Qed.

(** C28: What gdb writes with a packet [M addr,n:data] is what it reads back with
    [m addr,n]: the first packet is acknowledged and answered with OK, the second
    one with the data in hexadecimal, where the two bytes 0x57 0x30 of gdb's
    breakpoint instruction have become 0x5f 0x0c; and the memory outside of the
    range is as before. *)
Theorem debugger_write_read {P} can_write addr data d (m : machine P) :
  (∀ l, can_write l = true) → idle d → Forall byte data →
  0 <= addr → addr + Z.of_nat (length data) <= DB_LIMIT →
  2 * Z.of_nat (length data) + 15 < BUFFER →
  let n := Z.of_nat (length data) in
  ∃ d1 d2 m',
    db_handlefd can_write (Some (frame (77 :: range_args addr n ++ 58 :: mem2hex data))) (d, m)
      = Some (d1, m') ∧
    db_handlefd can_write (Some (frame (109 :: range_args addr n))) (d1, m') = Some (d2, m') ∧
    wire d2 = wire d ++ 43 :: frame OK ++ 43 :: frame (mem2hex (translate data)) ∧
    (∀ i, i < addr ∨ addr + n <= i → get0 (memory m') i = get0 (memory m) i).
Proof.
  intros Hw Hi Hd Ha Hlim Hfit n.
  destruct (serve_write can_write Hw addr data d m) as (d1 & H1 & Hi1 & Hw1); [done..|].
  destruct (serve_read can_write Hw [] addr n d1 (poke addr data m)) as (d2 & H2 & _ & Hw2);
    [done|unfold BUFFER; cbn; lia|apply not_elem_of_nil|done|unfold n; lia|done|lia|].
  assert (length (translate data) = length data) as Hlen
    by (unfold translate; case_decide; subst; done).
  exists d1, d2, (poke addr data m). split; [done|]. split.
  - rewrite app_nil_l in H2. rewrite H2. destruct m; done.
  - split; [|intros i Hi'; apply store_bytes_out; rewrite Hlen; done].
    rewrite Hw2, Hw1, <- app_assoc. cbn [app]. do 6 f_equal.
    unfold window, n. rewrite Nat2Z.id, <- Hlen. apply chars_from_store.
Qed.

(** C29: A packet whose two check digits are not its checksum (any two characters,
    digits or not) is refused: [-] is sent, no command runs, the machine keeps
    its state but for the Ctrl-C before the packet, and the connection is ready
    for the retransmission. *)
Theorem debugger_rejects {P} can_write g p h1 h2 d (m : machine P) :
  (∀ l, can_write l = true) → idle d →
  Z.of_nat (length g + length p + 4) < BUFFER → 36 ∉ g → 35 ∉ p →
  (hex h1 <<! 4) |! hex h2 ≠ checksum_of p →
  ∃ d', db_handlefd can_write (Some (g ++ 36 :: p ++ [35; h1; h2])) (d, m)
      = Some (d', set_db_trap (trap_after g (db_trap m)) m) ∧
    idle d' ∧ wire d' = wire d ++ [45].
Proof. intros. apply reject; done. Qed.

(** ** Concrete sessions *)
Definition fresh : db := Db (replicate 2048 0) 0 ∅ 0 true 0 false false [] [].
Definition session (l : list Z) : option (db * machine periph_state) :=
  Debugger.db_handlefd (λ _, true) (Some l) (fresh, demo).
(** A packet that arrives in the same [read] as the one before it is lost: the
    terminator written behind the first packet overwrites its [$], and the
    search for the next one starts at the old index. *)
Lemma pipelined_lost :
  match session (frame [63] ++ frame (109 :: range_args 0x8000 2)) with
  | Some (d, m) => wire d = 43 :: frame [83; 48; 48; 0] ∧ db_len d = 0
  | None => False
  end.
Proof. vm_compute. done. Qed.
(** A single [$] makes the parser copy a negative number of bytes. *)
Lemma lone_dollar : session [36] = None.
Proof. vm_compute. done. Qed.

Lemma fresh_idle : idle fresh.
Proof. repeat split. Qed.
Lemma debugger_reads_witness :
  ∃ d', Debugger.db_handlefd (λ _, true) (Some ([3] ++ frame (109 :: range_args 0x8000 4))) (fresh, demo)
      = Some (d', set_db_trap 7 demo) ∧ idle d' ∧
    wire d' = 43 :: frame (mem2hex [0x08; 0x98; 0x0e; 0x10]).
Proof.
  destruct (debugger_reads (λ _, true) [3] 0x8000 4 fresh demo) as (d' & H1 & H2 & H3);
    [done|apply fresh_idle|done|apply (bool_decide_unpack _); done|done|done|done|done|].
  exists d'. split; [exact H1|]. split; [exact H2|]. rewrite H3. vm_compute. reflexivity.
Defined.
Lemma debugger_write_read_witness :
  ∃ d1 d2 m',
    Debugger.db_handlefd (λ _, true) (Some (frame (77 :: range_args 0x8000 2 ++ 58 :: mem2hex [0x57; 0x30])))
      (fresh, demo) = Some (d1, m') ∧
    Debugger.db_handlefd (λ _, true) (Some (frame (109 :: range_args 0x8000 2))) (d1, m') = Some (d2, m') ∧
    wire d2 = 43 :: frame OK ++ 43 :: frame (mem2hex [0x5f; 0x0c]).
Proof.
  destruct (debugger_write_read (λ _, true) 0x8000 [0x57; 0x30] fresh demo)
    as (d1 & d2 & m' & H1 & H2 & H3 & _);
    [done|apply fresh_idle|repeat constructor; done|done|done|done|].
  exists d1, d2, m'. split; [exact H1|]. split; [exact H2|]. rewrite H3. vm_compute. reflexivity.
Defined.
Lemma debugger_rejects_witness :
  ∃ d', Debugger.db_handlefd (λ _, true) (Some [36; 63; 35; 51; 120]) (fresh, demo) = Some (d', demo) ∧
    wire d' = [45].
Proof.
  destruct (debugger_rejects (λ _, true) [] [63] 51 120 fresh demo) as (d' & H1 & _ & H3);
    [done|apply fresh_idle|done|apply not_elem_of_nil|apply (bool_decide_unpack _); done
    |vm_compute; done|].
  exists d'. split; [exact H1|]. rewrite H3. reflexivity.
Defined.
