(* ===== verification/Srec.v ===== *)
(** * Srec: S-record images ([srec.c])

    [srec_decode] checks and decodes one line, [srec_read] loads a file into the
    memory.  A file is the list of its characters; [fgets] delivers it in pieces
    of at most 255 characters.  A copy beyond the end of [memory] is [None]. *)
From S2P Require Export Prelude.

Definition SREC_OK : Z := 0.
Definition SREC_INVALID_HDR : Z := -2.
Definition SREC_INVALID_CHAR : Z := -3.
Definition SREC_INVALID_TYPE : Z := -4.
Definition SREC_TOO_SHORT : Z := -5.
Definition SREC_TOO_LONG : Z := -6.
Definition SREC_INVALID_LEN : Z := -7.
Definition SREC_INVALID_CKSUM : Z := -8.
Definition SREC_DATA_SIZE : Z := 512.

(** The table [hex2int] and [ltab]: the number of address digits of a type. *)
Definition hex2int (c : Z) : Z :=
  if (48 <=? c) && (c <? 58) then c - 48
  else if (65 <=? c) && (c <? 71) then c - 65 + 10
  else if (97 <=? c) && (c <? 103) then c - 97 + 10 else -1.
Definition ltab (type : Z) : Z :=
  nth (Z.to_nat type) [4; 4; 6; 8; 0; 4; 0; 8; 6; 4] 0.

(** [data]: the first [count] bytes of the array. *)
Record srec := Srec { type : Z; addr : Z; data : list Z }.
#[export] Instance srec_eq_dec : EqDecision srec.
Proof. solve_decision. Defined.

(** The line up to its end: a NUL, newline or carriage return. *)
Fixpoint line_of (line : list Z) : list Z :=
  match line with
  | [] => []
  | c :: rest => if (c =? 0) || (c =? 10) || (c =? 13) then [] else c :: line_of rest
  end.
Definition C2 (h l : Z) : Z := u8 ((hex2int h <<! 4) |! hex2int l).
(** The bytes of a list of digits. *)
Fixpoint values (l : list Z) : list Z :=
  match l with h :: t :: l => C2 h t :: values l | _ => [] end.
Definition sum_of (l : list Z) : Z := foldr Z.add 0 l.
Definition address (l : list Z) : Z := foldl (λ a v, (a <<! 8) |! v) 0 l.

(** The error code, and the record where all of its fields were written. *)
Definition srec_decode (line : list Z) : Z * option srec :=
  let line := line_of line in
  let len := Z.of_nat (length line) in
  match line with
  | s :: (t :: c1 :: c2 :: rest) as digits =>
      if negb (s =? 83) then (SREC_INVALID_HDR, None)
      else if negb (forallb (λ c, 0 <=? hex2int c) digits) then (SREC_INVALID_CHAR, None)
      else
        let ty := hex2int t in
        let count := C2 c1 c2 in
        if 9 <? ty then (SREC_INVALID_TYPE, None)
        else
          let alen := ltab ty in
          if alen =? 0 then (SREC_INVALID_TYPE, None)
          else if len <? alen + 6 then (SREC_TOO_SHORT, None)
          else if alen + SREC_DATA_SIZE + 2 <? count then (SREC_TOO_LONG, None)
          else if negb (len =? count * 2 + 4) then (SREC_INVALID_LEN, None)
          else
            let v := values rest in
            let k := Z.to_nat (alen / 2) in
            let r := Srec ty (address (take k v))
                       (take (Z.to_nat (count - alen / 2 - 1)) (drop k v)) in
            if negb ((count + sum_of v) &! 0xff =? 0xff) then (SREC_INVALID_CKSUM, Some r)
            else (SREC_OK, Some r)
  | _ => (SREC_INVALID_HDR, None)
  end.

(** [fgets(buf, 256, file)]: up to 255 characters, a newline is the last one. *)
Fixpoint fgets (n : nat) (file : list Z) : list Z * list Z :=
  match n, file with
  | S n, c :: file =>
      if c =? 10 then ([c], file) else let '(l, rest) := fgets n file in (c :: l, rest)
  | _, _ => ([], file)
  end.
Definition isspace (c : Z) : bool := (c =? 32) || ((9 <=? c) && (c <=? 13)).
(** The string in [buf] is blank: it ends at its first NUL. *)
Fixpoint blank (buf : list Z) : bool :=
  match buf with [] => true | c :: buf => (c =? 0) || isspace c && blank buf end.
(** A data record is copied into [memory], an end record sets the entry. *)
Definition process (r : srec) (entry : Z) (memory : gmap Z Z) : option (Z * gmap Z Z) :=
  if type r =? 1 then
    if addr r + Z.of_nat (length (data r)) <=? 0x10000
    then Some (entry, store_bytes (addr r) (data r) memory) else None
  else if type r =? 9 then Some (s32 (addr r), memory)
  else Some (entry, memory).
(** Every turn takes at least one character. *)
Fixpoint srec_lines (fuel : nat) (file : list Z) (entry : Z) (memory : gmap Z Z) : option (Z * gmap Z Z) :=
  match fuel with
  | O => None
  | S fuel =>
      match fgets 255 file with
      | ([], _) => Some (entry, memory)
      | (buf, file) =>
          if blank buf then srec_lines fuel file entry memory
          else
            match srec_decode buf with
            | (_, Some r) => '(entry, memory) ← process r entry memory; srec_lines fuel file entry memory
            | (_, None) => Some (-1, memory)
            end
      end
  end.
Definition srec_read (file : list Z) (memory : gmap Z Z) : option (Z * gmap Z Z) :=
  srec_lines (S (length file)) file 0 memory.
