(* ===== verification/SrecProps.v ===== *)
(** * SrecProps: what the S-record reader accepts and loads

    The reference is the encoder [srec_encode] of the format: the reader
    accepts exactly its lines (hexadecimal digits of either case), and a file of
    such lines loads the data it was made from. *)
From S2P Require Export Srec.

(** ** The format *)
Definition hexupper (d : Z) : Z := if d <? 10 then 48 + d else 55 + d.
Fixpoint digits (l : list Z) : list Z :=
  match l with [] => [] | b :: l => hexupper (b / 16) :: hexupper (b mod 16) :: digits l end.
Fixpoint be_bytes (k : nat) (a : Z) : list Z :=
  match k with O => [] | S k => (a / 256 ^ Z.of_nat k) mod 256 :: be_bytes k a end.
Definition addr_bytes (r : srec) : list Z := be_bytes (Z.to_nat (ltab (type r) / 2)) (addr r).
Definition counted (r : srec) : list Z :=
  let v := addr_bytes r ++ data r in (Z.of_nat (length v) + 1) :: v.
Definition body (r : srec) : list Z := counted r ++ [255 - sum_of (counted r) mod 256].
Definition srec_encode (r : srec) : list Z := 83 :: hexupper (type r) :: digits (body r).
(** The records the format can express. *)
Record valid (r : srec) : Prop := {
  v_type : type r ∈ [0; 1; 2; 3; 5; 7; 8; 9];
  v_addr : 0 <= addr r < 256 ^ (ltab (type r) / 2);
  v_data : Forall byte (data r);
  v_count : ltab (type r) / 2 + Z.of_nat (length (data r)) + 1 < 256
}.

(** ** Digits *)
Lemma hex2int_hexupper d : 0 <= d < 16 → hex2int (hexupper d) = d.
Proof.
  intros Hd. apply Z.eqb_eq. revert d Hd.
  apply (forall_below 16 (λ d, hex2int (hexupper d) =? d)). vm_compute. done.
Qed.
Lemma C2_digits b : byte b → C2 (hexupper (b / 16)) (hexupper (b mod 16)) = b.
Proof.
  intros Hb. apply Z.eqb_eq. revert b Hb.
  apply (forall_byte (λ b, C2 (hexupper (b / 16)) (hexupper (b mod 16)) =? b)). vm_compute. done.
Qed.
Lemma values_digits l : Forall byte l → values (digits l) = l.
Proof. induction 1 as [|b l Hb _ IH]; [done|]. cbn [digits values]. rewrite C2_digits, IH; done. Qed.
Lemma length_digits l : length (digits l) = (2 * length l)%nat.
Proof. induction l; simpl; lia. Qed.
(** A digit of the encoder is one for the reader and does not end the line. *)
Definition plain (c : Z) : bool :=
  (0 <=? hex2int c) && negb ((c =? 0) || (c =? 10) || (c =? 13)).
Lemma hexupper_plain d : 0 <= d < 16 → plain (hexupper d) = true.
Proof. apply (forall_below 16 (λ d, plain (hexupper d))). vm_compute. done. Qed.
Lemma digits_plain l : Forall byte l → Forall (λ c, plain c = true) (digits l).
Proof.
  induction 1 as [|b l Hb _ IH]; [done|]. cbn [digits]. unfold byte in Hb.
  repeat constructor; [apply hexupper_plain; Z.div_mod_to_equations; lia..|done].
Qed.
Lemma plain_line_of l tail :
  Forall (λ c, plain c = true) l → line_of (l ++ tail) = l ++ line_of tail.
Proof.
  induction 1 as [|c l Hc _ IH]; [done|]. cbn [app line_of].
  unfold plain in Hc. apply andb_prop in Hc as [_ ->%negb_true_iff]. f_equal. done.
Qed.
Lemma plain_digits l : Forall (λ c, plain c = true) l → forallb (λ c, 0 <=? hex2int c) l = true.
Proof.
  intros Hl. apply forallb_forall. intros c Hc%list_elem_of_In.
  rewrite Forall_forall in Hl. apply Hl in Hc. unfold plain in Hc. lia.
Qed.

(** ** Address and checksum *)
Lemma be_bytes_byte k a : Forall byte (be_bytes k a).
Proof.
  induction k; cbn; constructor; [|done]. apply Z.mod_pos_bound. lia.
Qed.
Lemma length_be_bytes k a : length (be_bytes k a) = k.
Proof. induction k; cbn; congruence. Qed.
Lemma address_from k a a0 :
  foldl (λ a v, (a <<! 8) |! v) a0 (be_bytes k a) = a0 * 256 ^ Z.of_nat k + a mod 256 ^ Z.of_nat k.
Proof.
  revert a0. induction k as [|k IH]; intros a0.
  - cbn. rewrite Z.mod_1_r. lia.
  - cbn [be_bytes foldl]. rewrite join_bytes by (apply Z.mod_pos_bound; lia). rewrite IH.
    rewrite Nat2Z.inj_succ, Z.pow_succ_r by lia.
    assert (0 < 256 ^ Z.of_nat k) by (apply Z.pow_pos_nonneg; lia).
    rewrite (Z.mul_comm 256 (256 ^ _)), Z.rem_mul_r by lia. lia.
Qed.
Lemma address_be_bytes k a : 0 <= a < 256 ^ Z.of_nat k → address (be_bytes k a) = a.
Proof. intros. unfold address. rewrite address_from, Z.mod_small by done. lia. Qed.
Lemma sum_of_app l1 l2 : sum_of (l1 ++ l2) = sum_of l1 + sum_of l2.
Proof. induction l1; cbn in *; [done|]. unfold sum_of in *. lia. Qed.
Lemma checksum_ok s : (s + (255 - s mod 256)) &! 0xff = 255.
Proof. rewrite land_255. Z.div_mod_to_equations. lia. Qed.

(** ** The reader accepts what the encoder writes *)
Lemma ltab_types ty : ty ∈ [0; 1; 2; 3; 5; 7; 8; 9] →
  0 <= ty <= 9 ∧ ltab ty = 2 * (ltab ty / 2) ∧ 2 <= ltab ty / 2 <= 4.
Proof.
  intros H. repeat (apply elem_of_cons in H as [->|H]; [vm_compute; split_and!; congruence|]).
  apply elem_of_nil in H. done.
Qed.
Lemma body_bytes r : valid r → Forall byte (body r).
Proof.
  intros [Ht Ha Hd Hc]. pose proof (ltab_types _ Ht). unfold body, counted, addr_bytes.
  rewrite length_app, length_be_bytes. cbn [app].
  constructor; [unfold byte; lia|]. rewrite !Forall_app. repeat split; [apply be_bytes_byte|done|].
  repeat constructor; Z.div_mod_to_equations; lia.
Qed.
Lemma encode_plain r : valid r → Forall (λ c, plain c = true) (hexupper (type r) :: digits (body r)).
Proof.
  intros Hv. pose proof (ltab_types _ (v_type r Hv)).
  constructor; [apply hexupper_plain; lia|]. apply digits_plain, body_bytes, Hv.
Qed.
Lemma line_of_encode r tail :
  valid r → line_of tail = [] → line_of (srec_encode r ++ tail) = srec_encode r.
Proof.
  intros Hv Ht.
  change (srec_encode r ++ tail) with (83 :: (hexupper (type r) :: digits (body r)) ++ tail).
  cbn [line_of]. change ((83 =? 0) || (83 =? 10) || (83 =? 13)) with false. cbv iota.
  rewrite plain_line_of, Ht, app_nil_r by (apply encode_plain; done). done.
Qed.

(** The checks of [srec_decode] on a line whose digits are known. *)
Lemma decode_digits ty count v ck :
  0 <= ty <= 9 → 2 <= ltab ty / 2 → ltab ty = 2 * (ltab ty / 2) →
  Forall byte (count :: v ++ [ck]) → count = Z.of_nat (length v) + 1 →
  ltab ty / 2 <= Z.of_nat (length v) →
  let line := 83 :: hexupper ty :: digits (count :: v ++ [ck]) in
  let k := Z.to_nat (ltab ty / 2) in
  line_of line = line →
  srec_decode line =
    (if (count + sum_of v + ck) &! 0xff =? 0xff then SREC_OK else SREC_INVALID_CKSUM,
     Some (Srec ty (address (take k v)) (drop k v))).
Proof.
  intros Hty H0 Heven Hb Hc Hk line k Hline.
  assert (Z.of_nat (length line) = count * 2 + 4) as Hlen.
  { unfold line. cbn [digits length]. rewrite length_digits, length_app. cbn. lia. }
  assert (forallb (λ c, 0 <=? hex2int c) (hexupper ty :: digits (count :: v ++ [ck])) = true) as Hd
    by (apply plain_digits; constructor; [apply hexupper_plain; lia|apply digits_plain; done]).
  pose proof (Forall_inv Hb) as Hcb. pose proof (Forall_inv_tail Hb) as Hvb.
  unfold srec_decode. rewrite Hline, Hlen. unfold line. cbn [digits] in Hd |- *.
  change (negb (83 =? 83)) with false. cbv iota. rewrite Hd. cbn [negb].
  rewrite hex2int_hexupper, C2_digits, values_digits by (done || lia).
  rewrite (proj2 (Z.ltb_ge 9 ty)), (proj2 (Z.eqb_neq (ltab ty) 0)) by lia.
  unfold SREC_DATA_SIZE, byte in *.
  rewrite (proj2 (Z.ltb_ge (count * 2 + 4) _)), (proj2 (Z.ltb_ge _ count)) by lia.
  rewrite Z.eqb_refl. cbn [negb]. fold k.
  rewrite sum_of_app, take_app_le, drop_app_le by (unfold k; lia).
  rewrite take_app_le by (rewrite length_drop; unfold k; lia).
  rewrite (take_ge (drop k v)) by (rewrite length_drop; unfold k; lia).
  cbn [sum_of foldr]. rewrite Z.add_0_r, Z.add_assoc.
  destruct ((count + sum_of v + ck) &! 255 =? 255); done.
Qed.
Lemma decode_ext l1 l2 : line_of l1 = line_of l2 → srec_decode l1 = srec_decode l2.
Proof. intros H. unfold srec_decode. rewrite H. done. Qed.
Lemma decode_encode r tail :
  valid r → line_of tail = [] → srec_decode (srec_encode r ++ tail) = (SREC_OK, Some r).
Proof.
  intros Hv Ht. pose proof (ltab_types _ (v_type r Hv)) as (Hty & Heven & Hrange).
  pose proof (line_of_encode r [] Hv eq_refl) as Hl. rewrite app_nil_r in Hl.
  rewrite (decode_ext _ (srec_encode r)) by (rewrite Hl; apply line_of_encode; done).
  pose proof (body_bytes r Hv) as Hb. destruct Hv as [Hin Ha Hd Hc].
  assert (length (addr_bytes r) = Z.to_nat (ltab (type r) / 2)) as Hk by apply length_be_bytes.
  unfold srec_encode, body, counted in *. cbn [app] in *.
  rewrite decode_digits; [|done || (rewrite ?length_app, ?Hk; lia)..].
  rewrite <- Hk, take_app_length, drop_app_length.
  assert (address (addr_bytes r) = addr r) as ->
    by (apply address_be_bytes; rewrite Z2Nat.id by lia; done).
  change (sum_of (?c :: ?v)) with (c + sum_of v). rewrite checksum_ok. destruct r; done.
Qed.

(** ** It accepts nothing else *)
Definition upcase (c : Z) : Z := if (97 <=? c) && (c <? 123) then c - 32 else c.
Definition is_digit (c : Z) : Prop := 0 <= hex2int c.
Lemma upcase_digit c : is_digit c → upcase c = hexupper (hex2int c) ∧ hex2int c < 16.
Proof.
  unfold is_digit, hex2int, upcase, hexupper. intros H.
  destruct ((48 <=? c) && (c <? 58)) eqn:E1; [|destruct ((65 <=? c) && (c <? 71)) eqn:E2;
    [|destruct ((97 <=? c) && (c <? 103)) eqn:E3; [|lia]]];
  destruct ((97 <=? c) && (c <? 123)) eqn:E4; try lia;
  destruct (_ <? 10) eqn:E5; lia.
Qed.
Lemma C2_split h l : is_digit h → is_digit l →
  byte (C2 h l) ∧ C2 h l / 16 = hex2int h ∧ C2 h l mod 16 = hex2int l.
Proof.
  intros Hh Hl. pose proof (upcase_digit h Hh). pose proof (upcase_digit l Hl).
  unfold C2, is_digit in *. rewrite (lor_shift_add 4) by lia. change (2 ^ 4) with 16.
  split; [auto with width|]. unfold u8. rewrite Z.mod_small by lia.
  split; [symmetry; apply Z.div_unique with (hex2int l); lia|symmetry; apply Z.mod_unique with (hex2int h); lia].
Qed.
Lemma values_digit n l : length l = (2 * n)%nat → Forall is_digit l →
  Forall byte (values l) ∧ length (values l) = n ∧ upcase <$> l = digits (values l).
Proof.
  revert l. induction n as [|n IH]; intros l Hn Hl.
  { destruct l; [done|cbn in Hn; lia]. }
  destruct l as [|h [|t l]]; [cbn in Hn; lia..|].
  apply Forall_cons in Hl as [Hh [Ht Hl]%Forall_cons].
  destruct (IH l) as (Hb & Hlen & Hu); [cbn in Hn; lia|done|].
  destruct (C2_split h t Hh Ht) as (Hc & Hd & Hm).
  cbn [values]. split; [constructor; done|]. split; [cbn; congruence|].
  cbn [fmap list_fmap digits]. rewrite Hd, Hm.
  rewrite (proj1 (upcase_digit h Hh)), (proj1 (upcase_digit t Ht)). f_equal. f_equal. exact Hu.
Qed.
Lemma be_bytes_ext k a b : a mod 256 ^ Z.of_nat k = b mod 256 ^ Z.of_nat k → be_bytes k a = be_bytes k b.
Proof.
  induction k as [|k IH]; [done|]. rewrite Nat2Z.inj_succ, Z.pow_succ_r by lia. intros H.
  assert (0 < 256 ^ Z.of_nat k) by (apply Z.pow_pos_nonneg; lia).
  rewrite (Z.mul_comm 256), !Z.rem_mul_r in H by lia.
  destruct (Z.div_mod_unique (256 ^ Z.of_nat k) ((a / 256 ^ Z.of_nat k) mod 256)
    ((b / 256 ^ Z.of_nat k) mod 256) (a mod 256 ^ Z.of_nat k) (b mod 256 ^ Z.of_nat k));
    [left; apply Z.mod_pos_bound; done..|lia|].
  cbn [be_bytes]. f_equal; [done|apply IH; done].
Qed.
Lemma address_acc l a0 : Forall byte l →
  foldl (λ a v, (a <<! 8) |! v) a0 l = a0 * 256 ^ Z.of_nat (length l) + address l.
Proof.
  intros Hl. unfold address. revert a0. induction Hl as [|b l Hb _ IH]; intros a0; [cbn; lia|].
  cbn [foldl length]. rewrite !join_bytes by done. rewrite (IH (a0 * 256 + b)), (IH (0 * 256 + b)).
  rewrite Nat2Z.inj_succ, Z.pow_succ_r by lia. lia.
Qed.
Lemma address_bound l : Forall byte l → 0 <= address l < 256 ^ Z.of_nat (length l) ∧
  be_bytes (length l) (address l) = l.
Proof.
  induction 1 as [|b l Hb Hl [Ha IH]]; [done|].
  assert (address (b :: l) = b * 256 ^ Z.of_nat (length l) + address l) as ->
    by (unfold address; cbn [foldl]; rewrite join_bytes, (address_acc l) by done; done).
  assert (0 < 256 ^ Z.of_nat (length l)) by (apply Z.pow_pos_nonneg; lia). unfold byte in Hb.
  cbn [length]. rewrite Nat2Z.inj_succ, Z.pow_succ_r by lia. split; [nia|].
  cbn [be_bytes]. f_equal.
  - rewrite Z.div_add_l, Z.div_small, Z.add_0_r, Z.mod_small by lia. done.
  - etrans; [apply be_bytes_ext|exact IH]. rewrite Z.add_comm, Z.mod_add by lia. done.
Qed.
Lemma ltab_known ty : 0 <= ty → ty <= 9 → ltab ty ≠ 0 → ty ∈ [0; 1; 2; 3; 5; 7; 8; 9].
Proof.
  intros H0 H9 Hl. assert (ty ≠ 4 ∧ ty ≠ 6) as [] by (split; intros ->; apply Hl; done).
  rewrite !elem_of_cons. lia.
Qed.
Lemma forallb_digits l : forallb (λ c, 0 <=? hex2int c) l = true → Forall is_digit l.
Proof.
  intros H. rewrite forallb_forall in H. apply Forall_forall. intros c Hc%list_elem_of_In.
  apply H in Hc. unfold is_digit. lia.
Qed.
Lemma last_byte s ck : byte ck → (s + ck) &! 0xff = 255 → ck = 255 - s mod 256.
Proof. rewrite land_255. unfold byte. intros. Z.div_mod_to_equations. lia. Qed.
(** The bytes behind the count, split as [srec_decode] splits them. *)
Lemma split_values k (v : list Z) : (S k <= length v)%nat → ∃ ck,
  v = take k v ++ take (length v - k - 1) (drop k v) ++ [ck].
Proof.
  intros Hk. assert (length (drop k v) = S (length v - k - 1)) as Hd by (rewrite length_drop; lia).
  destruct (drop k v) as [|x w _] eqn:E using rev_ind; [done|].
  exists x. rewrite length_app in Hd. cbn in Hd.
  rewrite take_app_length' by lia. rewrite <- E, take_drop. done.
Qed.
Lemma decode_sound line r :
  srec_decode line = (SREC_OK, Some r) →
  valid r ∧ ∃ ds, line_of line = 83 :: ds ∧ 83 :: (upcase <$> ds) = srec_encode r.
Proof.
  unfold srec_decode. destruct (line_of line) as [|s [|t [|c1 [|c2 rest]]]] eqn:El; try done.
  destruct (Z.eqb_spec s 83) as [->|]; [|done]. cbn [negb].
  destruct (forallb _ (t :: c1 :: c2 :: rest)) eqn:Ed; [|done]. cbn [negb].
  apply forallb_digits in Ed. apply Forall_cons in Ed as [Ht [H1 [H2 Hr]%Forall_cons]%Forall_cons].
  destruct (Z.ltb_spec 9 (hex2int t)); [done|].
  destruct (Z.eqb_spec (ltab (hex2int t)) 0); [done|].
  pose proof (ltab_known (hex2int t) Ht ltac:(done) ltac:(done)) as Hin.
  pose proof (ltab_types _ Hin) as (Hty & Heven & Hrange).
  destruct (Z.ltb_spec (Z.of_nat (length (83 :: t :: c1 :: c2 :: rest))) (ltab (hex2int t) + 6)) as [|Hlen]; [done|].
  destruct (Z.ltb_spec (ltab (hex2int t) + SREC_DATA_SIZE + 2) (C2 c1 c2)); [done|].
  destruct (Z.eqb_spec (Z.of_nat (length (83 :: t :: c1 :: c2 :: rest))) (C2 c1 c2 * 2 + 4)) as [Hc|]; [|done].
  cbn [negb]. destruct (Z.eqb_spec ((C2 c1 c2 + sum_of (values rest)) &! 255) 255) as [Hs|]; [|done].
  cbn [negb]. intros [= <-]. cbn [length] in Hlen, Hc.
  destruct (C2_split c1 c2 H1 H2) as (Hcb & Hcd & Hcm).
  destruct (values_digit (Z.to_nat (C2 c1 c2)) rest) as (Hvb & Hvl & Hvu); [lia|done|].
  set (k := Z.to_nat (ltab (hex2int t) / 2)) in *.
  destruct (split_values k (values rest)) as [ck Hv]; [unfold k; lia|].
  replace (length (values rest) - k - 1)%nat with (Z.to_nat (C2 c1 c2 - ltab (hex2int t) / 2 - 1)) in Hv
    by (unfold k; lia).
  set (a := take k (values rest)) in *. set (d := take _ (drop k (values rest))) in *.
  assert (length a = k ∧ Z.of_nat (length d) = C2 c1 c2 - ltab (hex2int t) / 2 - 1) as [Hal Hdl]
    by (unfold a, d; rewrite !length_take, length_drop; unfold k; lia).
  rewrite Hv in Hvb, Hs. rewrite !Forall_app in Hvb. destruct Hvb as (Hab & Hdb & Hckb%Forall_inv).
  destruct (address_bound a Hab) as [Habd Hbe]. rewrite Hal in Habd, Hbe. unfold byte in Hcb.
  split.
  - constructor; cbn [type addr data]; [done| |done|lia].
    unfold k in Habd. rewrite Z2Nat.id in Habd by lia. done.
  - exists (t :: c1 :: c2 :: rest). split; [done|].
    rewrite !sum_of_app, !Z.add_assoc in Hs. unfold sum_of at 3 in Hs. cbn [foldr] in Hs.
    rewrite Z.add_0_r in Hs. apply last_byte in Hs; [|done].
    unfold srec_encode, body, counted, addr_bytes. cbn [type addr data]. fold k. rewrite Hbe.
    rewrite length_app, Hal. replace (Z.of_nat (k + length d) + 1) with (C2 c1 c2) by (unfold k in *; lia).
    change (sum_of (C2 c1 c2 :: ?v)) with (C2 c1 c2 + sum_of v).
    rewrite sum_of_app, Z.add_assoc, <- Hs. cbn [fmap list_fmap app digits].
    rewrite Hcd, Hcm, (proj1 (upcase_digit t Ht)), (proj1 (upcase_digit c1 H1)), (proj1 (upcase_digit c2 H2)).
    rewrite <- app_assoc, <- Hv. do 4 f_equal. exact Hvu.
Qed.

(** The case of a digit does not matter. *)
Lemma hex2int_upcase c : is_digit (upcase c) → hex2int (upcase c) = hex2int c ∧ is_digit c.
Proof. unfold is_digit, upcase, hex2int. intros H. repeat case_match; lia. Qed.
Lemma digit_plain c : is_digit c → plain c = true.
Proof. unfold is_digit, plain, hex2int. intros H. repeat case_match; lia. Qed.
Lemma values_upcase n l : (length l <= n)%nat → Forall (is_digit ∘ upcase) l →
  values (upcase <$> l) = values l.
Proof.
  revert l. induction n as [|n IH]; intros [|h [|t l]] Hn Hl; try done; cbn in Hn; [lia|].
  apply Forall_cons in Hl as [Hh [Ht Hl]%Forall_cons]. cbn [fmap list_fmap values].
  unfold C2. rewrite (proj1 (hex2int_upcase h Hh)), (proj1 (hex2int_upcase t Ht)).
  f_equal. apply IH; [lia|done].
Qed.
Lemma line_of_digits ds : Forall is_digit ds → line_of (83 :: ds) = 83 :: ds.
Proof.
  intros Hd. cbn [line_of]. change ((83 =? 0) || (83 =? 10) || (83 =? 13)) with false. cbv iota.
  rewrite <- (app_nil_r ds) at 1. rewrite plain_line_of, app_nil_r; [done|].
  eapply Forall_impl; [exact Hd|]. apply digit_plain.
Qed.
Lemma decode_upcase ds : Forall (is_digit ∘ upcase) ds →
  srec_decode (83 :: (upcase <$> ds)) = srec_decode (83 :: ds).
Proof.
  intros Hd. assert (Forall is_digit ds) as Hd'
    by (eapply Forall_impl; [exact Hd|]; intros c Hc; apply hex2int_upcase, Hc).
  unfold srec_decode. rewrite !line_of_digits by (done || (apply Forall_fmap; done)).
  destruct ds as [|t [|c1 [|c2 rest]]]; try done. cbn [fmap list_fmap].
  pose proof Hd as [Ht [H1 [H2 Hr]%Forall_cons]%Forall_cons]%Forall_cons.
  rewrite (proj2 (forallb_forall _ (t :: c1 :: c2 :: rest))), (proj2 (forallb_forall _ (upcase t :: _))).
  - unfold C2. rewrite (proj1 (hex2int_upcase t Ht)), (proj1 (hex2int_upcase c1 H1)),
      (proj1 (hex2int_upcase c2 H2)).
    change (list_fmap Z Z upcase rest) with (upcase <$> rest).
    rewrite (values_upcase (length rest) rest) by done.
    cbn [length]. rewrite length_fmap. done.
  - intros c Hc%list_elem_of_In. apply Z.leb_le. revert c Hc. apply Forall_forall.
    change (Forall is_digit (upcase <$> (t :: c1 :: c2 :: rest))). apply Forall_fmap. done.
  - intros c Hc%list_elem_of_In. apply Z.leb_le. revert c Hc. apply Forall_forall. done.
Qed.

(** C31: The S-record reader accepts exactly the lines of the format: a line is
    decoded without an error to a record exactly when it is what the reference
    encoder writes for that record (type, byte count, big-endian address, data and
    one's complement checksum), with its hexadecimal digits in upper or lower
    case, followed by the end of the line. *)
Theorem srec_decode_iff line r :
  srec_decode line = (SREC_OK, Some r) ↔
  valid r ∧ ∃ ds, line_of line = 83 :: ds ∧ 83 :: (upcase <$> ds) = srec_encode r.
Proof.
  split; [apply decode_sound|]. intros (Hv & ds & Hl & He).
  assert (Forall (is_digit ∘ upcase) ds) as Hd.
  { apply (Forall_fmap upcase is_digit). injection He as ->.
    eapply Forall_impl; [exact (encode_plain r Hv)|]. intros c Hc.
    apply andb_prop in Hc as [Hc _]. unfold is_digit. lia. }
  assert (Forall is_digit ds) as Hd'
    by (eapply Forall_impl; [exact Hd|]; intros c Hc; apply hex2int_upcase, Hc).
  rewrite (decode_ext line (83 :: ds)) by (rewrite Hl, line_of_digits; done).
  rewrite <- decode_upcase, He, <- (app_nil_r (srec_encode r)) by done.
  apply decode_encode; done.
Qed.

(** ** Loading a file *)
Definition image (rs : list srec) : list Z := concat ((λ r, srec_encode r ++ [10]) <$> rs).
(** What the records say: the data of type 1, the entry of the last type 9. *)
Definition loaded (rs : list srec) (memory : gmap Z Z) : gmap Z Z :=
  foldl (λ m r, if type r =? 1 then store_bytes (addr r) (data r) m else m) memory rs.
Definition entry_of (rs : list srec) (entry : Z) : Z :=
  foldl (λ e r, if type r =? 9 then addr r else e) entry rs.
(** A line fits the buffer of [srec_read], data fits the memory. *)
Definition loadable (r : srec) : Prop :=
  valid r ∧ (length (srec_encode r) <= 254)%nat ∧
  (type r = 1 → addr r + Z.of_nat (length (data r)) <= 0x10000).
Lemma fgets_line n l rest : 10 ∉ l → (length l < n)%nat → fgets n (l ++ 10 :: rest) = (l ++ [10], rest).
Proof.
  revert n. induction l as [|c l IH]; intros [|n] Hl Hn; cbn in Hn; try lia; [done|].
  apply not_elem_of_cons in Hl as [Hc Hl]. cbn [app fgets].
  rewrite (proj2 (Z.eqb_neq c 10)), IH by (done || lia). done.
Qed.
Lemma encode_no_newline r : valid r → 10 ∉ srec_encode r.
Proof.
  intros Hv. unfold srec_encode. apply not_elem_of_cons. split; [done|]. intros Hin.
  pose proof (encode_plain r Hv) as Hp. rewrite Forall_forall in Hp. apply Hp in Hin. done.
Qed.
Lemma process_loads r entry memory : loadable r →
  process r entry memory
    = Some (if type r =? 9 then addr r else entry,
            if type r =? 1 then store_bytes (addr r) (data r) memory else memory).
Proof.
  intros (Hv & _ & Hfit). unfold process. destruct (Z.eqb_spec (type r) 1) as [E|].
  - rewrite (proj2 (Z.leb_le _ _)) by auto. rewrite E. done.
  - destruct (Z.eqb_spec (type r) 9) as [E|]; [|done].
    pose proof (v_addr r Hv) as Ha. rewrite E in Ha. change (256 ^ (ltab 9 / 2)) with 65536 in Ha. rewrite s32_id by lia. done.
Qed.
Lemma lines_load rs : Forall loadable rs → ∀ fuel entry memory,
  (length (image rs) < fuel)%nat →
  srec_lines fuel (image rs) entry memory = Some (entry_of rs entry, loaded rs memory).
Proof.
  induction 1 as [|r rs Hr _ IH]; intros [|fuel] entry memory Hf; try (cbn in Hf; lia); [done|].
  change (image (r :: rs)) with ((srec_encode r ++ [10]) ++ image rs) in *.
  rewrite <- app_assoc in *. cbn [app srec_lines] in *. pose proof Hr as (Hv & Hlen & _).
  rewrite fgets_line; [|apply encode_no_newline; done|lia].
  cbv iota beta. destruct (srec_encode r ++ [10]) as [|c l] eqn:El; [destruct (srec_encode r); done|].
  assert (c = 83) as -> by (injection El; done).
  change (blank (83 :: l)) with false. cbv iota. rewrite <- El, decode_encode by done. cbv iota. rewrite process_loads by done. cbn [mbind option_bind].
  rewrite length_app in Hf. cbn in Hf. apply IH. lia.
Qed.

(** C30: Loading an S-record file gives the image it was made from. For a file of
    any number of encoded lines whose data fits the memory, [srec_read]
    terminates, the memory afterwards is the old one with the data of every type-1
    record stored at its address, in the order of the file, and the result is the
    address of the last type-9 record (0 without one). *)
Theorem srec_read_image rs memory :
  Forall loadable rs →
  srec_read (image rs) memory = Some (entry_of rs 0, loaded rs memory).
Proof. intros Hrs. apply lines_load; [done|lia]. Qed.

(** A line of more than 254 characters, which [srec_decode] accepts, is cut by the
    buffer of [srec_read] and refused. *)
Definition long_record : srec := Srec 1 0 (replicate 126 0).
Lemma long_line_refused :
  srec_decode (srec_encode long_record) = (SREC_OK, Some long_record) ∧
  srec_read (image [long_record]) ∅ = Some (-1, ∅).
Proof. vm_compute. done. Qed.
(** A line with a wrong checksum is loaded all the same. *)
Lemma bad_checksum_loaded :
  srec_decode [83; 57; 48; 51; 49; 50; 51; 52; 48; 48] = (SREC_INVALID_CKSUM, Some (Srec 9 0x1234 [])) ∧
  srec_read [83; 57; 48; 51; 49; 50; 51; 52; 48; 48] ∅ = Some (0x1234, ∅).
Proof. vm_compute. done. Qed.

(** ** Witness *)
Definition demo_image : list srec := [Srec 1 0x8000 [0x79; 0x07; 0xfe; 0x00]; Srec 9 0x8000 []].
Lemma srec_read_image_witness :
  ∃ m, srec_read (image demo_image) ∅ = Some (0x8000, m) ∧ chars_from m 0x8000 4 = [0x79; 0x07; 0xfe; 0x00].
Proof.
  exists (loaded demo_image ∅). split.
  - apply (srec_read_image demo_image ∅).
    repeat constructor; cbn; try lia; try done; apply (bool_decide_unpack _); vm_compute; done.
  - vm_compute. reflexivity.
Defined.
