(* ===== verification/BrickOs.v ===== *)
(** * BrickOs: the heap of brickOS in the emulated memory ([brickos.c])

    The emulator allocates and frees memory inside of the running brickOS: the
    blocks lie behind each other from [_mm_start] to the end of the address space,
    each with a word for its owner (0: free) and a word for its length in words;
    [_mm_first_free] is a variable of the kernel.  Pointers are 16 bits wide and
    wrap around; an access outside of [memory] is [None]. *)
From S2P Require Export Prelude.

Definition put_word (o v : Z) (mem : gmap Z Z) : gmap Z Z :=
  <[o + 1 := v &! 0xff]> (<[o := u8 (v >>! 8)]> mem).
Definition READ_WORD (mem : gmap Z Z) (o : Z) : option Z :=
  if in_memory o then Some (word_at mem o) else None.
Definition WRITE_WORD (o v : Z) (mem : gmap Z Z) : option (gmap Z Z) :=
  if in_memory o then Some (put_word o v mem) else None.

Section Heap.
Context (mm_start mm_first_free : Z).

(** The block behind a block of [len] words at [ptr]. *)
Definition next_block (ptr len : Z) : Z := u16 (ptr + 4 + 2 * len).

(** [while (READ_WORD(nptr) == 0)]: merge the free blocks at [nptr] into the one
    at [ptr]; the new length and the block behind it. *)
Fixpoint merge_free (fuel : nat) (ptr len nptr : Z) (mem : gmap Z Z) : option (Z * Z * gmap Z Z) :=
  match fuel with
  | O => None
  | S fuel =>
      type ← READ_WORD mem nptr;
      if type =? 0 then
        first ← READ_WORD mem mm_first_free;
        mem ← (if nptr =? first then WRITE_WORD mm_first_free ptr mem else Some mem);
        next ← READ_WORD mem (nptr + 2);
        let len := u16 (len + (2 + next)) in
        mem ← WRITE_WORD (ptr + 2) len mem;
        merge_free fuel ptr len (next_block ptr len) mem
      else Some (len, nptr, mem)
  end.

Fixpoint free_loop (fuel : nat) (addr ptr : Z) (mem : gmap Z Z) : option (gmap Z Z) :=
  if ptr <? mm_start then Some mem
  else
    match fuel with
    | O => None
    | S fuel =>
        len ← READ_WORD mem (ptr + 2);
        let nptr := next_block ptr len in
        if ptr + 4 =? addr then
          mem ← WRITE_WORD ptr 0 mem;
          first ← READ_WORD mem mm_first_free;
          mem ← (if first <? ptr then WRITE_WORD mm_first_free ptr mem else Some mem);
          '(_, _, mem) ← merge_free fuel ptr len nptr mem;
          Some mem
        else free_loop fuel addr nptr mem
    end.
(** Every block takes at least four bytes. *)
Definition FUEL : nat := Z.to_nat 16386.
Definition brickos_free (addr : Z) (mem : gmap Z Z) : option (gmap Z Z) :=
  if mm_start =? 0 then Some mem else free_loop FUEL addr mm_start mem.

(** [while (READ_WORD(nptr) != 0 && nptr >= mm_start)]: the next free block. *)
Fixpoint skip_used (fuel : nat) (nptr : Z) (mem : gmap Z Z) : option Z :=
  match fuel with
  | O => None
  | S fuel =>
      type ← READ_WORD mem nptr;
      if negb (type =? 0) && (mm_start <=? nptr) then
        len ← READ_WORD mem (nptr + 2); skip_used fuel (next_block nptr len) mem
      else Some nptr
  end.
(** The free block at [ptr], with [nptr] behind it, becomes a program's. *)
Definition take_block (fuel : nat) (ptr len nptr size : Z) (mem : gmap Z Z) : option (Z * gmap Z Z) :=
  '(nptr, mem) ←
    (if size + 8 <? len then
       mem ← WRITE_WORD (ptr + 2) size mem;
       let nptr := next_block ptr size in
       mem ← WRITE_WORD nptr 0 mem;
       mem ← WRITE_WORD (nptr + 2) (len - size - 2) mem;
       Some (nptr, mem)
     else Some (nptr, mem));
  mem ← WRITE_WORD ptr 0xfffe mem;
  first ← READ_WORD mem mm_first_free;
  mem ← (if ptr =? first then
           nptr ← skip_used fuel nptr mem; WRITE_WORD mm_first_free nptr mem
         else Some mem);
  Some (u16 (ptr + 4), mem).
Fixpoint malloc_loop (fuel : nat) (size ptr : Z) (mem : gmap Z Z) : option (Z * gmap Z Z) :=
  if ptr <? mm_start then Some (0, mem)
  else
    match fuel with
    | O => None
    | S fuel =>
        type ← READ_WORD mem ptr;
        len ← READ_WORD mem (ptr + 2);
        let nptr := next_block ptr len in
        '(len, nptr, mem) ← (if type =? 0 then merge_free fuel ptr len nptr mem else Some (len, nptr, mem));
        if (type =? 0) && (size <? len) then take_block fuel ptr len nptr size mem
        else malloc_loop fuel size nptr mem
    end.
Definition brickos_malloc (size : Z) (mem : gmap Z Z) : option (Z * gmap Z Z) :=
  if mm_start =? 0 then Some (0, mem)
  else malloc_loop FUEL (u16 ((size + 1) >>! 1)) mm_start mem.
End Heap.
