(* ===== verification/BrickOsProps.v ===== *)
(** * BrickOsProps: the heap operations keep the heap and the programs in it

    The abstract view of the heap is the list of its blocks; an allocation is a
    block that is not free, with its address. *)
From S2P Require Export BrickOs.

(** ** Words in memory *)
Lemma word_at_put o v mem : word v → word_at (put_word o v mem) o = v.
Proof.
  intros Hv. unfold word_at, put_word. rewrite get0_insert_eq, get0_insert_ne, get0_insert_eq by lia.
  rewrite u8_id by auto with width. apply join_split. done.
Qed.
Lemma get0_put o v mem i : i < o ∨ o + 2 <= i → get0 (put_word o v mem) i = get0 mem i.
Proof. intros. unfold put_word. rewrite !get0_insert_ne by lia. done. Qed.
Lemma word_at_ext mem mem' o : get0 mem' o = get0 mem o → get0 mem' (o + 1) = get0 mem (o + 1) →
  word_at mem' o = word_at mem o.
Proof. unfold word_at. intros -> ->. done. Qed.
Lemma word_at_put_ne o o' v mem : o' + 2 <= o ∨ o + 2 <= o' → word_at (put_word o v mem) o' = word_at mem o'.
Proof. intros. apply word_at_ext; apply get0_put; lia. Qed.
Lemma read_ok mem o : 0 <= o → o + 1 < 65536 → READ_WORD mem o = Some (word_at mem o).
Proof. intros. unfold READ_WORD, in_memory. rewrite (proj2 (Z.leb_le 0 o)), (proj2 (Z.ltb_lt _ _)) by lia. done. Qed.
Lemma write_ok mem o v : 0 <= o → o + 1 < 65536 → WRITE_WORD o v mem = Some (put_word o v mem).
Proof. intros. unfold WRITE_WORD, in_memory. rewrite (proj2 (Z.leb_le 0 o)), (proj2 (Z.ltb_lt _ _)) by lia. done. Qed.

(** The word at an address after a chain of writes. *)
Ltac read_words :=
  repeat (rewrite word_at_put_ne by lia); rewrite word_at_put by (unfold word; lia); reflexivity.

(** ** The blocks from [a] to the end of the address space *)
Fixpoint heap (a : Z) (bs : list (Z * Z)) (mem : gmap Z Z) : Prop :=
  match bs with
  | [] => a = 65536
  | (t, l) :: bs => word_at mem a = t ∧ word_at mem (a + 2) = l ∧ 0 <= l ∧ heap (a + 4 + 2 * l) bs mem
  end.
(** The last block is reserved: it covers the on-chip memory. *)
Definition RESERVED : Z := 0xffff.
Fixpoint ends_owned (bs : list (Z * Z)) : Prop :=
  match bs with [] => True | [(t, _)] => t = RESERVED | _ :: bs => ends_owned bs end.
(** Address, owner and length of the blocks that are not free. *)
Fixpoint allocs (a : Z) (bs : list (Z * Z)) : list (Z * Z * Z) :=
  match bs with
  | [] => []
  | (t, l) :: bs => (if t =? 0 then [] else [(a, t, l)]) ++ allocs (a + 4 + 2 * l) bs
  end.
(** The bytes of an allocation, with its two words in front. *)
Definition inside (bl : Z * Z * Z) (i : Z) : Prop := bl.1.1 <= i < bl.1.1 + 4 + 2 * bl.2.

Lemma heap_top bs a mem : heap a bs mem → a + 4 * Z.of_nat (length bs) <= 65536.
Proof.
  revert a. induction bs as [|[t l] bs IH]; intros a H; cbn [heap length] in *; [lia|].
  destruct H as (_ & _ & Hl & H). apply IH in H. lia.
Qed.
Lemma heap_frame bs a mem mem' :
  heap a bs mem → (∀ i, a <= i → get0 mem' i = get0 mem i) → heap a bs mem'.
Proof.
  revert a. induction bs as [|[t l] bs IH]; intros a H Hs; cbn [heap] in *; [done|].
  destruct H as (Ht & Hl & Hp & H). rewrite !(word_at_ext mem mem') by (apply Hs; lia).
  split_and!; try done. apply IH; [done|]. intros. apply Hs. lia.
Qed.
Lemma allocs_above bs a mem bl : heap a bs mem → bl ∈ allocs a bs → a <= bl.1.1.
Proof.
  revert a. induction bs as [|[t l] bs IH]; intros a H Hin; cbn [heap allocs] in *.
  - apply elem_of_nil in Hin. done.
  - destruct H as (_ & _ & Hp & H). apply elem_of_app in Hin as [Hin|Hin].
    + destruct (t =? 0); [apply elem_of_nil in Hin; done|].
      apply list_elem_of_singleton in Hin as ->. cbn. lia.
    + apply IH in Hin; [lia|done].
Qed.
Lemma ends_owned_tail b bs : ends_owned (b :: bs) → ends_owned bs.
Proof. destruct bs; [done|]. destruct b. done. Qed.
Lemma ends_owned_cons b bs : bs ≠ [] → ends_owned bs → ends_owned (b :: bs).
Proof. destruct bs; [done|]. destruct b. done. Qed.
Lemma ends_owned_free t l bs : t ≠ RESERVED → ends_owned ((t, l) :: bs) → bs ≠ [].
Proof. destruct bs; done. Qed.
Lemma heap_nonempty a bs mem : heap a bs mem → a < 65536 → bs ≠ [].
Proof. intros H Ha ->. cbn in H. lia. Qed.

Section Ops.
Context (mm_start ff : Z).
Hypothesis Hff : 0 <= ff ∧ ff + 2 <= mm_start.

(** Only [mm_first_free] is written. *)
Definition only_first (mem mem' : gmap Z Z) : Prop :=
  ∀ i, i < ff ∨ ff + 2 <= i → get0 mem' i = get0 mem i.
Lemma set_first (c : bool) v mem : mm_start < 65536 →
  ∃ mem', (if c then WRITE_WORD ff v mem else Some mem) = Some mem' ∧ only_first mem mem'.
Proof.
  intros. destruct c; [rewrite write_ok by lia|]; eexists; (split; [done|]); intros i Hi; [|done].
  apply get0_put. lia.
Qed.

Lemma merge_free_ok bs : ∀ fuel ptr len mem,
  bs ≠ [] → ends_owned bs → (length bs < fuel)%nat → mm_start <= ptr → 0 <= len →
  heap (ptr + 4 + 2 * len) bs mem → word_at mem (ptr + 2) = len →
  ∃ len' bs' mem',
    merge_free ff fuel ptr len (ptr + 4 + 2 * len) mem = Some (len', ptr + 4 + 2 * len', mem') ∧
    heap (ptr + 4 + 2 * len') bs' mem' ∧ bs' ≠ [] ∧ ends_owned bs' ∧ 0 <= len' ∧
    (length bs' <= length bs)%nat ∧ word_at mem' (ptr + 2) = len' ∧
    allocs (ptr + 4 + 2 * len') bs' = allocs (ptr + 4 + 2 * len) bs ∧
    (∀ i, i < ff ∨ ff + 2 <= i → i < ptr + 2 ∨ ptr + 4 <= i → get0 mem' i = get0 mem i).
Proof.
  induction bs as [|[t l] bs IH]; intros fuel ptr len mem Hne Ho Hf Hp Hl Hh Hw; [done|].
  destruct fuel as [|fuel]; [cbn in Hf; lia|]. cbn [length] in Hf. cbn [merge_free].
  pose proof (heap_top _ _ _ Hh) as Htop. cbn [length] in Htop.
  destruct Hh as (Ht & Hl2 & Hl2p & Hh).
  pose proof (heap_top _ _ _ Hh) as Htop'.
  rewrite !read_ok by lia. cbn [mbind option_bind]. rewrite Ht.
  destruct (Z.eqb_spec t 0) as [->|Ht0].
  - destruct (set_first (ptr + 4 + 2 * len =? word_at mem ff) ptr mem) as (m1 & -> & H1); [lia|].
    cbn [mbind option_bind]. rewrite read_ok by lia. cbn [mbind option_bind].
    rewrite write_ok by lia. cbn [mbind option_bind].
    rewrite (word_at_ext mem m1) by (apply H1; lia). rewrite Hl2.
    pose proof (ends_owned_free 0 _ _ ltac:(done) Ho) as Hne'.
    assert (0 < Z.of_nat (length bs)) by (destruct bs; [done|cbn; lia]).
    rewrite (u16_id (len + _)) by (unfold word; lia).
    unfold next_block. rewrite u16_id by (unfold word; lia).
    set (m2 := put_word (ptr + 2) (len + (2 + l)) m1).
    destruct (IH fuel ptr (len + (2 + l)) m2) as (len' & bs' & m' & E & Hh' & Hn' & Ho' & Hl' & Hlen & Hw' & Ha & Hfr);
      [done|apply (ends_owned_tail _ _ Ho)|lia|done|lia| | |].
    + replace (ptr + 4 + 2 * (len + (2 + l))) with (ptr + 4 + 2 * len + 4 + 2 * l) by lia.
      eapply heap_frame; [exact Hh|]. intros i Hi. unfold m2. rewrite get0_put by lia. apply H1. lia.
    + unfold m2. apply word_at_put. unfold word. lia.
    + exists len', bs', m'. split_and!; try done; [cbn; lia| |].
      * rewrite Ha. change (allocs ?a ((0, l) :: bs)) with (allocs (a + 4 + 2 * l) bs). f_equal. lia.
      * intros i Hi1 Hi2. rewrite Hfr by done. unfold m2. rewrite get0_put by lia. apply H1. lia.
  - exists len, ((t, l) :: bs), mem. split_and!; try done.
Qed.

(** *** Allocation *)
Lemma skip_used_ok bs : ∀ fuel a mem,
  heap a bs mem → mm_start <= a → (length bs < fuel)%nat → 4 <= mm_start →
  ∃ v, skip_used mm_start fuel (u16 a) mem = Some v.
Proof.
  induction bs as [|[t l] bs IH]; intros [|fuel] a mem Hh Ha Hf Hs; try (cbn in Hf; lia).
  - cbn [heap] in Hh. subst a. exists 0. cbn [skip_used]. change (u16 65536) with 0.
    rewrite !read_ok by lia. cbn [mbind option_bind].
    rewrite (proj2 (Z.leb_gt mm_start 0)), andb_false_r by lia. done.
  - pose proof (heap_top _ _ _ Hh) as Htop. cbn [length] in Htop, Hf.
    destruct Hh as (Ht & Hl & Hp & Hh). pose proof (heap_top _ _ _ Hh) as Htop'.
    rewrite u16_id by (unfold word; lia). cbn [skip_used]. rewrite !read_ok by lia.
    cbn [mbind option_bind]. destruct (_ && _); [|eauto]. rewrite Hl.
    apply IH; [done|lia|lia|done].
Qed.
(** The end of an allocation: [mm_first_free] moves on if it was the block. *)
Lemma store_first fuel ptr bs a mem :
  heap a bs mem → mm_start <= a → (length bs < fuel)%nat → 4 <= mm_start → mm_start < 65536 →
  ∃ mem', (if ptr =? word_at mem ff
           then nptr ← skip_used mm_start fuel (u16 a) mem; WRITE_WORD ff nptr mem
           else Some mem) = Some mem' ∧ only_first mem mem'.
Proof.
  intros Hh Ha Hf H4 Hs. destruct (skip_used_ok bs fuel a mem) as [v Hv]; [done..|].
  destruct (ptr =? word_at mem ff); [|exists mem; split; [done|intros i _; done]].
  rewrite Hv. cbn [mbind option_bind]. rewrite write_ok by lia. eexists. split; [done|].
  intros i Hi. apply get0_put. lia.
Qed.
(** What an allocation does to the blocks from [a]. *)
Definition allocated (a size : Z) (bs bs' : list (Z * Z)) (addr : Z) : Prop :=
  (addr = 0 ∧ allocs a bs' = allocs a bs ∧ Forall (λ b, b.1 = 0 → b.2 <= size) bs') ∨
  ∃ n, size <= n ∧ allocs a bs' ≡ₚ (addr - 4, 0xfffe, n) :: allocs a bs.

Lemma take_block_ok fuel ptr len bs size mem :
  heap ptr ((0, len) :: bs) mem → bs ≠ [] → ends_owned bs → mm_start <= ptr → 4 <= mm_start →
  0 <= size < len → (S (length bs) < fuel)%nat →
  ∃ mem' bs' n, take_block mm_start ff fuel ptr len (ptr + 4 + 2 * len) size mem = Some (ptr + 4, mem') ∧
    heap ptr bs' mem' ∧ ends_owned bs' ∧ size <= n ∧
    allocs ptr bs' = (ptr, 0xfffe, n) :: allocs (ptr + 4 + 2 * len) bs ∧
    (∀ i, i < ff ∨ ff + 2 <= i → i < ptr ∨ ptr + 4 + 2 * len <= i → get0 mem' i = get0 mem i).
Proof.
  intros Hh Hne Ho Hp H4 Hs Hf. destruct Hh as (Ht & Hl & Hlp & Hh).
  pose proof (heap_top _ _ _ Hh) as Htop. assert (0 < Z.of_nat (length bs)) by (destruct bs; [done|cbn; lia]).
  unfold take_block. destruct (Z.ltb_spec (size + 8) len) as [Hsplit|Hsplit].
  - rewrite write_ok by lia. cbn [mbind option_bind]. unfold next_block.
    rewrite !u16_id by (unfold word; lia). rewrite write_ok by lia. cbn [mbind option_bind].
    rewrite write_ok by lia. cbn [mbind option_bind]. rewrite write_ok by lia. cbn [mbind option_bind].
    rewrite read_ok by lia. cbn [mbind option_bind].
    set (m1 := put_word ptr 0xfffe _).
    assert (heap ptr ((0xfffe, size) :: (0, len - size - 2) :: bs) m1) as Hh1.
    { cbn [heap]. unfold m1. split_and!; [read_words..|lia|read_words|read_words|lia|].
      eapply heap_frame.
      - replace (ptr + 4 + 2 * size + 4 + 2 * (len - size - 2)) with (ptr + 4 + 2 * len) by lia. exact Hh.
      - intros i Hi. rewrite !get0_put by lia. done. }
    destruct (store_first fuel ptr ((0, len - size - 2) :: bs) (ptr + 4 + 2 * size) m1)
      as (m2 & E2 & H2); [apply Hh1|lia|cbn; lia|done|lia|].
    rewrite u16_id in E2 by (unfold word; lia). rewrite E2. cbn [mbind option_bind].
    exists m2, ((0xfffe, size) :: (0, len - size - 2) :: bs), size. split_and!; try done.
    + eapply heap_frame; [exact Hh1|]. intros i Hi. apply H2. lia.
    + repeat (apply ends_owned_cons; [done|]). done.
    + cbn [allocs Z.eqb app]. do 2 f_equal. lia.
    + intros i Hi1 Hi2. rewrite H2 by done. unfold m1. rewrite !get0_put by lia. done.
  - cbn [mbind option_bind]. rewrite write_ok by lia. cbn [mbind option_bind].
    rewrite read_ok by lia. cbn [mbind option_bind]. rewrite u16_id by (unfold word; lia).
    set (m1 := put_word ptr 0xfffe mem).
    assert (heap ptr ((0xfffe, len) :: bs) m1) as Hh1.
    { cbn [heap]. unfold m1. rewrite word_at_put, word_at_put_ne by (unfold word; lia).
      split_and!; try done. eapply heap_frame; [exact Hh|]. intros i Hi. rewrite get0_put by lia. done. }
    destruct (store_first fuel ptr bs (ptr + 4 + 2 * len) m1) as (m2 & E2 & H2);
      [apply Hh1|lia|lia|done|lia|].
    rewrite u16_id in E2 by (unfold word; lia). rewrite E2. cbn [mbind option_bind].
    exists m2, ((0xfffe, len) :: bs), len. split_and!; try done; [| |lia|].
    + eapply heap_frame; [exact Hh1|]. intros i Hi. apply H2. lia.
    + apply ends_owned_cons; done.
    + intros i Hi1 Hi2. rewrite H2 by done. unfold m1. rewrite !get0_put by lia. done.
Qed.

(** Bytes that no operation may touch: outside of the heap, and in allocations. *)
Definition kept (a : Z) (T : list (Z * Z * Z)) (i : Z) : Prop :=
  (i < ff ∨ ff + 2 <= i) ∧ (i < a ∨ ∃ bl, bl ∈ T ∧ inside bl i).
Lemma kept_below a b T i : a <= b → i < b → a <= i → ff + 2 <= a → kept b T i.
Proof. intros. split; [lia|left; lia]. Qed.
Lemma kept_free a len bs mem T i : heap (a + 4 + 2 * len) bs mem → 0 <= len →
  kept a T i → T = allocs (a + 4 + 2 * len) bs → kept (a + 4 + 2 * len) T i ∧ (i < a ∨ a + 4 + 2 * len <= i).
Proof.
  intros Hh Hl [Hi Hk] ->. destruct Hk as [Hk|(bl & Hin & Hbl)].
  - split; [split; [done|left; lia]|lia].
  - pose proof (allocs_above _ _ _ _ Hh Hin). unfold inside in Hbl.
    split; [split; [done|right; exists bl; done]|lia].
Qed.
Lemma heap_step t l a bs bs' mem mem' :
  heap a ((t, l) :: bs) mem → heap (a + 4 + 2 * l) bs' mem' →
  (∀ i, a <= i < a + 4 → get0 mem' i = get0 mem i) → heap a ((t, l) :: bs') mem'.
Proof.
  cbn [heap]. intros (Ht & Hl & Hp & _) Hh Hs. rewrite !(word_at_ext mem mem') by (apply Hs; lia). done.
Qed.
Lemma ends_owned_step t l a bs bs' mem mem' :
  heap a ((t, l) :: bs) mem → heap (a + 4 + 2 * l) bs' mem' →
  ends_owned ((t, l) :: bs) → ends_owned bs' → ends_owned ((t, l) :: bs').
Proof.
  intros (_ & _ & _ & Hh) Hh' Ho Ho'. destruct bs' as [|b' bs']; [|apply ends_owned_cons; done].
  cbn [heap] in Hh'. destruct bs; [done|]. apply heap_top in Hh. cbn [length] in Hh. lia.
Qed.
Lemma kept_tail a t l T i : 0 <= l → kept a ((a, t, l) :: T) i → kept (a + 4 + 2 * l) T i.
Proof.
  intros Hl [Hi [Hk|(bl & [->|Hin]%elem_of_cons & Hbl)]]; split; try done.
  - left. lia.
  - left. unfold inside in Hbl. cbn in Hbl. lia.
  - right. exists bl. done.
Qed.
(** [r] is the outcome of an allocation among the blocks [bs] from [a]. *)
Definition allocates (r : option (Z * gmap Z Z)) (a size : Z) (bs : list (Z * Z)) (mem : gmap Z Z) : Prop :=
  ∃ addr mem' bs', r = Some (addr, mem') ∧ heap a bs' mem' ∧ ends_owned bs' ∧
    allocated a size bs bs' addr ∧ (∀ i, kept a (allocs a bs) i → get0 mem' i = get0 mem i).
Lemma allocs_owned a t l bs : t ≠ 0 → allocs a ((t, l) :: bs) = (a, t, l) :: allocs (a + 4 + 2 * l) bs.
Proof. intros. cbn [allocs]. rewrite (proj2 (Z.eqb_neq t 0)) by done. done. Qed.
Lemma allocs_free a l bs : allocs a ((0, l) :: bs) = allocs (a + 4 + 2 * l) bs.
Proof. done. Qed.
Lemma allocates_owned r a t l size bs mem :
  t ≠ 0 → heap a ((t, l) :: bs) mem → ends_owned ((t, l) :: bs) → mm_start <= a →
  allocates r (a + 4 + 2 * l) size bs mem → allocates r a size ((t, l) :: bs) mem.
Proof.
  intros Ht0 Hh Ho Ha (addr & m' & bs' & E & Hh2 & Ho' & Hal & Hf').
  pose proof Hh as (_ & _ & Hlp & _). exists addr, m', ((t, l) :: bs').
  split_and!; [done| | | |].
  - apply (heap_step t l a bs bs' mem m'); [done..|]. intros i Hi. apply Hf', kept_below with a; lia.
  - apply (ends_owned_step t l a bs bs' mem m'); done.
  - unfold allocated. rewrite !allocs_owned by done.
    destruct Hal as [(-> & Hal & Hfa)|(k & Hk & Hal)]; [left|right; exists k].
    + split_and!; [done|congruence|]. constructor; [done|done].
    + split; [done|]. rewrite Hal. apply Permutation_swap.
  - intros i Hi. apply Hf'. rewrite allocs_owned in Hi by done. apply (kept_tail _ _ _ _ _ Hlp Hi).
Qed.
Lemma allocates_free r a len size bs mem :
  heap a ((0, len) :: bs) mem → bs ≠ [] → mm_start <= a → len <= size →
  allocates r (a + 4 + 2 * len) size bs mem → allocates r a size ((0, len) :: bs) mem.
Proof.
  intros Hh Hne Ha Hfit (addr & m' & bs' & E & Hh2 & Ho' & Hal & Hf').
  pose proof Hh as (_ & _ & Hlp & Hh1). pose proof (heap_top _ _ _ Hh1) as Htop.
  assert (0 < Z.of_nat (length bs)) by (destruct bs; [done|cbn; lia]).
  exists addr, m', ((0, len) :: bs'). split_and!; [done| | | |].
  - apply (heap_step 0 len a bs bs' mem m'); [done..|]. intros i Hi. apply Hf', kept_below with a; lia.
  - apply ends_owned_cons; [apply (heap_nonempty _ _ _ Hh2); lia|done].
  - destruct Hal as [(-> & Hal & Hfa)|Hal]; [left|right; done].
    split_and!; [done..|]. constructor; [cbn; lia|done].
  - intros i Hi. destruct (kept_free _ _ _ _ _ _ Hh1 Hlp Hi eq_refl) as [Hi1 _]. apply Hf', Hi1.
Qed.
(** The merge before the block is looked at. *)
Lemma allocates_merged r a l len size bs bs1 mem m1 :
  heap a ((0, len) :: bs1) m1 → allocs (a + 4 + 2 * len) bs1 = allocs (a + 4 + 2 * l) bs →
  (∀ i, i < ff ∨ ff + 2 <= i → i < a + 2 ∨ a + 4 <= i → get0 m1 i = get0 mem i) →
  allocates r a size ((0, len) :: bs1) m1 → allocates r a size ((0, l) :: bs) mem.
Proof.
  intros (_ & _ & Hlp & Hh1) Ha Hf1 (addr & m' & bs' & E & Hh2 & Ho' & Hal & Hf').
  unfold allocates, allocated in *. rewrite allocs_free, Ha in Hal, Hf'.
  exists addr, m', bs'. split_and!; [done..|]. rewrite allocs_free, <- Ha in *.
  intros i Hi. rewrite Hf' by done.
  destruct (kept_free _ _ _ _ _ _ Hh1 Hlp Hi eq_refl) as [[Hi1 _] Hi2]. apply Hf1; [done|lia].
Qed.
Lemma take_block_allocates fuel a len bs size mem :
  heap a ((0, len) :: bs) mem → bs ≠ [] → ends_owned bs → mm_start <= a → 4 <= mm_start →
  0 <= size < len → (S (length bs) < fuel)%nat →
  allocates (take_block mm_start ff fuel a len (a + 4 + 2 * len) size mem) a size ((0, len) :: bs) mem.
Proof.
  intros Hh Hne Ho Ha H4 Hs Hf.
  destruct (take_block_ok fuel a len bs size mem Hh) as (m' & bs' & k & E & Hh3 & Ho' & Hk & Ha' & Hf');
    [done..|].
  pose proof Hh as (_ & _ & Hlp & Hh1).
  exists (a + 4), m', bs'. split_and!; [done..| |].
  - right. exists k. split; [done|]. rewrite Ha', allocs_free. replace (a + 4 - 4) with a by lia. done.
  - intros i Hi. destruct (kept_free _ _ _ _ _ _ Hh1 Hlp Hi eq_refl) as [[Hi1 _] Hi2].
    apply Hf'; done.
Qed.
Lemma malloc_loop_ok n : ∀ bs fuel size a mem,
  (length bs <= n)%nat → (S (length bs) < fuel)%nat → heap a bs mem → ends_owned bs →
  mm_start <= a → 4 <= mm_start → 0 <= size →
  allocates (malloc_loop mm_start ff fuel size (u16 a) mem) a size bs mem.
Proof.
  induction n as [|n IH]; intros [|[t l] bs] [|fuel] size a mem Hn Hf Hh Ho Ha H4 Hs;
    cbn [length] in *; try lia.
  1-2: cbn [heap] in Hh; subst a; exists 0, mem, []; cbn [malloc_loop];
    change (u16 65536) with 0; rewrite (proj2 (Z.ltb_lt 0 mm_start)) by lia;
    split_and!; try done; left; done.
  pose proof (heap_top _ _ _ Hh) as Htop. cbn [length] in Htop.
  pose proof Hh as (Ht & Hl & Hlp & Hh'). pose proof (heap_top _ _ _ Hh') as Htop'.
  rewrite u16_id by (unfold word; lia). cbn [malloc_loop].
  rewrite (proj2 (Z.ltb_ge a mm_start)) by lia.
  rewrite !read_ok by lia. cbn [mbind option_bind]. rewrite Ht, Hl. unfold next_block.
  destruct (Z.eqb_spec t 0) as [->|Ht0]; cbn [andb mbind option_bind].
  - pose proof (ends_owned_free 0 _ _ ltac:(done) Ho) as Hne.
    assert (0 < Z.of_nat (length bs)) by (destruct bs; [done|cbn; lia]).
    rewrite u16_id by (unfold word; lia).
    destruct (merge_free_ok bs fuel a l mem) as (len & bs1 & m1 & -> & Hh1 & Hne1 & Ho1 & Hl1 & Hlen1 & Hw1 & Ha1 & Hf1);
      [done|apply (ends_owned_tail _ _ Ho)|lia|done|lia|done|done|].
    cbn [mbind option_bind].
    assert (heap a ((0, len) :: bs1) m1) as Hh2.
    { cbn [heap]. rewrite (word_at_ext mem m1) by (apply Hf1; lia). done. }
    apply (allocates_merged _ _ _ _ _ _ _ _ _ Hh2 Ha1 Hf1).
    destruct (Z.ltb_spec size len) as [Hfit|Hfit]; [apply take_block_allocates; done || lia|].
    apply allocates_free; [done..|]. pose proof (heap_top _ _ _ Hh1) as Htop1.
    assert (0 < Z.of_nat (length bs1)) by (destruct bs1; [done|cbn; lia]).
    rewrite <- (u16_id (a + 4 + 2 * len)) at 1 by (unfold word; lia). apply IH; done || lia.
  - apply allocates_owned; [done..|]. apply IH; try done; [lia..|apply (ends_owned_tail _ _ Ho)|lia].
Qed.

(** *** Release *)
Definition others (addr : Z) (T : list (Z * Z * Z)) : list (Z * Z * Z) :=
  filter (λ bl, bl.1.1 ≠ addr - 4) T.
Definition frees (r : option (gmap Z Z)) (addr a : Z) (bs : list (Z * Z)) (mem : gmap Z Z) : Prop :=
  ∃ mem' bs', r = Some mem' ∧ heap a bs' mem' ∧ ends_owned bs' ∧
    allocs a bs' = others addr (allocs a bs) ∧
    (∀ i, kept a (allocs a bs') i → get0 mem' i = get0 mem i).
Lemma others_all addr T : (∀ bl, bl ∈ T → bl.1.1 ≠ addr - 4) → others addr T = T.
Proof.
  unfold others. induction T as [|bl T IH]; intros H; [done|].
  rewrite filter_cons_True by (apply H; constructor). f_equal. apply IH.
  intros bl' Hin. apply H. constructor. done.
Qed.
Lemma others_above addr a bs mem : heap a bs mem → addr - 4 < a → others addr (allocs a bs) = allocs a bs.
Proof.
  intros Hh Ha. apply others_all. intros bl Hin.
  pose proof (allocs_above _ _ _ _ Hh Hin). lia.
Qed.
Lemma others_cons addr a t l bs :
  addr - 4 ≠ a → others addr (allocs a ((t, l) :: bs)) =
    (if t =? 0 then [] else [(a, t, l)]) ++ others addr (allocs (a + 4 + 2 * l) bs).
Proof.
  intros Hne. cbn [allocs]. unfold others. rewrite filter_app. f_equal.
  destruct (t =? 0); [done|]. rewrite filter_cons_True by (cbn; lia). done.
Qed.
Lemma others_here a t l bs mem : heap (a + 4 + 2 * l) bs mem → 0 <= l →
  others (a + 4) (allocs a ((t, l) :: bs)) = allocs (a + 4 + 2 * l) bs.
Proof.
  intros Hh Hl. cbn [allocs]. unfold others. rewrite filter_app.
  change (filter _ (allocs (a + 4 + 2 * l) bs)) with (others (a + 4) (allocs (a + 4 + 2 * l) bs)).
  rewrite (others_above _ _ _ _ Hh) by lia. destruct (t =? 0); [done|].
  rewrite filter_cons_False by (cbn; lia). done.
Qed.

Lemma frees_step r addr a t l bs mem :
  addr - 4 ≠ a → heap a ((t, l) :: bs) mem → ends_owned ((t, l) :: bs) → mm_start <= a →
  frees r addr (a + 4 + 2 * l) bs mem → frees r addr a ((t, l) :: bs) mem.
Proof.
  intros Hne Hh Ho Ha (m' & bs' & E & Hh2 & Ho' & Hal & Hf').
  pose proof Hh as (_ & _ & Hlp & _). exists m', ((t, l) :: bs').
  assert (allocs a ((t, l) :: bs') = (if t =? 0 then [] else [(a, t, l)]) ++ allocs (a + 4 + 2 * l) bs')
    as HT by done.
  split_and!; [done| | | |].
  - apply (heap_step t l a bs bs' mem m'); [done..|]. intros i Hi. apply Hf', kept_below with a; lia.
  - apply (ends_owned_step t l a bs bs' mem m'); done.
  - rewrite others_cons, HT, Hal by done. done.
  - intros i Hi. apply Hf'. rewrite HT in Hi. destruct (t =? 0).
    + destruct (kept_free a l bs' m' _ i Hh2 Hlp Hi eq_refl) as [Hk _]. exact Hk.
    + apply (kept_tail _ _ _ _ _ Hlp Hi).
Qed.
Lemma free_block_ok fuel a t l bs mem :
  heap a ((t, l) :: bs) mem → bs ≠ [] → ends_owned bs → mm_start <= a → (length bs < fuel)%nat →
  frees (mem ← WRITE_WORD a 0 mem;
         first ← READ_WORD mem ff;
         mem ← (if first <? a then WRITE_WORD ff a mem else Some mem);
         '(_, _, mem) ← merge_free ff fuel a l (a + 4 + 2 * l) mem; Some mem)
    (a + 4) a ((t, l) :: bs) mem.
Proof.
  intros (Ht & Hl & Hlp & Hh) Hne Ho Ha Hf. pose proof (heap_top _ _ _ Hh) as Htop.
  rewrite write_ok by lia. cbn [mbind option_bind]. rewrite read_ok by lia. cbn [mbind option_bind].
  set (m0 := put_word a 0 mem).
  destruct (set_first (word_at m0 ff <? a) a m0) as (m1 & -> & H1); [lia|]. cbn [mbind option_bind].
  destruct (merge_free_ok bs fuel a l m1) as (len & bs1 & m2 & -> & Hh2 & Hne1 & Ho1 & Hl1 & _ & Hw & Hal & Hf2);
    [done..| | |].
  - eapply heap_frame; [exact Hh|]. intros i Hi. rewrite H1 by lia. apply get0_put. lia.
  - rewrite (word_at_ext m0) by (apply H1; lia). unfold m0. rewrite word_at_put_ne by lia. done.
  - cbn [mbind option_bind]. exists m2, ((0, len) :: bs1). split_and!; [done| | | |].
    + cbn [heap]. split_and!; try done. rewrite (word_at_ext m1) by (apply Hf2; lia).
      rewrite (word_at_ext m0) by (apply H1; lia). apply word_at_put. unfold word. lia.
    + apply ends_owned_cons; done.
    + rewrite allocs_free, Hal. symmetry. apply (others_here _ _ _ _ _ Hh Hlp).
    + intros i Hi. rewrite allocs_free in Hi.
      destruct (kept_free _ _ _ _ _ _ Hh2 Hl1 Hi eq_refl) as [[Hi1 _] Hi2].
      rewrite Hf2 by (done || lia). rewrite H1 by done. apply get0_put. lia.
Qed.
Lemma free_loop_ok n : ∀ bs fuel addr a mem,
  (length bs <= n)%nat → (length bs < fuel)%nat → heap a bs mem → ends_owned bs →
  mm_start <= a → 4 <= mm_start → (∀ l, (addr - 4, RESERVED, l) ∉ allocs a bs) →
  frees (free_loop mm_start ff fuel addr (u16 a) mem) addr a bs mem.
Proof.
  induction n as [|n IH]; intros [|[t l] bs] [|fuel] addr a mem Hn Hf Hh Ho Ha H4 Hres;
    cbn [length] in *; try lia.
  1-2: cbn [heap] in Hh; subst a; exists mem, []; cbn [free_loop];
    change (u16 65536) with 0; rewrite (proj2 (Z.ltb_lt 0 mm_start)) by lia; done.
  pose proof (heap_top _ _ _ Hh) as Htop. cbn [length] in Htop.
  pose proof Hh as (Ht & Hl & Hlp & Hh'). pose proof (heap_top _ _ _ Hh') as Htop'.
  rewrite u16_id by (unfold word; lia). cbn [free_loop].
  rewrite (proj2 (Z.ltb_ge a mm_start)) by lia.
  rewrite read_ok by lia. cbn [mbind option_bind]. rewrite Hl. unfold next_block.
  destruct (Z.eqb_spec (a + 4) addr) as [<-|Hne].
  - assert (bs ≠ []) as Hbs.
    { apply (ends_owned_free t l); [|done]. intros ->. apply (Hres l). cbn [allocs].
      replace (a + 4 - 4) with a by lia. apply elem_of_app. left. apply list_elem_of_singleton. done. }
    assert (0 < Z.of_nat (length bs)) by (destruct bs; [done|cbn; lia]).
    rewrite u16_id by (unfold word; lia).
    apply free_block_ok; [done..|apply (ends_owned_tail _ _ Ho)|done|lia].
  - apply frees_step; [lia|done..|]. apply IH; [lia|lia|done|apply (ends_owned_tail _ _ Ho)|lia|done|].
    intros l' Hin. apply (Hres l'). cbn [allocs]. apply elem_of_app. right. done.
Qed.
End Ops.

(** ** The heap refines a table of allocations *)
Inductive heap_op := Malloc (size : Z) | Free (addr : Z).
Definition heap_run (mm_start ff : Z) (op : heap_op) (mem : gmap Z Z) : option (Z * gmap Z Z) :=
  match op with
  | Malloc size => brickos_malloc mm_start ff size mem
  | Free addr => mem ← brickos_free mm_start ff addr mem; Some (0, mem)
  end.
(** [table_step T op r T']: the operation on the table of allocations. *)
Inductive table_step (T : list (Z * Z * Z)) : heap_op → Z → list (Z * Z * Z) → Prop :=
  | step_malloc size addr n T' : size <= 2 * n → T' ≡ₚ (addr - 4, 0xfffe, n) :: T →
      table_step T (Malloc size) addr T'
  | step_full size : table_step T (Malloc size) 0 T
  | step_free addr : table_step T (Free addr) 0 (others addr T).
(** A request is a 16-bit number, and the reserved block is not released. *)
Definition allowed (T : list (Z * Z * Z)) (op : heap_op) : Prop :=
  match op with Malloc size => word size | Free addr => ∀ l, (addr - 4, RESERVED, l) ∉ T end.
Definition separate (b1 b2 : Z * Z * Z) : Prop := ∀ i, ¬ (inside b1 i ∧ inside b2 i).
Lemma allocs_disjoint bs a mem : heap a bs mem → ForallOrdPairs separate (allocs a bs).
Proof.
  revert a. induction bs as [|[t l] bs IH]; intros a Hh; [constructor|].
  destruct Hh as (_ & _ & Hl & Hh). cbn [allocs].
  destruct (t =? 0); [apply IH; done|]. constructor; [|apply IH; done].
  apply Forall_forall. intros bl Hin i [H1 H2].
  pose proof (allocs_above _ _ _ _ Hh Hin). unfold inside in *. cbn in H1. lia.
Qed.
Lemma heap_fuel bs a mem : heap a bs mem → 0 <= a → (S (length bs) < FUEL)%nat.
Proof. intros Hh Ha. apply heap_top in Hh. unfold FUEL. lia. Qed.
Lemma half_up size : word size → size <= 2 * u16 ((size + 1) >>! 1).
Proof. intros H. rewrite Z.shiftr_div_pow2 by lia. change (2 ^ 1) with 2. width_lia. Qed.

Lemma heap_run_ok mm_start ff bs op mem :
  0 <= ff → ff + 2 <= mm_start → 4 <= mm_start < 65536 →
  heap mm_start bs mem → ends_owned bs → allowed (allocs mm_start bs) op →
  ∃ r mem' bs', heap_run mm_start ff op mem = Some (r, mem') ∧
    heap mm_start bs' mem' ∧ ends_owned bs' ∧
    table_step (allocs mm_start bs) op r (allocs mm_start bs') ∧
    ForallOrdPairs separate (allocs mm_start bs') ∧
    (∀ bl i, bl ∈ allocs mm_start bs → bl ∈ allocs mm_start bs' → inside bl i →
      get0 mem' i = get0 mem i) ∧
    (∀ i, i < mm_start → i ≠ ff → i ≠ ff + 1 → get0 mem' i = get0 mem i).
Proof.
  intros Hf0 Hff H4 Hh Ho Hop. pose proof (heap_fuel _ _ _ Hh ltac:(lia)) as Hfuel.
  assert (∀ T i bl, bl ∈ T → bl ∈ allocs mm_start bs → inside bl i → kept ff mm_start T i) as Hin.
  { intros T i bl HT Hb Hi. pose proof (allocs_above _ _ _ _ Hh Hb) as Hab. unfold inside in Hi.
    split; [lia|right; exists bl; done]. }
  assert (∀ T i, i < mm_start → i ≠ ff → i ≠ ff + 1 → kept ff mm_start T i) as Hlow.
  { intros T i H1 H2 H3. split; [lia|left; lia]. }
  destruct op as [size|addr]; cbn [heap_run allowed] in *.
  - destruct (malloc_loop_ok mm_start ff ltac:(lia) (length bs) bs FUEL (u16 ((size + 1) >>! 1)) mm_start mem)
      as (addr & m' & bs' & E & Hh' & Ho' & Hal & Hf'); [done || lia || apply u16_word..|].
    exists addr, m', bs'. rewrite (u16_id mm_start) in E by (unfold word; lia).
    unfold brickos_malloc. rewrite (proj2 (Z.eqb_neq mm_start 0)) by lia.
    split_and!; [done..| |apply (allocs_disjoint _ _ _ Hh')| |].
    + destruct Hal as [(-> & -> & _)|(n & Hn & Hal)]; [apply step_full|].
      apply (step_malloc _ _ _ n); [|done]. pose proof (half_up size Hop). lia.
    + intros bl i Hb _ Hi. apply Hf', (Hin _ _ bl); done.
    + intros. apply Hf', Hlow; done.
  - destruct (free_loop_ok mm_start ff ltac:(lia) (length bs) bs FUEL addr mm_start mem)
      as (m' & bs' & E & Hh' & Ho' & Hal & Hf'); [done || lia..|].
    exists 0, m', bs'. rewrite (u16_id mm_start) in E by (unfold word; lia).
    unfold brickos_free. rewrite (proj2 (Z.eqb_neq mm_start 0)) by lia. rewrite E.
    split_and!; [done..| |apply (allocs_disjoint _ _ _ Hh')| |].
    + rewrite Hal. apply step_free.
    + intros bl i Hb Hb' Hi. apply Hf', (Hin _ _ bl); done.
    + intros. apply Hf', Hlow; done.
Qed.
(** C32: The heap operations on the emulated memory terminate and refine a table of
    allocations. Let the blocks from [_mm_start] to the end of the address space be
    well formed, the last one reserved, and [_mm_first_free] a word below the heap
    (whatever its value). Then [brickos_malloc] and [brickos_free] return, the blocks
    are well formed again, the allocations are the old ones and a new one of at least
    the requested size, or the old ones when no block is large enough, or the old ones
    without the one released; allocations never overlap; and neither the bytes and
    headers of the remaining allocations nor the memory below the heap, except
    [_mm_first_free], change. *)
Theorem brickos_heap_refine mm_start ff bs op mem :
  0 <= ff → ff + 2 <= mm_start → 4 <= mm_start < 65536 →
  heap mm_start bs mem → ends_owned bs → allowed (allocs mm_start bs) op →
  ∃ r mem' bs', heap_run mm_start ff op mem = Some (r, mem') ∧
    heap mm_start bs' mem' ∧ ends_owned bs' ∧
    table_step (allocs mm_start bs) op r (allocs mm_start bs') ∧
    ForallOrdPairs separate (allocs mm_start bs') ∧
    (∀ bl i, bl ∈ allocs mm_start bs → bl ∈ allocs mm_start bs' → inside bl i →
      get0 mem' i = get0 mem i) ∧
    (∀ i, i < mm_start → i ≠ ff → i ≠ ff + 1 → get0 mem' i = get0 mem i).
Proof. apply heap_run_ok. Qed.

(** ** Witness *)
(** A heap at 0x9000: a free block of 100 words, a program of 20, a free one of 50,
    and the reserved block. *)
Definition demo_blocks : list (Z * Z) := [(0, 100); (0xfffe, 20); (0, 50); (RESERVED, 0x374e)].
Fixpoint write_blocks (a : Z) (bs : list (Z * Z)) (mem : gmap Z Z) : gmap Z Z :=
  match bs with
  | [] => mem
  | (t, l) :: bs => write_blocks (a + 4 + 2 * l) bs (put_word (a + 2) l (put_word a t mem))
  end.
Definition demo_heap : gmap Z Z := write_blocks 0x9000 demo_blocks (put_word 0x8800 0x9000 ∅).
Lemma demo_heap_ok : heap 0x9000 demo_blocks demo_heap.
Proof. cbn [heap demo_blocks]. repeat split; vm_compute; congruence. Qed.
Lemma brickos_heap_refine_witness :
  ∃ r mem' bs', heap_run 0x9000 0x8800 (Malloc 60) demo_heap = Some (r, mem') ∧
    heap 0x9000 bs' mem' ∧ table_step [(0x90cc, 0xfffe, 20); (0x9160, RESERVED, 0x374e)] (Malloc 60) r
      (allocs 0x9000 bs').
Proof.
  destruct (brickos_heap_refine 0x9000 0x8800 demo_blocks (Malloc 60) demo_heap)
    as (r & m' & bs' & E & Hh & _ & Hs & _); [lia|lia|lia|apply demo_heap_ok|done|vm_compute; split; congruence|].
  exists r, m', bs'. split; [exact E|]. split; [exact Hh|]. exact Hs.
Defined.

(** Releasing a block behind the first free one moves [mm_first_free] past it: the
    comparison is the wrong way round. *)
Lemma free_moves_first :
  match brickos_free 0x9000 0x8800 0x90d0 demo_heap with
  | Some m => word_at demo_heap 0x8800 = 0x9000 ∧ word_at m 0x9000 = 0 ∧ word_at m 0x8800 = 0x90cc
  | None => False
  end.
Proof. vm_compute. done. Qed.
