(* ===== verification/Loader.v ===== *)
(** * Loader: COFF and brickOS executables ([coff.c], [lx.c], [firmware.c])

    A file is the list of its bytes.  Where a file is too short for a structure
    the code goes on with uninitialised memory; that, and a copy beyond the end of
    [memory], is [None]. *)
From Stdlib Require Import Ascii.
From stdpp Require Import strings.
From S2P Require Export Symbols BrickOs Srec.

(** [fread] of [n] bytes at [pos], all of which are there. *)
Definition fread (file : list Z) (pos n : Z) : option (list Z) :=
  let l := take (Z.to_nat n) (drop (Z.to_nat pos) file) in
  if (0 <=? pos) && (Z.of_nat (length l) =? n) then Some l else None.
(** The big-endian number in [n] bytes of a structure from [off]: [ntohs], [ntohl]. *)
Definition field (l : list Z) (off n : nat) : Z := address (take n (drop off l)).
(** Bytes that are read into [memory] at [a]. *)
Definition into_memory (a : Z) (l : list Z) (memory : gmap Z Z) : option (gmap Z Z) :=
  if (Z.of_nat (length l) =? 0) || (0 <=? a) && (a + Z.of_nat (length l) <=? 0x10000)
  then Some (store_bytes a l memory) else None.

(** ** COFF *)
Definition F_EXEC : Z := 0x0002.
Definition STYP_LOAD : Z := 0x0000 |! 0x0020 |! 0x0040.
Definition C_EXT : Z := 2.
Definition C_STAT : Z := 3.
Definition C_LABEL : Z := 6.
Record coff_header := CoffHeader { magic : Z; nscns : Z; symptr : Z; nsyms : Z; opthdr : Z; flags : Z }.
Definition read_coff_header (file : list Z) : option coff_header :=
  l ← fread file 0 20;
  Some (CoffHeader (field l 0 2) (field l 2 2) (field l 8 4) (field l 12 4) (field l 16 2) (field l 18 2)).
Record coff_aouthdr := CoffAouthdr { tsize : Z; dsize : Z; bsize : Z; entry : Z; text_start : Z }.
Definition read_aouthdr (file : list Z) : option coff_aouthdr :=
  l ← fread file 20 28;
  Some (CoffAouthdr (field l 4 4) (field l 8 4) (field l 12 4) (field l 16 4) (field l 20 4)).
Definition coff_init (file : list Z) : option bool :=
  h ← read_coff_header file;
  Some ((magic h =? 0x8300) && (flags h &? F_EXEC) && (opthdr h =? 28)).
(** Section [i]: its bytes go to its physical address if it is loaded. *)
Definition load_section (file : list Z) (i : Z) (memory : gmap Z Z) : option (gmap Z Z) :=
  l ← fread file (48 + i * 40) 40;
  if field l 36 4 &? STYP_LOAD then
    data ← fread file (field l 20 4) (field l 16 4);
    into_memory (field l 8 4) data memory
  else Some memory.
Fixpoint load_sections (file : list Z) (i : Z) (n : nat) (memory : gmap Z Z) : option (gmap Z Z) :=
  match n with
  | O => Some memory
  | S n => m ← load_section file i memory; load_sections file (i + 1) n m
  end.
Definition coff_read (file : list Z) (memory : gmap Z Z) : option (Z * gmap Z Z) :=
  h ← read_coff_header file;
  a ← read_aouthdr file;
  m ← load_sections file 0 (Z.to_nat (nscns h)) memory;
  Some (s32 (entry a), m).

(** A C string from the bytes at its address, up to its NUL. *)
Fixpoint cstring (l : list Z) : option string :=
  match l with
  | [] => None
  | c :: l => if c =? 0 then Some EmptyString
              else String (Ascii.ascii_of_nat (Z.to_nat c)) <$> cstring l
  end.
(** [entry.e.e.e_zeroes]: the name is in the entry or in the string table.  The
    table is behind the symbols and its offsets count from its length word. *)
Definition symbol_name (table : list Z) (e : list Z) : option string :=
  if negb (field e 0 4 =? 0) then cstring (take 8 e ++ [0])
  else
    let off := field e 4 4 in
    if 4 <=? off then cstring (drop (Z.to_nat (off - 4)) table) else None.
Definition starts_with_dot (name : string) : bool :=
  match name with String c _ => bool_decide (c = "."%char) | EmptyString => false end.
(** An entry: [e_value], [e_sclass]. *)
Definition add_entry (table e : list Z) (syms : tree) : option tree :=
  name ← symbol_name table e;
  let address := u16 (field e 8 4) in
  let sclass := field e 16 1 in
  if starts_with_dot name then Some syms
  else if (sclass =? C_EXT) || (sclass =? C_STAT) then Some (symbols_add (address, 0) name syms)
  else if sclass =? C_LABEL then
    let '(syms, old) := symbols_get (address, 0) syms in
    match old with
    | None => Some (symbols_add (address, 0) name syms)
    | Some _ => Some syms
    end
  else Some syms.
(** [fread(&entry, 18, 1, file)] at [pos]: at the end of the file the rest of the
    structure keeps what it held.  The auxiliary entries are skipped. *)
Fixpoint add_entries (file table : list Z) (n : nat) (pos : Z) (e : list Z) (syms : tree) : option tree :=
  match n with
  | O => Some syms
  | S n =>
      let new := take 18 (drop (Z.to_nat pos) file) in
      let e := new ++ drop (length new) e in
      if Z.of_nat (length e) =? 18 then
        syms ← add_entry table e syms;
        add_entries file table n (pos + Z.of_nat (length new) + 18 * field e 17 1) e syms
      else None
  end.
Definition coff_symbols (file : list Z) (syms : tree) : option tree :=
  h ← read_coff_header file;
  let end_syms := symptr h + 18 * nsyms h in
  l ← fread file end_syms 4;
  let table := take (Z.to_nat (address l)) (drop (Z.to_nat (end_syms + 4)) file) in
  add_entries file table (Z.to_nat (nsyms h)) (symptr h) [] syms.

(** ** Executables of brickOS *)
Record lx_header := LxHeader {
  base : Z; text_size : Z; data_size : Z; bss_size : Z; stack_size : Z; offset : Z; num_relocs : Z }.
(** The signature is the string [brickOS]. *)
Definition signature : list Z := [98; 114; 105; 99; 107; 79; 83; 0].
Definition lx_init (file : list Z) : option (option lx_header) :=
  sig ← fread file 0 8;
  if negb (bool_decide (sig = signature)) then Some None
  else
    l ← fread file 8 16;
    if negb (field l 0 2 =? 0) then Some None
    else Some (Some (LxHeader (field l 2 2) (field l 4 2) (field l 6 2) (field l 8 2) (field l 10 2)
                 (field l 12 2) (field l 14 2))).
(** One relocation: the word at [start + reloc] moves with the program. *)
Definition relocate (start base reloc : Z) (memory : gmap Z Z) : option (gmap Z Z) :=
  val ← READ_WORD memory (start + reloc);
  WRITE_WORD (start + reloc) (u16 (val + (start - base))) memory.
Fixpoint relocate_all (file : list Z) (start base pos : Z) (n : nat) (memory : gmap Z Z) : option (gmap Z Z) :=
  match n with
  | O => Some memory
  | S n =>
      l ← fread file pos 2;
      m ← relocate start base (address l) memory;
      relocate_all file start base (pos + 2) n m
  end.
Definition lx_read (file : list Z) (header : lx_header) (start : Z) (memory : gmap Z Z) : option (gmap Z Z) :=
  let size := text_size header + data_size header in
  data ← fread file 24 size;
  m ← into_memory start data memory;
  relocate_all file start (base header) (24 + size) (Z.to_nat (num_relocs header)) m.

(** ** Firmware

    The file is [None] when it cannot be opened.  The ROM waits for a firmware in
    the state 0xd; it is told the entry point and to run it. *)
Definition tell_rom (entry : Z) (memory : gmap Z Z) : gmap Z Z :=
  <[0xef06 := 8]> (<[0xee5e := 0x13]> (<[0xee63 := entry &! 0xff]> (<[0xee62 := u8 (entry >>! 8)]>
    (<[0xee83 := 2]> (<[0xee82 := 0]> memory))))).
Definition firm_load (file : option (list Z)) (memory : gmap Z Z) (syms : tree) : option (gmap Z Z * tree) :=
  if negb (get0 memory 0xee5e =? 0xd) then Some (memory, syms)
  else
    match file with
    | None => Some (memory, syms)
    | Some file =>
        is_coff ← coff_init file;
        '(entry, memory, syms) ←
          (if is_coff : bool then
             '(entry, memory) ← coff_read file memory;
             syms ← coff_symbols file syms;
             Some (entry, memory, syms)
           else '(entry, memory) ← srec_read file memory; Some (entry, memory, syms));
        if negb is_coff && (entry <? 0) || (entry =? 0) then Some (memory, syms)
        else Some (tell_rom entry memory, syms)
    end.

(** ** The ROM ([memory.c:read_rom])

    The format is chosen by the extension of the file's name, from its last dot;
    the file is [None] when it cannot be opened.  With another extension the
    handle that is closed at the end was never set. *)
Fixpoint extension (name : string) : option string :=
  match name with
  | EmptyString => None
  | String c rest =>
      match extension rest with
      | Some e => Some e
      | None => if bool_decide (c = "."%char) then Some name else None
      end
  end.
Definition read_rom (name : option string) (file : option (list Z)) (memory : gmap Z Z) (syms : tree)
    : option (bool * gmap Z Z * tree) :=
  match name ≫= extension with
  | None => Some (false, memory, syms)
  | Some ext =>
      if bool_decide (ext = ".coff"%string) then
        match file with
        | None => Some (false, memory, syms)
        | Some file =>
            is_coff ← coff_init file;
            if is_coff : bool then
              '(_, memory) ← coff_read file memory;
              syms ← coff_symbols file syms;
              Some (true, memory, syms)
            else Some (false, memory, syms)
        end
      else if bool_decide (ext = ".bin"%string) then
        match file with
        | None => Some (false, memory, syms)
        | Some file => Some (true, store_bytes 0 (take (Z.to_nat 0x4000) file) memory, syms)
        end
      else if bool_decide (ext = ".srec"%string) then
        match file with
        | None => Some (false, memory, syms)
        | Some file =>
            '(entry, memory) ← srec_read file memory;
            Some (0 <=? entry, memory, syms)
        end
      else None
  end.

(** ** Programs of brickOS

    [slot]: the digit the GUI sends.  The addresses come from the symbols of the
    firmware. *)
Record program := Program { p_file : list Z; p_coff : bool; p_header : lx_header }.
Definition DEFAULT_STACK_SIZE : Z := 1024.
Definition recognise (file : list Z) : option (option program) :=
  is_coff ← coff_init file;
  if is_coff : bool then
    a ← read_aouthdr file;
    let base := u16 (text_start a) in
    Some (Some (Program file true (LxHeader base (u16 (tsize a)) (u16 (dsize a)) (u16 (bsize a))
      DEFAULT_STACK_SIZE (u16 (entry a - base)) 0)))
  else h ← lx_init file; Some (option_map (Program file false) h).
Definition write_words (prog : Z) (l : list Z) (memory : gmap Z Z) : option (gmap Z Z) :=
  foldl (λ m '(i, v), m ← m; WRITE_WORD (prog + i) v m) (Some memory)
    (zip ((λ k, 2 * Z.of_nat k) <$> seq 0 (length l)) l).
(** The program's image: text and data, cleared bss, and the copy of the data. *)
Definition fill_program (p : program) (text : Z) (memory : gmap Z Z) (syms : tree) : option (gmap Z Z * tree) :=
  let h := p_header p in
  '(memory, syms) ←
    (if p_coff p then
       '(_, memory) ← coff_read (p_file p) memory;
       syms ← coff_symbols (p_file p) syms;
       Some (memory, syms)
     else memory ← lx_read (p_file p) h text memory; Some (memory, syms));
  let data := text + text_size h in
  memory ← into_memory (data + data_size h) (replicate (Z.to_nat (bss_size h)) 0) memory;
  memory ← into_memory (data + data_size h + bss_size h)
             (chars_from memory data (Z.to_nat (data_size h))) memory;
  Some (memory, syms).
Definition install (p : program) (prog text : Z) (memory : gmap Z Z) (syms : tree) : option (gmap Z Z * tree) :=
  let h := p_header p in
  let data := text + text_size h in
  memory ← write_words prog [text; data; data + data_size h; data + data_size h + bss_size h;
    text_size h; data_size h; bss_size h; stack_size h; offset h] memory;
  memory ← into_memory (prog + 18) [10] memory;
  '(memory, syms) ← fill_program p text memory syms;
  memory ← WRITE_WORD (prog + 20) (text_size h + data_size h) memory;
  Some (memory, syms).
(** The heap of a kernel: [brickos.c] and [bibo.c] load programs in the same way,
    each with its own [free] and [malloc], which take [mm_start] and
    [mm_first_free]. *)
Class KernelHeap := {
  heap_free : Z → Z → Z → gmap Z Z → option (gmap Z Z);
  heap_malloc : Z → Z → Z → gmap Z Z → option (Z * gmap Z Z) }.
Definition brickos_heap : KernelHeap := {| heap_free := brickos_free; heap_malloc := brickos_malloc |}.
Section Kernel.
Context `{!KernelHeap}.
Definition load_program (slot : Z) (file : option (list Z)) (memory : gmap Z Z) (syms : tree)
    : option (gmap Z Z * tree) :=
  let programs := symbols_getaddr "_programs"%string syms in
  let mm_start := symbols_getaddr "_mm_start"%string syms in
  let mm_first_free := symbols_getaddr "_mm_first_free"%string syms in
  let prog := u16 (programs + 22 * (slot - 48)) in
  if (mm_start =? 0) || (programs =? 0) then Some (memory, syms)
  else
    match file with
    | None => Some (memory, syms)
    | Some file =>
        p ← recognise file;
        match p with
        | None => Some (memory, syms)
        | Some p =>
            let h := p_header p in
            old ← READ_WORD memory (prog + 8);
            memory ← (if 0 <? old then
                        a ← READ_WORD memory prog; heap_free mm_start mm_first_free a memory
                      else Some memory);
            '(text, memory) ← heap_malloc mm_start mm_first_free
                                (u16 (text_size h + 2 * data_size h + bss_size h)) memory;
            if text =? 0 then Some (memory, syms)
            else if p_coff p && negb (text =? base h) then
              memory ← heap_free mm_start mm_first_free text memory; Some (memory, syms)
            else install p prog text memory syms
        end
    end.
(** The address the next program of [size] bytes will get; the block it would
    replace is released. *)
Definition newprogram_addr (slot size : Z) (memory : gmap Z Z) (syms : tree)
    : option (Z * gmap Z Z) :=
  let programs := symbols_getaddr "_programs"%string syms in
  let mm_start := symbols_getaddr "_mm_start"%string syms in
  let mm_first_free := symbols_getaddr "_mm_first_free"%string syms in
  let prog := u16 (programs + 22 * (slot - 48)) in
  if (programs =? 0) || (mm_start =? 0) then Some (0, memory)
  else
    old ← READ_WORD memory (prog + 8);
    memory ← (if 0 <? old then
                a ← READ_WORD memory prog;
                memory ← heap_free mm_start mm_first_free a memory;
                WRITE_WORD (prog + 8) 0 memory
              else Some memory);
    '(addr, memory) ← heap_malloc mm_start mm_first_free (u16 size) memory;
    memory ← (if addr =? 0 then Some memory else heap_free mm_start mm_first_free addr memory);
    Some (addr, memory).
End Kernel.
Definition brickos_load_program := @load_program brickos_heap.
Definition brickos_newprogram_addr := @newprogram_addr brickos_heap.
(** The answer to a query ([?]) and the effect of a digit. *)
Definition brickos_sethostaddr (c : Z) (memory : gmap Z Z) (syms : tree) : option Z * gmap Z Z :=
  let a := symbols_getaddr "_lnp_hostaddr"%string syms in
  if c =? 63 then (if a =? 0 then None else Some (get0 memory a >>! 4), memory)
  else if a =? 0 then (None, memory)
  else
    let addr := if 97 <? c then c - 97 + 10 else if 65 <? c then c - 65 + 10 else c - 48 in
    (None, <[a := u8 (addr <<! 4)]> memory).
Definition brickos_checkos (syms : tree) : bool := negb (symbols_getaddr "_mm_start"%string syms =? 0).
