(* ===== verification/LoaderProps.v ===== *)
(** * LoaderProps: relocation, and that a loaded program leaves the others alone *)
From Stdlib Require Import Ascii.
From stdpp Require Import strings.
From S2P Require Export Loader BrickOsProps SrecProps.

(** ** The file of a program *)
Definition words_be (l : list Z) : list Z := concat (be_bytes 2 <$> l).
Definition lx_file (h : lx_header) (image relocs : list Z) : list Z :=
  signature ++ words_be [0; base h; text_size h; data_size h; bss_size h; stack_size h; offset h;
                         num_relocs h] ++ image ++ words_be relocs.
Record well_formed (h : lx_header) (image relocs : list Z) : Prop := {
  lx_base : word (base h); lx_text : word (text_size h); lx_data : word (data_size h);
  lx_bss : word (bss_size h); lx_stack : word (stack_size h); lx_offset : word (offset h);
  lx_count : Z.of_nat (length relocs) = num_relocs h; lx_nrel : word (num_relocs h);
  lx_image : Z.of_nat (length image) = text_size h + data_size h;
  lx_bytes : Forall byte image;
  lx_relocs : Forall (λ r, word r ∧ r + 2 <= text_size h + data_size h) relocs
}.
Lemma address_word v : word v → address (be_bytes 2 v) = v.
Proof. intros Hv. apply address_be_bytes. exact Hv. Qed.
Lemma fread_at file pre l post pos n :
  file = pre ++ l ++ post → pos = Z.of_nat (length pre) → n = Z.of_nat (length l) → fread file pos n = Some l.
Proof.
  intros -> -> ->. unfold fread. rewrite !Nat2Z.id, drop_app_length, take_app_length.
  rewrite Z.eqb_refl, (proj2 (Z.leb_le 0 _)) by lia. done.
Qed.
Lemma lx_init_file h image relocs :
  well_formed h image relocs → lx_init (lx_file h image relocs) = Some (Some h).
Proof.
  intros []. unfold lx_init, lx_file. set (hdr := words_be _).
  rewrite (fread_at _ [] signature (hdr ++ image ++ words_be relocs) 0 8) by done.
  cbn [mbind option_bind]. rewrite bool_decide_eq_true_2 by done. cbn [negb].
  rewrite (fread_at _ signature hdr (image ++ words_be relocs) 8 16) by done. cbn [mbind option_bind].
  assert (∀ k k' v, k' = (2 * k)%nat →
    nth k [0; base h; text_size h; data_size h; bss_size h; stack_size h; offset h; num_relocs h] 0 = v →
    word v → (k < 8)%nat → field hdr k' 2 = v) as Hfield.
  { intros k k' v -> Hk Hv Hlt. rewrite <- (address_word v Hv), <- Hk. unfold field. f_equal.
    do 8 (destruct k as [|k]; [done|]). lia. }
  rewrite (Hfield 0%nat 0%nat 0), (Hfield 1 2 (base h))%nat, (Hfield 2 4 (text_size h))%nat,
    (Hfield 3 6 (data_size h))%nat, (Hfield 4 8 (bss_size h))%nat, (Hfield 5 10 (stack_size h))%nat,
    (Hfield 6 12 (offset h))%nat, (Hfield 7 14 (num_relocs h))%nat by (done || lia).
  destruct h; done.
Qed.

(** ** Relocation *)
Definition apart (r r' : Z) : Prop := r + 2 <= r' ∨ r' + 2 <= r.
(** The bytes that no relocation touches. *)
Definition fixed (start : Z) (rs : list Z) (i : Z) : Prop :=
  ∀ r, r ∈ rs → i < start + r ∨ start + r + 2 <= i.
Lemma fixed_cons start r rs i : fixed start (r :: rs) i →
  (i < start + r ∨ start + r + 2 <= i) ∧ fixed start rs i.
Proof. intros H. split; [apply H; constructor|]. intros r' Hr. apply H. constructor. done. Qed.
Lemma relocate_all_ok rs : ∀ file pre start base size pos mem,
  file = pre ++ words_be rs → pos = Z.of_nat (length pre) →
  Forall (λ r, word r ∧ r + 2 <= size) rs → 0 <= start → start + size <= 65536 →
  ∃ mem', relocate_all file start base pos (length rs) mem = Some mem' ∧
    (∀ i, fixed start rs i → get0 mem' i = get0 mem i) ∧
    (ForallOrdPairs apart rs → ∀ r, r ∈ rs →
      word_at mem' (start + r) = u16 (word_at mem (start + r) + (start - base))).
Proof.
  induction rs as [|r rs IH]; intros file pre start base size pos mem Hfile Hpos Hrs Hs Hsize.
  { exists mem. split_and!; [done..|]. intros _ r Hr. apply elem_of_nil in Hr. done. }
  apply Forall_cons in Hrs as [[Hr Hrs2] Hrs]. unfold word in Hr.
  cbn [length relocate_all].
  assert (words_be (r :: rs) = be_bytes 2 r ++ words_be rs) as Hw by done.
  rewrite (fread_at file pre (be_bytes 2 r) (words_be rs)) by (done || (rewrite Hfile, Hw; done)).
  cbn [mbind option_bind]. rewrite address_word by done.
  unfold relocate at 1. rewrite read_ok by lia. cbn [mbind option_bind].
  rewrite write_ok by lia. cbn [mbind option_bind].
  set (m1 := put_word _ _ mem).
  destruct (IH file (pre ++ be_bytes 2 r) start base size (pos + 2) m1) as (m' & E & Hf & Hreloc);
    [rewrite <- app_assoc, <- Hw; done|rewrite length_app, length_be_bytes; lia|done..|].
  exists m'. split; [done|]. split.
  - intros i [Hi Hi']%fixed_cons. rewrite Hf by done. apply get0_put. lia.
  - intros Hap. inversion_clear Hap as [|? ? Hr' Hap']. intros q [->|Hq]%elem_of_cons.
    + rewrite <- (word_at_put (start + r) (u16 (word_at mem (start + r) + (start - base))) mem) by apply u16_word.
      rewrite Forall_forall in Hr'.
      apply word_at_ext; apply Hf; intros q Hq; specialize (Hr' q Hq); unfold apart in Hr'; lia.
    + rewrite Hreloc by done. do 2 f_equal. apply word_at_put_ne.
      rewrite Forall_forall in Hr'. specialize (Hr' q Hq). unfold apart in Hr'. lia.
Qed.
Lemma store_bytes_at a l mem i : a <= i < a + Z.of_nat (length l) →
  get0 (store_bytes a l mem) i = l !!! Z.to_nat (i - a).
Proof.
  revert a mem. induction l as [|b l IH]; intros a mem Hi; cbn [length] in Hi; [lia|].
  cbn [store_bytes]. destruct (Z.eq_dec i a) as [->|].
  - rewrite store_bytes_out, get0_insert_eq, Z.sub_diag by lia. done.
  - rewrite IH by lia. replace (Z.to_nat (i - a)) with (S (Z.to_nat (i - (a + 1)))) by lia. done.
Qed.

(** The image lies at [start], its relocated words moved from [base]. *)
Record placed (base : Z) (image relocs : list Z) (start : Z) (mem : gmap Z Z) : Prop := {
  pl_fixed i : start <= i < start + Z.of_nat (length image) → fixed start relocs i →
    get0 mem i = image !!! Z.to_nat (i - start);
  pl_word r : ForallOrdPairs apart relocs → r ∈ relocs →
    word_at mem (start + r) =
      u16 (address (take 2 (drop (Z.to_nat r) image)) + (start - base))
}.
Lemma placed_ext base image relocs start mem mem' :
  Forall (λ r, word r ∧ r + 2 <= Z.of_nat (length image)) relocs →
  (∀ i, start <= i < start + Z.of_nat (length image) → get0 mem' i = get0 mem i) →
  placed base image relocs start mem → placed base image relocs start mem'.
Proof.
  intros Hrs Hs [Hf Hw]. split.
  - intros i Hi Hfx. rewrite Hs by done. apply Hf; done.
  - intros r Hap Hr. rewrite <- Hw by done. rewrite Forall_forall in Hrs. apply Hrs in Hr.
    unfold word in Hr. apply word_at_ext; apply Hs; lia.
Qed.
Lemma word_at_store start image mem r :
  Forall byte image → 0 <= r → r + 2 <= Z.of_nat (length image) →
  word_at (store_bytes start image mem) (start + r) = address (take 2 (drop (Z.to_nat r) image)).
Proof.
  intros Hb Hr Hlen. unfold word_at. rewrite !store_bytes_at by lia.
  replace (Z.to_nat (start + r + 1 - start)) with (S (Z.to_nat r)) by lia.
  replace (Z.to_nat (start + r - start)) with (Z.to_nat r) by lia.
  assert (∃ x y t, drop (Z.to_nat r) image = x :: y :: t) as (x & y & t & E).
  { destruct (drop (Z.to_nat r) image) as [|x [|y t]] eqn:E; [| |eauto];
      apply (f_equal length) in E; rewrite length_drop in E; cbn in E; lia. }
  rewrite E. assert (image !!! Z.to_nat r = x ∧ image !!! S (Z.to_nat r) = y) as [-> ->].
  { rewrite <- (take_drop (Z.to_nat r) image), E.
    assert (length (take (Z.to_nat r) image) = Z.to_nat r) as Hl by (rewrite length_take; lia).
    split; rewrite lookup_total_app_r by lia; rewrite Hl;
      [replace (Z.to_nat r - Z.to_nat r)%nat with 0%nat by lia
      |replace (S (Z.to_nat r) - Z.to_nat r)%nat with 1%nat by lia]; done. }
  cbn [take address]. unfold address. cbn [foldl]. rewrite Z.shiftl_0_l, Z.lor_0_l. done.
Qed.
Lemma lx_read_ok h image relocs start mem :
  well_formed h image relocs → 0 <= start → start + Z.of_nat (length image) <= 65536 →
  ∃ mem', lx_read (lx_file h image relocs) h start mem = Some mem' ∧
    (∀ i, i < start ∨ start + Z.of_nat (length image) <= i → get0 mem' i = get0 mem i) ∧
    placed (base h) image relocs start mem'.
Proof.
  intros [] Hs Hfit. unfold lx_read, lx_file.
  set (hdr := words_be [_; _; _; _; _; _; _; _]).
  rewrite (fread_at _ (signature ++ hdr) image (words_be relocs) 24) by (rewrite <- ?app_assoc; done || lia).
  cbn [mbind option_bind]. unfold into_memory.
  rewrite (proj2 (Z.leb_le 0 start)), (proj2 (Z.leb_le (start + _) _)) by lia.
  rewrite orb_true_r. cbn [mbind option_bind].
  rewrite <- lx_count0, Nat2Z.id.
  destruct (relocate_all_ok relocs (signature ++ hdr ++ image ++ words_be relocs) (signature ++ hdr ++ image)
    start (base h) (Z.of_nat (length image)) (24 + (text_size h + data_size h)) (store_bytes start image mem))
    as (m' & E & Hf & Hr).
  - rewrite <- !app_assoc. done.
  - rewrite !length_app. cbn [length signature]. change (length hdr) with 16%nat. lia.
  - rewrite lx_image0. done.
  - done.
  - done.
  - exists m'. split; [exact E|]. split; [|constructor].
    + intros i Hi. rewrite Hf; [apply store_bytes_out; done|].
      intros r Hin. rewrite Forall_forall in lx_relocs0. apply lx_relocs0 in Hin. unfold word in Hin. lia.
    + intros i Hi Hfx. rewrite Hf by done. apply store_bytes_at. done.
    + intros r Hap Hin. rewrite Hr by done. do 2 f_equal.
      rewrite Forall_forall in lx_relocs0. apply lx_relocs0 in Hin. unfold word in Hin.
      apply word_at_store; [done|lia..].
Qed.

(** ** Installing a program *)
Lemma into_memory_ok a l mem : 0 <= a → a + Z.of_nat (length l) <= 65536 →
  into_memory a l mem = Some (store_bytes a l mem).
Proof.
  intros. unfold into_memory. rewrite (proj2 (Z.leb_le 0 a)), (proj2 (Z.leb_le (a + _) _)) by lia.
  rewrite orb_true_r. done.
Qed.
Lemma write_words_from prog l : ∀ k mem, 0 <= prog → prog + 2 * Z.of_nat (k + length l) <= 65536 →
  ∃ mem', foldl (λ m '(i, v), m ← m; WRITE_WORD (prog + i) v m) (Some mem)
      (zip ((λ k, 2 * Z.of_nat k) <$> seq k (length l)) l) = Some mem' ∧
    (∀ i, i < prog + 2 * Z.of_nat k ∨ prog + 2 * Z.of_nat (k + length l) <= i → get0 mem' i = get0 mem i) ∧
    (∀ v l', l = v :: l' → word v → word_at mem' (prog + 2 * Z.of_nat k) = v).
Proof.
  induction l as [|v l IH]; intros k mem Hp Hfit; cbn [length seq fmap list_fmap zip zip_with foldl] in *.
  { exists mem. done. }
  cbn [mbind option_bind]. rewrite write_ok by lia.
  destruct (IH (S k) (put_word (prog + 2 * Z.of_nat k) v mem)) as (m' & E & Hf & _); [done|lia|].
  exists m'. split; [exact E|]. split.
  - intros i Hi. rewrite Hf by lia. apply get0_put. lia.
  - intros ? ? [= <- <-] Hv. rewrite <- (word_at_put (prog + 2 * Z.of_nat k) v mem Hv).
    apply word_at_ext; apply Hf; lia.
Qed.
Lemma write_words_ok prog v l mem : 0 <= prog → prog + 2 * Z.of_nat (S (length l)) <= 65536 → word v →
  ∃ mem', write_words prog (v :: l) mem = Some mem' ∧ word_at mem' prog = v ∧
    (∀ i, i < prog ∨ prog + 2 * Z.of_nat (S (length l)) <= i → get0 mem' i = get0 mem i).
Proof.
  intros Hp Hfit Hv. destruct (write_words_from prog (v :: l) 0 mem Hp) as (m' & E & Hf & Hw); [cbn; lia|].
  exists m'. split; [exact E|]. split; [|intros i Hi; apply Hf; cbn [length]; lia].
  rewrite <- (Hw v l eq_refl Hv). f_equal. lia.
Qed.
Definition needed (h : lx_header) : Z := text_size h + 2 * data_size h + bss_size h.
Lemma fill_program_ok h image relocs text mem syms :
  well_formed h image relocs → 0 <= text → text + needed h <= 65536 →
  ∃ mem', fill_program (Program (lx_file h image relocs) false h) text mem syms = Some (mem', syms) ∧
    (∀ i, i < text ∨ text + needed h <= i → get0 mem' i = get0 mem i) ∧
    placed (base h) image relocs text mem'.
Proof.
  intros Hwf Ht Hfit. pose proof Hwf as []. unfold needed, word in *.
  destruct (lx_read_ok h image relocs text mem Hwf Ht) as (m1 & E1 & Hf1 & Hp1); [lia|].
  unfold fill_program. cbn [p_coff p_header p_file]. rewrite E1. cbn [mbind option_bind].
  rewrite into_memory_ok by (rewrite ?length_replicate; lia). cbn [mbind option_bind].
  rewrite into_memory_ok by (rewrite ?length_chars_from; lia). cbn [mbind option_bind].
  eexists. split; [done|]. split.
  - intros i Hi. rewrite !store_bytes_out by (rewrite ?length_replicate, ?length_chars_from; lia).
    apply Hf1. lia.
  - eapply placed_ext; [rewrite lx_image0; done| |exact Hp1]. intros i Hi.
    rewrite !store_bytes_out by (rewrite ?length_replicate, ?length_chars_from; lia). done.
Qed.
Lemma install_ok h image relocs prog text mem syms :
  well_formed h image relocs → 0 <= prog → prog + 22 <= text → text + needed h <= 65536 → text < 65536 →
  ∃ mem', install (Program (lx_file h image relocs) false h) prog text mem syms = Some (mem', syms) ∧
    (∀ i, i < prog ∨ prog + 22 <= i → i < text ∨ text + needed h <= i → get0 mem' i = get0 mem i) ∧
    placed (base h) image relocs text mem' ∧ word_at mem' prog = text.
Proof.
  intros Hwf Hp Hpt Hfit Ht. pose proof Hwf as []. unfold install. cbn [p_header].
  match goal with |- context [write_words prog (_ :: ?l) mem] =>
    destruct (write_words_ok prog text l mem) as (m1 & -> & Hw1 & Hf1); [done|cbn; lia|unfold word; lia|] end.
  cbn [length] in Hf1. cbn [mbind option_bind]. rewrite into_memory_ok by (cbn; lia). cbn [mbind option_bind].
  set (m2 := store_bytes (prog + 18) [10] m1).
  destruct (fill_program_ok h image relocs text m2 syms Hwf) as (m3 & -> & Hf3 & Hp3); [lia|lia|].
  cbn [mbind option_bind]. rewrite write_ok by lia. cbn [mbind option_bind].
  assert (∀ i, i < prog + 18 ∨ prog + 19 <= i → get0 m2 i = get0 m1 i) as Hf2
    by (intros i Hi; apply store_bytes_out; cbn; lia).
  eexists. split; [done|]. unfold needed, word in *. split_and!.
  - intros i Hi1 Hi2. rewrite get0_put, Hf3, Hf2 by lia. apply Hf1. lia.
  - eapply placed_ext; [rewrite lx_image0; done| |exact Hp3]. intros i Hi. apply get0_put. lia.
  - rewrite <- Hw1. apply word_at_ext; rewrite get0_put, Hf3, Hf2 by lia; done.
Qed.

(** ** The heap around a program *)
Lemma allocs_top bs a mem bl : heap a bs mem → bl ∈ allocs a bs →
  a <= bl.1.1 ∧ 0 <= bl.2 ∧ bl.1.1 + 4 + 2 * bl.2 <= 65536.
Proof.
  revert a. induction bs as [|[t l] bs IH]; intros a Hh Hin; cbn [allocs] in Hin.
  { apply elem_of_nil in Hin. done. }
  destruct Hh as (_ & _ & Hl & Hh). pose proof (heap_top _ _ _ Hh).
  apply elem_of_app in Hin as [Hin|Hin]; [|apply IH in Hin; [lia|done]].
  destruct (t =? 0); [apply elem_of_nil in Hin; done|]. apply list_elem_of_singleton in Hin as ->. cbn. lia.
Qed.
(** A change of the contents of an allocation keeps the blocks. *)
Lemma heap_contents bs a mem mem' bl :
  heap a bs mem → bl ∈ allocs a bs →
  (∀ i, a <= i → i < bl.1.1 + 4 ∨ bl.1.1 + 4 + 2 * bl.2 <= i → get0 mem' i = get0 mem i) →
  heap a bs mem'.
Proof.
  revert a. induction bs as [|[t l] bs IH]; intros a Hh Hin Hs; cbn [allocs] in Hin.
  { apply elem_of_nil in Hin. done. }
  pose proof Hh as (_ & _ & Hl & Hh'). apply elem_of_app in Hin as [Hin|Hin].
  - destruct (t =? 0); [apply elem_of_nil in Hin; done|]. apply list_elem_of_singleton in Hin as ->. cbn in Hs.
    apply (heap_step t l a bs bs mem mem' Hh); [|intros i Hi; apply Hs; lia].
    eapply heap_frame; [exact Hh'|]. intros i Hi. apply Hs; lia.
  - pose proof (allocs_above _ _ _ _ Hh' Hin).
    apply (heap_step t l a bs bs mem mem' Hh); [|intros i Hi; apply Hs; lia].
    apply IH; [done|done|]. intros i Hi. apply Hs. lia.
Qed.
Lemma disjoint_perm l l' : l ≡ₚ l' → ForallOrdPairs separate l → ForallOrdPairs separate l'.
Proof.
  assert (∀ x y, separate x y → separate y x) as Hsym by (intros x y H i [Hx Hy]; apply (H i); done).
  induction 1 as [|x l l' Hp IH|x y l|l l1 l' _ IH1 _ IH2]; intros H; [done| | |auto].
  - inversion_clear H as [|? ? Hx Hl]. constructor; [rewrite <- Hp; done|auto].
  - inversion_clear H as [|? ? Hy Hxl]. inversion_clear Hxl as [|? ? Hx Hl].
    apply Forall_cons in Hy as [Hyx Hy]. constructor; [constructor; [auto|done]|]. constructor; done.
Qed.
Lemma new_disjoint T T' b bl : ForallOrdPairs separate T' → T' ≡ₚ b :: T → bl ∈ T → separate b bl.
Proof.
  intros H Hp Hin. apply (disjoint_perm _ _ Hp) in H. inversion_clear H as [|? ? Hb _].
  rewrite Forall_forall in Hb. apply Hb. done.
Qed.
Lemma coff_init_lx h image relocs : coff_init (lx_file h image relocs) = Some false.
Proof. reflexivity. Qed.
Lemma recognise_lx h image relocs : well_formed h image relocs →
  recognise (lx_file h image relocs) = Some (Some (Program (lx_file h image relocs) false h)).
Proof.
  intros Hwf. unfold recognise. rewrite coff_init_lx. cbn [mbind option_bind].
  rewrite lx_init_file by done. done.
Qed.

(** Where the operating system keeps its tables, below the heap. *)
Record kernel (syms : tree) (slot mm_start ff prog : Z) : Prop := {
  k_start : symbols_getaddr "_mm_start"%string syms = mm_start;
  k_first : symbols_getaddr "_mm_first_free"%string syms = ff;
  k_programs : symbols_getaddr "_programs"%string syms ≠ 0;
  k_prog : u16 (symbols_getaddr "_programs"%string syms + 22 * (slot - 48)) = prog;
  k_ff : 0 <= ff ∧ ff + 2 <= mm_start;
  k_range : 4 <= mm_start < 65536;
  k_below : prog + 22 <= mm_start;
  k_apart : prog + 22 <= ff ∨ ff + 2 <= prog
}.
(** Everything but the tables of the kernel and the contents of [bl] is as before. *)
Definition spared (ff prog : Z) (T : list (Z * Z * Z)) (mem mem' : gmap Z Z) : Prop :=
  ∀ bl i, bl ∈ T → inside bl i → get0 mem' i = get0 mem i.

Section Load.
Context (slot mm_start ff prog : Z) (syms : tree).
Hypothesis Hk : kernel syms slot mm_start ff prog.

(** The program in the slot is released. *)
Definition surviving (bs : list (Z * Z)) (mem : gmap Z Z) : list (Z * Z * Z) :=
  if 0 <? word_at mem (prog + 8) then others (word_at mem prog) (allocs mm_start bs)
  else allocs mm_start bs.
Definition replaceable (bs : list (Z * Z)) (mem : gmap Z Z) : Prop :=
  0 < word_at mem (prog + 8) → ∀ l, (word_at mem prog - 4, RESERVED, l) ∉ allocs mm_start bs.
Lemma release_slot bs mem :
  heap mm_start bs mem → ends_owned bs → replaceable bs mem → 0 <= prog →
  ∃ mem' bs',
    (if 0 <? word_at mem (prog + 8)
     then brickos_free mm_start ff (word_at mem prog) mem else Some mem) = Some mem' ∧
    heap mm_start bs' mem' ∧ ends_owned bs' ∧ allocs mm_start bs' = surviving bs mem ∧
    spared ff prog (surviving bs mem) mem mem'.
Proof.
  intros Hh Ho Hr Hp. destruct Hk. unfold surviving.
  destruct (Z.ltb_spec 0 (word_at mem (prog + 8))) as [Hold|_].
  - destruct (heap_run_ok mm_start ff bs (Free (word_at mem prog)) mem)
      as (r & m' & bs' & E & Hh' & Ho' & Hs & _ & Hf & _); [lia|lia|lia|done|done|exact (Hr Hold)|].
    cbn [heap_run] in E. destruct (brickos_free mm_start ff (word_at mem prog) mem) as [m|]; [|done].
    injection E as <- <-.
    assert (allocs mm_start bs' = others (word_at mem prog) (allocs mm_start bs)) as Hal
      by (inversion Hs; done).
    exists m, bs'. split_and!; [done..|]. intros bl i Hin Hi. apply (Hf bl i); [|congruence|done].
    apply list_elem_of_filter in Hin. apply Hin.
  - exists mem, bs. split_and!; done.
Qed.

(** The outcome of loading the program: it lies in an allocation of its own, or
    there was no room; the other allocations are there with their contents. *)
Definition loads (h : lx_header) (image relocs : list Z) (T : list (Z * Z * Z)) (mem : gmap Z Z)
    (r : option (gmap Z Z * tree)) : Prop :=
  ∃ mem' bs', r = Some (mem', syms) ∧ heap mm_start bs' mem' ∧ ends_owned bs' ∧
    spared ff prog T mem mem' ∧
    (allocs mm_start bs' = T ∨
     ∃ text n, needed h <= 2 * n ∧ allocs mm_start bs' ≡ₚ (text - 4, 0xfffe, n) :: T ∧
       word_at mem' prog = text ∧ placed (base h) image relocs text mem').
Lemma install_loads h image relocs text n T bs mem :
  well_formed h image relocs → 0 <= prog → heap mm_start bs mem → ends_owned bs →
  allocs mm_start bs ≡ₚ (text - 4, 0xfffe, n) :: T → needed h <= 2 * n →
  ForallOrdPairs separate (allocs mm_start bs) →
  (∀ bl, bl ∈ T → mm_start <= bl.1.1) → text < 65536 →
  loads h image relocs T mem (install (Program (lx_file h image relocs) false h) prog text mem syms).
Proof.
  intros Hwf Hp Hh Ho Hal Hn Hsep Habove Htext. destruct Hk.
  set (new := (text - 4, 0xfffe, n)) in *.
  assert (new ∈ allocs mm_start bs) as Hin by (rewrite Hal; constructor).
  pose proof (allocs_top _ _ _ _ Hh Hin) as (H1 & H2 & H3). cbn in H1, H2, H3.
  destruct (install_ok h image relocs prog text mem syms Hwf) as (m' & E & Hf & Hpl & Hw); [lia..|].
  pose proof Hwf as []. unfold needed, word in *.
  exists m', bs. split; [exact E|]. split; [|split; [done|split]].
  - apply (heap_contents bs mm_start mem m' new Hh Hin). intros i Hi1 Hi2. cbn in Hi2. apply Hf; lia.
  - intros bl i Hbl Hi. pose proof (new_disjoint _ _ _ _ Hsep Hal Hbl i) as Hd.
    pose proof (Habove bl Hbl). unfold inside in *. cbn in Hd. apply Hf; [lia|].
    destruct (Z.lt_ge_cases i text); [left; done|right]. apply Z.nlt_ge. intros Hlt. apply Hd. lia.
  - right. exists text, n. done.
Qed.
Lemma load_program_loads h image relocs bs mem :
  heap mm_start bs mem → ends_owned bs → replaceable bs mem →
  well_formed h image relocs → 0 < needed h < 65536 →
  loads h image relocs (surviving bs mem) mem
    (brickos_load_program slot (Some (lx_file h image relocs)) mem syms).
Proof.
  intros Hh Ho Hr Hwf Hn. pose proof Hk as [].
  assert (0 <= prog) as Hp by (rewrite <- k_prog0; apply u16_word).
  destruct (release_slot bs mem Hh Ho Hr Hp) as (m1 & bs1 & E1 & Hh1 & Ho1 & Hal1 & Hs1).
  unfold brickos_load_program, load_program. cbn [heap_free heap_malloc brickos_heap].
  rewrite k_start0, k_first0, k_prog0.
  rewrite (proj2 (Z.eqb_neq mm_start 0)), (proj2 (Z.eqb_neq _ 0) k_programs0) by lia. cbn [orb].
  rewrite recognise_lx by done. cbn [mbind option_bind p_header p_coff]. rewrite !read_ok by lia.
  cbn [mbind option_bind]. rewrite E1. cbn [mbind option_bind].
  fold (needed h). rewrite u16_id by (unfold word; lia).
  destruct (heap_run_ok mm_start ff bs1 (Malloc (needed h)) m1)
    as (text & m2 & bs2 & E2 & Hh2 & Ho2 & Hs2 & Hsep & Hf2 & _);
    [lia|lia|lia|done|done|cbn; unfold word; lia|].
  cbn [heap_run] in E2. rewrite E2. cbn [mbind option_bind]. rewrite Hal1 in Hs2, Hf2.
  assert (∀ bl, bl ∈ surviving bs mem → bl ∈ allocs mm_start bs2 → ∀ i, inside bl i →
    get0 m2 i = get0 mem i) as Hf.
  { intros bl H1 H2 i Hi. rewrite (Hf2 bl i) by done. apply (Hs1 bl i); done. }
  destruct (Z.eqb_spec text 0) as [->|Ht].
  - assert (allocs mm_start bs2 = surviving bs mem ∨ ∃ n, allocs mm_start bs2 ≡ₚ (0 - 4, 0xfffe, n) :: surviving bs mem)
      as [Hal|[n Hal]] by (inversion Hs2; eauto).
    + exists m2, bs2. split_and!; try done; [|left; done]. intros bl i Hbl. apply Hf; [done|]. rewrite Hal. done.
    + exfalso. assert ((0 - 4, 0xfffe, n) ∈ allocs mm_start bs2) as Hin by (rewrite Hal; constructor).
      apply (allocs_above _ _ _ _ Hh2) in Hin. cbn in Hin. lia.
  - cbn [andb]. assert (∃ n, needed h <= 2 * n ∧ allocs mm_start bs2 ≡ₚ (text - 4, 0xfffe, n) :: surviving bs mem)
      as (n & Hn2 & Hal) by (inversion Hs2; eauto; lia).
    assert ((text - 4, 0xfffe, n) ∈ allocs mm_start bs2) as Hin by (rewrite Hal; constructor).
    pose proof (allocs_top _ _ _ _ Hh2 Hin) as (H1 & H2 & H3). cbn in H1, H2, H3.
    destruct (install_loads h image relocs text n (surviving bs mem) bs2 m2) as (m' & bs' & E & Hh' & Ho' & Hs' & Hres);
      [done..| |lia|].
    + intros bl Hbl. apply (allocs_above _ _ _ _ Hh2). rewrite Hal. constructor. done.
    + exists m', bs'. split_and!; try done. intros bl i Hbl Hi. rewrite (Hs' bl i) by done.
      apply (Hf bl Hbl); [rewrite Hal; constructor; done|done].
Qed.
End Load.

(** C33: Loading a program never harms another one. For a kernel whose tables lie
    below a well-formed heap, any well-formed executable of brickOS whose size fits
    16 bits, and a slot that is empty or holds a program of the heap,
    [brickos_load_program] returns, and the heap is well formed again. Every other
    allocation (all but the program that was in the slot) is still there with the same
    contents. Either there was no room and nothing was added, or there is one new
    allocation, large enough for text, data, bss and the copy of the data, whose
    address the slot holds, and in it lies the image of the file with every word the
    relocation table names moved by the distance between its address and the base
    address, all other bytes as in the file. *)
Theorem load_program_isolated slot mm_start ff prog syms h image relocs bs mem :
  kernel syms slot mm_start ff prog →
  heap mm_start bs mem → ends_owned bs → replaceable mm_start prog bs mem →
  well_formed h image relocs → 0 < needed h < 65536 →
  ∃ mem' bs',
    brickos_load_program slot (Some (lx_file h image relocs)) mem syms = Some (mem', syms) ∧
    heap mm_start bs' mem' ∧ ends_owned bs' ∧
    (∀ bl i, bl ∈ surviving mm_start prog bs mem → inside bl i → get0 mem' i = get0 mem i) ∧
    (allocs mm_start bs' = surviving mm_start prog bs mem ∨
     ∃ text n, needed h <= 2 * n ∧
       allocs mm_start bs' ≡ₚ (text - 4, 0xfffe, n) :: surviving mm_start prog bs mem ∧
       word_at mem' prog = text ∧ placed (base h) image relocs text mem').
Proof. intros Hk Hh Ho Hr Hwf Hn. exact (load_program_loads _ _ _ _ _ Hk h image relocs bs mem Hh Ho Hr Hwf Hn). Qed.

(** ** Witness: a program of two words and two bytes of data in slot 0 *)
Definition demo_syms : tree :=
  symbols_add (0x8900, 0) "_programs"%string (symbols_add (0x8800, 0) "_mm_first_free"%string
    (symbols_add (0x9000, 0) "_mm_start"%string Leaf)).
Definition demo_header : lx_header := LxHeader 0xb000 4 2 6 100 0 1.
Definition demo_program : list Z := [0x5e; 0x00; 0xb0; 0x04; 1; 2].
Lemma demo_kernel : kernel demo_syms 48 0x9000 0x8800 0x8900.
Proof. constructor; try reflexivity; try lia; vm_compute; congruence. Qed.
Lemma demo_well_formed : well_formed demo_header demo_program [2].
Proof.
  constructor; try (unfold word; cbn; lia); [repeat constructor; done|].
  repeat constructor; cbn; unfold word; lia.
Qed.
Lemma load_program_isolated_witness :
  ∃ mem' bs', brickos_load_program 48 (Some (lx_file demo_header demo_program [2])) demo_heap demo_syms
      = Some (mem', demo_syms) ∧
    heap 0x9000 bs' mem' ∧ word_at mem' 0x8900 = 0x9004 ∧ word_at mem' 0x9006 = 0x9008.
Proof.
  destruct (load_program_isolated 48 0x9000 0x8800 0x8900 demo_syms demo_header demo_program [2]
    demo_blocks demo_heap) as (mem' & bs' & E & Hh & _ & _ & Hres);
    [apply demo_kernel|apply demo_heap_ok|done|intros H; vm_compute in H; discriminate
    |apply demo_well_formed|done|].
  exists mem', bs'. split; [exact E|]. split; [exact Hh|].
  revert E. vm_compute. intros [= <-]. split; reflexivity.
Defined.

(** ** Loading keeps the memory an array of bytes *)
Lemma store_bytes_ok l a mem : bytes_map mem → Forall byte l → bytes_map (store_bytes a l mem).
Proof.
  intros Hm Hl. revert a mem Hm. induction Hl as [|b l Hb _ IH]; intros a mem Hm; [done|].
  simpl. apply IH. apply bytes_map_insert; done.
Qed.
Lemma fread_byte file pos n l : Forall byte file → fread file pos n = Some l → Forall byte l.
Proof.
  intros Hf. unfold fread. destruct (_ && _); [|done]. intros [= <-]. apply Forall_take, Forall_drop, Hf.
Qed.
Lemma into_memory_bytes a l mem mem' :
  bytes_map mem → Forall byte l → into_memory a l mem = Some mem' → bytes_map mem'.
Proof. intros Hm Hl. unfold into_memory. destruct (_ || _); [|done]. intros [= <-]. apply store_bytes_ok; done. Qed.
Lemma load_section_ok file i mem mem' :
  Forall byte file → bytes_map mem → load_section file i mem = Some mem' → bytes_map mem'.
Proof.
  intros Hf Hm. unfold load_section. destruct (fread file _ 40); cbn [mbind option_bind]; [|done].
  destruct (_ &? _); [|intros [= <-]; done].
  destruct (fread file _ (field _ 16 4)) as [d|] eqn:E; cbn [mbind option_bind]; [|done].
  apply into_memory_bytes; [done|eapply fread_byte; done].
Qed.
Lemma load_sections_ok file n i mem mem' :
  Forall byte file → bytes_map mem → load_sections file i n mem = Some mem' → bytes_map mem'.
Proof.
  intros Hf. revert i mem. induction n as [|n IH]; intros i mem Hm; cbn [load_sections]; [intros [= <-]; done|].
  destruct (load_section file i mem) as [m|] eqn:E; cbn [mbind option_bind]; [|done].
  apply IH. eapply load_section_ok; done.
Qed.
Lemma coff_read_ok file mem entry mem' :
  Forall byte file → bytes_map mem → coff_read file mem = Some (entry, mem') → bytes_map mem'.
Proof.
  intros Hf Hm. unfold coff_read. destruct (read_coff_header file); cbn [mbind option_bind]; [|done].
  destruct (read_aouthdr file); cbn [mbind option_bind]; [|done].
  destruct (load_sections _ _ _ _) eqn:E; cbn [mbind option_bind]; [|done]. intros [= _ <-].
  eapply load_sections_ok; done.
Qed.
Lemma values_byte n l : (length l <= n)%nat → Forall byte (values l).
Proof.
  revert l. induction n as [|n IH]; intros [|h [|t l]] Hl; simpl in *; try done; try lia.
  constructor; [apply u8_byte|]. apply IH. lia.
Qed.
Lemma srec_decode_byte line e r : srec_decode line = (e, Some r) → Forall byte (data r).
Proof.
  unfold srec_decode. destruct (line_of line) as [|s [|t [|c1 [|c2 rest]]]]; try done.
  repeat (destruct (if _ : bool then _ else _) eqn:?; [done|]). cbv zeta.
  repeat match goal with |- (if ?b then _ else _) = _ → _ => destruct b; try done end;
    intros [= _ <-]; apply Forall_take, Forall_drop, (values_byte (length rest)); done.
Qed.
Lemma srec_read_ok file mem entry mem' :
  bytes_map mem → srec_read file mem = Some (entry, mem') → bytes_map mem'.
Proof.
  unfold srec_read. generalize 0 as e0, (S (length file)) as fuel. intros e0 fuel. revert file e0 mem.
  induction fuel as [|fuel IH]; intros file e0 mem Hm; cbn [srec_lines]; [done|].
  destruct (fgets 255 file) as [[|c buf] rest]; [intros [= _ <-]; done|].
  destruct (blank _); [apply IH; done|].
  destruct (srec_decode _) as [e [r|]] eqn:E; [|intros [= _ <-]; done].
  destruct (process r e0 mem) as [[e1 m1]|] eqn:Hp; cbn [mbind option_bind]; [|done]. apply IH.
  unfold process in Hp. repeat case_match; simplify_eq; try done.
  apply store_bytes_ok; [done|]. eapply srec_decode_byte, E.
Qed.
Lemma tell_rom_ok entry mem : bytes_map mem → bytes_map (tell_rom entry mem).
Proof.
  intros Hm. unfold tell_rom. repeat apply bytes_map_insert; try done; try (apply byte_const; done); auto with width.
Qed.
Lemma firm_load_ok file mem syms mem' syms' :
  (∀ l, file = Some l → Forall byte l) → bytes_map mem →
  firm_load file mem syms = Some (mem', syms') → bytes_map mem'.
Proof.
  intros Hf Hm. unfold firm_load. destruct (negb _); [intros [= <- _]; done|].
  destruct file as [file|]; [|intros [= <- _]; done]. specialize (Hf file eq_refl).
  destruct (coff_init file) as [[|]|]; cbn [mbind option_bind]; [| |done].
  - destruct (coff_read file mem) as [[e m]|] eqn:E; cbn [mbind option_bind]; [|done].
    destruct (coff_symbols file syms); cbn [mbind option_bind]; [|done].
    apply coff_read_ok in E; [|done..]. destruct (_ || _); intros [= <- _]; [done|apply tell_rom_ok; done].
  - destruct (srec_read file mem) as [[e m]|] eqn:E; cbn [mbind option_bind]; [|done].
    apply srec_read_ok in E; [|done]. destruct (_ || _); intros [= <- _]; [done|apply tell_rom_ok; done].
Qed.
Lemma read_rom_bytes name file mem syms ok mem' syms' :
  (∀ l, file = Some l → Forall byte l) → bytes_map mem →
  read_rom name file mem syms = Some (ok, mem', syms') → bytes_map mem'.
Proof.
  intros Hf Hm. unfold read_rom. destruct (name ≫= extension); [|intros [= _ <- _]; done].
  destruct file as [file|]; [|repeat case_match; intros [= _ <- _]; done]. specialize (Hf file eq_refl).
  destruct (bool_decide _); [|destruct (bool_decide _); [|destruct (bool_decide _); [|done]]].
  - destruct (coff_init file) as [[|]|]; cbn [mbind option_bind]; [|intros [= _ <- _]; done|done].
    destruct (coff_read file mem) as [[e m]|] eqn:E; cbn [mbind option_bind]; [|done].
    destruct (coff_symbols file syms); cbn [mbind option_bind]; [|done]. intros [= _ <- _].
    eapply coff_read_ok; done.
  - intros [= _ <- _]. apply store_bytes_ok; [done|]. apply Forall_take, Hf.
  - destruct (srec_read file mem) as [[e m]|] eqn:E; cbn [mbind option_bind]; [|done].
    intros [= _ <- _]. eapply srec_read_ok; done.
Qed.
