(* ===== verification/Frame.v ===== *)
(** * Frame: the profiler and the stack traces ([frame.c])

    The emulator follows the calls, returns and stack switches of the emulated
    program.  A thread is known by its stack: the running one is in the hash table
    [threads] under the key 0, the others under the stack pointer they were left
    with.  [current_thread] points to the block of the table's bucket, so the table
    holds indices of a heap of blocks.  [None] is behaviour that the C standard
    leaves undefined: an access outside of an array or of memory never written,
    a null pointer, an overflow of [int]. *)
From stdpp Require Import strings.
From S2P Require Export Symbols.
From S2P Require Export Hash.

(** ** Data *)
Record callee_info := CalleeInfo { callee_calls : Z; callee_cycles : Z }.
Record profile_info := ProfileInfo {
  local_cycles : Z;
  irq_cycles : Z;
  total_cycles : Z;
  max_local_cycles : Z;
  max_total_cycles : Z;
  calls : Z;
  isIRQ : Z;
  callees : hash_type callee_info }.
Record frame_info := FrameInfo {
  startcycle : Z;
  childcycles : Z;
  irqcycles : Z;
  threadcycles : Z;
  frame_pc : Z;
  frame_fp : Z }.
(** [frames] has room for [frames_room] elements; those never written are absent,
    as is the [savefp] of a thread that never was switched out. *)
Record thread_info := ThreadInfo {
  savefp : option Z;
  minfp : Z;
  switchcycle : Z;
  num_frames : Z;
  size_frames : Z;
  frames_room : Z;
  frames : gmap Z frame_info }.
(** The static variables, and the blocks of the buckets of [threads]. *)
Record profiler := Profiler {
  profiles : gmap Z profile_info;
  threads : hash_type nat;
  blocks : list thread_info;
  current_thread : option nat }.

(** ** Access *)
Definition set_profiles (x : gmap Z profile_info) (s : profiler) : profiler :=
  Profiler x (threads s) (blocks s) (current_thread s).
Definition set_threads (x : hash_type nat) (s : profiler) : profiler :=
  Profiler (profiles s) x (blocks s) (current_thread s).
Definition set_blocks (x : list thread_info) (s : profiler) : profiler :=
  Profiler (profiles s) (threads s) x (current_thread s).
Definition set_current (x : option nat) (s : profiler) : profiler :=
  Profiler (profiles s) (threads s) (blocks s) x.
Definition set_block (p : nat) (t : thread_info) (s : profiler) : profiler :=
  set_blocks (<[p := t]> (blocks s)) s.

Definition set_num_frames (n : Z) (t : thread_info) : thread_info :=
  ThreadInfo (savefp t) (minfp t) (switchcycle t) n (size_frames t) (frames_room t) (frames t).
Definition set_minfp (fp : Z) (t : thread_info) : thread_info :=
  ThreadInfo (savefp t) fp (switchcycle t) (num_frames t) (size_frames t) (frames_room t) (frames t).
Definition set_switched (now fp : Z) (t : thread_info) : thread_info :=
  ThreadInfo (Some fp) (minfp t) now (num_frames t) (size_frames t) (frames_room t) (frames t).

Definition frame_at (t : thread_info) (i : Z) : option frame_info :=
  if (0 <=? i) && (i <? frames_room t) then frames t !! i else None.
Definition with_frame (i : Z) (f : frame_info) (t : thread_info) : thread_info :=
  ThreadInfo (savefp t) (minfp t) (switchcycle t) (num_frames t) (size_frames t)
    (frames_room t) (<[i := f]> (frames t)).
Definition set_frame (i : Z) (f : frame_info) (t : thread_info) : option thread_info :=
  if (0 <=? i) && (i <? frames_room t) then Some (with_frame i f t) else None.
(** Addition of type [int]. *)
Definition int_add (a b : Z) : option Z :=
  if (-2147483648 <=? a + b) && (a + b <? 2147483648) then Some (a + b) else None.
(** [pc & ~1] *)
Definition even_pc (p : Z) : Z := p &! -2.
(** [memory[fp] << 8 | memory[fp+1]] *)
Definition return_address (mem : gmap Z Z) (fp : Z) : option Z :=
  if in_memory fp then Some (word_at mem fp) else None.

(** ** Stack switches *)
Definition new_thread (now p newframe : Z) : thread_info :=
  ThreadInfo None newframe now 0 2 3 {[ 0 := FrameInfo now 0 0 0 p 0 ]}.
(** [frames[num_frames].threadcycles += cycles - switchcycle;] *)
Definition resume_thread (now : Z) (t : thread_info) : option thread_info :=
  f ← frame_at t (num_frames t);
  set_frame (num_frames t)
    (FrameInfo (startcycle f) (childcycles f) (irqcycles f)
       (u64 (threadcycles f + u64 (now - switchcycle t))) (frame_pc f) (frame_fp f)) t.
Definition leave_thread (now oldframe : Z) (s : profiler) : option profiler :=
  match current_thread s with
  | Some p =>
      t ← blocks s !! p;
      Some (set_threads (hash_move (threads s) 0 oldframe).1
              (set_block p (set_switched now oldframe t) s))
  | None => Some s
  end.
Definition enter_thread (now p newframe : Z) (s : profiler) : profiler :=
  let '(ths, r) := hash_move (threads s) newframe 0 in
  let s := set_threads ths s in
  match r with
  | Some q => set_current (Some q) s
  | None =>
      let q := length (blocks s) in
      set_current (Some q)
        (set_threads (hash_create (threads s) 0 q)
           (set_blocks (blocks s ++ [new_thread now p newframe]) s))
  end.
Definition frame_switch (now p oldframe newframe : Z) (s : profiler) : option profiler :=
  if oldframe =? newframe then Some s
  else
    s ← leave_thread now oldframe s;
    let s := enter_thread now p newframe s in
    q ← current_thread s;
    t ← blocks s !! q;
    t ← resume_thread now t;
    Some (set_block q t s).

(** ** Calls *)

(** [realloc] of the block of a bucket. *)
Definition resize_block (room : Z) (t : thread_info) : thread_info :=
  ThreadInfo (savefp t) (minfp t) (switchcycle t) (num_frames t) (size_frames t) room
    (filter (λ kf, kf.1 < room) (frames t)).
(** A block that [hash_realloc] had to create would not be initialised. *)
Definition frame_grow_num_frames (q : nat) (s : profiler) : option profiler :=
  t ← blocks s !! q;
  n ← int_add (num_frames t) 1;
  if size_frames t <=? n then
    z ← int_add (size_frames t) 10;
    let s := set_block q (ThreadInfo (savefp t) (minfp t) (switchcycle t) n z
                            (frames_room t) (frames t)) s in
    q' ← hash_get (threads s) 0;
    t' ← blocks s !! q';
    Some (set_current (Some q')
            (set_threads (hash_realloc (threads s) 0 id q')
               (set_block q' (resize_block (z + 1) t') s)))
  else Some (set_block q (set_num_frames n t) s).

Definition frame_insert_subframe (now : Z) (mem : gmap Z Z) (fp : Z) (t : thread_info)
    : option thread_info :=
  f ← frame_at t 0;
  t ← set_frame 1 f (set_num_frames 1 t);
  p ← return_address mem fp;
  set_frame 0 (FrameInfo now 0 0 0 p 0) t.

Definition frame_add_callee (prof : profile_info) (p n : Z) : profile_info :=
  let h := match hash_get (callees prof) p with
           | Some _ => callees prof
           | None => hash_create (callees prof) p (CalleeInfo 0 0)
           end in
  ProfileInfo (local_cycles prof) (irq_cycles prof) (total_cycles prof)
    (max_local_cycles prof) (max_total_cycles prof) (calls prof) (isIRQ prof)
    (hash_write h p (λ c, CalleeInfo (u32 (callee_calls c + 1)) (u64 (callee_cycles c + n)))).

(** [memset(prof, 0, sizeof(profile_info)); hash_init(&prof->callees, 5);] *)
Definition empty_profile : profile_info := ProfileInfo 0 0 0 0 0 0 0 (hash_init 5).
Definition create_profile (p : Z) (s : profiler) : profiler :=
  match profiles s !! even_pc p with
  | Some _ => s
  | None => set_profiles (<[even_pc p := empty_profile]> (profiles s)) s
  end.

Definition frame_begin (now p fp in_irq : Z) (s : profiler) : option profiler :=
  match current_thread s with
  | None => Some s
  | Some q =>
      t ← blocks s !! q;
      s ← frame_grow_num_frames q
            (set_block q (if fp <? minfp t then set_minfp fp t else t) s);
      q ← current_thread s;
      t ← blocks s !! q;
      t ← set_frame (num_frames t)
            (FrameInfo now 0 0 0 (p |! (if in_irq =? 0 then 0 else 1)) fp) t;
      pframe ← frame_at t (num_frames t - 1);
      Some (create_profile (frame_pc pframe) (set_block q t s))
  end.

(** ** Returns *)

(** [while (frame->fp && frame->fp < fp)]: frames without a return. *)
Fixpoint drop_frames (fuel : nat) (now : Z) (mem : gmap Z Z) (fp : Z) (t : thread_info)
    : option thread_info :=
  match fuel with
  | O => None
  | S fuel =>
      f ← frame_at t (num_frames t);
      if negb (frame_fp f =? 0) && (frame_fp f <? fp) then
        let n := num_frames t - 1 in
        pf ← frame_at t n;
        t ← set_frame n
              (FrameInfo (startcycle pf) (childcycles pf) (u64 (irqcycles pf + irqcycles f))
                 (u64 (threadcycles pf + threadcycles f)) (frame_pc pf) (frame_fp pf)) t;
        let t := set_num_frames n t in
        t ← (if n =? 0 then frame_insert_subframe now mem fp t else Some t);
        drop_frames fuel now mem fp t
      else Some t
  end.

(** Cycles of a frame and its callees up to [now], and those of its own. *)
Definition frame_total (now : Z) (f : frame_info) : Z :=
  u64 (now - startcycle f - threadcycles f - irqcycles f).
Definition frame_local (now : Z) (f : frame_info) : Z :=
  u64 (frame_total now f - childcycles f).
(** What the parent frame [pf] is told of the frame [f]. *)
Definition charge (f pf : frame_info) (total : Z) : frame_info :=
  let irq := u64 (irqcycles pf + irqcycles f) in
  let thr := u64 (threadcycles pf + threadcycles f) in
  if frame_pc f &? 1
  then FrameInfo (startcycle pf) (childcycles pf) (u64 (irq + total)) thr (frame_pc pf) (frame_fp pf)
  else FrameInfo (startcycle pf) (u64 (childcycles pf + total)) irq thr (frame_pc pf) (frame_fp pf).
(** The parent of frame [i] of thread [q] and its profile get the total of [f]. *)
Definition charge_parent (q : nat) (i total : Z) (f : frame_info) (s : profiler)
    : option profiler :=
  t ← blocks s !! q;
  pframe ← frame_at t (i - 1);
  t ← set_frame (i - 1) (charge f pframe total) t;
  pprof ← profiles s !! even_pc (frame_pc pframe);
  Some (set_profiles
          (<[even_pc (frame_pc pframe) := frame_add_callee pprof (frame_pc f) total]> (profiles s))
          (set_block q t s)).
(** Add profile info for child frame. *)
Definition add_profile (f : frame_info) (total local : Z) (s : profiler) : profiler :=
  let prof := default empty_profile (profiles s !! even_pc (frame_pc f)) in
  set_profiles
    (<[even_pc (frame_pc f) :=
       ProfileInfo (u64 (local_cycles prof + local)) (u64 (irq_cycles prof + irqcycles f))
         (u64 (total_cycles prof + total))
         (if max_local_cycles prof <? local then local else max_local_cycles prof)
         (if max_total_cycles prof <? total then total else max_total_cycles prof)
         (u32 (calls prof + 1)) (isIRQ prof |! (frame_pc f &! 1)) (callees prof)]> (profiles s)) s.

Definition frame_end (now : Z) (mem : gmap Z Z) (fp : Z) (s : profiler) : option profiler :=
  match current_thread s with
  | None => Some s
  | Some q =>
      t ← blocks s !! q;
      t ← (if num_frames t =? 0 then frame_insert_subframe now mem fp t else Some t);
      t ← drop_frames (S (Z.to_nat (num_frames t))) now mem fp t;
      f ← frame_at t (num_frames t);
      let s := set_block q (set_num_frames (num_frames t - 1) t) s in
      let total := frame_total now f in
      s ← (if frame_fp f =? 0 then Some s else charge_parent q (num_frames t) total f s);
      Some (add_profile f total (frame_local now f) s)
  end.

Definition frame_init : profiler := Profiler ∅ (hash_init 5) [] None.

(** ** Output

    The lines that are printed, by the arguments of their [fprintf]; the column
    headings and the empty lines are left out. *)
Inductive label := Name (n : string) | Hex (a : Z).
Inductive line :=
  | StackLine (fp : Z) (l : label) (fpc offset : Z)
  | FunctionLine (irq : Z) (l : label) (prof : profile_info) (local_per_call total_per_call : Z)
  | NeverFinished (irq : Z) (l : label)
  | CalleeLine (irq : Z) (l : label) (n cycles : Z)
  | OpcodeLine (i asm c : Z).

Definition label_of (a : Z) (root : tree) : tree * label :=
  let '(root, n) := symbols_get (a, 0) root in
  (root, match n with Some n => Name n | None => Hex a end).

(** The loop of [frame_dump_stack], from frame [i] down to frame 0. *)
Fixpoint dump_frames (mem : gmap Z Z) (t : thread_info) (i : nat) (lastpc : Z) (root : tree)
    : option (tree * list line) :=
  f ← frame_at t (Z.of_nat i);
  let fpc := even_pc (frame_pc f) in
  let '(root, l) := label_of fpc root in
  lastpc' ← return_address mem (frame_fp f);
  let out := StackLine (frame_fp f) l fpc (lastpc - fpc) in
  match i with
  | O => Some (root, [out])
  | S i =>
      rest ← dump_frames mem t i lastpc' root;
      Some (rest.1, out :: rest.2)
  end.
(** [r7] is [GET_REG16(7)]. *)
Definition frame_dump_stack (mem : gmap Z Z) (p r7 fp : Z) (root : tree) (s : profiler)
    : option (tree * list line) :=
  match (if fp =? r7 then current_thread s else hash_get (threads s) fp) with
  | None => Some (root, [])
  | Some q =>
      t ← blocks s !! q;
      if num_frames t <? 0 then Some (root, [])
      else dump_frames mem t (Z.to_nat (num_frames t)) p root
  end.

(** The loop of [frame_close_thread], from frame [i] down to frame 0. *)
Fixpoint close_frames (q : nat) (switchcycle : Z) (i : nat) (s : profiler) : option profiler :=
  t ← blocks s !! q;
  f ← frame_at t (Z.of_nat i);
  let total := frame_total switchcycle f in
  s ← (match i with
       | O => Some s
       | S _ => charge_parent q (Z.of_nat i) total f s
       end);
  let s := add_profile f total (frame_local switchcycle f) s in
  match i with
  | O => Some s
  | S i => close_frames q switchcycle i s
  end.
(** The cycle up to which the frames of a thread are running. *)
Definition thread_clock (now : Z) (s : profiler) (q : nat) (t : thread_info) : Z :=
  if bool_decide (current_thread s = Some q) then now else switchcycle t.
Definition frame_close_thread (now : Z) (q : nat) (s : profiler) : option profiler :=
  t ← blocks s !! q;
  if num_frames t <? 0 then Some s
  else close_frames q (thread_clock now s q t) (Z.to_nat (num_frames t)) s.
Fixpoint close_threads (now : Z) (l : list (Z * nat)) (s : profiler) : option profiler :=
  match l with
  | [] => Some s
  | (_, q) :: l => s ← frame_close_thread now q s; close_threads now l s
  end.

Fixpoint frame_dump_callees (l : list (Z * callee_info)) (root : tree) : tree * list line :=
  match l with
  | [] => (root, [])
  | (k, c) :: l =>
      let '(root, n) := label_of (even_pc k) root in
      let '(root, out) := frame_dump_callees l root in
      (root, CalleeLine (k &! 1) n (callee_calls c) (callee_cycles c) :: out)
  end.
Definition frame_dump_function (k : Z) (prof : profile_info) (root : tree) : tree * list line :=
  let '(root, n) := label_of k root in
  let out :=
    if negb (calls prof =? 0)
    then FunctionLine (isIRQ prof) n prof (local_cycles prof / calls prof)
           (total_cycles prof / calls prof)
    else NeverFinished (isIRQ prof) n in
  let '(root, rest) := frame_dump_callees (hash_enumerate (callees prof)) root in
  (root, out :: rest).
Fixpoint frame_dump_functions (ks : list Z) (profs : gmap Z profile_info) (root : tree)
    : tree * list line :=
  match ks with
  | [] => (root, [])
  | k :: ks =>
      let '(root, out) :=
        match profs !! k with
        | Some prof => frame_dump_function k prof root
        | None => (root, [])
        end in
      let '(root, rest) := frame_dump_functions ks profs root in
      (root, out ++ rest)
  end.
Definition frame_dump_profile (now : Z) (opcstat asmopcstat : gmap Z Z) (root : tree) (s : profiler)
    : option (profiler * tree * list line) :=
  s ← close_threads now (hash_enumerate (threads s)) s;
  let '(root, out) := frame_dump_functions (below (Z.to_nat 65536)) (profiles s) root in
  Some (s, root, out ++ ((λ i, OpcodeLine i (get0 asmopcstat i) (get0 opcstat i)) <$> below 256)).
