(* ===== verification/FrameProps.v ===== *)
(** * FrameProps: the profiler never leaves its data structures and loses no cycle

    [frame_safe]: whatever calls, returns and stack switches the emulated program
    makes, no operation of [frame.c] does anything undefined.  [profile_conserves]:
    the cycles it reports for the single functions add up to those that have
    passed.  Sums of the 64 bit counters are compared modulo 2^64. *)
From S2P Require Export Frame.

(** ** Threads *)
Definition frame_ok (i : Z) (f : frame_info) : Prop :=
  word (frame_pc f) ∧ in_memory (frame_fp f) = true ∧ (i = 0 → frame_fp f = 0).
(** A thread after at most [n] calls. *)
Record thread_wf (n : Z) (t : thread_info) : Prop := {
  tw_num : 0 <= num_frames t <= n;
  tw_lt : num_frames t < size_frames t;
  tw_size : 2 <= size_frames t <= n + 12;
  tw_room : frames_room t = size_frames t + 1;
  tw_frames : ∀ i, 0 <= i <= num_frames t → ∃ f, frames t !! i = Some f ∧ frame_ok i f }.
(** The functions of the frames below [m] have a profile. *)
Definition called (ps : gmap Z profile_info) (t : thread_info) (m : Z) : Prop :=
  ∀ i f, 0 <= i < m → frames t !! i = Some f → is_Some (ps !! even_pc (frame_pc f)).
Definition thread_ok (ps : gmap Z profile_info) (n : Z) (t : thread_info) : Prop :=
  thread_wf n t ∧ called ps t (num_frames t).
Definition extends (ps ps' : gmap Z profile_info) : Prop :=
  ∀ k, is_Some (ps !! k) → is_Some (ps' !! k).

Lemma extends_insert ps k p : extends ps (<[k := p]> ps).
Proof.
  intros k' Hk. destruct (decide (k = k')) as [->|]; [rewrite lookup_insert_eq; eauto|].
  rewrite lookup_insert_ne; done.
Qed.
Lemma extends_refl ps : extends ps ps.
Proof. intros k. done. Qed.
Lemma extends_trans ps ps' ps'' : extends ps ps' → extends ps' ps'' → extends ps ps''.
Proof. unfold extends. auto. Qed.
Lemma called_extends ps ps' t m : extends ps ps' → called ps t m → called ps' t m.
Proof. intros He Hc i f Hi Hf. eauto. Qed.
Lemma called_le ps t m m' : m' <= m → called ps t m → called ps t m'.
Proof. intros Hm Hc i f Hi. apply Hc. lia. Qed.
Lemma thread_wf_le n n' t : n <= n' → thread_wf n t → thread_wf n' t.
Proof. intros Hn [H1 H2 H3 H4 H5]. constructor; [lia..|done]. Qed.
Lemma thread_ok_mono ps ps' n n' t :
  extends ps ps' → n <= n' → thread_ok ps n t → thread_ok ps' n' t.
Proof. intros He Hn [H1 H2]. split; [eapply thread_wf_le|eapply called_extends]; done. Qed.

Lemma frame_at_in t i : 0 <= i < frames_room t → frame_at t i = frames t !! i.
Proof. intros Hi. unfold frame_at. replace (_ && _) with true by lia. done. Qed.
Lemma set_frame_in i f t : 0 <= i < frames_room t → set_frame i f t = Some (with_frame i f t).
Proof. intros Hi. unfold set_frame. replace (_ && _) with true by lia. done. Qed.
Lemma live_frame n t i :
  thread_wf n t → 0 <= i <= num_frames t →
  ∃ f, frame_at t i = Some f ∧ frames t !! i = Some f ∧ frame_ok i f.
Proof.
  intros Ht Hi. destruct (tw_frames n t Ht i Hi) as (f & Hf & Hok).
  exists f. rewrite frame_at_in; [done|]. rewrite (tw_room n t Ht). pose proof (tw_lt n t Ht). lia.
Qed.
Lemma set_live n t i f :
  thread_wf n t → 0 <= i <= num_frames t + 1 → set_frame i f t = Some (with_frame i f t).
Proof.
  intros Ht Hi. apply set_frame_in. rewrite (tw_room n t Ht). pose proof (tw_lt n t Ht). lia.
Qed.
Lemma with_frame_wf n t i f :
  thread_wf n t → frame_ok i f → thread_wf n (with_frame i f t).
Proof.
  intros Ht Hf. pose proof (tw_frames n t Ht) as Hfs. destruct Ht as [H1 H2 H3 H4 H5].
  constructor; try done. intros j Hj. cbn [frames with_frame].
  destruct (decide (i = j)) as [->|]; [rewrite lookup_insert_eq; eauto|].
  rewrite lookup_insert_ne by done. auto.
Qed.
Lemma with_frame_called ps t i f g m :
  called ps t m → frames t !! i = Some g → frame_pc f = frame_pc g →
  called ps (with_frame i f t) m.
Proof.
  intros Hc Hg Hp j h Hj Hh. cbn [frames with_frame] in Hh.
  apply lookup_insert_Some in Hh as [[<- <-]|[_ Hh]]; [|eauto]. rewrite Hp. eauto.
Qed.
Lemma set_num_wf n m t :
  thread_wf n t → 0 <= m <= num_frames t → thread_wf n (set_num_frames m t).
Proof.
  intros [H1 H2 H3 H4 H5] Hm. constructor; cbn [num_frames size_frames frames_room set_num_frames];
    [lia..|]. intros i Hi. cbn [frames set_num_frames]. apply H5. lia.
Qed.

(** ** Profiles *)

(** Every creation in a table of callees adds a key, and keys are words: the table
    cannot outgrow [hash_grow]'s [int]. *)
Record callees_ok (h : hash_type callee_info) : Prop := {
  ce_wf : wf h;
  ce_keys : Forall word (hash_enumerate h).*1;
  ce_elems : elems h = Z.of_nat (length (hash_enumerate h));
  ce_sized : sized (elems h) h }.
Definition profiles_ok (ps : gmap Z profile_info) : Prop :=
  map_Forall (λ _ p, callees_ok (callees p)) ps.

Lemma below_length n l : NoDup l → Forall (λ x, 0 <= x < n) l → Z.of_nat (length l) <= Z.max 0 n.
Proof.
  intros Hn Hw. assert (length l <= length (below (Z.to_nat n)))%nat as Hl.
  { apply submseteq_length, NoDup_submseteq; [done|]. intros x Hx.
    rewrite Forall_forall in Hw. apply Hw in Hx. apply list_elem_of_fmap.
    exists (Z.to_nat x). rewrite elem_of_seq. lia. }
  unfold below in Hl. rewrite length_fmap, length_seq in Hl. lia.
Qed.
Lemma words_length l : NoDup l → Forall word l → Z.of_nat (length l) <= 65536.
Proof. intros Hn Hw. apply (below_length 65536); done. Qed.
Lemma callees_init : callees_ok (hash_init 5).
Proof.
  constructor; [apply init_ok; lia|apply Forall_nil_2|done|]. split; simpl; lia.
Qed.
Lemma contents_keys {V} (h h' : hash_type V) k v :
  wf h → wf h' → contents h' = <[k := v]> (contents h) →
  (hash_enumerate h').*1 ≡ₚ if decide (k ∈ (hash_enumerate h).*1) then (hash_enumerate h).*1
                            else k :: (hash_enumerate h).*1.
Proof.
  intros Hw Hw' Hc. pose proof (wf_unique h Hw) as Hn. pose proof (wf_unique h' Hw') as Hn'.
  assert (∀ (g : hash_type V) x, wf g → x ∈ (hash_enumerate g).*1 ↔ is_Some (contents g !! x)) as Hin.
  { intros g x Hg. unfold contents. rewrite <- not_eq_None_Some, <- not_elem_of_list_to_map.
    destruct (decide (x ∈ (hash_enumerate g).*1)); tauto. }
  apply NoDup_Permutation; [done|case_decide; [done|constructor; done]|].
  intros x. rewrite Hin by done. rewrite Hc, lookup_insert_is_Some.
  rewrite <- Hin by done. case_decide; [|rewrite elem_of_cons];
    destruct (decide (k = x)) as [->|]; naive_solver.
Qed.
Lemma hash_write_shape {V} (h : hash_type V) k f :
  size (hash_write h k f) = size h ∧ elems (hash_write h k f) = elems h.
Proof. unfold hash_write. destruct (chain_set _ _ _); done. Qed.
Lemma callees_create h k v :
  callees_ok h → word k → hash_get h k = None →
  callees_ok (hash_create h k v) ∧ contents (hash_create h k v) = <[k := v]> (contents h).
Proof.
  intros [Hw Hk He Hs] Hword Hg. rewrite get_contents in Hg by done.
  pose proof (words_length _ (wf_unique h Hw) Hk) as Hl. rewrite length_fmap in Hl.
  destruct (shaped_create h k v (elems h) (wf_shaped h Hw) Hs) as (_ & _ & Hp & Hs'); [lia|].
  destruct (create_ok h k v Hw) as [Hw' Hc]; [destruct Hs; lia|done|].
  assert (elems (hash_create h k v) = elems h + 1) as Ee.
  { unfold hash_create. cbn [elems]. destruct (_ <? _); cbn [elems hash_grow];
      apply u32_id; unfold dword; lia. }
  apply Permutation_length in Hp. unfold payloads in Hp. simpl in Hp. rewrite !length_fmap in Hp.
  split; [|done]. constructor; [done| |lia|rewrite Ee; done].
  rewrite (contents_keys h _ k v) by done. case_decide; [done|]. constructor; done.
Qed.
Lemma callees_write h k f v :
  callees_ok h → contents h !! k = Some v → callees_ok (hash_write h k f).
Proof.
  intros [Hw Hk He Hs] Hv. destruct (hash_write_ok h k f v Hw Hv) as [Hw' Hc].
  destruct (hash_write_shape h k f) as [Hz Hel].
  pose proof (contents_keys h _ k (f v) Hw Hw' Hc) as Hp. rewrite decide_True in Hp.
  2: { destruct (decide (k ∈ (hash_enumerate h).*1)) as [|Hn]; [done|].
       apply not_elem_of_list_to_map in Hn. unfold contents in Hv. congruence. }
  constructor; [done|rewrite Hp; done| |unfold sized; rewrite Hz, Hel; done].
  apply Permutation_length in Hp. rewrite !length_fmap in Hp. rewrite Hel, He, Hp. done.
Qed.
Lemma add_callee_ok prof p n :
  callees_ok (callees prof) → word p →
  callees_ok (callees (frame_add_callee prof p n)).
Proof.
  intros Hok Hp. unfold frame_add_callee. cbn [callees].
  destruct (hash_get (callees prof) p) as [c|] eqn:Hg.
  - rewrite get_contents in Hg by apply Hok. eapply callees_write; done.
  - destruct (callees_create _ p (CalleeInfo 0 0) Hok Hp Hg) as [Hok' Hc].
    eapply callees_write; [done|]. rewrite Hc. apply lookup_insert_eq.
Qed.

(** ** Returns on the frames of one thread *)
Lemma word_at_word mem o : bytes_map mem → word (word_at mem o).
Proof. intros Hm. apply word_join; apply get0_byte; done. Qed.
#[local] Hint Resolve word_at_word : width.

(** The thread left by [frame_insert_subframe]. *)
Definition subframed (now p : Z) (f : frame_info) (t : thread_info) : thread_info :=
  with_frame 0 (FrameInfo now 0 0 0 p 0) (with_frame 1 f (set_num_frames 1 t)).
Lemma insert_subframe_eq n now mem fp t f :
  thread_wf n t → num_frames t = 0 → frames t !! 0 = Some f → in_memory fp = true →
  frame_insert_subframe now mem fp t = Some (subframed now (word_at mem fp) f t).
Proof.
  intros Ht H0 Hf Hfp. pose proof (tw_size n t Ht). pose proof (tw_room n t Ht).
  unfold frame_insert_subframe. rewrite frame_at_in, Hf by lia. simpl.
  rewrite set_frame_in by (simpl; lia). simpl. unfold return_address. rewrite Hfp. simpl.
  apply set_frame_in. simpl. lia.
Qed.
Lemma subframed_wf n now p f t :
  thread_wf n t → num_frames t = 0 → frames t !! 0 = Some f → 1 <= n → word p →
  thread_wf n (subframed now p f t).
Proof.
  intros Ht H0 Hf Hn Hp. destruct (tw_frames n t Ht 0) as (g & Hg & Hw & Hm & Hb); [lia|].
  assert (g = f) as -> by congruence.
  destruct Ht as [H1 H2 H3 H4 _]. constructor; simpl; [lia..|]. intros i Hi.
  assert (i = 0 ∨ i = 1) as [-> | ->] by lia.
  - rewrite lookup_insert_eq. eexists. split; [done|]. done.
  - rewrite lookup_insert_ne, lookup_insert_eq by done. exists f. split; [done|].
    split_and!; [done|done|lia].
Qed.

(** A thread whose top frame can be closed: its parent has a profile if it needs one. *)
Record closable (ps : gmap Z profile_info) (n : Z) (t : thread_info) : Prop := {
  cl_wf : thread_wf n t;
  cl_num : 1 <= num_frames t;
  cl_below : called ps t (num_frames t - 1);
  cl_top : ∀ f, frames t !! num_frames t = Some f → frame_fp f ≠ 0 →
    called ps t (num_frames t) }.
Lemma subframed_closable ps n now p f t :
  thread_wf n t → num_frames t = 0 → frames t !! 0 = Some f → 1 <= n → word p →
  closable ps n (subframed now p f t).
Proof.
  intros Ht H0 Hf Hn Hp. destruct (tw_frames n t Ht 0) as (g & Hg & _ & _ & Hb); [lia|].
  assert (g = f) as -> by congruence. constructor.
  - apply subframed_wf; done.
  - done.
  - intros i h Hi. simpl in Hi. lia.
  - simpl. intros h Hh. rewrite lookup_insert_ne, lookup_insert_eq in Hh by done. simplify_eq.
    rewrite Hb by done. done.
Qed.
Lemma ok_closable ps n t : thread_ok ps n t → 1 <= num_frames t → closable ps n t.
Proof. intros [Hw Hc] Hn. constructor; [done|done|eapply called_le, Hc; lia|done]. Qed.

(** [sub_frame]: the top frame is given up. *)
Definition given_up (f pf : frame_info) (t : thread_info) : thread_info :=
  set_num_frames (num_frames t - 1)
    (with_frame (num_frames t - 1)
       (FrameInfo (startcycle pf) (childcycles pf) (u64 (irqcycles pf + irqcycles f))
          (u64 (threadcycles pf + threadcycles f)) (frame_pc pf) (frame_fp pf)) t).
Lemma given_up_ok ps n f pf t :
  closable ps n t → frames t !! num_frames t = Some f → frame_fp f ≠ 0 →
  frames t !! (num_frames t - 1) = Some pf → thread_ok ps n (given_up f pf t).
Proof.
  intros Hc Hf Hfp Hpf. pose proof (cl_wf _ _ _ Hc) as Hw. pose proof (cl_num _ _ _ Hc).
  destruct (tw_frames n t Hw (num_frames t - 1)) as (g & Hg & Hok); [lia|].
  assert (g = pf) as -> by congruence. split.
  - apply set_num_wf; [apply with_frame_wf; done|simpl; lia].
  - simpl. intros i h Hi Hh. simpl in Hh. eapply with_frame_called; [apply (cl_below _ _ _ Hc)| | | |exact Hh].
    { exact Hpf. } { done. } { lia. }
Qed.
Lemma drop_frames_ok ps n now mem fp fuel t :
  closable ps n t → bytes_map mem → in_memory fp = true → 1 <= n →
  num_frames t < Z.of_nat fuel ∨
    (fuel ≠ O ∧ ∃ f, frames t !! num_frames t = Some f ∧ frame_fp f = 0) →
  ∃ t', drop_frames fuel now mem fp t = Some t' ∧ closable ps n t'.
Proof.
  intros Hc Hm Hfp Hn. revert t Hc. induction fuel as [|fuel IH]; intros t Hc Hfuel.
  { pose proof (cl_num _ _ _ Hc). destruct Hfuel as [?|[? _]]; [lia|done]. }
  pose proof (cl_num _ _ _ Hc) as H1. pose proof (cl_wf _ _ _ Hc) as Hw.
  destruct (live_frame n t (num_frames t) Hw) as (f & Ha & Hf & Hok); [lia|].
  destruct (live_frame n t (num_frames t - 1) Hw) as (pf & Hpa & Hpf & Hpok); [lia|].
  cbn [drop_frames]. rewrite Ha. cbn [mbind option_bind]. case_match eqn:Hlt; [|eauto].
  rewrite Hpa. cbn [mbind option_bind]. rewrite (set_live n) by (done || lia).
  cbn [mbind option_bind]. fold (given_up f pf t).
  pose proof (given_up_ok ps n f pf t Hc Hf ltac:(lia) Hpf) as Hg.
  destruct (Z.eqb_spec (num_frames t - 1) 0) as [E|E].
  - destruct (tw_frames n _ (proj1 Hg) 0) as (h & Hh & _ & _ & Hb); [simpl; lia|].
    rewrite (insert_subframe_eq n _ _ _ _ h) by (done || apply Hg).
    cbn [mbind option_bind]. apply IH.
    + apply subframed_closable; [apply Hg|done|done|done|auto with width].
    + right. split; [destruct Hfuel as [?|[_ (f' & Hf' & ?)]]; [lia|simplify_eq; lia]|].
      exists h. simpl. rewrite lookup_insert_ne, lookup_insert_eq by done. auto.
  - cbn [mbind option_bind]. apply IH; [apply ok_closable; [done|simpl; lia]|].
    left. simpl. destruct Hfuel as [?|[_ (f' & Hf' & ?)]]; [lia|simplify_eq; lia].
Qed.

(** ** The profiler *)
Record frame_inv (n : Z) (s : profiler) : Prop := {
  fi_shaped : shaped (threads s);
  fi_sized : sized n (threads s);
  fi_payloads : payloads (threads s) ≡ₚ seq 0 (length (blocks s));
  fi_blocks : Forall (thread_ok (profiles s) n) (blocks s);
  fi_profiles : profiles_ok (profiles s);
  fi_current : ∀ q, current_thread s = Some q → hash_get (threads s) 0 = Some q }.

Lemma sized_le {V} n n' (h : hash_type V) : n <= n' → sized n h → sized n' h.
Proof. unfold sized. lia. Qed.
Lemma frame_inv_le n n' s : n <= n' → frame_inv n s → frame_inv n' s.
Proof.
  intros Hn [H1 H2 H3 H4 H5 H6]. constructor; try done; [eapply sized_le; done|].
  eapply Forall_impl; [exact H4|]. intros t. apply thread_ok_mono; [apply extends_refl|done].
Qed.
Lemma frame_init_inv : frame_inv 0 frame_init.
Proof.
  destruct (shaped_init (V := nat) 5) as [H1 H2]; [lia|]. constructor; done.
Qed.

Lemma get_payload {V} (h : hash_type V) k v : shaped h → hash_get h k = Some v → v ∈ payloads h.
Proof.
  intros Hh Hg. pose proof (shaped_chain h k Hh) as Hc. unfold hash_get in Hg.
  unfold payloads, hash_enumerate. apply list_elem_of_fmap.
  assert (∃ b, b ∈ chain h k ∧ b.2 = v) as (b & Hb & Hv).
  { clear Hc. induction (chain h k) as [|[k' v'] c IH]; simpl in Hg; [done|]. case_match.
    - simplify_eq. eexists. split; [left|done].
    - destruct IH as (b & Hb & Hv); [done|]. exists b. split; [right|]; done. }
  exists b. split; [done|]. apply list_elem_of_In, in_concat. exists (chain h k).
  split; apply list_elem_of_In; [|done]. eapply list_elem_of_lookup_2, Hc.
Qed.
(** A pointer found in the table is the one of a block. *)
Lemma get_block n s k q :
  frame_inv n s → hash_get (threads s) k = Some q →
  ∃ t, blocks s !! q = Some t ∧ thread_ok (profiles s) n t.
Proof.
  intros Hi Hg. apply get_payload in Hg; [|apply Hi]. rewrite (fi_payloads n s Hi) in Hg.
  apply elem_of_seq in Hg. destruct (lookup_lt_is_Some_2 (blocks s) q) as [t Ht]; [lia|].
  exists t. split; [done|]. eapply Forall_lookup_1; [apply Hi|done].
Qed.
(** A step changes one block and the profiles. *)
Lemma frame_inv_update n n' s ps t q :
  frame_inv n s → n <= n' → extends (profiles s) ps → profiles_ok ps → thread_ok ps n' t →
  frame_inv n' (set_profiles ps (set_block q t s)).
Proof.
  intros Hi Hn He Hps Ht. apply (frame_inv_le n n' s Hn) in Hi.
  destruct Hi as [H1 H2 H3 H4 H5 H6]. constructor; simpl; try done.
  - rewrite length_insert. done.
  - apply Forall_insert; [|done]. eapply Forall_impl; [exact H4|].
    intros t'. apply thread_ok_mono; done.
Qed.

(** *** [frame_begin] *)
Lemma int_add_in a b : -2147483648 <= a + b < 2147483648 → int_add a b = Some (a + b).
Proof. intros H. unfold int_add. replace (_ && _) with true by lia. done. Qed.
Record grown (n : Z) (t t' : thread_info) : Prop := {
  gr_num : num_frames t' = num_frames t + 1;
  gr_wf : num_frames t' < size_frames t' ∧ 2 <= size_frames t' <= n + 13;
  gr_room : frames_room t' = size_frames t' + 1;
  gr_switch : switchcycle t' = switchcycle t;
  gr_frames : ∀ i, 0 <= i <= num_frames t → frames t' !! i = frames t !! i }.
Lemma grow_num_ok n s q t :
  thread_wf n t → blocks s !! q = Some t → n < 268435456 →
  current_thread s = Some q → shaped (threads s) → hash_get (threads s) 0 = Some q →
  ∃ t', frame_grow_num_frames q s = Some (set_block q t' s) ∧ grown n t t'.
Proof.
  intros Ht Hb Hn Hcur Hs Hg. destruct Ht as [H1 H2 H3 H4 H5].
  unfold frame_grow_num_frames. rewrite Hb. cbn [mbind option_bind].
  rewrite (int_add_in (num_frames t)) by lia. cbn [mbind option_bind].
  destruct (Z.leb_spec (size_frames t) (num_frames t + 1)).
  - rewrite int_add_in by lia. cbn [mbind option_bind].
    change (threads (set_block _ _ _)) with (threads s). rewrite Hg. cbn [mbind option_bind].
    simpl. rewrite list_lookup_insert_eq by (eapply lookup_lt_Some, Hb). simpl.
    eexists. split.
    + f_equal. unfold set_current, set_threads, set_block, set_blocks. simpl.
      rewrite (realloc_same _ 0 q) by done. rewrite list_insert_insert_eq, <- Hcur. reflexivity.
    + constructor; simpl; [lia|lia|lia|done|]. intros i Hi.
      destruct (H5 i Hi) as (f & Hf & _). rewrite Hf. apply map_lookup_filter_Some. split; [done|simpl; lia].
  - eexists. split; [done|]. constructor; simpl; [lia|lia|done|done|done].
Qed.
Lemma pushed_wf n t t' f :
  thread_wf n t → grown n t t' → frame_ok (num_frames t') f →
  thread_wf (n + 1) (with_frame (num_frames t') f t').
Proof.
  intros Ht [G1 G2 G3 G4 G5] Hf. destruct Ht as [H1 H2 H3 H4 H5].
  constructor; simpl; [lia..|]. intros i Hi.
  destruct (decide (num_frames t' = i)) as [<-|]; [rewrite lookup_insert_eq; eauto|].
  rewrite lookup_insert_ne, G5 by lia. apply H5. lia.
Qed.
Lemma create_profile_eq p s :
  ∃ ps, create_profile p s = set_profiles ps s ∧ extends (profiles s) ps ∧
    is_Some (ps !! even_pc p) ∧ (profiles_ok (profiles s) → profiles_ok ps).
Proof.
  unfold create_profile. destruct (profiles s !! even_pc p) as [x|] eqn:Hp.
  - exists (profiles s). destruct s. split_and!; [done|apply extends_refl|eauto|done].
  - eexists. split; [done|]. split_and!; [apply extends_insert|rewrite lookup_insert_eq; eauto|].
    intros Hps. apply map_Forall_insert_2; [apply callees_init|done].
Qed.
Lemma set_block_twice q t t' s : set_block q t (set_block q t' s) = set_block q t s.
Proof. unfold set_block, set_blocks. simpl. rewrite list_insert_insert_eq. done. Qed.
Lemma get_set_block s q t t' : blocks s !! q = Some t → blocks (set_block q t' s) !! q = Some t'.
Proof. intros H. apply list_lookup_insert_eq. eapply lookup_lt_Some, H. Qed.
Definition irq_bit (in_irq : Z) : Z := if in_irq =? 0 then 0 else 1.
Lemma irq_pc_word p i : word p → word (p |! irq_bit i).
Proof. intros Hp. apply word_lor; [done|]. unfold irq_bit. case_match; done. Qed.
Lemma begin_eq n s now p fp in_irq q t :
  frame_inv n s → n < 268435456 → current_thread s = Some q → blocks s !! q = Some t →
  ∃ t' pf, grown n t t' ∧ frames t !! num_frames t = Some pf ∧
    frame_begin now p fp in_irq s =
      Some (create_profile (frame_pc pf)
              (set_block q (with_frame (num_frames t')
                              (FrameInfo now 0 0 0 (p |! irq_bit in_irq) fp) t') s)).
Proof.
  intros Hi Hn Hq Ht.
  assert (thread_wf n t) as Hw.
  { pose proof (Forall_lookup_1 _ _ _ _ (fi_blocks n s Hi) Ht) as [? _]. done. }
  set (t1 := if fp <? minfp t then set_minfp fp t else t).
  assert (thread_wf n t1) as Hw1.
  { unfold t1. case_match; [destruct Hw; constructor; done|done]. }
  pose proof (fi_current n s Hi q Hq) as Hg.
  destruct (grow_num_ok n (set_block q t1 s) q t1 Hw1) as (t' & Heq & Hgr);
    [eapply get_set_block, Ht|done|done|apply Hi|done|].
  rewrite set_block_twice in Heq.
  assert (grown n t t') as Hgr'.
  { unfold t1 in Hgr. case_match; [|done]. destruct Hgr. constructor; done. }
  destruct (tw_frames n t Hw (num_frames t)) as (pf & Hpf & _); [apply tw_num in Hw; lia|].
  exists t', pf. split_and!; [done|done|]. pose proof (tw_num n t Hw). destruct Hgr' as [G1 G2 G3 G4 G5].
  unfold frame_begin. rewrite Hq, Ht. cbn [mbind option_bind]. fold t1. rewrite Heq.
  cbn [mbind option_bind]. change (current_thread (set_block _ _ _)) with (current_thread s).
  rewrite Hq. cbn [mbind option_bind].
  rewrite (get_set_block s q t) by done. cbn [mbind option_bind]. rewrite set_frame_in by lia.
  cbn [mbind option_bind]. rewrite frame_at_in by (simpl; lia). cbn [frames num_frames with_frame].
  rewrite lookup_insert_ne, G5 by lia. rewrite G1, Z.add_simpl_r, Hpf. cbn [mbind option_bind].
  rewrite set_block_twice. done.
Qed.
Lemma begin_ok n s now p fp in_irq :
  frame_inv n s → n < 268435456 → word p → in_memory fp = true →
  ∃ s', frame_begin now p fp in_irq s = Some s' ∧ frame_inv (n + 1) s' ∧
    current_thread s' = current_thread s.
Proof.
  intros Hi Hn Hp Hfp. destruct (current_thread s) as [q|] eqn:Hq.
  2: { exists s. unfold frame_begin. rewrite Hq. split_and!; [done| |done].
       eapply frame_inv_le; [|done]. lia. }
  destruct (get_block n s 0 q Hi (fi_current n s Hi q Hq)) as (t & Ht & Hw & Hc).
  destruct (begin_eq n s now p fp in_irq q t Hi Hn Hq Ht) as (t' & pf & Hg & Hpf & ->).
  eexists. split; [done|].
  match goal with |- context [create_profile ?a ?b] =>
    destruct (create_profile_eq a b) as (ps & -> & He & Hk & Hps) end.
  split; [|simpl; done]. pose proof (gr_num n t t' Hg) as G1. pose proof (tw_num n t Hw).
  apply (frame_inv_update n); [done|lia|done|apply Hps, Hi|]. split.
  - apply (pushed_wf n t); [done|done|]. split_and!; [apply irq_pc_word; done|done|lia].
  - intros i f Hif Hf. simpl in Hif, Hf. rewrite lookup_insert_ne, (gr_frames n t t' Hg) in Hf by lia.
    destruct (decide (i = num_frames t)) as [->|]; [simplify_eq; done|].
    apply He. eapply Hc; [|exact Hf]. lia.
Qed.

(** *** [frame_end] *)
Lemma charge_pc f pf total : frame_pc (charge f pf total) = frame_pc pf.
Proof. unfold charge. case_match; done. Qed.
Lemma charge_fp f pf total : frame_fp (charge f pf total) = frame_fp pf.
Proof. unfold charge. case_match; done. Qed.
Lemma charge_frame_ok i f pf total : frame_ok i pf → frame_ok i (charge f pf total).
Proof. unfold frame_ok. rewrite charge_pc, charge_fp. done. Qed.
Lemma charge_parent_eq n s q t m total f pf :
  blocks s !! q = Some t → thread_wf n t → 1 <= m <= num_frames t + 1 →
  frames t !! (m - 1) = Some pf → is_Some (profiles s !! even_pc (frame_pc pf)) →
  ∃ prof, profiles s !! even_pc (frame_pc pf) = Some prof ∧
    charge_parent q m total f s =
      Some (set_profiles
              (<[even_pc (frame_pc pf) := frame_add_callee prof (frame_pc f) total]> (profiles s))
              (set_block q (with_frame (m - 1) (charge f pf total) t) s)).
Proof.
  intros Ht Hw Hm Hpf [prof Hprof]. exists prof. split; [done|].
  pose proof (tw_room n t Hw). pose proof (tw_lt n t Hw).
  unfold charge_parent. rewrite Ht. cbn [mbind option_bind].
  rewrite frame_at_in, Hpf by lia. cbn [mbind option_bind]. rewrite set_frame_in by lia.
  cbn [mbind option_bind]. rewrite Hprof. done.
Qed.
Lemma insert_profile_ok ps k p :
  profiles_ok ps → callees_ok (callees p) → profiles_ok (<[k := p]> ps).
Proof. intros. apply map_Forall_insert_2; done. Qed.
Lemma add_profile_eq f total local s :
  ∃ ps, add_profile f total local s = set_profiles ps s ∧ extends (profiles s) ps ∧
    (profiles_ok (profiles s) → profiles_ok ps).
Proof.
  eexists. split; [reflexivity|]. split; [apply extends_insert|]. intros Hps.
  apply insert_profile_ok; [done|]. simpl.
  destruct (profiles s !! _) as [p|] eqn:Hp; simpl; [exact (Hps _ p Hp)|apply callees_init].
Qed.
Lemma set_profiles_twice ps ps' s : set_profiles ps (set_profiles ps' s) = set_profiles ps s.
Proof. done. Qed.
(** Closing the top frame of a thread that is ready for it. *)
Lemma close_top_ok n s q t f total local :
  frame_inv n s → current_thread s = Some q → is_Some (blocks s !! q) →
  closable (profiles s) n t → frames t !! num_frames t = Some f →
  let s1 := set_block q (set_num_frames (num_frames t - 1) t) s in
  ∃ s2, (if frame_fp f =? 0 then Some s1 else charge_parent q (num_frames t) total f s1) = Some s2 ∧
    frame_inv n (add_profile f total local s2) ∧ current_thread (add_profile f total local s2) = Some q.
Proof.
  intros Hi Hq [t0 Ht0] Hc Hf s1. pose proof (cl_num _ _ _ Hc). pose proof (cl_wf _ _ _ Hc) as Hw.
  assert (thread_ok (profiles s) n (set_num_frames (num_frames t - 1) t)) as Hok.
  { split; [apply set_num_wf; [done|lia]|apply (cl_below _ _ _ Hc)]. }
  destruct (Z.eqb_spec (frame_fp f) 0) as [H0|H0].
  - exists s1. destruct (add_profile_eq f total local s1) as (ps & -> & He & Hps). split_and!; try done.
    unfold s1. apply (frame_inv_update n); [done|lia|done|apply Hps, Hi|].
    eapply thread_ok_mono; [exact He|reflexivity|done].
  - destruct (tw_frames n t Hw (num_frames t - 1)) as (pf & Hpf & Hpok); [lia|].
    destruct (tw_frames n t Hw (num_frames t)) as (f' & Hf' & Hfok); [lia|]. simplify_eq.
    destruct (charge_parent_eq n s1 q _ (num_frames t) total f pf
                (get_set_block s q t0 _ Ht0) (proj1 Hok)) as (prof & Hprof & ->);
      [simpl; lia|done|eapply (cl_top _ _ _ Hc f Hf H0); [|done]; lia|].
    eexists. split; [done|].
    match goal with |- context [add_profile f total local ?x] =>
      destruct (add_profile_eq f total local x) as (ps & -> & He & Hps) end.
    unfold s1. rewrite set_block_twice, set_profiles_twice. split; [|done].
    apply (frame_inv_update n); [done|lia|eapply extends_trans; [apply extends_insert|exact He]| |].
    + apply Hps. apply insert_profile_ok; [apply Hi|].
      apply add_callee_ok; [|apply Hfok]. exact (fi_profiles n s Hi _ _ Hprof).
    + split; [apply with_frame_wf; [apply Hok|apply charge_frame_ok; done]|].
      eapply called_extends; [eapply extends_trans; [apply extends_insert|exact He]|].
      eapply with_frame_called; [apply Hok|exact Hpf|apply charge_pc].
Qed.
Lemma end_ok n s now mem fp :
  frame_inv n s → 1 <= n → bytes_map mem → in_memory fp = true →
  ∃ s', frame_end now mem fp s = Some s' ∧ frame_inv n s' ∧ current_thread s' = current_thread s.
Proof.
  intros Hi Hn Hm Hfp. unfold frame_end. destruct (current_thread s) as [q|] eqn:Hq; [|eauto].
  destruct (get_block n s 0 q Hi (fi_current n s Hi q Hq)) as (t & Ht & Hok).
  pose proof (tw_num n t (proj1 Hok)) as Hnum. rewrite Ht. cbn [mbind option_bind].
  assert (∃ t1, (if num_frames t =? 0 then frame_insert_subframe now mem fp t else Some t) = Some t1 ∧
    closable (profiles s) n t1) as (t1 & -> & Hc1).
  { destruct (Z.eqb_spec (num_frames t) 0) as [E|]; [|exists t; split; [done|apply ok_closable; [done|lia]]].
    destruct (tw_frames n t (proj1 Hok) 0) as (f & Hf & _); [lia|].
    rewrite (insert_subframe_eq n _ _ _ _ f) by (done || apply Hok). eexists. split; [done|].
    apply subframed_closable; [apply Hok|done..|auto with width]. }
  cbn [mbind option_bind].
  destruct (drop_frames_ok (profiles s) n now mem fp (S (Z.to_nat (num_frames t1))) t1) as (t2 & -> & Hc2);
    [done..|pose proof (cl_num _ _ _ Hc1); lia|].
  cbn [mbind option_bind].
  destruct (live_frame n t2 (num_frames t2) (cl_wf _ _ _ Hc2)) as (f & -> & Hf & _);
    [pose proof (cl_num _ _ _ Hc2); lia|].
  cbn [mbind option_bind].
  destruct (close_top_ok n s q t2 f (frame_total now f) (frame_local now f) Hi Hq) as (s2 & -> & Hi2 & Hq2);
    [eauto|done|done|]. cbn [mbind option_bind]. eauto.
Qed.

(** *** [frame_switch] *)
Lemma leave_ok n s now old :
  frame_inv n s →
  ∃ s1, leave_thread now old s = Some s1 ∧ frame_inv n (set_current None s1) ∧
    profiles s1 = profiles s ∧
    match current_thread s with
    | Some q => ∃ t, blocks s !! q = Some t ∧ blocks s1 = <[q := set_switched now old t]> (blocks s)
    | None => blocks s1 = blocks s
    end.
Proof.
  intros Hi. unfold leave_thread. destruct (current_thread s) as [q|] eqn:Hq.
  - destruct (get_block n s 0 q Hi (fi_current n s Hi q Hq)) as (t & Ht & Hw & Hc).
    rewrite Ht. cbn [mbind option_bind]. eexists. split; [done|]. split; [|split; [done|eauto]].
    pose proof (shaped_move (threads s) 0 old (fi_shaped n s Hi)) as Hm.
    destruct (hash_move (threads s) 0 old) as [h r]. destruct Hm as (M1 & M2 & M3 & M4 & _).
    constructor; simpl; [done| | | |apply Hi|done].
    + destruct (fi_sized n s Hi). split; [rewrite M4|rewrite M3]; done.
    + rewrite M2, length_insert. apply Hi.
    + apply Forall_insert; [apply Hi|]. split; [|done]. destruct Hw. constructor; done.
  - exists s. split_and!; [done| |done|done]. destruct Hi. constructor; done.
Qed.
Lemma new_thread_ok ps n now p new : word p → 0 <= n → thread_ok ps n (new_thread now p new).
Proof.
  intros Hp Hn. split; [|intros i f Hi; simpl in Hi; lia].
  constructor; simpl; [lia..|]. intros i Hi. assert (i = 0) as -> by lia.
  rewrite lookup_singleton_eq. eexists. split; [done|]. done.
Qed.
Lemma enter_ok n s now p new :
  frame_inv n (set_current None s) → 0 <= n < 268435456 → word p →
  frame_inv (n + 1) (enter_thread now p new s) ∧
  profiles (enter_thread now p new s) = profiles s ∧
  ∃ q, current_thread (enter_thread now p new s) = Some q ∧
    (blocks (enter_thread now p new s) = blocks s ∨
     blocks (enter_thread now p new s) = blocks s ++ [new_thread now p new] ∧ q = length (blocks s)).
Proof.
  intros Hi Hn Hp. unfold enter_thread.
  pose proof (shaped_move (threads s) new 0 (fi_shaped n _ Hi)) as Hm.
  destruct (hash_move (threads s) new 0) as [h r]. destruct Hm as (M1 & M2 & M3 & M4 & M5).
  destruct Hi as [H1 H2 H3 H4 H5 H6]. simpl in *.
  assert (Forall (thread_ok (profiles s) (n + 1)) (blocks s)) as H4'.
  { eapply Forall_impl; [exact H4|]. intros t. apply thread_ok_mono; [apply extends_refl|lia]. }
  destruct r as [q|].
  - split; [|eauto]. constructor; simpl; [done| |rewrite M2; done|done|done|].
    + destruct H2. unfold sized. rewrite M3, M4. lia.
    + intros q' Hq'. simplify_eq. done.
  - subst h. simpl. split; [|eauto 10].
    destruct (shaped_create (threads s) 0 (length (blocks s)) n) as (C1 & C2 & C3 & C4); [done|done|lia|].
    constructor; simpl; [done|done| | |done|].
    + rewrite C3, H3, length_app, Nat.add_1_r, seq_S. apply Permutation_cons_append.
    + apply Forall_app. split; [done|]. apply Forall_singleton, new_thread_ok; [done|lia].
    + intros q' Hq'. simplify_eq. done.
Qed.
Definition resumed (now : Z) (f : frame_info) (t : thread_info) : thread_info :=
  with_frame (num_frames t)
    (FrameInfo (startcycle f) (childcycles f) (irqcycles f)
       (u64 (threadcycles f + u64 (now - switchcycle t))) (frame_pc f) (frame_fp f)) t.
Lemma resume_eq n now t f :
  thread_wf n t → frames t !! num_frames t = Some f → resume_thread now t = Some (resumed now f t).
Proof.
  intros Hw Hf. pose proof (tw_num n t Hw). unfold resume_thread.
  rewrite frame_at_in, Hf by (rewrite (tw_room n t Hw); pose proof (tw_lt n t Hw); lia).
  cbn [mbind option_bind]. apply (set_live n); [done|lia].
Qed.
Lemma resumed_ok ps n now f t :
  thread_ok ps n t → frames t !! num_frames t = Some f → thread_ok ps n (resumed now f t).
Proof.
  intros [Hw Hc] Hf. pose proof (tw_num n t Hw).
  destruct (tw_frames n t Hw (num_frames t)) as (f' & Hf' & Hok); [lia|]. simplify_eq. split.
  - apply with_frame_wf; done.
  - eapply with_frame_called; done.
Qed.
Lemma switch_ok n s now p old new :
  frame_inv n s → 0 <= n < 268435456 → word p →
  ∃ s', frame_switch now p old new s = Some s' ∧ frame_inv (n + 1) s' ∧
    (old ≠ new → is_Some (current_thread s')) ∧ (old = new → s' = s).
Proof.
  intros Hi Hn Hp. unfold frame_switch. destruct (Z.eqb_spec old new) as [E|E].
  { exists s. split_and!; [done|eapply frame_inv_le; [|done]; lia|done|done]. }
  destruct (leave_ok n s now old Hi) as (s1 & -> & Hi1 & _). cbn [mbind option_bind].
  destruct (enter_ok n s1 now p new Hi1 Hn Hp) as (Hi2 & _ & q & Hq & _).
  rewrite Hq. cbn [mbind option_bind].
  destruct (get_block _ _ 0 q Hi2 (fi_current _ _ Hi2 q Hq)) as (t & Ht & Hok).
  rewrite Ht. cbn [mbind option_bind]. pose proof (tw_num _ t (proj1 Hok)).
  destruct (tw_frames _ t (proj1 Hok) (num_frames t)) as (f & Hf & _); [lia|].
  rewrite (resume_eq (n + 1) now t f) by (done || apply Hok). cbn [mbind option_bind].
  eexists. split; [done|]. split; [|simpl; rewrite Hq; split; [eauto|done]].
  pose proof (frame_inv_update (n + 1) (n + 1) _ (profiles (enter_thread now p new s1))
                (resumed now f t) q Hi2 (reflexivity _) (extends_refl _) (fi_profiles _ _ Hi2)) as Hu.
  apply Hu. apply resumed_ok; done.
Qed.

(** *** Reports *)

(** One frame of a thread is charged to its parent and added to its profile. *)
Lemma charge_step n s q t i f pf total local :
  frame_inv n s → blocks s !! q = Some t → 1 <= i <= num_frames t →
  frames t !! i = Some f → frames t !! (i - 1) = Some pf →
  ∃ prof s1, profiles s !! even_pc (frame_pc pf) = Some prof ∧
    charge_parent q i total f s = Some s1 ∧
    s1 = set_profiles (<[even_pc (frame_pc pf) := frame_add_callee prof (frame_pc f) total]> (profiles s))
           (set_block q (with_frame (i - 1) (charge f pf total) t) s) ∧
    frame_inv n (add_profile f total local s1).
Proof.
  intros Hi Ht Hr Hf Hpf. destruct (Forall_lookup_1 _ _ _ _ (fi_blocks n s Hi) Ht) as [Hw Hc].
  destruct (tw_frames n t Hw i) as (f' & Hf' & Hfok); [lia|].
  destruct (tw_frames n t Hw (i - 1)) as (pf' & Hpf' & Hpok); [lia|]. simplify_eq.
  destruct (charge_parent_eq n s q t i total f pf Ht Hw) as (prof & Hprof & Heq);
    [lia|done|eapply Hc; [|done]; lia|].
  exists prof. eexists. split_and!; [done|exact Heq|done|].
  match goal with |- context [add_profile f total local ?x] =>
    destruct (add_profile_eq f total local x) as (ps & -> & He & Hps) end.
  rewrite set_profiles_twice.
  assert (extends (profiles s) ps) as He' by (eapply extends_trans; [apply extends_insert|exact He]).
  apply (frame_inv_update n); [done|lia|done| |].
  - apply Hps. apply insert_profile_ok; [apply Hi|].
    apply add_callee_ok; [|apply Hfok]. exact (fi_profiles n s Hi _ _ Hprof).
  - split; [apply with_frame_wf; [done|apply charge_frame_ok; done]|].
    eapply called_extends; [exact He'|]. eapply with_frame_called; [exact Hc|exact Hpf|apply charge_pc].
Qed.
Lemma add_profile_inv n s f total local : frame_inv n s → frame_inv n (add_profile f total local s).
Proof.
  intros Hi. destruct (add_profile_eq f total local s) as (ps & -> & He & Hps).
  destruct Hi as [H1 H2 H3 H4 H5 H6]. constructor; simpl; auto.
  eapply Forall_impl; [exact H4|]. intros t. apply thread_ok_mono; [done|lia].
Qed.
(** What closing threads leaves alone. *)
Definition same_threads (s s' : profiler) : Prop :=
  threads s' = threads s ∧ current_thread s' = current_thread s ∧ length (blocks s') = length (blocks s).
Lemma close_frames_ok n sw q i s t :
  frame_inv n s → blocks s !! q = Some t → Z.of_nat i <= num_frames t →
  ∃ s', close_frames q sw i s = Some s' ∧ frame_inv n s' ∧ same_threads s s' ∧
    ∀ q', q' ≠ q → blocks s' !! q' = blocks s !! q'.
Proof.
  revert s t. induction i as [|i IH]; intros s t Hi Ht Hr;
    pose proof (Forall_lookup_1 _ _ _ _ (fi_blocks n s Hi) Ht) as [Hw _].
  all: cbn [close_frames]; rewrite Ht; cbn [mbind option_bind].
  - destruct (live_frame n t (Z.of_nat 0) Hw) as (f & -> & _); [simpl; lia|]. cbn [mbind option_bind].
    eexists. split; [done|]. split; [apply add_profile_inv; done|]. done.
  - destruct (live_frame n t (Z.of_nat (S i)) Hw) as (f & -> & Hf & _); [lia|].
    destruct (live_frame n t (Z.of_nat (S i) - 1) Hw) as (pf & _ & Hpf & _); [lia|].
    cbn [mbind option_bind].
    destruct (charge_step n s q t (Z.of_nat (S i)) f pf (frame_total sw f) (frame_local sw f)
                Hi Ht ltac:(lia) Hf Hpf) as (prof & s1 & _ & -> & Hs1 & Hi1).
    cbn [mbind option_bind]. set (s2 := add_profile _ _ _ _) in *.
    assert (blocks s2 = <[q := with_frame (Z.of_nat (S i) - 1) (charge f pf (frame_total sw f)) t]> (blocks s))
      as Hb by (unfold s2; subst s1; done).
    destruct (IH s2 (with_frame (Z.of_nat (S i) - 1) (charge f pf (frame_total sw f)) t) Hi1)
      as (s' & Heq & Hi' & (E1 & E2 & E3) & Ho).
    { rewrite Hb. apply list_lookup_insert_eq. eapply lookup_lt_Some, Ht. } { simpl. lia. }
    exists s'. split; [exact Heq|]. split; [done|]. split.
    + unfold same_threads. rewrite E1, E2, E3, Hb, length_insert. unfold s2. subst s1. done.
    + intros q' Hq'. rewrite Ho, Hb, list_lookup_insert_ne by done. done.
Qed.
Lemma close_thread_ok n now q s :
  frame_inv n s → (q < length (blocks s))%nat →
  ∃ s', frame_close_thread now q s = Some s' ∧ frame_inv n s' ∧ same_threads s s' ∧
    ∀ q', q' ≠ q → blocks s' !! q' = blocks s !! q'.
Proof.
  intros Hi [t Ht]%lookup_lt_is_Some. unfold frame_close_thread. rewrite Ht. cbn [mbind option_bind].
  pose proof (Forall_lookup_1 _ _ _ _ (fi_blocks n s Hi) Ht) as [Hw _]. pose proof (tw_num n t Hw).
  replace (num_frames t <? 0) with false by lia. apply (close_frames_ok n _ q _ s t); [done|done|lia].
Qed.
Lemma close_threads_ok n now l s :
  frame_inv n s → Forall (λ kq, kq.2 < length (blocks s))%nat l →
  ∃ s', close_threads now l s = Some s' ∧ frame_inv n s'.
Proof.
  revert s. induction l as [|[k q] l IH]; intros s Hi Hl; cbn [close_threads]; [eauto|].
  apply Forall_cons in Hl as [Hq Hl].
  destruct (close_thread_ok n now q s Hi Hq) as (s1 & -> & Hi1 & (_ & _ & E) & _).
  cbn [mbind option_bind]. apply IH; [done|]. rewrite E. done.
Qed.
Lemma bucket_blocks n s : frame_inv n s →
  Forall (λ kq, kq.2 < length (blocks s))%nat (hash_enumerate (threads s)).
Proof.
  intros Hi. apply Forall_forall. intros kq Hk.
  assert (kq.2 ∈ payloads (threads s)) as Hin by (apply list_elem_of_fmap; eauto).
  rewrite (fi_payloads n s Hi) in Hin. apply elem_of_seq in Hin. lia.
Qed.
Lemma dump_profile_ok n s now ops asm root :
  frame_inv n s → is_Some (frame_dump_profile now ops asm root s).
Proof.
  intros Hi. unfold frame_dump_profile.
  destruct (close_threads_ok n now _ s Hi (bucket_blocks n s Hi)) as (s' & -> & _).
  cbn [mbind option_bind]. case_match. eauto.
Qed.

(** ** Any sequence of calls, returns and stack switches *)
Inductive frame_event :=
  | Call (now p fp in_irq : Z)
  | Return (now : Z) (mem : gmap Z Z) (fp : Z)
  | Switch (now p oldframe newframe : Z).
Definition frame_step (e : frame_event) (s : profiler) : option profiler :=
  match e with
  | Call now p fp in_irq => frame_begin now p fp in_irq s
  | Return now mem fp => frame_end now mem fp s
  | Switch now p oldframe newframe => frame_switch now p oldframe newframe s
  end.
Fixpoint frame_run (es : list frame_event) (s : profiler) : option profiler :=
  match es with
  | [] => Some s
  | e :: es => s ← frame_step e s; frame_run es s
  end.
(** Program counters are words, memory holds bytes, and the frame has its return
    address inside of the memory. *)
Definition event_ok (e : frame_event) : Prop :=
  match e with
  | Call _ p fp _ => word p ∧ in_memory fp = true
  | Return _ mem fp => bytes_map mem ∧ in_memory fp = true
  | Switch _ p _ _ => word p
  end.

Lemma step_ok n s e :
  frame_inv n s → 0 <= n < 268435455 → event_ok e →
  ∃ s', frame_step e s = Some s' ∧ frame_inv (n + 1) s' ∧
    (is_Some (current_thread s) → is_Some (current_thread s')).
Proof.
  intros Hi Hn He. destruct e as [now p fp i|now mem fp|now p old new]; cbn [frame_step].
  - destruct He as [Hp Hfp].
    destruct (begin_ok n s now p fp i Hi) as (s' & Heq & Hi' & Hc); [lia|done|done|].
    exists s'. rewrite Hc. done.
  - destruct He as [Hm Hfp].
    destruct (end_ok (n + 1) s now mem fp) as (s' & Heq & Hi' & Hc);
      [eapply frame_inv_le; [|done]; lia|lia|done|done|].
    exists s'. rewrite Hc. done.
  - destruct (switch_ok n s now p old new Hi) as (s' & Heq & Hi' & Hc & Hs); [lia|done|].
    exists s'. split_and!; [done|done|]. intros Hcur.
    destruct (decide (old = new)) as [E|E]; [rewrite (Hs E); done|auto].
Qed.
Lemma run_ok n s es :
  frame_inv n s → 0 <= n → n + Z.of_nat (length es) < 268435456 → Forall event_ok es →
  ∃ s', frame_run es s = Some s' ∧ frame_inv (n + Z.of_nat (length es)) s'.
Proof.
  revert n s. induction es as [|e es IH]; intros n s Hi Hn Hl Hes; cbn [frame_run].
  { exists s. rewrite Z.add_0_r. done. }
  apply Forall_cons in Hes as [He Hes]. simpl in Hl.
  destruct (step_ok n s e Hi) as (s1 & -> & Hi1 & _); [lia|done|]. cbn [mbind option_bind].
  destruct (IH (n + 1) s1 Hi1) as (s' & Heq & Hi'); [lia|lia|done|].
  exists s'. split; [done|]. eapply frame_inv_le; [|exact Hi']. simpl. lia.
Qed.


(** ** Cycles modulo 2^64 *)
Definition eq64 (a b : Z) : Prop := u64 a = u64 b.
Infix "≡₆₄" := eq64 (at level 70) : emu_scope.
#[export] Instance eq64_equivalence : Equivalence eq64.
Proof. unfold eq64. split; [intros ?|intros ? ?|intros ? ? ?]; congruence. Qed.
#[export] Instance eq64_add : Proper (eq64 ==> eq64 ==> eq64) Z.add.
Proof. intros a a' Ha b b' Hb. unfold eq64, u64 in *. rewrite Zplus_mod, Ha, Hb, <- Zplus_mod. done. Qed.
#[export] Instance eq64_sub : Proper (eq64 ==> eq64 ==> eq64) Z.sub.
Proof. intros a a' Ha b b' Hb. unfold eq64, u64 in *. rewrite Zminus_mod, Ha, Hb, <- Zminus_mod. done. Qed.
Lemma u64_eq64 x : u64 x ≡₆₄ x.
Proof. unfold eq64, u64. apply Z.mod_mod. lia. Qed.
(** Forget the wrap-around of sums, then compute. *)
Ltac eq64_ring := rewrite ?u64_eq64; apply (f_equal u64); ring.

(** *** The sums *)
Definition local_sum (ps : gmap Z profile_info) : Z :=
  map_fold (λ _ p acc, local_cycles p + acc) 0 ps.
Definition zsum (l : list Z) : Z := foldr Z.add 0 l.
(** The cycles that the lowest [n] frames count as not their own. *)
Definition frame_spent (f : frame_info) : Z := threadcycles f + irqcycles f + childcycles f.
Fixpoint spent (fs : gmap Z frame_info) (n : nat) : Z :=
  match n with
  | O => 0
  | S n => spent fs n + (if fs !! Z.of_nat n is Some f then frame_spent f else 0)
  end.
(** The cycles of the live frames of a thread that are in no profile yet. *)
Definition thread_pending (clock : Z) (t : thread_info) : Z :=
  clock - (if frames t !! 0 is Some f then startcycle f else 0) -
  spent (frames t) (S (Z.to_nat (num_frames t))).
Definition pending_of (now : Z) (cur : option nat) (q : nat) (t : thread_info) : Z :=
  thread_pending (if bool_decide (cur = Some q) then now else switchcycle t) t.
Definition pending (now : Z) (cur : option nat) (bl : list thread_info) : Z :=
  zsum (imap (pending_of now cur) bl).
Definition accounted (now : Z) (s : profiler) : Z :=
  local_sum (profiles s) + pending now (current_thread s) (blocks s).

Lemma local_sum_insert ps k p :
  local_sum (<[k := p]> ps) =
  local_sum ps - (if ps !! k is Some x then local_cycles x else 0) + local_cycles p.
Proof.
  assert (∀ m j x, m !! j = None → local_sum (<[j := x]> m) = local_cycles x + local_sum m) as Hins.
  { intros m j x Hj. unfold local_sum.
    rewrite (map_fold_insert_L _ 0 j x m); [done| |done]. intros. lia. }
  destruct (ps !! k) as [x|] eqn:Hk; [|rewrite Hins by done; lia].
  rewrite <- (insert_delete_id ps k x Hk) at 2. rewrite <- insert_delete_eq, !Hins by apply lookup_delete_eq.
  lia.
Qed.
Lemma zsum_cons x l : zsum (x :: l) = x + zsum l.
Proof. done. Qed.
Lemma zsum_imap_insert (f : nat → thread_info → Z) l q t t' :
  l !! q = Some t → zsum (imap f (<[q := t']> l)) = zsum (imap f l) - f q t + f q t'.
Proof.
  revert f q. induction l as [|x l IH]; intros f [|q] Hq; simplify_eq/=; [lia|].
  unfold zsum in *. rewrite (IH (f ∘ S) q Hq). unfold compose. lia.
Qed.
Lemma pending_insert now cur bl q t t' :
  bl !! q = Some t →
  pending now cur (<[q := t']> bl) = pending now cur bl - pending_of now cur q t + pending_of now cur q t'.
Proof. apply zsum_imap_insert. Qed.
(** Sums that differ in the summand of one block. *)
Lemma zsum_imap_change (f g : nat → thread_info → Z) l q t :
  l !! q = Some t → (∀ q' t', q' ≠ q → f q' t' = g q' t') →
  zsum (imap f l) = zsum (imap g l) - g q t + f q t.
Proof.
  revert f g q. induction l as [|x l IH]; intros f g [|q] Hq Ho; simplify_eq/=.
  - replace (imap (f ∘ S) l) with (imap (g ∘ S) l); [lia|].
    apply imap_ext. intros i y _. unfold compose. rewrite Ho; done.
  - rewrite Ho by done. rewrite (IH (f ∘ S) (g ∘ S) q Hq); [unfold compose; lia|].
    intros i y Hi. apply Ho. lia.
Qed.
Lemma pending_of_running now q t : pending_of now (Some q) q t = thread_pending now t.
Proof. unfold pending_of. rewrite bool_decide_eq_true_2; done. Qed.
Lemma pending_of_other now cur q t :
  cur ≠ Some q → pending_of now cur q t = thread_pending (switchcycle t) t.
Proof. intros H. unfold pending_of. rewrite bool_decide_eq_false_2; done. Qed.
Lemma pending_clock now now' q bl t :
  bl !! q = Some t → pending now (Some q) bl = pending now' (Some q) bl + (now - now').
Proof.
  intros Ht. unfold pending. rewrite (zsum_imap_change (pending_of now (Some q)) (pending_of now' (Some q)) bl q t Ht).
  - rewrite !pending_of_running. unfold thread_pending. ring.
  - intros q' t' Hq'. rewrite !pending_of_other by congruence. done.
Qed.
(** A thread starts to run. *)
Lemma pending_run now q bl t :
  bl !! q = Some t →
  pending now (Some q) bl = pending now None bl - thread_pending (switchcycle t) t + thread_pending now t.
Proof.
  intros Ht. unfold pending. rewrite (zsum_imap_change (pending_of now (Some q)) (pending_of now None) bl q t Ht).
  - rewrite pending_of_running, pending_of_other by done. done.
  - intros q' t' Hq'. rewrite !pending_of_other by congruence. done.
Qed.
Lemma pending_snoc now bl t :
  pending now None (bl ++ [t]) = pending now None bl + thread_pending (switchcycle t) t.
Proof.
  assert (∀ l z, zsum (l ++ [z]) = zsum l + z) as Happ.
  { intros l z. induction l as [|x l IH]; unfold zsum in *; simpl; [lia|]. rewrite IH. lia. }
  unfold pending. rewrite imap_app. cbn [imap]. rewrite Happ. unfold compose.
  rewrite (pending_of_other now None) by done. done.
Qed.

Lemma spent_ext fs fs' n :
  (∀ i, 0 <= i < Z.of_nat n → fs' !! i = fs !! i) → spent fs' n = spent fs n.
Proof.
  induction n as [|n IH]; intros H; simpl; [done|]. rewrite H by lia. rewrite IH; [done|].
  intros i Hi. apply H. lia.
Qed.
Lemma spent_insert fs i f g n :
  fs !! i = Some g → 0 <= i < Z.of_nat n →
  spent (<[i := f]> fs) n = spent fs n - frame_spent g + frame_spent f.
Proof.
  intros Hg. induction n as [|n IH]; intros Hi; [lia|]. simpl.
  destruct (decide (i = Z.of_nat n)) as [->|].
  - rewrite lookup_insert_eq, Hg. rewrite (spent_ext fs); [lia|]. intros j Hj.
    rewrite lookup_insert_ne; [done|lia].
  - rewrite lookup_insert_ne, IH by lia. lia.
Qed.
Lemma spent_insert_out fs i f n : Z.of_nat n <= i → spent (<[i := f]> fs) n = spent fs n.
Proof. intros Hi. apply spent_ext. intros j Hj. rewrite lookup_insert_ne; [done|lia]. Qed.

(** *** One step *)

(** What is pending of the frames of [t] up to frame [i]. *)
Definition pending_upto (clock : Z) (t : thread_info) (i : nat) : Z :=
  clock - (if frames t !! 0 is Some f then startcycle f else 0) - spent (frames t) (S i).
Lemma frame_total_eq now f : frame_total now f ≡₆₄ now - startcycle f - threadcycles f - irqcycles f.
Proof. apply u64_eq64. Qed.
Lemma frame_local_eq now f : frame_local now f ≡₆₄ now - startcycle f - frame_spent f.
Proof. unfold frame_local, frame_spent. rewrite u64_eq64, frame_total_eq. eq64_ring. Qed.
Lemma charge_spent now f pf :
  frame_spent (charge f pf (frame_total now f)) ≡₆₄ frame_spent pf + (now - startcycle f).
Proof.
  unfold charge, frame_spent. case_match; cbn [threadcycles irqcycles childcycles];
    rewrite !u64_eq64; rewrite (frame_total_eq now f); eq64_ring.
Qed.
(** Closing frame [S i] moves its own cycles out of what is pending. *)
Lemma settle_frame clock t i f pf :
  frames t !! Z.of_nat (S i) = Some f → frames t !! Z.of_nat i = Some pf →
  pending_upto clock (with_frame (Z.of_nat i) (charge f pf (frame_total clock f)) t) i
    + frame_local clock f ≡₆₄ pending_upto clock t (S i).
Proof.
  intros Hf Hpf. unfold pending_upto. cbn [frames with_frame].
  rewrite (spent_insert _ _ _ pf) by (done || lia).
  assert (startcycle (charge f pf (frame_total clock f)) = startcycle pf) as Hs
    by (unfold charge; case_match; done).
  assert ((if <[Z.of_nat i := charge f pf (frame_total clock f)]> (frames t) !! 0 is Some g
           then startcycle g else 0) = (if frames t !! 0 is Some g then startcycle g else 0)) as ->.
  { destruct i as [|i]; [change (Z.of_nat 0) with 0 in *; rewrite lookup_insert_eq, Hs, Hpf; done|].
    rewrite lookup_insert_ne by lia. done. }
  rewrite charge_spent, frame_local_eq. remember (S i) as m. cbn [spent]. subst m. rewrite Hf. eq64_ring.
Qed.
Lemma settle_bottom clock t f :
  frames t !! 0 = Some f → frame_local clock f ≡₆₄ pending_upto clock t 0.
Proof. intros Hf. rewrite frame_local_eq. unfold pending_upto.
  cbn [spent]. change (Z.of_nat 0) with 0. rewrite Hf. eq64_ring. Qed.

Lemma add_profile_local f total local s :
  local_sum (profiles (add_profile f total local s)) ≡₆₄ local_sum (profiles s) + local.
Proof.
  unfold add_profile. cbn [profiles set_profiles]. rewrite local_sum_insert. cbn [local_cycles].
  destruct (profiles s !! _) as [p|]; cbn [default]; rewrite u64_eq64; simpl; eq64_ring.
Qed.
Lemma create_profile_local p s : local_sum (profiles (create_profile p s)) = local_sum (profiles s).
Proof.
  unfold create_profile. case_match; [done|]. cbn [profiles set_profiles].
  rewrite local_sum_insert. case_match; [done|simpl; lia].
Qed.
Lemma charge_local s f pf total prof :
  profiles s !! even_pc (frame_pc pf) = Some prof →
  local_sum (<[even_pc (frame_pc pf) := frame_add_callee prof (frame_pc f) total]> (profiles s))
    = local_sum (profiles s).
Proof. intros Hp. rewrite local_sum_insert, Hp. simpl. lia. Qed.
Lemma accounted_block now s ps q t t' :
  current_thread s = Some q → blocks s !! q = Some t →
  accounted now (set_profiles ps (set_block q t' s)) =
  accounted now s - local_sum (profiles s) + local_sum ps - thread_pending now t + thread_pending now t'.
Proof.
  intros Hq Ht. unfold accounted. cbn [profiles blocks current_thread set_profiles set_block set_blocks].
  rewrite Hq, (pending_insert now _ _ q t t' Ht), !pending_of_running. ring.
Qed.
Lemma pushed_pending n now t t' f :
  thread_wf n t → grown n t t' → frame_spent f = 0 →
  thread_pending now (with_frame (num_frames t') f t') = thread_pending now t.
Proof.
  intros Hw [G1 G2 G3 G4 G5] Hf. pose proof (tw_num n t Hw). unfold thread_pending.
  cbn [frames num_frames with_frame]. rewrite G1.
  replace (S (Z.to_nat (num_frames t + 1))) with (S (S (Z.to_nat (num_frames t)))) by lia.
  remember (S (Z.to_nat (num_frames t))) as k eqn:Hk. cbn [spent].
  rewrite spent_insert_out, (spent_ext (frames t)) by (lia || (intros; apply G5; lia)).
  rewrite lookup_insert_ne, G5 by lia.
  replace (Z.of_nat k) with (num_frames t + 1) by lia. rewrite lookup_insert_eq, Hf. ring.
Qed.
Lemma call_accounted n s now p fp i s' :
  frame_inv n s → n < 268435456 → is_Some (current_thread s) →
  frame_begin now p fp i s = Some s' → accounted now s' = accounted now s.
Proof.
  intros Hi Hn [q Hq] Heq.
  destruct (get_block n s 0 q Hi (fi_current n s Hi q Hq)) as (t & Ht & Hw & _).
  destruct (begin_eq n s now p fp i q t Hi Hn Hq Ht) as (t' & pf & Hg & _ & E).
  rewrite E in Heq. simplify_eq. match goal with |- context [create_profile ?a ?b] =>
    destruct (create_profile_eq a b) as (ps & Hc & _);
    pose proof (create_profile_local a b) as Hl; rewrite Hc in *; simpl in Hl end.
  rewrite (accounted_block now s ps q t) by done. rewrite (pushed_pending n now t) by done.
  simpl in Hl. lia.
Qed.

(** The frame that returns is the one on top: no frame has to be dropped. *)
Definition top_matches (fp : Z) (s : profiler) : bool :=
  match (q ← current_thread s; t ← blocks s !! q; f ← frames t !! num_frames t; Some (t, f)) with
  | Some (t, f) => (num_frames t =? 0) || (negb (frame_fp f =? 0) && (fp <=? frame_fp f))
  | None => false
  end.
Lemma drop_none fuel now mem fp t f :
  frame_at t (num_frames t) = Some f → (frame_fp f = 0 ∨ fp <= frame_fp f) →
  drop_frames (S fuel) now mem fp t = Some t.
Proof.
  intros Hf Hfp. cbn [drop_frames]. rewrite Hf. cbn [mbind option_bind].
  replace (_ && _) with false by lia. done.
Qed.
(** The bottom frame returns to a caller the profiler did not see. *)
Lemma bottom_return_accounted n s now mem fp q t s' :
  frame_inv n s → bytes_map mem → in_memory fp = true → 
  current_thread s = Some q → blocks s !! q = Some t → num_frames t = 0 →
  frame_end now mem fp s = Some s' → accounted now s' ≡₆₄ accounted now s.
Proof.
  intros Hi Hm Hfp Hq Ht H0 Heq.
  destruct (Forall_lookup_1 _ _ _ _ (fi_blocks n s Hi) Ht) as [Hw _].
  destruct (tw_frames n t Hw 0) as (f & Hf & _ & _ & Hb); [lia|].
  pose proof (tw_room n t Hw). pose proof (tw_size n t Hw).
  unfold frame_end in Heq. rewrite Hq, Ht in Heq. cbn [mbind option_bind] in Heq.
  rewrite H0, (insert_subframe_eq n _ _ _ _ f) in Heq by done. cbn [mbind option_bind Z.eqb] in Heq.
  set (t1 := subframed _ _ _ _) in Heq.
  assert (frame_at t1 (num_frames t1) = Some f) as Hf1.
  { rewrite frame_at_in by (simpl; lia). simpl. rewrite lookup_insert_ne, lookup_insert_eq by done. done. }
  rewrite (drop_none _ _ _ _ _ f Hf1) in Heq by (left; auto). cbn [mbind option_bind] in Heq.
  rewrite Hf1 in Heq. cbn [mbind option_bind] in Heq. rewrite Hb in Heq by done.
  cbn [Z.eqb mbind option_bind] in Heq. simplify_eq.
  match goal with |- accounted now (add_profile f ?a ?b ?x) ≡₆₄ _ =>
    destruct (add_profile_eq f a b x) as (ps & E & _);
    pose proof (add_profile_local f a b x) as Hl; rewrite E in *; simpl in Hl end.
  rewrite (accounted_block now s ps q t) by done. rewrite Hl.
  assert (thread_pending now (set_num_frames (num_frames t1 - 1) t1) = 0) as ->.
  { unfold thread_pending, t1, subframed. cbn [frames num_frames set_num_frames with_frame].
    change (Z.to_nat (1 - 1)) with O. cbn [spent]. change (Z.of_nat 0) with 0.
    rewrite lookup_insert_eq. unfold frame_spent. simpl. ring. }
  assert (thread_pending now t = pending_upto now t 0) as ->.
  { unfold thread_pending. rewrite H0. done. }
  rewrite (settle_bottom now t f Hf). eq64_ring.
Qed.
Lemma top_return_accounted n s now mem fp q t f s' :
  frame_inv n s → current_thread s = Some q → blocks s !! q = Some t → 1 <= num_frames t →
  frames t !! num_frames t = Some f → frame_fp f ≠ 0 → fp <= frame_fp f →
  frame_end now mem fp s = Some s' → accounted now s' ≡₆₄ accounted now s.
Proof.
  intros Hi Hq Ht H1 Hf Hz Hfp Heq.
  destruct (Forall_lookup_1 _ _ _ _ (fi_blocks n s Hi) Ht) as [Hw Hc].
  destruct (live_frame n t (num_frames t) Hw) as (f' & Hfa & Hf' & _); [lia|].
  destruct (tw_frames n t Hw (num_frames t - 1)) as (pf & Hpf & _); [lia|]. simplify_eq.
  unfold frame_end in Heq. rewrite Hq, Ht in Heq. cbn [mbind option_bind] in Heq.
  replace (num_frames t =? 0) with false in Heq by lia. cbn [mbind option_bind] in Heq.
  rewrite (drop_none _ _ _ _ _ f Hfa) in Heq by auto. cbn [mbind option_bind] in Heq.
  rewrite Hfa in Heq. cbn [mbind option_bind] in Heq.
  replace (frame_fp f =? 0) with false in Heq by lia. set (t1 := set_num_frames _ t) in Heq.
  destruct (charge_parent_eq n (set_block q t1 s) q t1 (num_frames t) (frame_total now f) f pf)
    as (prof & Hprof & E).
  { eapply get_set_block, Ht. } { apply set_num_wf; [done|lia]. } { simpl. lia. } { done. }
  { eapply Hc; [|exact Hpf]. lia. }
  rewrite E in Heq. cbn [mbind option_bind] in Heq. simplify_eq. rewrite set_block_twice in *.
  match goal with |- accounted now (add_profile f ?a ?b ?x) ≡₆₄ _ =>
    destruct (add_profile_eq f a b x) as (ps & E2 & _);
    pose proof (add_profile_local f a b x) as Hl; rewrite E2 in *; simpl in Hl end.
  rewrite set_profiles_twice, (accounted_block now s ps q t), Hl by done.
  rewrite (charge_local s f pf) by done.
  pose (i := Z.to_nat (num_frames t - 1)). assert (num_frames t = Z.of_nat (S i)) as Hn by lia.
  assert (num_frames t - 1 = Z.of_nat i) as Hn1 by lia.
  pose proof (settle_frame now t i f pf) as Hs. rewrite <- Hn, <- Hn1 in Hs. specialize (Hs Hf Hpf).
  assert (thread_pending now t = pending_upto now t (S i)) as ->.
  { unfold thread_pending, pending_upto. do 3 f_equal. lia. }
  rewrite <- Hs. unfold thread_pending, pending_upto, t1. cbn [frames num_frames with_frame set_num_frames].
  fold i. eq64_ring.
Qed.
Lemma return_accounted n s now mem fp s' :
  frame_inv n s → bytes_map mem → in_memory fp = true → top_matches fp s = true →
  frame_end now mem fp s = Some s' → accounted now s' ≡₆₄ accounted now s.
Proof.
  intros Hi Hm Hfp Htop Heq. unfold top_matches in Htop.
  destruct (current_thread s) as [q|] eqn:Hq; [|done]. simpl in Htop.
  destruct (blocks s !! q) as [t|] eqn:Ht; [|done]. simpl in Htop.
  destruct (frames t !! num_frames t) as [f|] eqn:Hf; [|done]. simpl in Htop.
  pose proof (tw_num n t (proj1 (Forall_lookup_1 _ _ _ _ (fi_blocks n s Hi) Ht))).
  destruct (Z.eqb_spec (num_frames t) 0).
  - eapply bottom_return_accounted; done.
  - eapply (top_return_accounted n s now mem fp q t f); try done; lia.
Qed.

Lemma resumed_pending now f t :
  frames t !! num_frames t = Some f → 0 <= num_frames t →
  thread_pending now (resumed now f t) ≡₆₄ thread_pending (switchcycle t) t.
Proof.
  intros Hf H0. unfold thread_pending, resumed. cbn [frames num_frames with_frame].
  rewrite (spent_insert _ _ _ f) by (done || lia).
  replace (if <[num_frames t := _]> (frames t) !! 0 is Some g then startcycle g else 0)
    with (if frames t !! 0 is Some g then startcycle g else 0).
  - unfold frame_spent. cbn [threadcycles irqcycles childcycles]. eq64_ring.
  - destruct (decide (num_frames t = 0)) as [E|]; [|rewrite lookup_insert_ne; done].
    rewrite E in *. rewrite lookup_insert_eq, Hf. done.
Qed.
(** A stopped thread has its clock stopped. *)
Lemma leave_accounted n s now old s1 :
  frame_inv n s → leave_thread now old s = Some s1 →
  accounted now s = local_sum (profiles s1) + pending now None (blocks s1).
Proof.
  intros Hi Heq. destruct (leave_ok n s now old Hi) as (s1' & Heq' & _ & Hp & Hb). simplify_eq.
  unfold accounted. rewrite Hp. destruct (current_thread s) as [q|]; [|rewrite Hb; done].
  destruct Hb as (t & Ht & ->). rewrite (pending_run now q _ t Ht), (pending_insert now None _ q t) by done.
  rewrite !pending_of_other by done. simpl. unfold thread_pending. simpl. ring.
Qed.
Lemma switch_accounted n s now p old new s' :
  frame_inv n s → 0 <= n < 268435456 → word p →
  frame_switch now p old new s = Some s' → accounted now s' ≡₆₄ accounted now s.
Proof.
  intros Hi Hn Hp Heq. unfold frame_switch in Heq. case_match; [simplify_eq; done|].
  destruct (leave_ok n s now old Hi) as (s1 & Hl & Hi1 & _). rewrite Hl in Heq.
  cbn [mbind option_bind] in Heq. rewrite (leave_accounted n s now old s1) by done.
  destruct (enter_ok n s1 now p new Hi1 Hn Hp) as (Hi2 & Hps & q & Hq & Hb).
  rewrite Hq in Heq. cbn [mbind option_bind] in Heq.
  destruct (get_block _ _ 0 q Hi2 (fi_current _ _ Hi2 q Hq)) as (t & Ht & Hok).
  rewrite Ht in Heq. cbn [mbind option_bind] in Heq. pose proof (tw_num _ t (proj1 Hok)).
  destruct (tw_frames _ t (proj1 Hok) (num_frames t)) as (f & Hf & _); [lia|].
  rewrite (resume_eq (n + 1) now t f) in Heq by (done || apply Hok).
  cbn [mbind option_bind] in Heq. set (s2 := enter_thread now p new s1) in *.
  simplify_eq. unfold accounted. cbn [profiles blocks current_thread set_block set_blocks].
  rewrite Hq, Hps, (pending_insert now _ _ q t _ Ht), !pending_of_running, (pending_run now q _ t Ht).
  rewrite (resumed_pending now f t) by (done || lia).
  destruct Hb as [-> | [-> _]]; [eq64_ring|].
  rewrite pending_snoc. assert (thread_pending (switchcycle (new_thread now p new)) (new_thread now p new) = 0) as ->.
  { unfold thread_pending, new_thread. cbn [frames num_frames switchcycle]. cbn [Z.to_nat spent].
    change (Z.of_nat (Z.to_nat 0)) with 0. rewrite lookup_singleton_eq. unfold frame_spent. simpl. ring. }
  eq64_ring.
Qed.

(** *** Runs *)
Definition returns_ok (e : frame_event) (s : profiler) : bool :=
  match e with Return _ _ fp => top_matches fp s | _ => true end.
(** Every return is the one of the frame on top. *)
Fixpoint returns_match (es : list frame_event) (s : profiler) : bool :=
  match es with
  | [] => true
  | e :: es =>
      returns_ok e s &&
      match frame_step e s with Some s => returns_match es s | None => false end
  end.
Lemma accounted_clock n now now' s :
  frame_inv n s → is_Some (current_thread s) → accounted now s = accounted now' s + (now - now').
Proof.
  intros Hi [q Hq]. destruct (get_block n s 0 q Hi (fi_current n s Hi q Hq)) as (t & Ht & _).
  unfold accounted. rewrite Hq, (pending_clock now now' q _ t Ht). ring.
Qed.
Definition event_time (e : frame_event) : Z :=
  match e with Call now _ _ _ => now | Return now _ _ => now | Switch now _ _ _ => now end.
Lemma step_accounted n s e s' :
  frame_inv n s → 0 <= n < 268435455 → event_ok e → is_Some (current_thread s) →
  returns_ok e s = true → frame_step e s = Some s' →
  accounted (event_time e) s' ≡₆₄ accounted (event_time e) s.
Proof.
  intros Hi Hn He Hc Hr Heq. destruct e as [now p fp i|now mem fp|now p old new]; simpl in *.
  - rewrite (call_accounted n s now p fp i s'); [done|done|lia|done|done].
  - eapply return_accounted; [exact Hi|apply He|apply He|done|done].
  - eapply (switch_accounted n); [done|lia|done|done].
Qed.
Lemma run_accounted n s es s' t0 :
  frame_inv n s → 0 <= n → n + Z.of_nat (length es) < 268435455 → Forall event_ok es →
  is_Some (current_thread s) → (∀ now, accounted now s ≡₆₄ now - t0) →
  returns_match es s = true → frame_run es s = Some s' → ∀ now, accounted now s' ≡₆₄ now - t0.
Proof.
  revert n s. induction es as [|e es IH]; intros n s Hi Hn Hl Hes Hc Ha Hr Heq; cbn [frame_run] in Heq.
  { simplify_eq. done. }
  apply Forall_cons in Hes as [He Hes]. simpl in Hl, Hr. apply andb_true_iff in Hr as [Hr1 Hr].
  destruct (step_ok n s e Hi) as (s1 & Hs1 & Hi1 & Hc1); [lia|done|].
  rewrite Hs1 in Heq, Hr. cbn [mbind option_bind] in Heq.
  apply (IH (n + 1) s1); [done|lia|lia|done|auto| |done|done]. intros now.
  rewrite (accounted_clock (n + 1) now (event_time e) s1) by auto.
  rewrite (step_accounted n s e s1) by (done || lia). rewrite Ha. eq64_ring.
Qed.

(** *** Closing the threads *)
Lemma close_frames_local n sw q i s t s' :
  frame_inv n s → blocks s !! q = Some t → Z.of_nat i <= num_frames t →
  close_frames q sw i s = Some s' →
  local_sum (profiles s') ≡₆₄ local_sum (profiles s) + pending_upto sw t i.
Proof.
  revert s t. induction i as [|i IH]; intros s t Hi Ht Hr Heq;
    pose proof (Forall_lookup_1 _ _ _ _ (fi_blocks n s Hi) Ht) as [Hw _].
  all: cbn [close_frames] in Heq; rewrite Ht in Heq; cbn [mbind option_bind] in Heq.
  - destruct (live_frame n t (Z.of_nat 0) Hw) as (f & Hfa & Hf & _); [simpl; lia|].
    rewrite Hfa in Heq. cbn [mbind option_bind] in Heq. simplify_eq.
    rewrite add_profile_local, (settle_bottom sw t f); done.
  - destruct (live_frame n t (Z.of_nat (S i)) Hw) as (f & Hfa & Hf & _); [lia|].
    destruct (live_frame n t (Z.of_nat (S i) - 1) Hw) as (pf & _ & Hpf & _); [lia|].
    rewrite Hfa in Heq. cbn [mbind option_bind] in Heq.
    destruct (charge_step n s q t (Z.of_nat (S i)) f pf (frame_total sw f) (frame_local sw f)
                Hi Ht ltac:(lia) Hf Hpf) as (prof & s1 & Hprof & Hc & Hs1 & Hi1).
    rewrite Hc in Heq. cbn [mbind option_bind] in Heq.
    replace (Z.of_nat (S i) - 1) with (Z.of_nat i) in * by lia.
    rewrite (IH _ (with_frame (Z.of_nat i) (charge f pf (frame_total sw f)) t) Hi1); [| |simpl; lia|exact Heq].
    + rewrite add_profile_local, <- (settle_frame sw t i f pf) by done.
      subst s1. cbn [profiles set_profiles]. rewrite charge_local by done. eq64_ring.
    + unfold add_profile. subst s1. simpl. apply list_lookup_insert_eq. eapply lookup_lt_Some, Ht.
Qed.
Definition pending_at (now : Z) (s : profiler) (q : nat) : Z :=
  if blocks s !! q is Some t then pending_of now (current_thread s) q t else 0.
Lemma close_threads_local n now l s s' :
  frame_inv n s → Forall (λ kq, kq.2 < length (blocks s))%nat l → NoDup l.*2 →
  close_threads now l s = Some s' →
  local_sum (profiles s') ≡₆₄ local_sum (profiles s) + zsum (pending_at now s <$> l.*2).
Proof.
  revert s. induction l as [|[k q] l IH]; intros s Hi Hl Hn Heq; cbn [close_threads] in Heq.
  { simplify_eq. simpl. eq64_ring. }
  apply Forall_cons in Hl as [Hq Hl]. simpl in Hq. apply NoDup_cons in Hn as [Hnq Hn].
  destruct (close_thread_ok n now q s Hi Hq) as (s1 & Hs1 & Hi1 & (_ & Ec & El) & Ho).
  rewrite Hs1 in Heq. cbn [mbind option_bind] in Heq.
  rewrite (IH s1 Hi1); [|rewrite El; done|done|done].
  rewrite !fmap_cons, zsum_cons. cbn [snd].
  assert (pending_at now s1 <$> l.*2 = pending_at now s <$> l.*2) as ->.
  { apply list_fmap_ext. intros i q' Hi'. unfold pending_at. rewrite Ho, Ec; [done|].
    intros ->. apply Hnq. eapply list_elem_of_lookup_2, Hi'. }
  apply lookup_lt_is_Some in Hq as [t Ht]. unfold frame_close_thread in Hs1. rewrite Ht in Hs1.
  cbn [mbind option_bind] in Hs1.
  pose proof (Forall_lookup_1 _ _ _ _ (fi_blocks n s Hi) Ht) as [Hw _]. pose proof (tw_num n t Hw).
  replace (num_frames t <? 0) with false in Hs1 by lia.
  rewrite (close_frames_local n (thread_clock now s q t) q (Z.to_nat (num_frames t)) s t s1 Hi Ht)
    by (done || lia).
  unfold pending_at at 2. rewrite Ht. unfold pending_of, thread_pending, pending_upto, thread_clock. eq64_ring.
Qed.
#[export] Instance zsum_perm : Proper ((≡ₚ) ==> eq) zsum.
Proof. intros l l' H. induction H; unfold zsum in *; simpl; lia. Qed.
Lemma dump_closes now ops asm root s s' root' out :
  frame_dump_profile now ops asm root s = Some (s', root', out) →
  close_threads now (hash_enumerate (threads s)) s = Some s'.
Proof.
  unfold frame_dump_profile. generalize (below (Z.to_nat 65536)). intros ks.
  destruct (close_threads _ _ _) as [s1|]; cbn [mbind option_bind]; [|done].
  destruct (frame_dump_functions _ _ _). intros [= <- _ _]. done.
Qed.
Lemma dump_profile_local n now ops asm root s s' root' out :
  frame_inv n s → frame_dump_profile now ops asm root s = Some (s', root', out) →
  local_sum (profiles s') ≡₆₄ accounted now s.
Proof.
  intros Hi Hs%dump_closes.
  pose proof (fi_payloads n s Hi) as Hp. unfold payloads in Hp.
  rewrite (close_threads_local n now _ s s' Hi (bucket_blocks n s Hi)); [| |exact Hs].
  - rewrite Hp. unfold accounted, pending.
    assert (imap (pending_of now (current_thread s)) (blocks s)
            = pending_at now s <$> seq 0 (length (blocks s))) as ->; [|done].
    rewrite <- imap_seq_0. apply imap_ext. intros q t Ht. unfold pending_at. rewrite Ht. done.
  - rewrite Hp. apply NoDup_seq.
Qed.

(** *** The sums of the profile *)
Lemma run_conserves t0 p old new es s now ops asm root s' root' out :
  old ≠ new → word p → Forall event_ok es → Z.of_nat (length es) < 268435454 →
  frame_run (Switch t0 p old new :: es) frame_init = Some s →
  returns_match es (default frame_init (frame_switch t0 p old new frame_init)) = true →
  frame_dump_profile now ops asm root s = Some (s', root', out) →
  local_sum (profiles s') ≡₆₄ now - t0.
Proof.
  intros Hne Hp Hes Hl Hrun Hr Hd. cbn [frame_run frame_step] in Hrun.
  destruct (switch_ok 0 frame_init t0 p old new frame_init_inv) as (s0 & E & Hi & Hc & _); [lia|done|].
  pose proof (switch_accounted 0 _ t0 p old new s0 frame_init_inv ltac:(lia) Hp E) as Ha.
  rewrite E in Hrun, Hr. cbn [mbind option_bind] in Hrun. simpl in Hr.
  destruct (run_ok 1 s0 es Hi) as (s1 & E1 & Hi1); [lia|lia|done|]. simplify_eq.
  rewrite (dump_profile_local _ now ops asm root s s' root' out Hi1 Hd).
  apply (run_accounted 1 s0 es s t0); [done|lia|lia|done|auto| |done|done].
  intros now'. rewrite (accounted_clock 1 now' t0 s0) by auto. rewrite Ha.
  change (accounted t0 frame_init) with 0. eq64_ring.
Qed.

(** C34: When every return is of the topmost frame of its thread ([returns_match]), no cycle
    is lost and none is counted twice: from the first stack switch on, through any calls
    and interrupts, such returns, and switches between any number of threads, fewer than
    2^28 events in all, the cycles that the printed profile reports for the single
    functions add up (modulo 2^64, the range of the counters) to the cycles that have
    passed.  A return that drops frames above its own counts theirs twice
    ([dropped_counts_twice]). *)
Theorem profile_conserves t0 p old new es s now opcstat asmopcstat root s' root' out :
  old ≠ new → word p → Forall event_ok es → Z.of_nat (length es) < 268435454 →
  frame_run (Switch t0 p old new :: es) frame_init = Some s →
  returns_match es (default frame_init (frame_switch t0 p old new frame_init)) = true →
  frame_dump_profile now opcstat asmopcstat root s = Some (s', root', out) →
  u64 (local_sum (profiles s')) = u64 (now - t0).
Proof. apply run_conserves. Qed.

(** ** Concrete runs *)

(** A function calls another, which is interrupted; its thread is left for a second
    one and resumed; both return. *)
Definition demo_run : list frame_event :=
  [Call 20 0x9000 0xfdfe 0; Call 30 0xa000 0xfdfc 0; Call 33 0xb000 0xfdf0 1;
   Return 40 ∅ 0xfdf0; Return 50 ∅ 0xfdfc; Switch 55 0x9000 0xfdfe 0xee00;
   Call 60 0xa000 0xedf0 0; Switch 70 0xa000 0xedf0 0xfdfe; Return 80 ∅ 0xfdfe;
   Return 90 ∅ 0xfe00].
Lemma demo_events : Forall event_ok demo_run.
Proof.
  assert (bytes_map ∅) by apply map_Forall_empty.
  repeat (apply Forall_cons_2; [repeat split; done|]). apply Forall_nil_2.
Qed.
(** A frame that is dropped because it never returned keeps its own cycles and
    those of the functions it called, which have them as well: after 60 cycles
    the profile reports 90. *)
Lemma dropped_counts_twice :
  (s ← frame_run [Switch 0 0x8000 0 0xfe00; Call 5 0x9000 0xfdfe 0; Call 10 0xa000 0xfdf0 0;
                  Call 20 0xb000 0xfde0 0; Return 50 ∅ 0xfde0; Return 60 ∅ 0xfdfe] frame_init;
   s ← close_threads 60 (hash_enumerate (threads s)) s;
   Some (local_sum (profiles s))) = Some 90.
Proof. vm_compute. reflexivity. Qed.

Lemma profile_conserves_witness :
  ∃ s s' root out,
    frame_run (Switch 10 0x8000 0 0xfe00 :: demo_run) frame_init = Some s ∧
    frame_dump_profile 100 ∅ ∅ Leaf s = Some (s', root, out) ∧ u64 (local_sum (profiles s')) = 90.
Proof.
  destruct (run_ok 0 frame_init (Switch 10 0x8000 0 0xfe00 :: demo_run) frame_init_inv)
    as (s & Hs & Hi); [lia|simpl; lia|apply Forall_cons_2; [done|apply demo_events]|].
  destruct (dump_profile_ok _ s 100 ∅ ∅ Leaf Hi) as [[[s' root] out] Hd].
  exists s, s', root, out. split; [exact Hs|]. split; [exact Hd|].
  apply (profile_conserves 10 0x8000 0 0xfe00 demo_run s 100 ∅ ∅ Leaf s' root out);
    [discriminate|unfold word; lia|apply demo_events|simpl; lia|exact Hs|vm_compute; reflexivity|exact Hd].
Defined.
