(* ===== verification/DeviceOk.v ===== *)
(** * DeviceOk: what the devices keep in their registers fits the registers

    For every device the invariant that its registers have the width they have in
    the source, and that every operation keeps it and the width of the cycle
    counters.  [Brick] builds the invariant of the whole machine from these. *)
From S2P Require Export Timer16 Timer8 Watchdog Buttons AdSensors Motor Lcd Serial.

(** ** Operations of a device *)

(** An operation on a device [S] with the clock: [None] is undefined behaviour. *)
Definition dev_op (S A : Type) : Type := S → clock → option (S * clock * A).
Definition act {S} (f : S → clock → S * clock) : dev_op S unit :=
  λ s c, let '(s, c) := f s c in Some (s, c, tt).
Definition try_act {S} (f : S → clock → option (S * clock)) : dev_op S unit :=
  λ s c, '(s, c) ← f s c; Some (s, c, tt).
Definition change {S} (f : S → S) : dev_op S unit := λ s c, Some (f s, c, tt).
Definition look {S A} (f : S → A) : dev_op S A := λ s c, Some (s, c, f s).
Definition latch {S A} (f : S → S * A) : dev_op S A :=
  λ s c, let '(s, a) := f s in Some (s, c, a).

(** [f] keeps the invariant [ok], and its results satisfy [Q]. *)
Definition safe_op {S A} (ok : S → Prop) (Q : A → Prop) (f : dev_op S A) : Prop :=
  ∀ s c, ok s → clock_ok c →
    match f s c with Some (s', c', a) => ok s' ∧ clock_ok c' ∧ Q a | None => True end.
Definition safe {S} (ok : S → Prop) (f : dev_op S unit) : Prop := safe_op ok (λ _, True) f.
Definition kept {S} (ok : S → Prop) (r : S * clock) : Prop := ok r.1 ∧ clock_ok r.2.

Section Ops.
Context {S : Type} (ok : S → Prop).
Lemma safe_act f : (∀ s c, ok s → clock_ok c → kept ok (f s c)) → safe ok (act f).
Proof. intros H s c Hs Hc. unfold act. destruct (f s c) eqn:E. pose proof (H s c Hs Hc) as K. rewrite E in K. destruct K. done. Qed.
Lemma safe_try f :
  (∀ s c, ok s → clock_ok c → match f s c with Some r => kept ok r | None => True end) →
  safe ok (try_act f).
Proof.
  intros H s c Hs Hc. unfold try_act. pose proof (H s c Hs Hc) as K.
  destruct (f s c) as [[s' c']|]; [destruct K|]; done.
Qed.
Lemma safe_change f : (∀ s, ok s → ok (f s)) → safe ok (change f).
Proof. intros H s c Hs Hc. split_and!; [apply H, Hs|done|done]. Qed.
Lemma safe_look {A} (Q : A → Prop) f : (∀ s, ok s → Q (f s)) → safe_op ok Q (look f).
Proof. intros H s c Hs Hc. split_and!; [done|done|apply H, Hs]. Qed.
Lemma safe_latch {A} (Q : A → Prop) f :
  (∀ s, ok s → ok (f s).1 ∧ Q (f s).2) → safe_op ok Q (latch f).
Proof. intros H s c Hs Hc. unfold latch. specialize (H s Hs). destruct (f s). naive_solver. Qed.
End Ops.

Lemma clock_cycles c : clock_ok c → qword (cycles c).
Proof. intros H. apply H. Qed.
Lemma clock_next_timer c v : clock_ok c → qword v → clock_ok (set_next_timer_cycle v c).
Proof. intros (H1 & H2 & H3) Hv. done. Qed.
Lemma clock_next_nmi c v : clock_ok c → qword v → clock_ok (set_next_nmi_cycle v c).
Proof. intros (H1 & H2 & H3) Hv. done. Qed.
Lemma qword_add a b : qword (add_to_cycle a b).
Proof. apply u64_qword. Qed.
Lemma clock_if (b : bool) c c' : clock_ok c → clock_ok c' → clock_ok (if b then c else c').
Proof. destruct b; done. Qed.
Lemma byte_if (b : bool) x y : byte x → byte y → byte (if b then x else y).
Proof. destruct b; done. Qed.
Lemma word_if (b : bool) x y : word x → word y → word (if b then x else y).
Proof. destruct b; done. Qed.
#[export] Hint Resolve clock_cycles clock_next_timer clock_next_nmi qword_add clock_if byte_if word_if
  word_hi byte_lo word_join : width.
Ltac fits := eauto 10 with width.

(** ** [timer16.c] *)
Lemma t16_next_ok s c : clock_ok c → clock_ok (t16_check_next_cycle s c).
Proof. intros Hc. unfold t16_check_next_cycle. repeat case_match; fits. Qed.
Lemma repeat_cycle_ok oa ob st :
  byte st.2 →
  match repeat_cycle oa ob st with inl st' => byte st'.2 | inr (f, t) => word f ∧ byte t end.
Proof.
  destruct st as [[f n] t]. simpl. intros Ht. unfold repeat_cycle.
  unfold TCSR_OCFA, TCSR_OCFB, TCSR_OVF. repeat case_match; simplify_eq/=; split_and?; fits.
Qed.
Lemma t16_jump_ok now s f t : t16_ok s → t16_jump now s = Some (f, t) → word f ∧ byte t.
Proof.
  intros Hs. unfold t16_jump. destruct (loop _ _ _) as [|r] eqn:E; [done|]. intros [= ->].
  refine (loop_sound _ (λ st, byte st.2) (λ r, word r.1 ∧ byte r.2) _ _ _ _ _ E).
  - intros st Hst. pose proof (repeat_cycle_ok (ocra s) (ocrb s) st Hst) as H.
    destruct (repeat_cycle _ _ st) as [|[? ?]]; done.
  - apply Hs.
Qed.
Lemma t16_update_ok s c : t16_ok s → clock_ok c →
  match t16_update_time s c with Some r => kept t16_ok r | None => True end.
Proof.
  intros Hs Hc. unfold t16_update_time. destruct (t16_jump (cycles c) s) as [[f t]|] eqn:E; [|done].
  destruct (t16_jump_ok _ _ _ _ Hs E). destruct Hs as (? & ? & ? & ? & ? & ? & ? & ? & ?).
  split; [|apply t16_next_ok; done]. unfold t16_ok. simpl. split_and!; fits.
Qed.
Lemma t16_reset_ok s c : t16_ok s → clock_ok c → t16_ok (t16_reset c s).
Proof. intros (? & ? & ? & ? & ? & ? & ? & ? & ?) Hc. unfold t16_reset, t16_ok. simpl. split_and!; try done. fits. Qed.

(** Registers written and read: the invariant is a conjunction of widths. *)
Ltac widths_of ok :=
  unfold ok in *; destruct_and?; cbn -[Z.land Z.lor Z.lxor Z.shiftr Z.shiftl Z.lnot u8 u16 u64 s32 word byte qword] in *;
  repeat case_match; cbn -[Z.land Z.lor Z.lxor Z.shiftr Z.shiftl Z.lnot u8 u16 u64 s32 word byte qword] in *;
  split_and?; try fits.
Section T16.
Context (v : Z) (Hv : byte v).
Lemma set_TIER_ok s c : t16_ok s → clock_ok c → kept t16_ok (set_TIER v s c).
Proof. intros Hs Hc. split; [|apply t16_next_ok; done]. unfold set_TIER. widths_of t16_ok. Qed.
Lemma set_TCSR_ok s c : t16_ok s → clock_ok c → kept t16_ok (Timer16.set_TCSR v s c).
Proof. intros Hs Hc. split; [|apply t16_next_ok; done]. unfold Timer16.set_TCSR. widths_of t16_ok. Qed.
Lemma set_temp_ok s : t16_ok s → t16_ok (set_temp v s).
Proof. intros Hs. widths_of t16_ok. Qed.
Lemma set_FRCL_ok s : t16_ok s → t16_ok (set_FRCL v s).
Proof. intros Hs. unfold set_FRCL. widths_of t16_ok. Qed.
Lemma set_OCRL_ok s : t16_ok s → t16_ok (set_OCRL v s).
Proof. intros Hs. unfold set_OCRL. widths_of t16_ok. Qed.
Lemma set_tcr_ok s : t16_ok s → t16_ok (set_tcr v s).
Proof. intros Hs. widths_of t16_ok. Qed.
Lemma set_TOCR_ok s : t16_ok s → t16_ok (set_TOCR v s).
Proof. intros Hs. unfold set_TOCR. widths_of t16_ok. Qed.
End T16.
Lemma get_FRCH_ok s : t16_ok s → t16_ok (get_FRCH s).1 ∧ byte (get_FRCH s).2.
Proof. intros Hs. unfold get_FRCH. widths_of t16_ok. Qed.
Lemma get_OCRH_ok s : t16_ok s → byte (get_OCRH s).
Proof. intros Hs. unfold get_OCRH. widths_of t16_ok. Qed.
Lemma get_OCRL_ok s : t16_ok s → byte (get_OCRL s).
Proof. intros Hs. unfold get_OCRL. widths_of t16_ok. Qed.

(** ** [timer8.c] *)
Definition tm_ok (t : tm) : Prop :=
  byte (tcnt t) ∧ byte (tm_tcr t) ∧ byte (tm_tcsr t) ∧ byte (tcora t) ∧ byte (tcorb t) ∧
  qword (last_cycles t) ∧ qword (my_next_cycle t).
Definition t8_state_ok (s : t8) : Prop := tm_ok (tm0 s) ∧ tm_ok (tm1 s) ∧ byte (stcr s).
Lemma incr_tcnt_ok incr shift t : tm_ok t → tm_ok (t8_incr_tcnt incr shift t).1.
Proof.
  intros Ht. unfold t8_incr_tcnt. 
  generalize (if tcora t <=? tcorb t then (tcora t, 0, tcorb t) else (tcorb t, 2, tcora t)).
  intros [[first fshift] second].
  destruct (t8_segment second _ _ _) as [[[cnt i] o] snd].
  unfold tm_ok in *. destruct_and?. cbn. unfold TCSR_CMFA, TCSR_CMFB. split_and?; fits.
Qed.
Lemma set_tcnt_ok v t : byte v → tm_ok t → tm_ok (set_tcnt v t).
Proof. unfold tm_ok. naive_solver. Qed.
Lemma t8_loop_ok shift st :
  tm_ok st.1.1 → match t8_loop shift st with inl st' => tm_ok st'.1.1 | inr r => tm_ok r.1 end.
Proof.
  destruct st as [[t incr] snd]. cbn [fst]. intros Ht.
  assert (∀ i t', tm_ok t' → ∀ t'' l, t8_incr_tcnt i shift t' = (t'', l) → tm_ok t'') as Hi.
  { intros i t' Ht' t'' l E. pose proof (incr_tcnt_ok i shift t' Ht') as K. rewrite E in K. done. }
  assert (tm_ok (set_tm_tcsr (tm_tcsr t |! TCSR8_OVF) t)) as Ho.
  { unfold tm_ok in *. destruct_and?. simpl. unfold TCSR8_OVF. split_and?; fits. }
  unfold t8_loop. repeat case_match; simplify_eq/=; try done;
    apply set_tcnt_ok; try apply u8_byte; try (apply byte_const; done); (eapply Hi; [|eassumption]; assumption).
Qed.
Lemma t8_run_ok shift incr t t' l : tm_ok t → t8_run shift incr t = Some (t', l) → tm_ok t'.
Proof.
  intros Ht. unfold t8_run. destruct (loop _ _ _) as [|r] eqn:E; [done|]. intros [= ->].
  refine (loop_sound _ (λ st, tm_ok st.1.1) (λ r, tm_ok r.1) _ _ _ _ _ E); [apply t8_loop_ok|done].
Qed.
Lemma put_timer_ok first t s : t8_state_ok s → tm_ok t → t8_state_ok (put_timer first t s).
Proof. intros (H1 & H2 & H3) Ht. unfold put_timer. destruct first; done. Qed.
Lemma timer_ok first s : t8_state_ok s → tm_ok (timer first s).
Proof. intros (H1 & H2 & H3). unfold timer. destruct first; done. Qed.
Lemma set_last_ok t v : tm_ok t → qword v → tm_ok (set_last_cycles v t).
Proof. unfold tm_ok. naive_solver. Qed.
Lemma set_mine_ok t v : tm_ok t → qword v → tm_ok (set_my_next_cycle v t).
Proof. unfold tm_ok. naive_solver. Qed.
Lemma t8_next_ok s c : t8_state_ok s → clock_ok c → kept t8_state_ok (t8_check_next_cycle s c).
Proof.
  intros Hs Hc. unfold t8_check_next_cycle. case_match; [split; [done|simpl; fits]|].
  case_match; [done|]. split; cbn [fst snd].
  - apply (put_timer_ok true); [done|]. destruct Hs as (H1 & _). apply set_mine_ok; [done|fits].
  - fits.
Qed.
Lemma add_sound_ok l s : t8_state_ok s → t8_state_ok (add_sound l s).
Proof. done. Qed.
Lemma t8_update_ok s c : t8_state_ok s → clock_ok c →
  match t8_update_time s c with Some r => kept t8_state_ok r | None => True end.
Proof.
  intros Hs Hc. unfold t8_update_time. pose proof (timer_ok true s Hs) as Ht. cbn [timer] in Ht.
  destruct (t8_shift s =? 31); [|destruct (cycles c <? my_next_cycle (tm0 s)); [apply t8_next_ok; done|]].
  - apply t8_next_ok; [|done]. apply add_sound_ok, (put_timer_ok true); [done|].
    apply set_last_ok; [done|fits].
  - destruct (t8_run _ _ _) as [[t l]|] eqn:E; [|done].
    apply t8_next_ok; [|done]. apply add_sound_ok, (put_timer_ok true); [done|].
    eapply t8_run_ok; [|exact E]. apply set_last_ok; [done|fits].
Qed.
Lemma catch_up_ok first s c : t8_state_ok s → clock_ok c →
  match t8_catch_up first s c with Some r => kept t8_state_ok r | None => True end.
Proof.
  intros Hs Hc. apply t8_update_ok; [|done]. apply put_timer_ok; [done|].
  apply set_mine_ok; [apply timer_ok; done|fits].
Qed.
Lemma t8_last_ok first s c : t8_state_ok s → clock_ok c → t8_state_ok (t8_set_last_cycles first s c).
Proof.
  intros Hs Hc. unfold t8_set_last_cycles. apply put_timer_ok; [destruct first; done|].
  apply set_last_ok; [apply timer_ok; done|fits].
Qed.
Lemma t8_write_ok first f s c : (∀ t, tm_ok t → tm_ok (f t)) → t8_state_ok s → clock_ok c →
  match t8_write first f s c with Some r => kept t8_state_ok r | None => True end.
Proof.
  intros Hf Hs Hc. unfold t8_write. pose proof (catch_up_ok first s c Hs Hc) as K.
  destruct (t8_catch_up first s c) as [[s1 c1]|]; [|done]. destruct K. cbn [mbind option_bind].
  apply t8_next_ok; [|done]. apply put_timer_ok; [done|]. apply Hf, timer_ok. done.
Qed.
Section T8.
Context (v : Z) (Hv : byte v) (first : bool) (s : t8) (c : clock) (Hs : t8_state_ok s) (Hc : clock_ok c).
Abbreviation fine r := (match r with Some x => kept t8_state_ok x | None => True end).
Lemma set_TCR8_ok : fine (set_TCR8 first v s c).
Proof.
  unfold set_TCR8. pose proof (catch_up_ok first s c Hs Hc) as K.
  destruct (t8_catch_up first s c) as [[s1 c1]|]; [|done]. destruct K as [K1 K2]. cbn [mbind option_bind].
  apply t8_next_ok; [|done]. pose proof (t8_last_ok first s1 c1 K1 K2) as K3.
  apply put_timer_ok; [done|]. destruct (timer_ok first _ K3) as (? & ? & ? & ?). done.
Qed.
Lemma set_TCSR0_ok : fine (set_TCSR0 v s c).
Proof. apply t8_write_ok; [|done|done]. unfold tm_ok. intros t ?. destruct_and?. simpl. split_and?; fits. Qed.
Lemma set_TCSR1_ok : fine (set_TCSR1 v s c).
Proof. apply t8_write_ok; [|done|done]. unfold tm_ok. intros t ?. destruct_and?. simpl. split_and?; fits. Qed.
Lemma set_TCNT_ok : fine (set_TCNT first v s c).
Proof. apply t8_write_ok; [|done|done]. unfold tm_ok. naive_solver. Qed.
Lemma set_TCORA_ok : fine (set_TCORA first v s c).
Proof. apply t8_write_ok; [|done|done]. unfold tm_ok. naive_solver. Qed.
Lemma set_TCORB_ok : fine (set_TCORB first v s c).
Proof. apply t8_write_ok; [|done|done]. unfold tm_ok. naive_solver. Qed.
Lemma set_STCR_ok : fine (set_STCR v s c).
Proof.
  unfold set_STCR. destruct (negb _); [split; done|]. set (s0 := put_timer _ _ s).
  assert (t8_state_ok s0) as Hs0.
  { apply put_timer_ok; [done|]. apply set_mine_ok; [apply (timer_ok false); done|fits]. }
  pose proof (catch_up_ok true s0 c Hs0 Hc) as K.
  destruct (t8_catch_up true s0 c) as [[s1 c1]|]; [|done]. destruct K as [K1 K2]. cbn [mbind option_bind].
  pose proof (t8_last_ok true s1 c1 K1 K2) as K3. pose proof (t8_last_ok false _ c1 K3 K2) as (K4 & K5 & K6).
  apply t8_next_ok; [|done]. split_and!; [done|done|]. simpl. fits.
Qed.
Lemma get_TCSR8_ok : match get_TCSR8 first s c with
  | Some (s', c', a) => t8_state_ok s' ∧ clock_ok c' ∧ byte a | None => True end.
Proof.
  unfold get_TCSR8. pose proof (catch_up_ok first s c Hs Hc) as K.
  destruct (t8_catch_up first s c) as [[s1 c1]|]; [|done]. destruct K as [K1 K2]. cbn [mbind option_bind].
  destruct (timer_ok first s1 K1) as (? & ? & ? & _). done.
Qed.
End T8.
Lemma t8_reset_ok c s : clock_ok c → t8_state_ok s → t8_state_ok (t8_reset c s).
Proof.
  intros Hc (H1 & H2 & H3). unfold t8_reset, t8_state_ok, tm_ok in *. destruct_and?. simpl.
  split_and?; fits.
Qed.

(** ** [watchdog.c] *)
Definition wdog_regs_ok (w : wdog) : Prop :=
  byte (w_tcsr w) ∧ byte (w_readtcsr w) ∧ byte (w_tcnt w) ∧ byte (w_pw w) ∧ qword (w_last_cycles w).
Lemma wdog_next_ok w c : clock_ok c → clock_ok (wdog_check_next_cycle w c).
Proof. intros Hc. unfold wdog_check_next_cycle. case_match; [|done]. repeat case_match; fits. Qed.
Lemma wdog_update_ok w c : wdog_regs_ok w → clock_ok c → kept wdog_regs_ok (wdog_update_time w c).
Proof.
  intros (H1 & H2 & H3 & H4 & H5) Hc. unfold wdog_update_time, WTCSR_OVF.
  destruct (w_tcsr w &? WTCSR_TME); [|done].
  destruct (_ <? 0); [split; [done|apply wdog_next_ok; done]|].
  destruct (_ >? 255); [destruct (_ &? WTCSR_WTIT)|]; (split; [|apply wdog_next_ok; done]);
    unfold wdog_regs_ok; cbn -[u8 u64 Z.lor]; split_and!; fits.
Qed.
Lemma wdog_irq_ok w c : wdog_regs_ok w → clock_ok c →
  let '(w', c', _) := wdog_check_irq w c in wdog_regs_ok w' ∧ clock_ok c'.
Proof.
  intros (H1 & H2 & H3 & H4 & H5) Hc. unfold wdog_check_irq. destruct (_ &? WTCSR_OVF); [|done].
  destruct (_ &? WTCSR_RST); cbn -[u8]; (split; [|try fits]); unfold wdog_regs_ok; cbn -[u8]; split_and!; fits.
Qed.
Lemma set_val_ok v w c : byte v → wdog_regs_ok w → clock_ok c → kept wdog_regs_ok (set_val v w c).
Proof.
  intros Hv Hw Hc. unfold set_val. pose proof (wdog_update_ok w c Hw Hc) as K.
  destruct (wdog_update_time w c) as [w1 c1]. destruct K as [(H1 & H2 & H3 & H4 & H5) K2]. simpl in *.
  destruct (w_pw w =? 165); [|destruct (w_pw w =? 90); [|done]]; (split; [|apply wdog_next_ok; done]);
    unfold wdog_regs_ok; cbn -[Z.lor Z.land Z.lnot]; split_and!; fits.
Qed.
Lemma set_pw_ok v w : byte v → wdog_regs_ok w → wdog_regs_ok (set_pw v w).
Proof. intros Hv (H1 & H2 & H3 & H4 & H5). done. Qed.
Lemma get_WTCSR_ok w : wdog_regs_ok w → wdog_regs_ok (get_WTCSR w).1 ∧ byte (get_WTCSR w).2.
Proof. intros (H1 & H2 & H3 & H4 & H5). done. Qed.
Lemma wdog_reset_ok c w : clock_ok c → wdog_regs_ok (wdog_reset c w).
Proof. intros Hc. unfold wdog_regs_ok. simpl. split_and!; fits. Qed.

(** ** [buttons.c] *)
Definition btn_regs_ok (b : buttons) : Prop :=
  byte (btn_state b) ∧ byte (iscr b) ∧ byte (ier b) ∧ byte (irqpending b).
Lemma btn_next_ok b c : clock_ok c → clock_ok (btn_check_next_cycle b c).
Proof. intros Hc. unfold btn_check_next_cycle. fits. Qed.
Lemma btn_read_ok l v b c : btn_regs_ok b → clock_ok c → kept btn_regs_ok (btn_read_fd l v b c).
Proof.
  intros (H1 & H2 & H3 & H4) Hc. unfold btn_read_fd. destruct (_ &? _); [|done].
  split; [|apply btn_next_ok; done]. unfold btn_regs_ok. cbn -[u8]. split_and!; fits.
Qed.
Lemma btn_irq_ok b : btn_regs_ok b → btn_regs_ok (btn_check_irq b).1.
Proof.
  intros (H1 & H2 & H3 & H4). unfold btn_check_irq. destruct (btn_first _); [|done].
  unfold btn_regs_ok. cbn -[u8]. split_and!; fits.
Qed.
Lemma set_iscr_ok v b c : byte v → btn_regs_ok b → clock_ok c → kept btn_regs_ok (set_iscr v b c).
Proof.
  intros Hv (H1 & H2 & H3 & H4) Hc. split; [|apply btn_next_ok; done]. unfold btn_regs_ok, set_iscr.
  cbn -[Z.land]. split_and!; fits.
Qed.
Lemma set_ier_ok v b c : byte v → btn_regs_ok b → clock_ok c → kept btn_regs_ok (set_ier v b c).
Proof.
  intros Hv (H1 & H2 & H3 & H4) Hc. split; [|apply btn_next_ok; done]. unfold btn_regs_ok, set_ier.
  cbn -[Z.land]. split_and!; fits.
Qed.
Lemma get_ier_ok b : btn_regs_ok b → byte (get_ier b) ∧ byte (get_iscr b).
Proof. intros (H1 & H2 & H3 & H4). unfold get_ier, get_iscr. split; fits. Qed.
Lemma get_port7_ok b : btn_regs_ok b → byte (get_port7 b).
Proof. intros (H1 & _). unfold get_port7. fits. Qed.
Lemma get_port4_ok b : btn_regs_ok b → byte (get_port4 b).
Proof.
  intros (H1 & _). apply byte_const.
  apply (forall_byte (λ s, let x := get_port4 (Buttons s 0 0 0) in (0 <=? x) && (x <? 256))); [|done].
  vm_compute. reflexivity.
Qed.

(** ** [adsensors.c] *)
Definition ad_ok (s : ad) : Prop :=
  Forall word (values s) ∧ Forall word (polled s) ∧ byte (ad_tmp s) ∧ byte (adcsr s) ∧
  byte (read_adcsr s) ∧ byte (adcr s) ∧ length (polled s) = 4%nat.
Lemma ad_next_ok s c : clock_ok c → clock_ok (ad_check_next_cycle s c).
Proof. intros Hc. unfold ad_check_next_cycle. repeat case_match; fits. Qed.
Lemma ad_turn_ok now conv s : ad_ok s →
  match ad_turn now conv s with inl s' => ad_ok s' | inr (Some s') => ad_ok s' | inr None => True end.
Proof.
  intros Hs. unfold ad_turn. destruct (negb _); [done|]. destruct (_ <? conv); [done|].
  destruct (values s !! _) as [v|] eqn:Hv; [|done].
  assert (∀ i, ad_ok (set_polled (<[i := v]> (polled s)) s)) as Hp.
  { intros i. destruct Hs as (H1 & H2 & H3 & H4 & H5 & H6 & H7). unfold ad_ok. simpl.
    split_and!; try done; [|rewrite length_insert; exact H7].
    apply Forall_insert; [done|]. exact (Forall_lookup_1 _ _ _ _ H1 Hv). }
  specialize (Hp (Z.to_nat (adchannel s &! 3))). set (s1 := set_polled _ s) in *. clearbody s1.
  destruct Hp as (H1 & H2 & H3 & H4 & H5 & H6 & H7). unfold ad_done.
  repeat case_match; simplify_eq; unfold ad_ok; cbn -[u8 Z.lor Z.land]; split_and!; fits.
Qed.
Lemma ad_update_ok s c : ad_ok s → clock_ok c →
  match ad_update_time s c with Some r => kept ad_ok r | None => True end.
Proof.
  intros Hs Hc. unfold ad_update_time. destruct (loop _ _ _) as [|r] eqn:E; [done|].
  assert (match r with Some s' => ad_ok s' | None => True end) as Hr.
  { refine (loop_sound _ ad_ok (λ r, match r with Some s' => ad_ok s' | None => True end) _ _ _ _ Hs E).
    intros x. apply ad_turn_ok. }
  destruct r; [|done]. split; [done|apply ad_next_ok; done].
Qed.
Lemma ad_read_ok b0 b1 b2 b3 s : ad_ok s →
  match ad_read_fd b0 b1 b2 b3 s with Some s' => ad_ok s' | None => True end.
Proof.
  intros (H1 & H2 & H3 & H4 & H5 & H6 & H7). unfold ad_read_fd. destruct (_ && _); [|done].
  split_and!; try done. simpl. apply Forall_insert; [done|]. apply u16_word.
Qed.
Lemma set_channel_ok ch st s : ad_ok s → ad_ok (set_channel ch st s).
Proof. done. Qed.
Lemma put_adcsr_ok v s : byte v → ad_ok s → ad_ok (put_adcsr v s).
Proof. intros Hv (H1 & H2 & H3 & H4 & H5 & H6 & H7). done. Qed.
Lemma set_adcsr_ok v s c : byte v → ad_ok s → clock_ok c → kept ad_ok (set_adcsr v s c).
Proof.
  intros Hv Hs Hc. split; [|apply ad_next_ok; done]. unfold set_adcsr. cbn [fst].
  apply put_adcsr_ok; [fits|]. destruct (_ &? ADCSR_ADST); [apply set_channel_ok|]; done.
Qed.
Lemma set_adcr_ok v s c : byte v → ad_ok s → clock_ok c → kept ad_ok (set_adcr v s c).
Proof.
  intros Hv (H1 & H2 & H3 & H4 & H5 & H6 & H7) Hc. split; [|apply ad_next_ok; done].
  unfold ad_ok, set_adcr. cbn -[Z.lor]. split_and!; fits.
Qed.
Lemma get_adcsr_ok s : ad_ok s → ad_ok (get_adcsr s).1 ∧ byte (get_adcsr s).2.
Proof. intros (H1 & H2 & H3 & H4 & H5 & H6 & H7). done. Qed.
Lemma get_addrh_ok i s : (i < 4)%nat → ad_ok s → ad_ok (get_addrh i s).1 ∧ byte (get_addrh i s).2.
Proof.
  intros Hi (H1 & H2 & H3 & H4 & H5 & H6 & H7). unfold get_addrh.
  destruct (lookup_lt_is_Some_2 (polled s) i) as [p Hp]; [lia|].
  rewrite (list_lookup_total_correct _ _ _ Hp). pose proof (Forall_lookup_1 _ _ _ _ H2 Hp).
  split; [|simpl; fits]. unfold ad_ok. cbn -[Z.land]. split_and!; fits.
Qed.
Lemma ad_reset_ok s : ad_ok s → ad_ok (ad_reset s).
Proof. intros (H1 & H2 & H3 & H4 & H5 & H6 & H7). unfold ad_ok. simpl. split_and!; fits. Qed.

(** ** [serial.c] *)
Definition ser_regs_ok (r : ser_regs) : Prop :=
  byte (rdr r) ∧ byte (tdr r) ∧ byte (smr r) ∧ byte (scr r) ∧ byte (ssr r) ∧ byte (readssr r) ∧
  byte (brr r) ∧ byte (ser_stcr r).
Definition ser_ok (s : ser) : Prop := ser_regs_ok (regs s).
Lemma ser_next_ok s c : clock_ok c → clock_ok (ser_check_next_cycle s c).
Proof. intros Hc. unfold ser_check_next_cycle. destruct (negb _); fits. Qed.
Lemma put_ssr_ok v s : byte v → ser_ok s → ser_ok (put_ssr v s).
Proof. unfold ser_ok, ser_regs_ok. naive_solver. Qed.
Lemma ser_ssr_byte s : ser_ok s → byte (ssr (regs s)).
Proof. intros H. apply H. Qed.
#[local] Hint Resolve ser_ssr_byte put_ssr_ok : width.
Lemma ser_transmit_ok s c : ser_ok s → ser_ok (ser_transmit s c).
Proof.
  intros Hs. unfold ser_transmit, SSR_TDRE, SSR_TEND. destruct (0 <=? _); [|done].
  destruct (negb _); [|apply put_ssr_ok; fits].
  change (ser_ok (set_tx_cycle ?v ?x)) with (ser_ok x). destruct (_ &? SCR_TE); apply put_ssr_ok; fits.
Qed.
Lemma ser_receive_ok rx s c :
  (∀ b, rx = Some b → byte b) → ser_ok s → ser_ok (ser_receive rx s c).
Proof.
  intros Hrx Hs. unfold ser_receive, SSR_ORER, SSR_RDRF. destruct (0 <=? _); [|done].
  destruct rx as [b|]; [|done]. destruct (_ &? SCR_RE); [|done].
  assert (byte b) as Hb by auto. cbn [regs set_receiving set_rx_cycle].
  destruct (_ &? 64); [apply (put_ssr_ok _ s); fits|].
  destruct Hs as (H1 & H2 & H3 & H4 & H5 & H6 & H7 & H8).
  unfold ser_ok, ser_regs_ok. cbn -[Z.lor Z.land]. split_and!; fits.
Qed.
Lemma ser_update_ok rx s c :
  (∀ b, rx = Some b → byte b) → ser_ok s → clock_ok c → kept ser_ok (ser_update_time rx s c).
Proof.
  intros Hrx Hs Hc. split; [|apply ser_next_ok; done].
  apply ser_receive_ok; [done|]. apply ser_transmit_ok. done.
Qed.
Section Ser.
Context (v : Z) (Hv : byte v).
Lemma set_SMR_ok s c : ser_ok s → ser_ok (set_SMR v s c).
Proof. unfold ser_ok, ser_regs_ok. naive_solver. Qed.
Lemma set_BRR_ok s c : ser_ok s → ser_ok (set_BRR v s c).
Proof. unfold ser_ok, ser_regs_ok. naive_solver. Qed.
Lemma set_TDR_ok s : ser_ok s → ser_ok (set_TDR v s).
Proof. unfold ser_ok, ser_regs_ok. naive_solver. Qed.
Lemma set_SCR_ok s c : ser_ok s → clock_ok c → kept ser_ok (set_SCR v s c).
Proof. intros Hs Hc. split; [|apply ser_next_ok; done]. unfold ser_ok, ser_regs_ok in *. naive_solver. Qed.
Lemma set_SSR_ok s c : ser_ok s → clock_ok c → kept ser_ok (set_SSR v s c).
Proof.
  intros Hs Hc. split; [|apply ser_next_ok; done]. unfold set_SSR. cbn [fst].
  apply put_ssr_ok; [fits|]. destruct (_ &? SSR_TDRE); [|done]. unfold ser_start.
  assert (ser_ok (put_ssr (ssr (regs s) &! Z.lnot (SSR_TDRE |! SSR_TEND)) s)) as H1 by fits.
  set (s1 := put_ssr _ s) in *. clearbody s1. destruct (_ <? 0); [|done].
  unfold SSR_TDRE. apply put_ssr_ok; destruct (_ &? SCR_TE); fits.
Qed.
End Ser.
Lemma get_SSR_ok s : ser_ok s → ser_ok (get_SSR s).1 ∧ byte (get_SSR s).2.
Proof. unfold ser_ok, ser_regs_ok. naive_solver. Qed.
Lemma ser_reset_ok s c : ser_ok (ser_reset s c).
Proof. unfold ser_ok, ser_regs_ok. simpl. split_and!; fits. Qed.

(** ** [motor.c] *)
Definition motors_ok (m : motors) : Prop :=
  qword (next_output_cycles m) ∧ qword (motor_cycles m) ∧ byte (motor_val m).
Lemma motor_add_fixed d l m :
  let m' := fold_left (motor_add d) l m in
  next_output_cycles m' = next_output_cycles m ∧ motor_val m' = motor_val m.
Proof.
  revert m. induction l as [|i l IH]; intros m; [done|]. cbn [fold_left].
  destruct (IH (motor_add d m i)) as [-> ->]. unfold motor_add. case_match; done.
Qed.
Lemma motor_report_ok m i : motors_ok m → motors_ok (motor_report m i).
Proof. intros Hm. unfold motor_report. case_match; exact Hm. Qed.
Lemma motor_reports_ok l m : motors_ok m → motors_ok (fold_left motor_report l m).
Proof. revert m. induction l as [|i l IH]; intros m Hm; [exact Hm|]. apply IH, motor_report_ok, Hm. Qed.
Lemma motor_update_ok now m : qword now → motors_ok m → motors_ok (motor_update now m).
Proof.
  intros Hn (H1 & H2 & H3). unfold motor_update.
  destruct (motor_add_fixed (u64 (now - motor_cycles m)) [0; 1; 2]%nat m) as [E1 E2].
  unfold motors_ok, set_motor_cycles. cbn [next_output_cycles motor_cycles motor_val] in *.
  rewrite E1, E2. done.
Qed.
Lemma set_next_output_ok v m : qword v → motors_ok m → motors_ok (set_next_output v m).
Proof. intros Hv (_ & H2 & H3). split_and!; [exact Hv|exact H2|exact H3]. Qed.
Lemma set_analog_ok a b d m : motors_ok m → motors_ok (set_analog a b d m).
Proof. intros Hm. exact Hm. Qed.
Lemma emit_ok x m : motors_ok m → motors_ok (emit x m).
Proof. intros Hm. exact Hm. Qed.
Lemma motors_if (b : bool) m m' : motors_ok m → motors_ok m' → motors_ok (if b then m else m').
Proof. destruct b; auto. Qed.
Lemma motor_time_ok m c : motors_ok m → clock_ok c → kept motors_ok (motor_update_time m c).
Proof.
  intros Hm Hc. unfold motor_update_time.
  pose proof (motor_update_ok (cycles c) m (clock_cycles c Hc) Hm) as Hu.
  generalize dependent (motor_update (cycles c) m). intros m1 Hu. cbv zeta.
  match goal with |- kept _ (?x, _) => assert (motors_ok x) as Hx; [|generalize dependent x] end.
  { apply motors_if; [|exact Hu]. apply set_analog_ok, motors_if.
    - apply set_analog_ok, emit_ok, motor_reports_ok, set_next_output_ok; [apply qword_add|exact Hu].
    - apply motor_reports_ok, set_next_output_ok; [apply qword_add|exact Hu]. }
  intros m2 Hx. split; [exact Hx|]. apply clock_if; [|exact Hc]. apply clock_next_timer; [exact Hc|]. apply Hx.
Qed.
Lemma motor_set_ok v now m : byte v → qword now → motors_ok m → motors_ok (motor_set v now m).
Proof. intros Hv Hn Hm. destruct (motor_update_ok now m Hn Hm) as (H1 & H2 & _). split_and!; [exact H1|exact H2|exact Hv]. Qed.

(** ** [lcd.c] *)
Definition lcd_ok (s : lcd) : Prop :=
  length (lcd_data s) = 12%nat ∧ Forall byte (lcd_data s) ∧ byte (i2c_data s) ∧
  byte (i2c_bitnr s) ∧ byte (port6 s).
Lemma lcd_bits_ok d n s : byte d → byte n → lcd_ok s → lcd_ok (set_i2c_bits d n s).
Proof. intros Hd Hn (H1 & H2 & H3 & H4 & H5). split_and!; assumption. Qed.
Lemma lcd_display_ok ptr d s : byte d → lcd_ok s →
  match lcd_display ptr d s with Some s' => lcd_ok s' | None => True end.
Proof.
  intros Hd Hs. unfold lcd_display. destruct (_ && _); [|exact I].
  destruct (_ =? d); [exact Hs|]. destruct Hs as (H1 & H2 & H3 & H4 & H5).
  split_and!; [|apply Forall_insert; assumption|assumption..].
  rewrite <- H1. apply length_insert.
Qed.
Lemma lcd_command_ok s : lcd_ok s → lcd_ok (lcd_command s).
Proof.
  intros Hs. unfold lcd_command. cbv zeta. destruct (_ =? 0x40).
  { destruct (_ &? 0x08); exact Hs. }
  destruct (_ =? 0x00); [exact Hs|]. destruct (_ =? 0x60); exact Hs.
Qed.
Lemma i2c_byte_ok s : lcd_ok s → match i2c_byte s with Some s' => lcd_ok s' | None => True end.
Proof.
  intros Hs. unfold i2c_byte. destruct (i2c_state s =? 0); [exact Hs|].
  destruct (i2c_state s =? 1).
  { pose proof (lcd_command_ok s Hs) as Hk. destruct (_ &? 0x80); exact Hk. }
  destruct (i2c_state s =? 2); [|exact Hs]. destruct (lcd_subaddr s =? 0); [|exact Hs].
  pose proof (lcd_display_ok (lcd_ptr s >>! 1) (i2c_data s) s) as Hd.
  destruct (lcd_display _ _ _); [|done]. apply Hd; [apply Hs|done].
Qed.
Lemma lcd_bit_byte val n : 0 <= n < 8 → byte (((val + val) &! 0x80) >>! n).
Proof.
  intros Hn. assert (byte ((val + val) &! 0x80)) as Hb by (apply byte_land_r, byte_const; done).
  unfold byte in *. rewrite Z.shiftr_div_pow2 by lia.
  assert (0 < 2 ^ n) by lia. split; [apply Z.div_pos; lia|].
  apply Z.div_lt_upper_bound; [lia|nia].
Qed.
Lemma i2c_clock_ok val s : lcd_ok s →
  match i2c_clock val s with Some s' => lcd_ok s' | None => True end.
Proof.
  intros Hs. unfold i2c_clock. cbv zeta. destruct (Z.ltb_spec (u8 (i2c_bitnr s + 1)) 8).
  - pose proof (u8_byte (i2c_bitnr s + 1)) as Hb. apply lcd_bits_ok; [|exact Hb|exact Hs].
    apply byte_lor; [apply Hs|]. apply lcd_bit_byte. unfold byte in Hb. lia.
  - pose proof (i2c_byte_ok (set_i2c_bits (i2c_data s) (u8 (i2c_bitnr s + 1)) s)) as Hi.
    destruct (i2c_byte _) as [x|]; [|exact I]. apply lcd_bits_ok; [apply byte_const; done..|].
    apply Hi, lcd_bits_ok; [apply Hs|apply u8_byte|exact Hs].
Qed.
Lemma port6_before_ok val s : lcd_ok s →
  match port6_before val s with Some (s', _) => lcd_ok s' | None => True end.
Proof.
  intros Hs. pose proof (i2c_clock_ok val s Hs) as Hi. unfold port6_before. cbv zeta.
  assert (lcd_ok (set_i2c_bits (i2c_data s) (u8 (i2c_bitnr s + 1)) s)) as Hb
    by (apply lcd_bits_ok; [apply Hs|apply u8_byte|exact Hs]).
  destruct (val &? 0x20); [|exact Hs]. destruct (negb _ && _).
  - destruct (_ <? 8); [destruct (i2c_clock val s); exact Hi|]. destruct (_ && (_ &? 0x08)); [exact Hb|].
    destruct ((i2c_state s =? 2) && _); [|destruct (i2c_clock val s); exact Hi].
    destruct ((0 <=? lcd_ptr s >>! 1) && _); [|exact I].
    destruct (_ =? i2c_data s); [destruct (i2c_clock val s); exact Hi|].
    destruct Hb as (H1 & H2 & H3 & H4 & H5). split_and!; [|apply Forall_insert; [exact H2|exact H3]|assumption..].
    rewrite <- H1. apply length_insert.
  - destruct (_ &? 0x40); [apply lcd_bits_ok; [apply byte_const; done..|exact Hs]|].
    destruct (_ &? 0x40); exact Hs.
Qed.
Lemma port6_after_ok val call s : byte val → lcd_ok s → lcd_ok (port6_after val call s).
Proof.
  intros Hv Hs. assert (∀ x, lcd_ok x → lcd_ok (put_port6 val x)) as Hp.
  { intros x (H1 & H2 & H3 & H4 & H5). split_and!; assumption. }
  unfold port6_after. cbv zeta. apply Hp.
  match goal with |- lcd_ok (if _ then send _ ?x else ?x) =>
    assert (lcd_ok x) as Hx; [|destruct (_ && _); exact Hx] end.
  destruct call as [|on|ptr d]; [exact Hs| |]; apply lcd_bits_ok; try (apply byte_const; done).
  - destruct (_ &? 0x80); exact Hs.
  - exact Hs.
Qed.
