(* ===== verification/Bibo.v ===== *)
(** * Bibo: the heap of the BiBo kernel in the emulated memory ([bibo.c])

    A block at [ptr] has three words in front of its bytes: a link to the block
    before it, which is valid while that one is free and belongs to its bytes while
    it is not; the address of the block behind it, whose lowest bit says that the
    block before is free; and its owner (0: free).  The free blocks are chained from
    [mm_first_free] through the first word of their bytes. *)
From S2P Require Export Loader.

(** A list of addresses that is longer than this runs in a circle. *)
Definition LIST_FUEL : nat := Z.to_nat 65536.
Definition even (x : Z) : Z := x &! Z.lnot 1.

Section Heap.
Context (mm_first_free : Z).

(** The block before [addr] is free: it takes over the block. *)
Definition free_merge_previous (addr next : Z) (mem : gmap Z Z) : option (gmap Z Z) :=
  prev ← READ_WORD mem addr;
  type ← READ_WORD mem (next + 4);
  nextnext ← READ_WORD mem (next + 2);
  if type =? 0 then
    nextnextfree ← READ_WORD mem (next + 6);
    mem ← WRITE_WORD (prev + 2) nextnext mem;
    mem ← WRITE_WORD nextnext prev mem;
    WRITE_WORD (prev + 6) nextnextfree mem
  else
    mem ← WRITE_WORD (next + 2) (nextnext |! 1) mem;
    mem ← WRITE_WORD (prev + 2) next mem;
    WRITE_WORD next prev mem.
(** [while (prevnext && prevnext < addr)]: the link to change and what it holds. *)
Fixpoint find_link (fuel : nat) (addr prev : Z) (mem : gmap Z Z) : option (Z * Z) :=
  match fuel with
  | O => None
  | S fuel =>
      prevnext ← READ_WORD mem prev;
      if negb (prevnext =? 0) && (prevnext <? addr)
      then find_link fuel addr (u16 (prevnext + 6)) mem else Some (prev, prevnext)
  end.
Definition free_enqueue (addr next : Z) (mem : gmap Z Z) : option (gmap Z Z) :=
  mem ← WRITE_WORD (addr + 4) 0 mem;
  '(prev, prevnext) ← find_link LIST_FUEL addr mm_first_free mem;
  mem ← WRITE_WORD prev addr mem;
  nextnext ← READ_WORD mem (next + 2);
  if prevnext =? next then
    nextnextfree ← READ_WORD mem (next + 6);
    mem ← WRITE_WORD (addr + 2) nextnext mem;
    WRITE_WORD (addr + 6) nextnextfree mem
  else
    mem ← WRITE_WORD (next + 2) (nextnext |! 1) mem;
    WRITE_WORD (next + 6) prevnext mem.
Definition bibo_free (addr : Z) (mem : gmap Z Z) : option (gmap Z Z) :=
  if addr =? 0 then Some mem
  else
    let addr := u16 (addr - 6) in
    next ← READ_WORD mem (addr + 2);
    if next &? 1 then free_merge_previous addr (even next) mem else free_enqueue addr next mem.

(** The block at [ptr], to which [pptr] links, becomes a program's. *)
Definition bibo_take (pptr ptr blocksize size : Z) (mem : gmap Z Z) : option (Z * gmap Z Z) :=
  mem ← WRITE_WORD (ptr + 4) 0xfffe mem;
  mem ← (if size + 12 <=? blocksize then
           mem ← WRITE_WORD (ptr + size + 4 + 4) 0 mem;
           mem ← WRITE_WORD (ptr + size + 4 + 2) (ptr + blocksize) mem;
           mem ← WRITE_WORD (ptr + blocksize) (ptr + size + 4) mem;
           nextfree ← READ_WORD mem (ptr + 6);
           mem ← WRITE_WORD (ptr + size + 4 + 6) nextfree mem;
           mem ← WRITE_WORD (ptr + 2) (ptr + size + 4) mem;
           WRITE_WORD pptr (ptr + size + 4) mem
         else nextfree ← READ_WORD mem (ptr + 6); WRITE_WORD pptr nextfree mem);
  Some (u16 (ptr + 6), mem).
Fixpoint bibo_malloc_loop (fuel : nat) (pptr size : Z) (mem : gmap Z Z) : option (Z * gmap Z Z) :=
  match fuel with
  | O => None
  | S fuel =>
      ptr ← READ_WORD mem pptr;
      if ptr =? 0 then Some (0, mem)
      else
        next ← READ_WORD mem (ptr + 2);
        let blocksize := u16 (next - ptr) in
        if size + 4 <=? blocksize then bibo_take pptr ptr blocksize size mem
        else bibo_malloc_loop fuel (u16 (ptr + 6)) size mem
  end.
Definition bibo_malloc (size : Z) (mem : gmap Z Z) : option (Z * gmap Z Z) :=
  bibo_malloc_loop LIST_FUEL mm_first_free (u16 (even (size + 1))) mem.
End Heap.

(** ** Programs of BiBo *)
Definition bibo_heap : KernelHeap := {|
  heap_free _ := bibo_free; heap_malloc _ := bibo_malloc |}.
Definition bibo_load_program := @load_program bibo_heap.
Definition bibo_newprogram_addr := @newprogram_addr bibo_heap.
Definition bibo_sethostaddr := brickos_sethostaddr.
Definition bibo_checkos := brickos_checkos.
