(* ===== verification/BiboProps.v ===== *)
(** * BiboProps: allocation takes the first block that fits

    The abstract view is the list of the free blocks: their addresses and lengths in
    the order of the chain. *)
From S2P Require Import BrickOsProps.
From S2P Require Export Bibo.

(** The chain from the link at [pptr], by increasing addresses from [lo]. *)
Fixpoint free_list (lo pptr : Z) (fs : list (Z * Z)) (mem : gmap Z Z) : Prop :=
  match fs with
  | [] => word_at mem pptr = 0
  | (p, n) :: fs =>
      (lo <= p ∧ 8 <= n ∧ p + n + 1 < 65536) ∧ word_at mem pptr = p ∧ word_at mem (p + 2) = p + n ∧
      free_list (p + n) (p + 6) fs mem
  end.
(** The first block of at least [size] bytes, and the list without it; twelve bytes
    or more that are left over are a block again. *)
Fixpoint first_fit (size : Z) (fs : list (Z * Z)) : option (Z * list (Z * Z)) :=
  match fs with
  | [] => None
  | (p, n) :: fs =>
      if size + 4 <=? n then
        Some (p, if size + 12 <=? n then (p + size + 4, n - size - 4) :: fs else fs)
      else '(a, fs') ← first_fit size fs; Some (a, (p, n) :: fs')
  end.
(** The bytes of the free blocks: all but the link in front, with the link of the
    block behind. *)
Definition in_free (fs : list (Z * Z)) (i : Z) : Prop :=
  ∃ p n, (p, n) ∈ fs ∧ p + 2 <= i < p + n + 2.

Lemma free_list_above lo pptr fs mem p n : free_list lo pptr fs mem → (p, n) ∈ fs → lo <= p ∧ 8 <= n.
Proof.
  revert lo pptr. induction fs as [|[q k] fs IH]; intros lo pptr Hf Hin; [apply elem_of_nil in Hin as []|].
  destruct Hf as ((? & ? & ?) & _ & _ & Hf). apply elem_of_cons in Hin as [[= -> ->]|Hin]; [lia|].
  apply IH in Hf; [lia|exact Hin].
Qed.
(** The rest of the memory may change, and the chain may hang on another link. *)
Lemma free_list_frame lo lo' pptr pptr' fs mem mem' :
  free_list lo pptr fs mem → lo' <= lo → word_at mem' pptr' = word_at mem pptr →
  (∀ i, lo + 2 <= i → get0 mem' i = get0 mem i) → free_list lo' pptr' fs mem'.
Proof.
  revert lo lo' pptr pptr'. induction fs as [|[p n] fs IH]; intros lo lo' pptr pptr' Hf Hlo Hw Hs;
    cbn [free_list] in *; [congruence|].
  destruct Hf as (? & Hp & Hn & Hf). split_and!; [lia..|congruence| |].
  - rewrite (word_at_ext mem mem') by (apply Hs; lia). exact Hn.
  - apply (IH (p + n) _ (p + 6)); [exact Hf|lia|apply word_at_ext; apply Hs; lia|].
    intros i Hi. apply Hs. lia.
Qed.
Lemma free_list_head lo pptr fs mem : 0 <= lo → free_list lo pptr fs mem → word (word_at mem pptr).
Proof. destruct fs as [|[p n] fs]; cbn; intros; destruct_and?; unfold word; lia. Qed.

(** ** Taking a block *)
Definition rest_of (p n size : Z) (fs : list (Z * Z)) : list (Z * Z) :=
  if size + 12 <=? n then (p + size + 4, n - size - 4) :: fs else fs.
(** The outcome: [p] is the program's, with [size] bytes up to the link of the block
    behind; only the free blocks and the link have been written. *)
Record allocated lo pptr (fs fs' : list (Z * Z)) p size (mem mem' : gmap Z Z) : Prop := {
  al_list : free_list lo pptr fs' mem';
  al_owner : word_at mem' (p + 4) = 0xfffe;
  al_size : p + 4 + size <= word_at mem' (p + 2);
  al_frame i : i < pptr ∨ pptr + 2 <= i → ¬ in_free fs i → get0 mem' i = get0 mem i }.
Lemma take_allocated lo pptr p n size fs mem :
  0 <= pptr → pptr + 2 <= lo → lo <= p → 8 <= n → p + n + 1 < 65536 → 2 <= size → size + 4 <= n →
  word_at mem (p + 2) = p + n → free_list (p + n) (p + 6) fs mem →
  ∃ mem', bibo_take pptr p n size mem = Some (p + 6, mem') ∧
    allocated lo pptr ((p, n) :: fs) (rest_of p n size fs) p size mem mem'.
Proof.
  intros H0 H1 H2 H3 H4 H5 H6 Hn Hf. 
  assert (word (word_at mem (p + 6))) as Hw by (apply (free_list_head (p + n) _ fs); [lia|exact Hf]).
  assert (∀ i, ¬ in_free ((p, n) :: fs) i → i < p + 2 ∨ p + n + 2 <= i) as Hout.
  { intros i Hi. destruct (decide (p + 2 <= i < p + n + 2)); [|lia].
    destruct Hi. exists p, n. split; [apply list_elem_of_here|lia]. }
  unfold bibo_take. rewrite (u16_id (p + 6)) by (unfold word; lia). unfold rest_of.
  destruct (Z.leb_spec (size + 12) n) as [Hs|Hs].
  - repeat first [rewrite write_ok by lia | rewrite read_ok by lia | progress cbn [mbind option_bind]].
    repeat rewrite (word_at_put_ne _ (p + 6)) by lia.
    eexists. split; [reflexivity|]. constructor.
    + cbn [free_list]. split_and!; [lia..|read_words| |].
      * replace (p + size + 4 + (n - size - 4)) with (p + n) by lia.
        repeat (rewrite word_at_put_ne by lia). rewrite word_at_put by (unfold word; lia). lia.
      * replace (p + size + 4 + (n - size - 4)) with (p + n) by lia.
        apply (free_list_frame (p + n) _ (p + 6) _ _ mem); [exact Hf|lia| |].
        -- repeat (rewrite word_at_put_ne by lia). rewrite word_at_put by exact Hw. done.
        -- intros i Hi. repeat (rewrite get0_put by lia). done.
    + read_words.
    + repeat (rewrite word_at_put_ne by lia). rewrite word_at_put by (unfold word; lia). lia.
    + intros i Hi Hb. apply Hout in Hb. repeat (rewrite get0_put by lia). done.
  - repeat first [rewrite write_ok by lia | rewrite read_ok by lia | progress cbn [mbind option_bind]].
    repeat rewrite (word_at_put_ne _ (p + 6)) by lia.
    eexists. split; [reflexivity|]. constructor.
    + apply (free_list_frame (p + n) _ (p + 6) _ _ mem); [exact Hf|lia| |].
      * rewrite word_at_put by exact Hw. done.
      * intros i Hi. repeat (rewrite get0_put by lia). done.
    + read_words.
    + repeat (rewrite word_at_put_ne by lia). lia.
    + intros i Hi Hb. apply Hout in Hb. repeat (rewrite get0_put by lia). done.
Qed.

(** ** The search *)
Lemma free_list_length lo pptr fs mem :
  free_list lo pptr fs mem → fs = [] ∨ lo + 8 * Z.of_nat (length fs) <= 65536.
Proof.
  revert lo pptr. induction fs as [|[p n] fs IH]; intros lo pptr Hf; [left; done|]. right.
  destruct Hf as (? & _ & _ & Hf). cbn [length]. destruct (IH _ _ Hf) as [->|]; [cbn|]; lia.
Qed.
Lemma in_free_cons p n fs i : ¬ in_free ((p, n) :: fs) i → (i < p + 2 ∨ p + n + 2 <= i) ∧ ¬ in_free fs i.
Proof.
  intros Hi. split.
  - destruct (decide (p + 2 <= i < p + n + 2)); [|lia]. destruct Hi. exists p, n.
    split; [apply list_elem_of_here|lia].
  - intros (q & k & Hin & Hk). apply Hi. exists q, k. split; [apply list_elem_of_further, Hin|exact Hk].
Qed.
Lemma in_free_below lo pptr fs mem i : free_list lo pptr fs mem → i < lo + 2 → ¬ in_free fs i.
Proof. intros Hf Hi (p & n & Hin & Hk). destruct (free_list_above _ _ _ _ _ _ Hf Hin). lia. Qed.
Lemma malloc_first_fit size fs : 2 <= size → ∀ fuel lo pptr mem,
  0 <= pptr → pptr + 2 <= lo → pptr + 1 < 65536 → (length fs < fuel)%nat → free_list lo pptr fs mem →
  match first_fit size fs with
  | None => bibo_malloc_loop fuel pptr size mem = Some (0, mem)
  | Some (p, fs') => ∃ mem', bibo_malloc_loop fuel pptr size mem = Some (p + 6, mem') ∧
                       allocated lo pptr fs fs' p size mem mem'
  end.
Proof.
  intros Hsize. induction fs as [|[p n] fs IH]; intros fuel lo pptr mem H0 Hlo Hp Hfuel Hf;
    (destruct fuel as [|fuel]; [cbn in Hfuel; lia|]); cbn [bibo_malloc_loop first_fit];
    rewrite read_ok by lia; cbn [mbind option_bind]; cbn [free_list length] in *.
  { rewrite Hf. done. }
  destruct Hf as ((H1 & H2 & H3) & E1 & E2 & Hf). rewrite E1.
  destruct (Z.eqb_spec p 0); [lia|]. rewrite read_ok by lia. cbn [mbind option_bind]. rewrite E2.
  replace (p + n - p) with n by lia. rewrite (u16_id n) by (unfold word; lia).
  destruct (Z.leb_spec (size + 4) n) as [Hfit|Hfit].
  { apply take_allocated; assumption || lia. }
  rewrite u16_id by (unfold word; lia).
  specialize (IH fuel (p + n) (p + 6) mem ltac:(lia) ltac:(lia) ltac:(lia) ltac:(lia) Hf).
  destruct (first_fit size fs) as [[q fs']|] eqn:E; cbn [mbind option_bind]; [|exact IH].
  destruct IH as (mem' & -> & [Al Ao As Af]). exists mem'. split; [done|].
  assert (∀ i, i < p + 6 → get0 mem' i = get0 mem i) as Hlow.
  { intros i Hi. apply Af; [lia|]. apply (in_free_below _ _ _ _ _ Hf). lia. }
  constructor; [|exact Ao|exact As|].
  - cbn [free_list]. split_and!; [lia..| | |exact Al]; rewrite (word_at_ext mem mem') by (apply Hlow; lia); done.
  - intros i Hi Hb. apply in_free_cons in Hb as [Hb1 Hb2]. apply Af; [lia|exact Hb2].
Qed.

Lemma even_half x : even x = 2 * (x / 2).
Proof.
  unfold even. change (Z.lnot 1) with (Z.lnot (Z.ones 1)). rewrite <- Z.ldiff_land, Z.ldiff_ones_r by lia.
  rewrite Z.shiftl_mul_pow2, Z.shiftr_div_pow2 by lia. change (2 ^ 1) with 2. width_lia.
Qed.

(** C36: Allocation in the heap of BiBo takes the first block that fits. Let the free
    blocks be chained from [mm_first_free] by increasing addresses. Then for any size
    from 1 to 65534 [bibo_malloc] returns. When a free block is large enough for the
    size, rounded up to an even number, and the four bytes of its header, the first
    such block of the chain becomes the program's, with enough bytes before the link
    of the block behind it; the chain goes on without it, or with the part of it that
    was left over; and no byte outside of the free blocks changes except
    [mm_first_free]. When none is, the result is 0 and the memory is as before. *)
Theorem bibo_malloc_first_fit ff lo fs size mem :
  0 <= ff → ff + 2 <= lo → ff + 1 < 65536 → free_list lo ff fs mem → 0 < size < 65535 →
  match first_fit (even (size + 1)) fs with
  | None => bibo_malloc ff size mem = Some (0, mem)
  | Some (p, fs') => ∃ mem', bibo_malloc ff size mem = Some (p + 6, mem') ∧
      size <= even (size + 1) ∧ allocated lo ff fs fs' p (even (size + 1)) mem mem'
  end.
Proof.
  intros H0 Hlo Hff Hf Hs.
  pose proof (even_half (size + 1)) as Ev.
  assert (2 <= even (size + 1) ∧ size <= even (size + 1) < 65536) as (H1 & H2 & H3) by width_lia.
  unfold bibo_malloc. rewrite u16_id by (unfold word; lia).
  assert (length fs < LIST_FUEL)%nat as Hfuel.
  { unfold LIST_FUEL. destruct (free_list_length _ _ _ _ Hf) as [->|]; cbn [length]; lia. }
  pose proof (malloc_first_fit _ fs H1 LIST_FUEL lo ff mem H0 Hlo Hff Hfuel Hf) as Hm.
  destruct (first_fit _ fs) as [[p fs']|]; [|exact Hm]. destruct Hm as (mem' & E & Ha).
  exists mem'. auto.
Qed.

(** ** Witness: a heap at 0x9000 of two free blocks, two programs and a reserved one *)
Definition put_all (l : list (Z * Z)) (mem : gmap Z Z) : gmap Z Z :=
  foldl (λ m '(a, v), put_word a v m) mem l.
Definition demo_bibo : gmap Z Z := put_all
  [(0x8800, 0x9000); (0x9002, 0x9064); (0x9006, 0x90a4);
   (0x9064, 0x9000); (0x9066, 0x9085); (0x9068, 0xfffe);
   (0x9086, 0x90a4); (0x9088, 0xfffe);
   (0x90a6, 0x9100); (0x9100, 0x90a4); (0x9102, 1); (0x9104, 0xffff)] ∅.
Lemma demo_free_list : free_list 0x8802 0x8800 [(0x9000, 100); (0x90a4, 92)] demo_bibo.
Proof. cbn [free_list]. split_and!; try lia; vm_compute; reflexivity. Qed.
Lemma bibo_malloc_first_fit_witness :
  ∃ mem', bibo_malloc 0x8800 51 demo_bibo = Some (0x9006, mem') ∧
    free_list 0x8802 0x8800 [(0x9038, 44); (0x90a4, 92)] mem' ∧ word_at mem' 0x9004 = 0xfffe.
Proof.
  destruct (bibo_malloc_first_fit 0x8800 0x8802 [(0x9000, 100); (0x90a4, 92)] 51 demo_bibo
    ltac:(lia) ltac:(lia) ltac:(lia) demo_free_list ltac:(lia)) as (mem' & E & _ & [Hl Ho _ _]).
  exists mem'. split; [exact E|]. split; [exact Hl|exact Ho].
Defined.

(** ** Where the heap breaks

    A block that fits exactly leaves the chain, but the block behind it goes on
    saying that it is free. *)
Lemma malloc_leaves_flag :
  match bibo_malloc 0x8800 90 demo_bibo with
  | Some (a, m) => a = 0x9006 ∧ word_at m 0x9004 = 0xfffe ∧ word_at m 0x9066 = 0x9085
  | None => False
  end.
Proof. vm_compute. done. Qed.
(** Releasing a block in front of a free one: the link of the block behind them goes on
    pointing into the middle of the joined block. *)
Lemma free_leaves_back_link :
  match bibo_free 0x8800 0x908a demo_bibo with
  | Some m => word_at m 0x9006 = 0x9084 ∧ word_at m 0x9086 = 0x9100 ∧ word_at m 0x9100 = 0x90a4
  | None => False
  end.
Proof. vm_compute. done. Qed.
(** Releasing a block between two programs: the chain is written into the program
    behind it, and the released block keeps its bytes as the link to the next one. *)
Definition demo_full : gmap Z Z := put_all
  [(0x9002, 0x9020); (0x9004, 0xfffe); (0x9006, 0x5678); (0x9022, 0x9040); (0x9024, 0xfffe);
   (0x9026, 0x1234); (0x9044, 0xffff)] ∅.
Lemma free_damages_neighbour :
  match bibo_free 0x8800 0x9006 demo_full with
  | Some m => word_at m 0x8800 = 0x9000 ∧ word_at m 0x9006 = 0x5678 ∧ word_at m 0x9026 = 0
  | None => False
  end.
Proof. vm_compute. done. Qed.
(** Nothing at all is allocated over the link to the next free block. *)
Lemma malloc_nothing_breaks_chain :
  match bibo_malloc 0x8800 0 demo_bibo with
  | Some (a, m) => a = 0x9006 ∧ word_at m 0x8800 = 0x9004 ∧ word_at m 0x900a = 0x9064
  | None => False
  end.
Proof. vm_compute. done. Qed.
