(* ===== verification/BiboFree.v ===== *)
(** * BiboFree: a released block joins the free ones next to it

    [bibo_free] works when the block before or the block behind is free: it becomes one block
    with them, in the chain of the free blocks.  (What it does between two blocks in use is
    shown in [BiboProps].) *)
From S2P Require Import BrickOsProps.
From S2P Require Export BiboProps.

(** A free block in front of the others, joined with the first of them when it is next to it. *)
Definition cons_join (x : Z * Z) (r : list (Z * Z)) : list (Z * Z) :=
  match r with
  | (q, j) :: r' => if x.1 + x.2 =? q then (x.1, x.2 + j) :: r' else x :: r
  | [] => [x]
  end.
(** Where the chain stands behind the blocks [l]: the first address that is left and the link. *)
Definition behind (lo pptr : Z) (l : list (Z * Z)) : Z * Z := foldl (λ _ x, (x.1 + x.2, x.1 + 6)) (lo, pptr) l.

Lemma behind_cons lo pptr x l : behind lo pptr (x :: l) = behind (x.1 + x.2) (x.1 + 6) l.
Proof. reflexivity. Qed.
Lemma behind_snoc lo pptr l x : behind lo pptr (l ++ [x]) = (x.1 + x.2, x.1 + 6).
Proof. unfold behind. rewrite foldl_app. reflexivity. Qed.
Lemma free_list_split l r : ∀ lo pptr mem, pptr + 2 <= lo → free_list lo pptr (l ++ r) mem →
  let e := behind lo pptr l in
  lo <= e.1 ∧ pptr <= e.2 ∧ e.2 + 2 <= e.1 ∧ free_list e.1 e.2 r mem ∧
  (l = [] ∧ e = (lo, pptr) ∨ lo + 6 <= e.2 ∧ e.1 + 1 < 65536).
Proof.
  induction l as [|[p n] l IH]; intros lo pptr mem Hlo Hf; [cbn; split_and!; auto; lia|].
  rewrite behind_cons. cbn [fst snd app free_list] in *. destruct Hf as ((H1 & H2 & H3) & _ & _ & Hf).
  destruct (IH (p + n) (p + 6) mem ltac:(lia) Hf) as (G1 & G2 & G3 & G4 & G5). cbv zeta in *.
  split_and!; try lia; [exact G4|]. right. destruct G5 as [[-> ->]|G5]; cbn; lia.
Qed.
(** Another end of the chain. *)
Lemma free_list_replace l r r' : ∀ lo pptr mem mem', pptr + 2 <= lo → free_list lo pptr (l ++ r) mem →
  let e := behind lo pptr l in
  (∀ i, pptr <= i < e.2 → get0 mem' i = get0 mem i) → free_list e.1 e.2 r' mem' → free_list lo pptr (l ++ r') mem'.
Proof.
  induction l as [|[p n] l IH]; intros lo pptr mem mem' Hlo Hf; [cbn; auto|].
  rewrite behind_cons. cbn [fst snd app free_list] in *. destruct Hf as ((H1 & H2 & H3) & E1 & E2 & Hf).
  destruct (free_list_split l r (p + n) (p + 6) mem ltac:(lia) Hf) as (G1 & G2 & G3 & _). cbv zeta in *. intros Hs Hf'.
  split_and!; [lia..| | |].
  - rewrite (word_at_ext mem mem') by (apply Hs; lia). exact E1.
  - rewrite (word_at_ext mem mem') by (apply Hs; lia). exact E2.
  - apply (IH (p + n) (p + 6) mem); [lia|exact Hf| |exact Hf']. intros i Hi. apply Hs. lia.
Qed.
Lemma not_in_free_app l r i : ¬ in_free (l ++ r) i → ¬ in_free r i.
Proof. intros Hn (p & n & Hin & Hi). apply Hn. exists p, n. split; [apply elem_of_app; right; exact Hin|exact Hi]. Qed.

(** ** The search for the link *)
Lemma find_link_spec addr l r : ∀ fuel lo pptr mem,
  0 <= pptr → pptr + 2 <= lo → pptr + 1 < 65536 → free_list lo pptr (l ++ r) mem → (length l < fuel)%nat →
  Forall (λ x, x.1 < addr) l → (∀ x r', r = x :: r' → addr <= x.1) →
  find_link fuel addr pptr mem = Some ((behind lo pptr l).2, word_at mem (behind lo pptr l).2).
Proof.
  induction l as [|[p n] l IH]; intros fuel lo pptr mem H0 Hlo Hp Hf Hfuel Hl Hr;
    (destruct fuel as [|fuel]; [cbn in Hfuel; lia|]); cbn [find_link]; rewrite read_ok by lia; cbn [mbind option_bind].
  - change (behind lo pptr []) with (lo, pptr). cbn [snd app] in *. destruct r as [|[q j] r]; cbn [free_list] in Hf.
    + rewrite Hf. reflexivity.
    + destruct Hf as (_ & -> & _). specialize (Hr (q, j) r eq_refl). cbn in Hr.
      rewrite (proj2 (Z.ltb_ge q addr)), andb_false_r by exact Hr. done.
  - rewrite behind_cons. cbn [fst snd app free_list length] in *. destruct Hf as ((H1 & H2 & H3) & -> & _ & Hf).
    inversion_clear Hl as [|? ? Hpa Hl']. cbn in Hpa.
    rewrite (proj2 (Z.eqb_neq p 0)), (proj2 (Z.ltb_lt p addr)) by lia. cbn [negb andb].
    rewrite u16_id by (unfold word; lia). apply IH; try assumption; lia.
Qed.

(** ** Joining *)
(** What is behind the released block: the next free block, whose owner is 0, or one in use. *)
Definition borders (e : Z) (r : list (Z * Z)) (mem : gmap Z Z) : Prop :=
  match r with
  | (q, _) :: _ => q = e ∧ word_at mem (e + 4) = 0 ∨ e + 6 <= q ∧ word_at mem (e + 4) ≠ 0
  | [] => word_at mem (e + 4) ≠ 0
  end.
Lemma free_list_up lo lo' pptr r mem :
  free_list lo pptr r mem → (∀ x r', r = x :: r' → lo' <= x.1) → free_list lo' pptr r mem.
Proof. destruct r as [|[q j] r]; cbn; [done|]. intros ((_ & H2 & H3) & Hr) Hx. specialize (Hx _ _ eq_refl). cbn in Hx. auto. Qed.
Ltac heap_steps := repeat first [rewrite write_ok by lia | rewrite read_ok by lia | progress cbn [mbind option_bind]].
Ltac other_words := repeat (rewrite word_at_put_ne by lia).
Ltac same_bytes := repeat (rewrite get0_put by lia); done.

(** With the free block before and the one behind. *)
Lemma merge_three lo pptr p n k j r mem :
  0 <= pptr → pptr + 2 <= lo → 6 <= k → free_list lo pptr ((p, n) :: (p + n + k, j) :: r) mem →
  word_at mem (p + n) = p → word_at mem (p + n + k + 4) = 0 →
  ∃ mem', free_merge_previous (p + n) (p + n + k) mem = Some mem' ∧ free_list lo pptr ((p, n + k + j) :: r) mem' ∧
    ∀ i, ¬ in_free ((p, n) :: (p + n + k, j) :: r) i → get0 mem' i = get0 mem i.
Proof.
  intros H0 Hlo Hk ((H1 & H2 & H3) & E1 & E2 & (H4 & H5 & H6) & E3 & E4 & Hf) Eb Eo.
  assert (word (word_at mem (p + n + k + 6))) as Hw by (apply (free_list_head (p + n + k + j) _ r); [lia|exact Hf]).
  unfold free_merge_previous. heap_steps. rewrite Eb, Eo, E4. rewrite Z.eqb_refl. heap_steps. eexists. split; [reflexivity|]. split.
  - cbn [free_list]. replace (p + (n + k + j)) with (p + n + k + j) by lia. split_and!; [lia..| | |].
    + other_words. exact E1.
    + other_words. rewrite word_at_put by (unfold word; lia). done.
    + apply (free_list_frame (p + n + k + j) _ (p + n + k + 6) _ _ mem); [exact Hf|lia| |].
      * rewrite word_at_put by exact Hw. done.
      * intros i Hi. same_bytes.
  - intros i Hi. apply in_free_cons in Hi as [Hi1 Hi2]. apply in_free_cons in Hi2 as [Hi2 _]. same_bytes.
Qed.
(** With the free block before; the one behind is in use and learns of it. *)
Lemma merge_before lo pptr p n k r mem :
  0 <= pptr → pptr + 2 <= lo → 6 <= k → p + n + k + 5 < 65536 → free_list lo pptr ((p, n) :: r) mem →
  word_at mem (p + n) = p → word_at mem (p + n + k + 4) ≠ 0 → (∀ x r', r = x :: r' → p + n + k + 6 <= x.1) →
  ∃ mem', free_merge_previous (p + n) (p + n + k) mem = Some mem' ∧ free_list lo pptr ((p, n + k) :: r) mem' ∧
    ∀ i, ¬ in_free ((p, n) :: r) i → ¬ (p + n <= i < p + n + k + 4) → get0 mem' i = get0 mem i.
Proof.
  intros H0 Hlo Hk He ((H1 & H2 & H3) & E1 & E2 & Hf) Eb Eo Hr.
  unfold free_merge_previous. rewrite (read_ok mem (p + n)), (read_ok mem (p + n + k + 4)), (read_ok mem (p + n + k + 2)) by lia.
  cbn [mbind option_bind]. rewrite Eb, (proj2 (Z.eqb_neq _ _)) by exact Eo. heap_steps.
  eexists. split; [reflexivity|]. split.
  - cbn [free_list]. rewrite (Z.add_assoc p n k). split_and!; [lia..| | |].
    + other_words. exact E1.
    + other_words. rewrite word_at_put by (unfold word; lia). done.
    + apply (free_list_frame (p + n + k + 2) _ (p + 6) _ _ mem); [|lia| |].
      * apply (free_list_up (p + n)); [exact Hf|]. intros x r' Hx. specialize (Hr x r' Hx). lia.
      * other_words. done.
      * intros i Hi. same_bytes.
  - intros i Hi Hb. apply in_free_cons in Hi as [Hi _]. same_bytes.
Qed.
Lemma merge_previous lo pptr p n k r mem :
  0 <= pptr → pptr + 2 <= lo → 6 <= k → p + n + k + 5 < 65536 → free_list lo pptr ((p, n) :: r) mem →
  word_at mem (p + n) = p → borders (p + n + k) r mem →
  ∃ mem', free_merge_previous (p + n) (p + n + k) mem = Some mem' ∧ free_list lo pptr (cons_join (p, n + k) r) mem' ∧
    ∀ i, ¬ in_free ((p, n) :: r) i → ¬ (p + n <= i < p + n + k + 4) → get0 mem' i = get0 mem i.
Proof.
  intros H0 Hlo Hk He Hf Eb Hbo. destruct r as [|[q j] r]; cbn [borders cons_join fst snd] in *.
  { apply merge_before; try assumption. discriminate. }
  rewrite (Z.add_assoc p n k). destruct Hbo as [[-> Eo]|[Hq Eo]].
  - rewrite Z.eqb_refl. destruct (merge_three lo pptr p n k j r mem H0 Hlo Hk Hf Eb Eo) as (mem' & E & Hl & Hs).
    exists mem'. auto.
  - rewrite (proj2 (Z.eqb_neq _ _)) by lia. apply merge_before; try assumption. intros x r' [= <- <-]. exact Hq.
Qed.

Lemma all_before l r lo pptr mem : pptr + 2 <= lo → free_list lo pptr (l ++ r) mem →
  Forall (λ x, x.1 < (behind lo pptr l).1) l.
Proof.
  revert lo pptr. induction l as [|[p n] l IH]; intros lo pptr Hlo Hf; [constructor|].
  rewrite behind_cons. cbn [fst snd app free_list] in *. destruct Hf as ((H1 & H2 & H3) & _ & _ & Hf).
  destruct (free_list_split l r (p + n) (p + 6) mem ltac:(lia) Hf) as (G1 & _). cbn in G1.
  constructor; [cbn; lia|]. apply (IH (p + n) (p + 6)); [lia|exact Hf].
Qed.
Lemma blocks_few l r lo pptr mem : free_list lo pptr (l ++ r) mem → 0 <= lo → (length l < LIST_FUEL)%nat.
Proof.
  intros Hf Hlo. unfold LIST_FUEL. destruct (free_list_length _ _ _ _ Hf) as [E|E].
  - apply app_eq_nil in E as [-> _]. cbn. lia.
  - rewrite length_app in E. lia.
Qed.
(** The owner of the released block is taken away before the search. *)
Lemma owner_frees lo pptr l r a v mem : pptr + 2 <= lo → free_list lo pptr (l ++ r) mem →
  (behind lo pptr l).1 <= a → (∀ x r', r = x :: r' → a + 6 <= x.1) →
  free_list lo pptr (l ++ r) (put_word (a + 4) v mem).
Proof.
  intros Hlo Hf Ha Hr. destruct (free_list_split l r lo pptr mem Hlo Hf) as (G1 & G2 & G3 & G4 & _). cbv zeta in *.
  apply (free_list_replace l r r lo pptr mem); [exact Hlo|exact Hf| |].
  - intros i Hi. apply get0_put. lia.
  - destruct r as [|[q j] r']; cbn [free_list] in *; [rewrite word_at_put_ne by lia; exact G4|].
    destruct G4 as (H1 & E1 & E2 & G4). specialize (Hr _ _ eq_refl). cbn in Hr.
    split; [exact H1|]. split; [rewrite word_at_put_ne by lia; exact E1|]. split; [rewrite word_at_put_ne by lia; exact E2|].
    apply (free_list_frame (q + j) _ (q + 6) _ _ mem); [exact G4|lia|apply word_at_put_ne; lia|].
    intros i Hi. apply get0_put. lia.
Qed.
(** The link in front of the rest of the chain is [ff] or in a free block. *)
Lemma link_in_free lo ff l r mem : ff + 2 <= lo → free_list lo ff (l ++ r) mem →
  ∀ i, ¬ (ff <= i < ff + 2) → ¬ in_free (l ++ r) i → i < (behind lo ff l).2 ∨ (behind lo ff l).2 + 2 <= i.
Proof.
  intros Hlo Hf i Hi Hb. destruct l as [|[p n] l'] using rev_ind; [cbn; lia|]. rewrite behind_snoc. cbn [fst snd].
  clear IHl'. rewrite <- app_assoc in Hf. destruct (free_list_split _ _ _ _ _ Hlo Hf) as (_ & _ & _ & ((H1 & H2 & H3) & _) & _).
  destruct (decide (p + 2 <= i < p + n + 2)); [|lia]. destruct Hb. exists p, n. split; [|assumption].
  rewrite <- app_assoc. apply elem_of_app. right. left.
Qed.
(** With the free block behind only. *)
Lemma merge_behind ff lo l a k j r mem :
  0 <= ff → ff + 2 <= lo → free_list lo ff (l ++ (a + k, j) :: r) mem → (behind lo ff l).1 <= a → 6 <= k →
  ∃ mem', free_enqueue ff a (a + k) mem = Some mem' ∧ free_list lo ff (l ++ (a, k + j) :: r) mem' ∧
    ∀ i, ¬ (ff <= i < ff + 2) → ¬ in_free (l ++ (a + k, j) :: r) i → ¬ (a <= i < a + k + 4) → get0 mem' i = get0 mem i.
Proof.
  intros H0 Hlo Hf Ha Hk. pose proof (blocks_few _ _ _ _ _ Hf ltac:(lia)) as Hfew. pose proof (all_before _ _ _ _ _ Hlo Hf) as Hall.
  destruct (free_list_split _ _ _ _ _ Hlo Hf) as (G1 & G2 & G3 & G4 & _). cbv zeta in *.
  pose proof (link_in_free _ _ _ _ _ Hlo Hf) as Hlink.
  assert (Forall (λ x, x.1 < a) l) as Hl by (eapply Forall_impl; [exact Hall|]; cbn; intros; lia).
  assert (∀ x r', (a + k, j) :: r = x :: r' → a + 6 <= x.1) as Hr6 by (intros x r' [= <- <-]; cbn; lia).
  pose proof (owner_frees lo ff l _ a 0 mem Hlo Hf Ha Hr6) as Hf1.
  destruct G4 as ((H1 & H2 & H3) & E1 & E2 & G4).
  assert (word (word_at mem (a + k + 6))) as Hw by (apply (free_list_head (a + k + j) _ r); [lia|exact G4]).
  unfold free_enqueue. revert Hfew. generalize LIST_FUEL as fuel. intros fuel Hfew. rewrite write_ok by lia. cbn [mbind option_bind].
  rewrite (find_link_spec a l _ fuel lo ff _ H0 Hlo ltac:(lia) Hf1 Hfew Hl) by (intros x r' [= <- <-]; cbn; lia).
  set (e := behind lo ff l) in *. cbn [mbind option_bind].
  rewrite (word_at_put_ne (a + 4) e.2), E1 by lia. heap_steps. other_words. rewrite E2, Z.eqb_refl. heap_steps. other_words.
  eexists. split; [reflexivity|]. split.
  - apply (free_list_replace l ((a + k, j) :: r) _ lo ff mem); [exact Hlo|exact Hf|fold e; intros i Hi; same_bytes|].
    cbn [free_list]. rewrite (Z.add_assoc a k j). fold e. split_and!; [lia..| | |].
    + other_words. rewrite word_at_put by (unfold word; lia). done.
    + other_words. rewrite word_at_put by (unfold word; lia). done.
    + apply (free_list_frame (a + k + j) _ (a + k + 6) _ _ mem); [exact G4|lia|rewrite word_at_put by exact Hw; done|].
      intros i Hi. same_bytes.
  - intros i Hi Hb Hc. assert (i < e.2 ∨ e.2 + 2 <= i) by (apply Hlink; assumption).
    assert (i < a ∨ a + k + 4 <= i) by lia. same_bytes.
Qed.

(** The address of the block behind, with and without the flag in its lowest bit. *)
Lemma flag_set e : Z.even e = true → ((e + 1) &? 1) = true ∧ even (e + 1) = e.
Proof.
  intros He. apply Z.even_spec in He as [x ->]. rewrite even_half. change 1 with (Z.ones 1) at 2. rewrite Z.land_ones by done.
  change (2 ^ 1) with 2. assert ((2 * x + 1) mod 2 = 1) as -> by width_lia. split; [done|width_lia].
Qed.
Lemma flag_clear e : Z.even e = true → (e &? 1) = false.
Proof.
  intros He. apply Z.even_spec in He as [x ->]. change 1 with (Z.ones 1). rewrite Z.land_ones by done.
  change (2 ^ 1) with 2. rewrite Z.mul_comm, Z_mod_mult. done.
Qed.

(** C37: Releasing a block in the heap of BiBo next to a free one. Let the free blocks be
    chained, [l] before the block at [a] of [k] bytes and [r] behind it, and the words in front
    of the blocks say what they should. When the block before is free, [bibo_free] joins the
    released block with it, and with the block behind if that is free too; when only the block
    behind is free, it is joined with that one. The chain is the one of the joined blocks, and
    no byte of a block in use changes but the header of the one behind. *)
Theorem bibo_free_joins ff lo l r a k mem :
  0 <= ff → ff + 2 <= lo → free_list lo ff (l ++ r) mem → (behind lo ff l).1 <= a →
  6 <= k → a + k + 5 < 65536 → Z.even (a + k) = true → borders (a + k) r mem →
  let untouched mem' := ∀ i, ¬ (ff <= i < ff + 2) → ¬ in_free (l ++ r) i → ¬ (a <= i < a + k + 4) → get0 mem' i = get0 mem i in
  (∀ l0 p n, l = l0 ++ [(p, n)] → p + n = a → word_at mem a = p → word_at mem (a + 2) = a + k + 1 →
    ∃ mem', bibo_free ff (a + 6) mem = Some mem' ∧ free_list lo ff (l0 ++ cons_join (p, n + k) r) mem' ∧ untouched mem') ∧
  (∀ j r', r = (a + k, j) :: r' → word_at mem (a + 2) = a + k →
    ∃ mem', bibo_free ff (a + 6) mem = Some mem' ∧ free_list lo ff (l ++ cons_join (a, k) r) mem' ∧ untouched mem').
Proof.
  intros H0 Hlo Hf Ha Hk Hmax Hev Hbo untouched. destruct (free_list_split l r lo ff mem Hlo Hf) as (G1 & _).
  cbv zeta in G1. unfold bibo_free. rewrite (proj2 (Z.eqb_neq (a + 6) 0)) by lia.
  replace (a + 6 - 6) with a by lia. rewrite u16_id, read_ok by (unfold word; lia). cbn [mbind option_bind]. split.
  - intros l0 p n -> Hp Eb En. subst a. rewrite <- app_assoc in Hf. cbn [app] in Hf.
    destruct (free_list_split _ _ _ _ _ Hlo Hf) as (K1 & K2 & K3 & K4 & _). cbv zeta in *.
    rewrite En. destruct (flag_set _ Hev) as [-> ->].
    destruct (merge_previous (behind lo ff l0).1 (behind lo ff l0).2 p n k r mem ltac:(lia) K3 Hk Hmax K4 Eb Hbo) as (mem' & E & Hl & Hs).
    exists mem'. split; [exact E|]. split.
    + apply (free_list_replace l0 ((p, n) :: r) _ lo ff mem); [exact Hlo|exact Hf| |exact Hl].
      cbv zeta. intros i Hi. apply Hs; [apply (in_free_below _ _ _ _ _ K4); lia|destruct K4 as ((? & ? & ?) & _); lia].
    + intros i _ Hb Hc. rewrite <- app_assoc in Hb. apply Hs; [exact (not_in_free_app _ _ _ Hb)|exact Hc].
  - intros j r' -> En. rewrite En, (flag_clear _ Hev). cbn [cons_join fst snd]. rewrite Z.eqb_refl.
    destruct (merge_behind ff lo l a k j r' mem H0 Hlo Hf Ha Hk) as (mem' & E & Hl & Hs). exists mem'. auto.
Qed.

(** ** Witness: the two programs of [demo_bibo] are released *)
Lemma bibo_free_joins_witness :
  (∃ mem', bibo_free 0x8800 0x906a demo_bibo = Some mem' ∧ free_list 0x8802 0x8800 [(0x9000, 132); (0x90a4, 92)] mem') ∧
  (∃ mem', bibo_free 0x8800 0x908a demo_bibo = Some mem' ∧ free_list 0x8802 0x8800 [(0x9000, 100); (0x9084, 124)] mem').
Proof.
  split.
  - destruct (bibo_free_joins 0x8800 0x8802 [(0x9000, 100)] [(0x90a4, 92)] 0x9064 32 demo_bibo) as [Hp _];
      [lia|lia|exact demo_free_list|cbn; lia|lia|lia|done|right; split; [lia|vm_compute; discriminate]|].
    destruct (Hp [] 0x9000 100) as (mem' & E & Hl & _); [done..|].
    exists mem'. split; [exact E|exact Hl].
  - destruct (bibo_free_joins 0x8800 0x8802 [(0x9000, 100)] [(0x90a4, 92)] 0x9084 32 demo_bibo) as [_ Hn];
      [lia|lia|exact demo_free_list|cbn; lia|lia|lia|done|left; split; [done|vm_compute; done]|].
    destruct (Hn 92 []) as (mem' & E & Hl & _); [done..|]. exists mem'. split; [exact E|exact Hl].
Defined.
