(* ===== verification/KernelOk.v ===== *)
(** * KernelOk: the kernels' operations keep the memory an array of bytes

    Whatever the heap, the programs and the files look like. *)
From S2P Require Import LoaderProps.
From S2P Require Export Bibo.

(** A partial operation and what holds of its result. *)
Definition yields {A} (Q : A → Prop) (c : option A) : Prop := ∀ x, c = Some x → Q x.
Lemma yields_some {A} (Q : A → Prop) x : Q x → yields Q (Some x).
Proof. intros Hx y [= <-]. exact Hx. Qed.
Lemma yields_none {A} (Q : A → Prop) : yields Q None.
Proof. intros y [=]. Qed.
Lemma yields_any {A} (c : option A) : yields (λ _, True) c.
Proof. intros x _. exact I. Qed.
Lemma yields_bind {A B} (R : A → Prop) (Q : B → Prop) (c : option A) (f : A → option B) :
  yields R c → (∀ a, R a → yields Q (f a)) → yields Q (a ← c; f a).
Proof. intros Hc Hf y. destruct c as [a|]; [|discriminate]. apply Hf, Hc. reflexivity. Qed.
Lemma yields_if {A} (Q : A → Prop) (b : bool) (c d : option A) :
  yields Q c → yields Q d → yields Q (if b then c else d).
Proof. destruct b; done. Qed.
Lemma put_word_bytes o v mem : bytes_map mem → bytes_map (put_word o v mem).
Proof.
  intros Hm. unfold put_word. apply bytes_map_insert; [apply bytes_map_insert; [exact Hm|apply u8_byte]|].
  rewrite land_255. apply u8_byte.
Qed.
Lemma yields_write o v mem : bytes_map mem → yields bytes_map (WRITE_WORD o v mem).
Proof. intros Hm. unfold WRITE_WORD. apply yields_if; [apply yields_some, put_word_bytes, Hm|apply yields_none]. Qed.

(** Runs through the words that are read and written. *)
Ltac words :=
  repeat match goal with
  | |- yields _ (Some _) => apply yields_some; try assumption
  | |- yields _ None => apply yields_none
  | H : bytes_map _ |- yields bytes_map (WRITE_WORD _ _ _) => apply yields_write; assumption
  | |- yields _ (if _ then _ else _) => apply yields_if
  | |- yields _ (READ_WORD _ _ ≫= _) => apply (yields_bind (λ _, True)); [apply yields_any|intros ? _]
  | |- yields _ (WRITE_WORD _ _ _ ≫= _) =>
      apply (yields_bind bytes_map); [apply yields_write; assumption|intros ? ?]
  end.

(** ** brickOS *)
Lemma merge_free_bytes ff fuel ptr len nptr mem :
  bytes_map mem → yields (λ r, bytes_map r.2) (merge_free ff fuel ptr len nptr mem).
Proof.
  revert len nptr mem. induction fuel as [|fuel IH]; intros len nptr mem Hm; cbn [merge_free]; words.
  apply (yields_bind bytes_map); [words|]. intros m1 H1. words. apply IH. assumption.
Qed.
Lemma free_loop_bytes start ff fuel addr ptr mem :
  bytes_map mem → yields bytes_map (free_loop start ff fuel addr ptr mem).
Proof.
  revert ptr mem. induction fuel as [|fuel IH]; intros ptr mem Hm; cbn [free_loop]; words; [|apply IH; exact Hm].
  apply (yields_bind bytes_map); [words|]. intros m1 H1.
  apply (yields_bind (λ r, bytes_map r.2)); [apply merge_free_bytes, H1|]. intros [[? ?] m2] H2. words.
Qed.
Lemma take_block_bytes start ff fuel ptr len nptr size mem :
  bytes_map mem → yields (λ r, bytes_map r.2) (take_block start ff fuel ptr len nptr size mem).
Proof.
  intros Hm. unfold take_block. apply (yields_bind (λ r, bytes_map r.2)); [words|].
  intros [n m1] H1. cbn [snd] in H1. words. apply (yields_bind bytes_map).
  - words. apply (yields_bind (λ _, True)); [apply yields_any|]. intros ? _. words.
  - intros m2 H2. words.
Qed.
Lemma malloc_loop_bytes start ff fuel size ptr mem :
  bytes_map mem → yields (λ r, bytes_map r.2) (malloc_loop start ff fuel size ptr mem).
Proof.
  revert ptr mem. induction fuel as [|fuel IH]; intros ptr mem Hm; cbn [malloc_loop]; words.
  apply (yields_bind (λ r, bytes_map r.2)); [words; apply merge_free_bytes, Hm|].
  intros [[l n] m1] H1. cbn [snd] in H1. words; [apply take_block_bytes, H1|apply IH, H1].
Qed.

(** ** BiBo *)
Lemma bibo_free_bytes ff addr mem : bytes_map mem → yields bytes_map (bibo_free ff addr mem).
Proof.
  intros Hm. unfold bibo_free, free_merge_previous, free_enqueue. cbv zeta. words.
  apply (yields_bind (λ _, True)); [apply yields_any|]. intros [p q] _. words.
Qed.
Lemma bibo_take_bytes pptr ptr n size mem :
  bytes_map mem → yields (λ r, bytes_map r.2) (bibo_take pptr ptr n size mem).
Proof.
  intros Hm. unfold bibo_take. words. apply (yields_bind bytes_map); [words|]. intros m1 H1. words.
Qed.
Lemma bibo_malloc_bytes fuel pptr size mem :
  bytes_map mem → yields (λ r, bytes_map r.2) (bibo_malloc_loop fuel pptr size mem).
Proof.
  revert pptr mem. induction fuel as [|fuel IH]; intros pptr mem Hm; cbn [bibo_malloc_loop]; words.
  - apply bibo_take_bytes, Hm.
  - apply IH, Hm.
Qed.

(** ** A kernel *)
Class HeapOk (heap : KernelHeap) := {
  heap_free_bytes start ff addr mem : bytes_map mem → yields bytes_map (heap_free start ff addr mem);
  heap_malloc_bytes start ff size mem :
    bytes_map mem → yields (λ r, bytes_map r.2) (heap_malloc start ff size mem) }.
#[export] Instance brickos_heap_ok : HeapOk brickos_heap.
Proof.
  constructor; intros start ff x mem Hm; cbn [heap_free heap_malloc brickos_heap].
  - unfold brickos_free. words. apply free_loop_bytes, Hm.
  - unfold brickos_malloc. words. apply malloc_loop_bytes, Hm.
Qed.
#[export] Instance bibo_heap_ok : HeapOk bibo_heap.
Proof.
  constructor; intros start ff x mem Hm; [apply bibo_free_bytes, Hm|apply bibo_malloc_bytes, Hm].
Qed.

Section Kernel.
Context {heap : KernelHeap} `{!HeapOk heap}.
Lemma yields_into a l mem : bytes_map mem → Forall byte l → yields bytes_map (into_memory a l mem).
Proof. intros Hm Hl m'. apply into_memory_bytes; assumption. Qed.
Lemma relocate_all_bytes file start base pos n mem :
  bytes_map mem → yields bytes_map (relocate_all file start base pos n mem).
Proof.
  revert pos mem. induction n as [|n IH]; intros pos mem Hm; cbn [relocate_all]; words.
  apply (yields_bind (λ _, True)); [apply yields_any|]. intros l _.
  apply (yields_bind bytes_map); [unfold relocate; words|]. intros m1 H1. apply IH, H1.
Qed.
Lemma lx_read_bytes file h start mem :
  Forall byte file → bytes_map mem → yields bytes_map (lx_read file h start mem).
Proof.
  intros Hf Hm. unfold lx_read. apply (yields_bind (Forall byte)); [intros l; apply fread_byte, Hf|].
  intros l Hl. apply (yields_bind bytes_map); [apply yields_into; assumption|].
  intros m1 H1. apply relocate_all_bytes, H1.
Qed.
Lemma fill_program_bytes p text mem syms :
  Forall byte (p_file p) → bytes_map mem → yields (λ r, bytes_map r.1) (fill_program p text mem syms).
Proof.
  intros Hf Hm. unfold fill_program. apply (yields_bind (λ r, bytes_map r.1)).
  - apply yields_if.
    + apply (yields_bind (λ r, bytes_map r.2)); [intros [e m'] E; exact (coff_read_ok _ _ _ _ Hf Hm E)|].
      intros [e m1] H1. apply (yields_bind (λ _, True)); [apply yields_any|]. intros t _. words.
    + apply (yields_bind bytes_map); [apply lx_read_bytes; assumption|]. intros m1 H1. words.
  - intros [m1 t] H1. cbn [fst] in H1. apply (yields_bind bytes_map).
    { apply yields_into; [exact H1|]. apply Forall_replicate, byte_const. done. }
    intros m2 H2. apply (yields_bind bytes_map); [|intros m3 H3; words].
    apply yields_into; [exact H2|apply chars_from_bytes, H2].
Qed.
Lemma write_words_bytes prog l mem : bytes_map mem → yields bytes_map (write_words prog l mem).
Proof.
  intros Hm. unfold write_words. generalize (zip ((λ k, 2 * Z.of_nat k) <$> seq 0 (length l)) l). intros ws.
  assert (yields bytes_map (Some mem)) as Hc by (apply yields_some, Hm). revert Hc. generalize (Some mem).
  induction ws as [|[i v] ws IH]; intros c Hc; cbn [foldl]; [exact Hc|]. apply IH.
  apply (yields_bind bytes_map); [exact Hc|]. intros m1 H1. words.
Qed.
Lemma install_bytes p prog text mem syms :
  Forall byte (p_file p) → bytes_map mem → yields (λ r, bytes_map r.1) (install p prog text mem syms).
Proof.
  intros Hf Hm. unfold install. apply (yields_bind bytes_map); [apply write_words_bytes, Hm|]. intros m1 H1.
  apply (yields_bind bytes_map).
  { apply yields_into; [exact H1|]. apply Forall_singleton, byte_const. done. }
  intros m2 H2. apply (yields_bind (λ r, bytes_map r.1)); [apply fill_program_bytes; assumption|].
  intros [m3 t] H3. cbn [fst] in H3. words.
Qed.
Lemma recognise_file file : yields (λ p, ∀ q, p = Some q → p_file q = file) (recognise file).
Proof.
  unfold recognise. apply (yields_bind (λ _, True)); [apply yields_any|]. intros c _. apply yields_if.
  - apply (yields_bind (λ _, True)); [apply yields_any|]. intros a _. words. intros q [= <-]. done.
  - apply (yields_bind (λ _, True)); [apply yields_any|]. intros h _. words.
    destruct h; [|discriminate]. intros q [= <-]. done.
Qed.
Lemma load_program_bytes slot file mem syms :
  (∀ l, file = Some l → Forall byte l) → bytes_map mem →
  yields (λ r, bytes_map r.1) (load_program slot file mem syms).
Proof.
  intros Hf Hm. unfold load_program. cbv zeta. apply yields_if; [words|].
  destruct file as [file|]; [|words]. specialize (Hf file eq_refl).
  apply (yields_bind (λ p, ∀ q, p = Some q → p_file q = file)); [apply recognise_file|].
  intros [p|] Hp; [|words]. specialize (Hp p eq_refl). rewrite <- Hp in Hf. words.
  apply (yields_bind bytes_map); [words; apply heap_free_bytes, Hm|]. intros m1 H1.
  apply (yields_bind (λ r, bytes_map r.2)); [apply heap_malloc_bytes, H1|]. intros [text m2] H2.
  cbn [snd] in H2. words; [|apply install_bytes; assumption].
  apply (yields_bind bytes_map); [apply heap_free_bytes, H2|]. intros m3 H3. words.
Qed.
Lemma newprogram_bytes slot size mem syms :
  bytes_map mem → yields (λ r, bytes_map r.2) (newprogram_addr slot size mem syms).
Proof.
  intros Hm. unfold newprogram_addr. cbv zeta. words. apply (yields_bind bytes_map).
  { words. apply (yields_bind bytes_map); [apply heap_free_bytes, Hm|]. intros m1 H1. words. }
  intros m1 H1. apply (yields_bind (λ r, bytes_map r.2)); [apply heap_malloc_bytes, H1|].
  intros [got m2] H2. cbn [snd] in H2. apply (yields_bind bytes_map); [words; apply heap_free_bytes, H2|].
  intros m3 H3. words.
Qed.
End Kernel.
Lemma sethostaddr_bytes c mem syms : bytes_map mem → bytes_map (brickos_sethostaddr c mem syms).2.
Proof.
  intros Hm. unfold brickos_sethostaddr. cbv zeta. destruct (c =? 63); [exact Hm|].
  destruct (_ =? 0); [exact Hm|]. apply bytes_map_insert; [exact Hm|apply u8_byte].
Qed.
