(* ===== verification/Dump.v ===== *)
(** * Dump: the tables that [brickos.c] and [bibo.c] print

    The memory, the threads, the programs and the timers of the kernel in the
    emulated memory.  What is printed is the list of the calls of [printf], with
    their arguments; the stacks are the lines of [frame_dump_stack].  [None]: a
    byte outside of [memory] is read, or the list of the kernel is endless and so is
    the table. *)
From Stdlib Require Import Ascii.
From stdpp Require Import strings.
From S2P Require Import Frame.
From S2P Require Export Bibo.
Open Scope string_scope.
Open Scope list_scope.
Open Scope Z_scope.

(** [Buf]: a string that [snprintf] has put together of a number. *)
Inductive arg := Num (v : Z) | Str (s : string) | Chr (c : ascii) | Buf (format : string) (v : Z).
Inductive printed := Printf (format : string) (args : list arg) | Stack (l : line).

Definition READ_BYTE (mem : gmap Z Z) (o : Z) : option Z :=
  if (0 <=? o) && (o <? 0x10000) then Some (get0 mem o) else None.
(** [tstates[state]]; the last letter is for all states beyond. *)
Definition state_of (tstates : list ascii) (state : Z) : arg :=
  let n := Z.of_nat (length tstates) in
  Chr (nth (Z.to_nat (if n <=? state then n - 1 else state)) tstates "?"%char).
(** [(flags & mask) ? c : '-'] *)
Definition flag (flags mask : Z) (c : ascii) : arg := Chr (if flags &? mask then c else "-"%char).
Definition owner_of (type : Z) : arg :=
  if type =? 0xffff then Str "RESERVED"
  else if type =? 0 then Str "FREE"
  else if type =? 1 then Str "OWNED"
  else if type =? 0xfffe then Str "BEAMED_PROGRAM"
  else Buf "THR %04x" type.

(** ** brickOS *)
Fixpoint dump_blocks (fuel : nat) (mm_start ptr : Z) (mem : gmap Z Z) : option (list printed) :=
  if ptr <? mm_start then Some []
  else
    match fuel with
    | O => None
    | S fuel =>
        type ← READ_WORD mem ptr;
        len ← READ_WORD mem (ptr + 2);
        rest ← dump_blocks fuel mm_start (next_block ptr len) mem;
        Some (Printf "Block %04x len %5d, owner %s\n" [Num (ptr + 4); Num (2 * len); owner_of type] :: rest)
    end.
Definition stars : printed := Printf "*********************************\n" [].
Definition brickos_dump_memory (syms : tree) (mem : gmap Z Z) : option (list printed) :=
  let mm_start := symbols_getaddr "_mm_start" syms in
  if mm_start =? 0 then Some []
  else
    l ← dump_blocks FUEL mm_start mm_start mem;
    Some (Printf "****** BrickOS Memory Dump ******\n" [] :: l ++ [stars]).

(** The threads of a queue, up to [stid]. *)
Fixpoint dump_queue (fuel : nat) (ctid stid tid : Z) (mem : gmap Z Z) : option (list printed) :=
  match fuel with
  | O => None
  | S fuel =>
      state ← READ_BYTE mem (tid + 2);
      flags ← READ_BYTE mem (tid + 3);
      stackbase ← READ_WORD mem (tid + 12);
      parent ← READ_WORD mem (tid + 10);
      sp ← READ_WORD mem (tid + 0);
      let l := Printf "  Thread %04x: parent %04x state %c, flags %c%c%c%c stack(@%04x %04x free)%s\n"
        [Num tid; Num parent; state_of ["K"; "Z"; "W"; "S"; "R"; "?"]%char state;
         flag flags 0x80 "S"; flag flags 0x04 "I"; flag flags 0x02 "U"; flag flags 0x01 "K";
         Num stackbase; Num (sp - stackbase); Str (if tid =? ctid then " CURRENT" else "")] in
      if tid =? stid then Some [l]
      else tid ← READ_WORD mem (tid + 6); rest ← dump_queue fuel ctid stid tid mem; Some (l :: rest)
  end.
Fixpoint dump_priorities (fuel : nat) (ctid prio : Z) (mem : gmap Z Z) : option (list printed) :=
  if prio =? 0 then Some []
  else
    match fuel with
    | O => None
    | S fuel =>
        level ← READ_BYTE mem (prio + 0);
        stid ← READ_WORD mem (prio + 6);
        tid ← READ_WORD mem (stid + 6);
        queue ← dump_queue LIST_FUEL ctid stid tid mem;
        prio' ← READ_WORD mem (prio + 2);
        rest ← dump_priorities fuel ctid prio' mem;
        Some (Printf "Priority Queue %04x:  Prio %3d\n" [Num prio; Num level] :: queue ++ rest)
    end.
Definition brickos_dump_threads (syms : tree) (mem : gmap Z Z) : option (list printed) :=
  let priority_head := symbols_getaddr "_priority_head" syms in
  let ctid := symbols_getaddr "_ctid" syms in
  if priority_head =? 0 then Some []
  else
    prio ← READ_WORD mem priority_head;
    l ← dump_priorities LIST_FUEL ctid prio mem;
    Some (Printf "****** BrickOS Thread Dump ******\n" [] :: l ++ [stars]).

(** ** Programs: the same table of both kernels *)
Definition dump_program (programs i : Z) (mem : gmap Z Z) : option (list printed) :=
  let prog := u16 (programs + i * 22) in
  text_size ← READ_WORD mem (prog + 8);
  if 0 <? text_size then
    text ← READ_WORD mem (prog + 0);
    data ← READ_WORD mem (prog + 2);
    bss ← READ_WORD mem (prog + 4);
    data_size ← READ_WORD mem (prog + 10);
    bss_size ← READ_WORD mem (prog + 12);
    stack_size ← READ_WORD mem (prog + 14);
    start ← READ_WORD mem (prog + 16);
    prio ← READ_BYTE mem (prog + 18);
    downloaded ← READ_WORD mem (prog + 20);
    Some [Printf "Program %d: size %04x (%04x text+data) stack_size %04x downloaded %04x\n   text %04x-%04x data %04x-%04x bss %04x-%04x start %04x, pio %d\n"
      (Num <$> [i; text_size + 2 * data_size + bss_size; text_size + data_size; stack_size; downloaded;
                text; text + text_size; data; data + data_size; bss; bss + bss_size; start; prio])]
  else Some [].
Fixpoint dump_slots (programs : Z) (l : list Z) (mem : gmap Z Z) : option (list printed) :=
  match l with
  | [] => Some []
  | i :: l => p ← dump_program programs i mem; rest ← dump_slots programs l mem; Some (p ++ rest)
  end.
Definition dump_programs (title : string) (syms : tree) (mem : gmap Z Z) : option (list printed) :=
  let programs := symbols_getaddr "_programs" syms in
  if programs =? 0 then Some []
  else
    l ← dump_slots programs [0; 1; 2; 3; 4; 5; 6; 7] mem;
    Some (Printf title [] :: l ++ [Printf "**********************************\n" []]).
Definition brickos_dump_programs := dump_programs "****** BrickOS Program Dump ******\n".
Definition bibo_dump_programs := dump_programs "****** Rcxrt Program Dump ******\n".

(** ** BiBo *)
(** A block of the heap and what is wrong with it; the link that has to name the next
    free block. *)
Definition bibo_dump_block (ptr nextfree : Z) (mem : gmap Z Z) : option (list printed * Z * Z) :=
  link ← READ_WORD mem (ptr + 2);
  type ← READ_WORD mem (ptr + 4);
  let next := even link in
  broken ← (if type =? 0 then
              listed ← READ_WORD mem nextfree;
              Some (if negb (listed =? ptr)
                    then [Printf "Free list broken %04x != %04x\n" [Num listed; Num ptr]] else [])
            else Some []);
  let nextfree := if type =? 0 then u16 (ptr + 6) else nextfree in
  let block := Printf "Block %04x len %5d, owner %s\n" [Num (ptr + 6); Num (u16 (next - ptr - 4)); owner_of type] in
  behind ← (if next =? 0 then Some []
            else
              flags ← READ_WORD mem (next + 2);
              if type =? 0 then
                back ← READ_WORD mem next;
                Some (if negb (flags &? 1) || negb (back =? ptr)
                      then [Printf "Memory free list broken: %04x != %04x:%d\n" [Num ptr; Num back; Num (flags &! 1)]]
                      else [])
              else Some (if flags &? 1
                         then [Printf "Memory broken: next block thinks this is free\n" []] else []));
  Some (broken ++ block :: behind, next, nextfree).
Fixpoint bibo_dump_blocks (fuel : nat) (bottom ptr nextfree : Z) (mem : gmap Z Z) : option (list printed * Z) :=
  if ptr <? bottom then Some ([], nextfree)
  else
    match fuel with
    | O => None
    | S fuel =>
        '(l, next, nextfree) ← bibo_dump_block ptr nextfree mem;
        '(rest, nextfree) ← bibo_dump_blocks fuel bottom next nextfree mem;
        Some (l ++ rest, nextfree)
    end.
Definition bibo_dump_memory (syms : tree) (mem : gmap Z Z) : option (list printed) :=
  let mm_start := symbols_getaddr "_mm_start" syms in
  let nextfree := symbols_getaddr "_mm_first_free" syms in
  if mm_start =? 0 then Some []
  else
    '(l, nextfree) ← bibo_dump_blocks LIST_FUEL (mm_start - 2) (u16 (mm_start - 2)) nextfree mem;
    listed ← READ_WORD mem nextfree;
    Some (Printf "****** Rcxrt Memory Dump ******\n" [] :: l ++
          (if listed =? 0 then [] else [Printf "Free list broken %04x not found\n" [Num listed]]) ++ [stars]).

(** The next thread of a queue: [TDATA_NEXT], [TDATA_PREV], [TDATA_SP_SAVE]. *)
Definition TDATA_END : Z := 8.
Definition queue_error (tid last : Z) (mem : gmap Z Z) : option (list printed) :=
  prev ← READ_WORD mem (tid + 6);
  Some (if negb (prev =? last)
        then [Printf "    QUEUE_ERROR tid.prev = %04x != %04x\n" [Num prev; Num last]] else []).
Definition no_next : printed := Printf "    QUEUE_ERROR tid.next == 0\n" [].

Section Threads.
Context (mem : gmap Z Z) (pc r7 : Z) (prof : profiler).
(** A thread with its stack pointer and the lowest address of its stack. *)
Definition dump_thread (tid last sp stackbase : Z) (mark : string) (root : tree)
    : option (tree * list printed) :=
  flags ← READ_BYTE mem (tid + 2);
  broken ← queue_error tid last mem;
  prio ← READ_BYTE mem (tid + 3);
  let l := Printf "  Thread %04x: prio %2d state %c, flags %c%c%c stack(@%04x %04x free)%s\n"
    [Num tid; Num prio; state_of ["K"; "Z"; "W"; "R"; "?"]%char (flags &! 7);
     flag flags 0x80 "S"; flag flags 0x40 "I"; flag flags 0x20 "K";
     Num sp; Num (sp - stackbase); Str mark] in
  '(root, stack) ← frame_dump_stack mem pc r7 sp root prof;
  Some (root, broken ++ l :: (Stack <$> stack)).
(** The [do] loop over the running threads: [last] is the one before. *)
Fixpoint dump_running (fuel : nat) (td_idle ctid last : Z) (root : tree) : option (tree * list printed) :=
  match fuel with
  | O => None
  | S fuel =>
      tid ← READ_WORD mem (last + 4);
      sp ← (if tid =? ctid then Some r7 else READ_WORD mem (tid + 0));
      '(root, l) ← dump_thread tid last sp (if tid =? td_idle then 0xfe00 else u16 (tid + TDATA_END))
                     (if tid =? ctid then " CURRENT" else if tid =? td_idle then " IDLE" else "") root;
      if tid =? 0 then Some (root, l ++ [no_next])
      else if tid =? td_idle then Some (root, l)
      else '(root, rest) ← dump_running fuel td_idle ctid tid root; Some (root, l ++ rest)
  end.
(** The threads that wait, and the last one. *)
Fixpoint dump_waiting (fuel : nat) (waiters last tid : Z) (root : tree) : option (tree * list printed * Z) :=
  if tid =? waiters then Some (root, [], last)
  else
    match fuel with
    | O => None
    | S fuel =>
        sp ← READ_WORD mem (tid + 0);
        '(root, l) ← dump_thread tid last sp (u16 (tid + TDATA_END)) "" root;
        if tid =? 0 then Some (root, l ++ [no_next], last)
        else
          next ← READ_WORD mem (tid + 4);
          '(root, rest, last) ← dump_waiting fuel waiters tid next root;
          Some (root, l ++ rest, last)
    end.
Definition bibo_dump_threads (root : tree) : option (tree * list printed) :=
  let td_idle := symbols_getaddr "_td_idle" root in
  let waiters := symbols_getaddr "_waiters" root in
  ctid ← READ_WORD mem (symbols_getaddr "_ctid" root);
  if (td_idle =? 0) || (waiters =? 0) then Some (root, [])
  else
    '(root, running) ← dump_running LIST_FUEL td_idle ctid td_idle root;
    first ← READ_WORD mem (waiters + 4);
    '(root, waiting, last) ← dump_waiting LIST_FUEL waiters waiters first root;
    broken ← queue_error waiters last mem;
    Some (root, Printf "****** Rcxrt Thread Dump ******\n" [] ::
                Printf "Running (current %04x):\n" [Num ctid] :: running ++
                Printf "Waiting:\n" [] :: waiting ++ broken ++ [stars]).
End Threads.

Fixpoint dump_timers (fuel : nat) (timer delay : Z) (mem : gmap Z Z) (root : tree)
    : option (tree * list printed) :=
  if timer =? 0 then Some (root, [])
  else
    match fuel with
    | O => None
    | S fuel =>
        pc ← READ_WORD mem (timer + 2);
        let '(root, name) := symbols_get (pc, 0) root in
        data ← READ_WORD mem (timer + 4);
        next ← READ_WORD mem (timer + 6);
        delay' ← READ_WORD mem next;
        '(root, rest) ← dump_timers fuel next delay' mem root;
        Some (root, Printf "   %5d : %s(%04x)\n"
                      [Num delay; match name with Some n => Str n | None => Buf "0x%04x" pc end; Num data] :: rest)
    end.
Definition bibo_dump_timers (mem : gmap Z Z) (root : tree) : option (tree * list printed) :=
  timer ← READ_WORD mem (symbols_getaddr "_timer_queue" root);
  delay ← READ_WORD mem (symbols_getaddr "_first_delay" root);
  '(root, l) ← dump_timers LIST_FUEL timer delay mem root;
  Some (root, Printf "********* Timers: *******\n" [] :: l ++ [Printf "*************************\n" []]).
