(* ===== verification/DumpProps.v ===== *)
(** * DumpProps: what the tables of the memory show *)
From Stdlib Require Import Ascii.
From stdpp Require Import strings.
From S2P Require Import BrickOsProps.
From S2P Require Import BiboProps.
From S2P Require Export Dump.

(** ** brickOS: every block, once and in order *)
Fixpoint block_lines (a : Z) (bs : list (Z * Z)) : list printed :=
  match bs with
  | [] => []
  | (t, l) :: bs => Printf "Block %04x len %5d, owner %s\n" [Num (a + 4); Num (2 * l); owner_of t] ::
                    block_lines (a + 4 + 2 * l) bs
  end.
Lemma dump_blocks_lists mm_start bs : ∀ fuel a mem,
  0 < mm_start <= a → a < 65536 → heap a bs mem → (length bs < fuel)%nat →
  dump_blocks fuel mm_start a mem = Some (block_lines a bs).
Proof.
  induction bs as [|[t l] bs IH]; intros fuel a mem Ha Ha2 Hh Hf; [cbn in Hh; lia|].
  destruct fuel as [|fuel]; [cbn in Hf; lia|]. cbn [length] in Hf. cbn [dump_blocks block_lines].
  pose proof (heap_top _ _ _ Hh) as Htop. cbn [length] in Htop. destruct Hh as (Ht & Hl & Hp & Hh).
  pose proof (heap_top _ _ _ Hh) as Htop'.
  destruct (Z.ltb_spec a mm_start); [lia|]. rewrite !read_ok by lia. cbn [mbind option_bind]. rewrite Ht, Hl.
  unfold next_block. destruct bs as [|b bs].
  - cbn in Hh. rewrite Hh. change (u16 65536) with 0. destruct fuel; [lia|]. cbn [dump_blocks].
    destruct (Z.ltb_spec 0 mm_start); [done|lia].
  - cbn [length] in *. rewrite u16_id by (unfold word; lia). rewrite (IH fuel) by (done || lia). done.
Qed.
Theorem brickos_dump_lists syms bs mem :
  let mm_start := symbols_getaddr "_mm_start" syms in
  0 < mm_start < 65536 → heap mm_start bs mem →
  brickos_dump_memory syms mem =
  Some (Printf "****** BrickOS Memory Dump ******\n" [] :: block_lines mm_start bs ++ [stars]).
Proof.
  intros mm_start Hm Hh. unfold brickos_dump_memory. fold mm_start.
  rewrite (proj2 (Z.eqb_neq mm_start 0)) by lia.
  assert (length bs < FUEL)%nat as Hf by (apply heap_top in Hh; unfold FUEL; lia).
  rewrite (dump_blocks_lists mm_start bs FUEL mm_start mem) by (done || lia). done.
Qed.

(** ** BiBo: the table checks the heap

    [next_free]: the link that has to name the next free block. *)
Definition link_of (mem : gmap Z Z) (next : Z) (flag back : option Z) : Prop :=
  ∃ w, READ_WORD mem (next + 2) = Some w ∧
    match flag with Some f => w &! 1 = f | None => True end ∧
    match back with Some b => READ_WORD mem next = Some b | None => True end.
Definition block_sound (ptr type next nextfree : Z) (mem : gmap Z Z) : Prop :=
  (∃ w, READ_WORD mem (ptr + 2) = Some w ∧ even w = next) ∧ READ_WORD mem (ptr + 4) = Some type ∧
  (type = 0 → READ_WORD mem nextfree = Some ptr) ∧
  (next ≠ 0 → if type =? 0 then link_of mem next (Some 1) (Some ptr) else link_of mem next (Some 0) None).
Fixpoint heap_sound (bottom ptr nextfree : Z) (bs : list (Z * Z)) (mem : gmap Z Z) : Prop :=
  match bs with
  | [] => ptr < bottom ∧ READ_WORD mem nextfree = Some 0
  | (type, next) :: bs =>
      bottom <= ptr ∧ block_sound ptr type next nextfree mem ∧
      heap_sound bottom next (if type =? 0 then u16 (ptr + 6) else nextfree) bs mem
  end.
Definition bibo_line (ptr type next : Z) : printed :=
  Printf "Block %04x len %5d, owner %s\n" [Num (ptr + 6); Num (u16 (next - ptr - 4)); owner_of type].
Fixpoint bibo_lines (ptr : Z) (bs : list (Z * Z)) : list printed :=
  match bs with
  | [] => []
  | (type, next) :: bs => bibo_line ptr type next :: bibo_lines next bs
  end.
(** The lines of a table without a complaint. *)
Definition plain (x : printed) : bool :=
  match x with
  | Printf f _ => bool_decide (f ∈ ["****** Rcxrt Memory Dump ******\n"; "*********************************\n";
                                    "Block %04x len %5d, owner %s\n"])
  | Stack _ => false
  end.
Lemma low_bit w : w &! 1 = w mod 2.
Proof. change 1 with (Z.ones 1). rewrite Z.land_ones by lia. done. Qed.
Lemma flag_bit w : (w &? 1) = (w &! 1 =? 1).
Proof. rewrite low_bit. pose proof (Z.mod_pos_bound w 2 ltac:(lia)). lia. Qed.

(** One block: either it is sound, or there is a complaint. *)
Lemma not_plain f args l : bool_decide (f ∈ ["****** Rcxrt Memory Dump ******\n";
  "*********************************\n"; "Block %04x len %5d, owner %s\n"]) = false →
  forallb plain (Printf f args :: l) = true → False.
Proof. intros Hf. cbn [forallb plain]. rewrite Hf. discriminate. Qed.
Lemma dump_block_check ptr nextfree mem l next nf :
  bibo_dump_block ptr nextfree mem = Some (l, next, nf) → forallb plain l = true →
  ∃ type, l = [bibo_line ptr type next] ∧ block_sound ptr type next nextfree mem ∧
    nf = (if type =? 0 then u16 (ptr + 6) else nextfree).
Proof.
  unfold bibo_dump_block. destruct (READ_WORD mem (ptr + 2)) as [w|] eqn:Ew; [|discriminate].
  destruct (READ_WORD mem (ptr + 4)) as [type|] eqn:Et; [|discriminate]. cbn [mbind option_bind]. cbv zeta.
  destruct (if type =? 0 then _ else Some []) as [broken|] eqn:Eb; [|discriminate]. cbn [mbind option_bind].
  destruct (if even w =? 0 then _ else _) as [behind|] eqn:Eh; [|discriminate]. cbn [mbind option_bind].
  intros [= <- <- <-] Hp. rewrite forallb_app in Hp. apply andb_true_iff in Hp as [Hb Hr].
  cbn [forallb] in Hr. apply andb_true_iff in Hr as [_ Hr].
  exists type. unfold block_sound, link_of. rewrite Ew, Et.
  assert (broken = [] ∧ (type = 0 → READ_WORD mem nextfree = Some ptr)) as [-> Hlist].
  { destruct (Z.eqb_spec type 0); [|injection Eb as <-; split; [done|lia]].
    destruct (READ_WORD mem nextfree) as [a|]; [|discriminate]. cbn [mbind option_bind] in Eb.
    destruct (a =? ptr) eqn:E; cbn [negb] in Eb; injection Eb as <-.
    - apply Z.eqb_eq in E as ->. done.
    - exfalso. eapply not_plain, Hb. reflexivity. }
  destruct (Z.eqb_spec (even w) 0) as [E0|E0]; [injection Eh as <-; split_and!; try done; eauto|].
  destruct (READ_WORD mem (even w + 2)) as [v|]; [|discriminate]. cbn [mbind option_bind] in Eh.
  rewrite flag_bit in Eh.
  destruct (Z.eqb_spec type 0) as [->|].
  - destruct (READ_WORD mem (even w)) as [b|]; [|discriminate]. cbn [mbind option_bind] in Eh.
    destruct (v &! 1 =? 1) eqn:Ev; [destruct (b =? ptr) eqn:E1|];
      cbn [negb orb] in Eh; injection Eh as <-; try (exfalso; eapply not_plain, Hr; reflexivity).
    apply Z.eqb_eq in E1 as ->. apply Z.eqb_eq in Ev. split_and!; eauto 10.
  - destruct (v &! 1 =? 1) eqn:Ev; cbn [negb] in Eh; injection Eh as <-;
      try (exfalso; eapply not_plain, Hr; reflexivity).
    apply Z.eqb_neq in Ev. split_and!; eauto 10. intros _. exists v. split_and!; try done. rewrite low_bit in *.
    pose proof (Z.mod_pos_bound v 2 ltac:(lia)). lia.
Qed.
Lemma dump_block_sound ptr type next nextfree mem :
  block_sound ptr type next nextfree mem →
  bibo_dump_block ptr nextfree mem =
    Some ([bibo_line ptr type next], next, if type =? 0 then u16 (ptr + 6) else nextfree).
Proof.
  intros ((w & Ew & <-) & Et & Hl & Hn). unfold bibo_dump_block. rewrite Ew, Et. cbn [mbind option_bind].
  destruct (Z.eqb_spec type 0) as [->|].
  - rewrite Hl by done. cbn [mbind option_bind]. rewrite Z.eqb_refl. cbn [negb].
    destruct (Z.eqb_spec (even w) 0) as [|E0]; [done|]. destruct (Hn E0) as (v & -> & Hf & ->).
    cbn [mbind option_bind]. rewrite flag_bit, Hf, !Z.eqb_refl. done.
  - cbn [mbind option_bind]. destruct (Z.eqb_spec (even w) 0) as [|E0]; [done|].
    destruct (Hn E0) as (v & -> & Hf & _). cbn [mbind option_bind]. rewrite flag_bit, Hf. done.
Qed.
Lemma dump_blocks_check bottom mem fuel : ∀ ptr nextfree l nf,
  bibo_dump_blocks fuel bottom ptr nextfree mem = Some (l, nf) → forallb plain l = true →
  READ_WORD mem nf = Some 0 →
  ∃ bs, (length bs <= fuel)%nat ∧ heap_sound bottom ptr nextfree bs mem ∧ l = bibo_lines ptr bs.
Proof.
  induction fuel as [|fuel IH]; intros ptr nextfree l nf; cbn [bibo_dump_blocks];
    destruct (Z.ltb_spec ptr bottom) as [Hlt|Hge]; try discriminate;
    try (intros [= <- <-] _ H0; exists []; split_and!; [cbn; lia|done..]).
  destruct (bibo_dump_block ptr nextfree mem) as [[[l1 next] nf1]|] eqn:E; [|discriminate].
  cbn [mbind option_bind]. destruct (bibo_dump_blocks fuel bottom next nf1 mem) as [[l2 nf2]|] eqn:E2; [|discriminate].
  cbn [mbind option_bind]. intros [= <- <-] Hp H0. rewrite forallb_app in Hp.
  apply andb_true_iff in Hp as [Hp1 Hp2].
  destruct (dump_block_check _ _ _ _ _ _ E Hp1) as (type & -> & Hs & ->).
  destruct (IH _ _ _ _ E2 Hp2 H0) as (bs & Hl & Hh & ->).
  exists ((type, next) :: bs). split_and!; [cbn; lia|cbn [heap_sound]; auto|done].
Qed.
Lemma dump_blocks_sound bottom mem bs : ∀ fuel ptr nextfree,
  heap_sound bottom ptr nextfree bs mem → (length bs <= fuel)%nat →
  ∃ nf, bibo_dump_blocks fuel bottom ptr nextfree mem = Some (bibo_lines ptr bs, nf) ∧ READ_WORD mem nf = Some 0.
Proof.
  induction bs as [|[type next] bs IH]; intros fuel ptr nextfree Hs Hf.
  { destruct Hs as [Hlt H0]. exists nextfree. split; [|exact H0].
    destruct fuel; cbn [bibo_dump_blocks]; rewrite (proj2 (Z.ltb_lt ptr bottom)) by lia; done. }
  destruct Hs as (Hge & Hb & Hs). destruct fuel as [|fuel]; [cbn in Hf; lia|]. cbn [length] in Hf.
  destruct (IH fuel _ _ Hs ltac:(lia)) as (nf & E & H0). exists nf. split; [|exact H0].
  cbn [bibo_dump_blocks]. rewrite (proj2 (Z.ltb_ge ptr bottom)) by lia.
  rewrite (dump_block_sound _ _ _ _ _ Hb). cbn [mbind option_bind]. rewrite E. done.
Qed.
Lemma bibo_lines_plain ptr bs : forallb plain (bibo_lines ptr bs) = true.
Proof. revert ptr. induction bs as [|[t n] bs IH]; intros ptr; [done|]. cbn [bibo_lines forallb]. rewrite IH. done. Qed.

(** C38: The memory table of BiBo is a check of the kernel's heap. For a kernel with a
    heap the table comes out without a complaint exactly if the heap is sound: from
    [_mm_start] the blocks follow each other until one has no successor; the chain
    from [_mm_first_free] names the free blocks, all of them and in the order of their
    addresses, and ends with the last one; and each block's lowest link bit says
    whether the block before it is free, in which case its first word names that one.
    Then the table has one line for each block, with its address, length and owner. *)
Theorem bibo_dump_checks syms mem :
  let mm_start := symbols_getaddr "_mm_start" syms in
  let first := symbols_getaddr "_mm_first_free" syms in
  mm_start ≠ 0 →
  (∀ out, bibo_dump_memory syms mem = Some out → forallb plain out = true →
     ∃ bs, (length bs <= LIST_FUEL)%nat ∧ heap_sound (mm_start - 2) (u16 (mm_start - 2)) first bs mem) ∧
  (∀ bs, heap_sound (mm_start - 2) (u16 (mm_start - 2)) first bs mem → (length bs <= LIST_FUEL)%nat →
     bibo_dump_memory syms mem =
       Some (Printf "****** Rcxrt Memory Dump ******\n" [] :: bibo_lines (u16 (mm_start - 2)) bs ++ [stars])).
Proof.
  intros mm_start first Hm. unfold bibo_dump_memory. fold mm_start first.
  rewrite (proj2 (Z.eqb_neq mm_start 0) Hm). split.
  - intros out. destruct (bibo_dump_blocks _ _ _ _ _) as [[l nf]|] eqn:E; [|discriminate].
    cbn [mbind option_bind]. destruct (READ_WORD mem nf) as [a|] eqn:Ea; [|discriminate].
    cbn [mbind option_bind]. intros [= <-] Hp. cbn [forallb] in Hp. apply andb_true_iff in Hp as [_ Hp].
    rewrite !forallb_app in Hp. apply andb_true_iff in Hp as [Hp1 Hp]. apply andb_true_iff in Hp as [Hp2 _].
    destruct (a =? 0) eqn:E0; [|exfalso; eapply not_plain, Hp2; reflexivity].
    apply Z.eqb_eq in E0 as ->. destruct (dump_blocks_check _ _ _ _ _ _ _ E Hp1 Ea) as (bs & Hl & Hs & _).
    exists bs. auto.
  - intros bs Hs Hl. destruct (dump_blocks_sound _ _ _ LIST_FUEL _ _ Hs Hl) as (nf & -> & H0).
    cbn [mbind option_bind]. rewrite H0. done.
Qed.

(** ** Witness *)
Definition bibo_syms : tree :=
  symbols_add (0x8800, 0) "_mm_first_free" (symbols_add (0x9002, 0) "_mm_start" Leaf).
Definition bibo_blocks : list (Z * Z) :=
  [(0, 0x9064); (0xfffe, 0x9084); (0xfffe, 0x90a4); (0, 0x9100); (0xffff, 0)].
Lemma bibo_dump_checks_witness :
  bibo_dump_memory bibo_syms demo_bibo =
    Some (Printf "****** Rcxrt Memory Dump ******\n" [] :: bibo_lines 0x9000 bibo_blocks ++ [stars]) ∧
  ∃ bs, (length bs <= LIST_FUEL)%nat ∧ heap_sound 0x9000 0x9000 0x8800 bs demo_bibo.
Proof.
  assert (bibo_dump_memory bibo_syms demo_bibo =
    Some (Printf "****** Rcxrt Memory Dump ******\n" [] :: bibo_lines 0x9000 bibo_blocks ++ [stars])) as E
    by (vm_compute; reflexivity).
  split; [exact E|].
  exact (proj1 (bibo_dump_checks bibo_syms demo_bibo ltac:(discriminate)) _ E eq_refl).
Defined.

(** An allocation that fits exactly, and a release, leave a heap that the table
    complains about. *)
Definition complaint (mem : option (gmap Z Z)) : bool :=
  match m ← mem; bibo_dump_memory bibo_syms m with Some l => negb (forallb plain l) | None => false end.
Lemma malloc_breaks_heap : complaint (snd <$> bibo_malloc 0x8800 90 demo_bibo) = true.
Proof. vm_compute. reflexivity. Qed.
Lemma free_breaks_heap : complaint (bibo_free 0x8800 0x908a demo_bibo) = true.
Proof. vm_compute. reflexivity. Qed.
