(* ===== verification/Sound.v ===== *)
(** * Sound: the ring of samples between the timer and SDL ([sound_sdl.c])

    [sound_update] is called by the 8-bit timers with the level of the output and
    the cycles it lasted; it appends samples to a ring of 16-bit numbers.  SDL calls
    [sound_send_samples] from a thread of its own to take them.  The two share
    [sample_start] and [sample_end]. *)
From S2P Require Export Prelude.

Definition SAMPLE_RATE : Z := 48000.
(** [CYCLES_PER_USEC * 1000000 / 50] *)
Definition CYCLES_PER_SEC_DIV_50 : Z := 16 * 1000000 / 50.
Definition DECAY : Z := 0xf400.
Definition AMPLITUDE : Z := (0x10000 - DECAY) >>! 4.
Definition BRICK_SILENCE_LEVEL_POS : Z := 4075.
Definition BRICK_SILENCE_LEVEL_NEG : Z := -4096.
Definition BUFFER_LENGTH : Z := 40960.

(** [incr] is a static variable of [sound_update]. *)
Record sdl := Sdl {
  sample_buffer : gmap Z Z; sample_start : Z; sample_end : Z; sample_level : Z;
  incr : Z; sdl_silence_level : Z }.

(** ** The producer *)
Definition next_level (output level : Z) : Z := ((level * DECAY) >>! 16) + output.
(** True when there is something to hear. *)
Definition is_sound_silent (output level : Z) : bool :=
  if AMPLITUDE =? output then negb (BRICK_SILENCE_LEVEL_POS =? next_level output level)
  else if - AMPLITUDE =? output then negb (BRICK_SILENCE_LEVEL_NEG =? next_level output level)
  else false.

(** What the loops change: [incr], [level], [ptr] and the ring. *)
Record wave := Wave { w_incr : Z; w_level : Z; w_ptr : Z; w_ring : gmap Z Z }.
(** [while (incr > CYCLES_PER_SEC_DIV_50 && len-- > 0)], for [len] samples; [None]: a
    sample is stored outside of the ring. *)
Fixpoint put_samples (len : nat) (output : Z) (w : wave) : option wave :=
  match len with
  | O => Some w
  | S len =>
      if CYCLES_PER_SEC_DIV_50 <? w_incr w then
        let level := next_level output (w_level w) in
        if (0 <=? w_ptr w) && (w_ptr w <? BUFFER_LENGTH) then
          put_samples len output
            (Wave (u32 (w_incr w - CYCLES_PER_SEC_DIV_50)) level (u32 (w_ptr w + 1))
               (<[w_ptr w := s16 level]> (w_ring w)))
        else None
      else Some w
  end.
Fixpoint drop_samples (len : nat) (w : wave) : wave :=
  match len with
  | O => w
  | S len =>
      if CYCLES_PER_SEC_DIV_50 <? w_incr w
      then drop_samples len (Wave (u32 (w_incr w - CYCLES_PER_SEC_DIV_50)) (w_level w) (w_ptr w) (w_ring w))
      else w
  end.
(** The room for samples.  [sample_start] is read twice, and SDL's thread may change it in
    between: [start] and [start']. *)
Definition room (start start' ptr : Z) : Z :=
  if ptr <? start then u32 (start' - ptr - 1) else u32 (BUFFER_LENGTH - ptr).
Definition sound_turn (start start' output : Z) (w : wave) : option wave :=
  let len := room start start' (w_ptr w) in
  let w := Wave (if len =? 0 then 0 else w_incr w) (w_level w) (w_ptr w) (w_ring w) in
  w ← (if is_sound_silent output (w_level w) then put_samples (Z.to_nat len) output w
       else Some (drop_samples (Z.to_nat len) w));
  Some (Wave (w_incr w) (w_level w) (if w_ptr w =? BUFFER_LENGTH then 0 else w_ptr w) (w_ring w)).
(** The outer loop; [reads]: what the reads of [sample_start] give.  Every turn takes a
    sample off [incr]. *)
Fixpoint sound_loop (fuel : nat) (reads : nat → Z * Z) (output : Z) (w : wave) : option wave :=
  if CYCLES_PER_SEC_DIV_50 <? w_incr w then
    match fuel with
    | O => None
    | S fuel =>
        w ← sound_turn (reads fuel).1 (reads fuel).2 output w;
        sound_loop fuel reads output w
    end
  else Some w.
Definition SOUND_FUEL : nat := Z.to_nat 13422.
Definition output_of (bit : Z) : Z := if bit =? 0 then - AMPLITUDE else AMPLITUDE.
Definition sound_update (reads : nat → Z * Z) (bit new_incr : Z) (s : sdl) : option sdl :=
  let n := u32 (incr s + new_incr * (SAMPLE_RATE / 50)) in
  if n <? CYCLES_PER_SEC_DIV_50
  then Some (Sdl (sample_buffer s) (sample_start s) (sample_end s) (sample_level s) n (sdl_silence_level s))
  else
    w ← sound_loop SOUND_FUEL reads (output_of bit) (Wave n (sample_level s) (sample_end s) (sample_buffer s));
    Some (Sdl (w_ring w) (sample_start s) (w_ptr w) (s16 (w_level w)) (w_incr w) (sdl_silence_level s)).
(** SDL's thread does not run during the call. *)
Definition undisturbed (s : sdl) : nat → Z * Z := λ _, (sample_start s, sample_start s).

(** ** The consumer

    SDL's buffer is the list of its bytes; a sample is two of them, the low one first. *)
Definition bytes_of (v : Z) : list Z := [u8 v; u8 (v >>! 8)].
(** The bytes [o], .. of the ring, and [memcpy] of [n] bytes from its sample [i] to the
    sample [d] of [data]. *)
Definition ring_byte (ring : gmap Z Z) (o : Z) : Z :=
  let v := get0 ring (o / 2) in if o mod 2 =? 0 then u8 v else u8 (v >>! 8).
Definition ring_bytes (ring : gmap Z Z) (i n : Z) : list Z :=
  (λ k, ring_byte ring (2 * i + Z.of_nat k)) <$> seq 0 (Z.to_nat n).
Definition store_at (d : Z) (l data : list Z) : list Z :=
  take (Z.to_nat (2 * d)) data ++ l ++ drop (Z.to_nat (2 * d) + length l) data.
Definition sound_send_samples (data : list Z) (s : sdl) : list Z * sdl :=
  let len16 := Z.of_nat (length data) / 2 in
  let s_end := sample_end s in
  let '(data, s_start, d, len16) :=
    (if s_end <? sample_start s then
       let size := Z.min (u32 (BUFFER_LENGTH - sample_start s)) len16 in
       (store_at 0 (ring_bytes (sample_buffer s) (sample_start s) size) data,
        (sample_start s + size) mod BUFFER_LENGTH, size, len16 - size)
     else (data, sample_start s, 0, len16)) in
  let '(data, s_start, d, len16) :=
    (if (0 <? len16) && (0 <? u32 (s_end - s_start)) then
       let size := Z.min (u32 (s_end - s_start)) len16 in
       (store_at d (ring_bytes (sample_buffer s) s_start size) data, u32 (s_start + size), d + size, len16 - size)
     else (data, s_start, d, len16)) in
  let silence := concat (replicate (Z.to_nat len16) (bytes_of (sdl_silence_level s))) in
  (store_at d silence data,
   Sdl (sample_buffer s) s_start (sample_end s) (sample_level s) (incr s) (sdl_silence_level s)).
(** [opened]: the silence that [SDL_OpenAudio] gives when it succeeds. *)
Definition sound_init (opened : option Z) (s : sdl) : sdl :=
  Sdl (sample_buffer s) 0 0 (sample_level s) (incr s)
    (match opened with Some silence => silence | None => sdl_silence_level s end).
