(* ===== verification/SoundProps.v ===== *)
(** * SoundProps: the ring is a queue of the samples of the wave *)
From S2P Require Export Sound.

(** The samples a level of the output makes of the last one. *)
Fixpoint waves (output level : Z) (n : nat) : list Z :=
  match n with
  | O => []
  | S n => let level := next_level output level in level :: waves output level n
  end.
Fixpoint level_after (output level : Z) (n : nat) : Z :=
  match n with O => level | S n => level_after output (next_level output level) n end.
Lemma length_waves o l n : length (waves o l n) = n.
Proof. revert l. induction n as [|n IH]; intros l; [done|]. cbn. f_equal. apply IH. Qed.
Lemma waves_app o l n k : waves o l (n + k) = waves o l n ++ waves o (level_after o l n) k.
Proof. revert l. induction n as [|n IH]; intros l; [done|]. cbn. f_equal. apply IH. Qed.
Lemma level_after_app o l n k : level_after o l (n + k) = level_after o (level_after o l n) k.
Proof. revert l. induction n as [|n IH]; intros l; [done|]. cbn. apply IH. Qed.

(** The loudest levels: a constant output never goes beyond 4096. *)
Definition level_ok (l : Z) : Prop := -4096 <= l <= 4096.
Definition output_ok (o : Z) : Prop := o = AMPLITUDE ∨ o = - AMPLITUDE.
Lemma next_level_ok o l : output_ok o → level_ok l → level_ok (next_level o l).
Proof.
  unfold output_ok, level_ok, next_level. change AMPLITUDE with 192. unfold DECAY.
  rewrite Z.shiftr_div_pow2 by lia. change (2 ^ 16) with 65536. intros. Z.div_mod_to_equations. lia.
Qed.
Lemma level_after_ok o l n : output_ok o → level_ok l → level_ok (level_after o l n).
Proof. intros Ho. revert l. induction n as [|n IH]; intros l Hl; [exact Hl|]. apply IH, next_level_ok; assumption. Qed.
Lemma s16_level l : level_ok l → s16 l = l.
Proof. unfold level_ok. intros. width_lia. Qed.

(** How many samples [incr] is good for. *)
Definition due (n : Z) : nat := Z.to_nat ((n - 1) / CYCLES_PER_SEC_DIV_50).
Lemma due_none n : 0 <= n → (CYCLES_PER_SEC_DIV_50 <? n) = false → due n = 0%nat.
Proof.
  unfold due. change CYCLES_PER_SEC_DIV_50 with 320000. intros.
  assert ((n - 1) / 320000 <= 0) by (Z.div_mod_to_equations; lia). lia.
Qed.
Lemma due_some n : (CYCLES_PER_SEC_DIV_50 <? n) = true → due n = S (due (n - CYCLES_PER_SEC_DIV_50)).
Proof.
  unfold due. change CYCLES_PER_SEC_DIV_50 with 320000. intros.
  replace (n - 320000 - 1) with (n - 1 + (-1) * 320000) by lia. rewrite Z.div_add by lia.
  assert (1 <= (n - 1) / 320000) by (Z.div_mod_to_equations; lia). lia.
Qed.

Definition after (o : Z) (j : nat) (w : wave) (k : nat) : wave :=
  Wave (w_incr w - CYCLES_PER_SEC_DIV_50 * Z.of_nat j) (level_after o (w_level w) k)
    (w_ptr w + Z.of_nat k) (store_bytes (w_ptr w) (waves o (w_level w) k) (w_ring w)).
Lemma put_samples_ok o len w :
  output_ok o → level_ok (w_level w) → dword (w_incr w) → 0 <= w_ptr w →
  let j := Nat.min len (due (w_incr w)) in
  w_ptr w + Z.of_nat j <= BUFFER_LENGTH → put_samples len o w = Some (after o j w j).
Proof.
  intros Ho. revert w. induction len as [|len IH]; intros [n l p r] Hl Hn Hp j Hlen; subst j;
    cbn [w_incr w_level w_ptr w_ring] in *.
  { cbn. unfold after. cbn. f_equal. f_equal; lia. }
  cbn [put_samples w_incr w_level w_ptr w_ring]. destruct (CYCLES_PER_SEC_DIV_50 <? n) eqn:E.
  - rewrite (due_some n E) in *. cbn [Nat.min] in *. unfold BUFFER_LENGTH in *.
    rewrite (proj2 (Z.leb_le 0 p)), (proj2 (Z.ltb_lt p 40960)) by lia. cbn [andb].
    pose proof (next_level_ok o l Ho Hl) as Hl'. rewrite (s16_level _ Hl').
    assert (u32 (n - CYCLES_PER_SEC_DIV_50) = n - CYCLES_PER_SEC_DIV_50) as ->.
    { change CYCLES_PER_SEC_DIV_50 with 320000 in *. unfold dword in *. width_lia. }
    assert (u32 (p + 1) = p + 1) as -> by width_lia.
    rewrite IH; cbn [w_incr w_level w_ptr w_ring]; [|exact Hl'| |lia|lia].
    + unfold after. cbn [w_incr w_level w_ptr w_ring waves level_after store_bytes]. f_equal. f_equal; lia.
    + change CYCLES_PER_SEC_DIV_50 with 320000 in *. unfold dword in *. lia.
  - rewrite due_none by (done || apply Hn). cbn [Nat.min]. unfold after. cbn. f_equal. f_equal; lia.
Qed.
Lemma drop_samples_ok o len w :
  dword (w_incr w) →
  let j := Nat.min len (due (w_incr w)) in drop_samples len w = after o j w 0.
Proof.
  revert w. induction len as [|len IH]; intros [n l p r] Hn; cbn [w_incr] in *.
  { unfold after. cbn. f_equal; lia. }
  cbn [drop_samples w_incr w_level w_ptr w_ring]. destruct (CYCLES_PER_SEC_DIV_50 <? n) eqn:E.
  - rewrite (due_some n E). cbn [Nat.min].
    assert (u32 (n - CYCLES_PER_SEC_DIV_50) = n - CYCLES_PER_SEC_DIV_50) as ->.
    { change CYCLES_PER_SEC_DIV_50 with 320000 in *. unfold dword in *. width_lia. }
    rewrite IH; cbn [w_incr].
    + unfold after. cbn [w_incr w_level w_ptr w_ring waves level_after store_bytes]. f_equal; lia.
    + change CYCLES_PER_SEC_DIV_50 with 320000 in *. unfold dword in *. lia.
  - rewrite due_none by (done || apply Hn). cbn [Nat.min]. unfold after. cbn. f_equal; lia.
Qed.

(** ** The queue: from [sample_start] to [sample_end], round the end of the ring *)
Definition queue (start ptr : Z) (ring : gmap Z Z) : list Z :=
  if start <=? ptr then chars_from ring start (Z.to_nat (ptr - start))
  else chars_from ring start (Z.to_nat (BUFFER_LENGTH - start)) ++ chars_from ring 0 (Z.to_nat ptr).
Definition used (start ptr : Z) : Z := if start <=? ptr then ptr - start else BUFFER_LENGTH - start + ptr.
Definition index (i : Z) : Prop := 0 <= i < BUFFER_LENGTH.

Lemma chars_from_grow ring b n l :
  chars_from (store_bytes (b + Z.of_nat n) l ring) b (n + length l) = chars_from ring b n ++ l.
Proof.
  rewrite chars_from_app. f_equal.
  - apply chars_from_ext. intros i Hi. rewrite store_bytes_out by lia. done.
  - rewrite chars_from_store. done.
Qed.
Lemma chars_from_other ring a l b n :
  a + Z.of_nat (length l) <= b ∨ b + Z.of_nat n <= a →
  chars_from (store_bytes a l ring) b n = chars_from ring b n.
Proof. intros H. apply chars_from_ext. intros i Hi. rewrite store_bytes_out by lia. done. Qed.

Definition wrap (p : Z) : Z := if p =? BUFFER_LENGTH then 0 else p.
(** Samples that fit behind [ptr] make the queue longer. *)
Lemma queue_grows start ptr ring l :
  index start → index ptr → Z.of_nat (length l) <= (if ptr <? start then start - ptr - 1 else BUFFER_LENGTH - ptr) →
  used start ptr + Z.of_nat (length l) < BUFFER_LENGTH →
  let ptr' := wrap (ptr + Z.of_nat (length l)) in
  queue start ptr' (store_bytes ptr l ring) = queue start ptr ring ++ l ∧
  used start ptr' = used start ptr + Z.of_nat (length l) ∧ index ptr'.
Proof.
  unfold index, used, queue, wrap. intros Hs Hp Hl Hu. cbv zeta.
  set (n := Z.of_nat (length l)) in *. unfold BUFFER_LENGTH in *.
  destruct (Z.leb_spec start ptr) as [H1|H1]; destruct (Z.ltb_spec ptr start) as [H2|H2]; try lia.
  - destruct (Z.eqb_spec (ptr + n) 40960) as [E|E].
    + rewrite (proj2 (Z.leb_gt start 0)) by lia. split; [|lia].
      replace (Z.to_nat (40960 - start)) with (Z.to_nat (ptr - start) + length l)%nat by lia.
      replace ptr with (start + Z.of_nat (Z.to_nat (ptr - start))) at 1 by lia.
      rewrite chars_from_grow. apply app_nil_r.
    + rewrite (proj2 (Z.leb_le start (ptr + n))) by lia. split; [|lia].
      replace (Z.to_nat (ptr + n - start)) with (Z.to_nat (ptr - start) + length l)%nat by lia.
      replace ptr with (start + Z.of_nat (Z.to_nat (ptr - start))) at 1 by lia.
      apply chars_from_grow.
  - destruct (Z.eqb_spec (ptr + n) 40960) as [E|E]; [lia|].
    rewrite (proj2 (Z.leb_gt start (ptr + n))) by lia. split; [|lia].
    rewrite <- app_assoc. f_equal.
    + apply chars_from_other. lia.
    + replace (Z.to_nat (ptr + n)) with (Z.to_nat ptr + length l)%nat by lia.
      replace ptr with (0 + Z.of_nat (Z.to_nat ptr)) at 1 by lia. apply chars_from_grow.
Qed.

(** ** The producer *)
Section Producer.
Context (start o : Z).
Hypothesis Hstart : index start.
Hypothesis Ho : output_ok o.
Definition wave_ok (w : wave) : Prop :=
  level_ok (w_level w) ∧ dword (w_incr w) ∧ index (w_ptr w) ∧
  used start (w_ptr w) + Z.of_nat (due (w_incr w)) < BUFFER_LENGTH.
(** [j] samples have been taken off [incr] and [k] of them put into the ring. *)
Record produced (w w' : wave) (j k : nat) : Prop := {
  pr_incr : w_incr w' = w_incr w - CYCLES_PER_SEC_DIV_50 * Z.of_nat j;
  pr_queue : queue start (w_ptr w') (w_ring w') =
             queue start (w_ptr w) (w_ring w) ++ waves o (w_level w) k;
  pr_level : w_level w' = level_after o (w_level w) k;
  pr_used : used start (w_ptr w') = used start (w_ptr w) + Z.of_nat k;
  pr_ptr : index (w_ptr w');
  pr_count : (k <= j)%nat;
  pr_audible : (∀ i, (i < j)%nat → is_sound_silent o (level_after o (w_level w) i) = true) → k = j;
  pr_stopped : (k < j)%nat → is_sound_silent o (level_after o (w_level w) k) = false;
  pr_quiet : is_sound_silent o (w_level w) = false → k = 0%nat }.
Lemma due_sub n j : dword n → (j <= due n)%nat →
  dword (n - CYCLES_PER_SEC_DIV_50 * Z.of_nat j) ∧
  due (n - CYCLES_PER_SEC_DIV_50 * Z.of_nat j) = (due n - j)%nat.
Proof.
  unfold due, dword. change CYCLES_PER_SEC_DIV_50 with 320000. intros Hn Hj.
  replace (n - 320000 * Z.of_nat j - 1) with (n - 1 + (- Z.of_nat j) * 320000) by lia.
  rewrite Z.div_add by lia. destruct (decide (n = 0)) as [->|].
  { change ((0 - 1) / 320000) with (-1) in *. assert (j = 0%nat) as -> by lia. lia. }
  assert (0 <= (n - 1) / 320000) by (Z.div_mod_to_equations; lia).
  split; [|lia]. assert (320000 * ((n - 1) / 320000) <= n - 1) by (Z.div_mod_to_equations; lia). lia.
Qed.
Lemma turn_produces w :
  wave_ok w → (0 < due (w_incr w))%nat →
  ∃ w' j k, sound_turn start start o w = Some w' ∧ produced w w' j k ∧ (0 < j <= due (w_incr w))%nat ∧ wave_ok w'.
Proof.
  intros (Hl & Hn & Hp & Hu) Hd. unfold sound_turn. set (len := room start start (w_ptr w)).
  assert (len = if w_ptr w <? start then start - w_ptr w - 1 else BUFFER_LENGTH - w_ptr w) as Elen.
  { unfold len, room. unfold index, BUFFER_LENGTH in *.
    destruct (Z.ltb_spec (w_ptr w) start); rewrite u32_id by (unfold dword; lia); done. }
  assert (0 < len ∧ w_ptr w + len <= BUFFER_LENGTH) as [Hlen Htop].
  { rewrite Elen. unfold used, index, BUFFER_LENGTH in *. destruct (Z.ltb_spec (w_ptr w) start); [|lia].
    rewrite (proj2 (Z.leb_gt start (w_ptr w))) in Hu by lia. lia. }
  clearbody len. destruct (Z.eqb_spec len 0); [lia|]. cbn [w_incr w_level w_ptr w_ring].
  replace (Wave (w_incr w) (w_level w) (w_ptr w) (w_ring w)) with w by (destruct w; done).
  set (j := Nat.min (Z.to_nat len) (due (w_incr w))).
  assert (0 < j <= due (w_incr w))%nat as Hj by lia.
  destruct (due_sub (w_incr w) j Hn ltac:(lia)) as [Hn' Hd'].
  destruct (is_sound_silent o (w_level w)) eqn:Ea.
  - rewrite put_samples_ok by (assumption || apply Hp || (fold j; lia)). fold j. cbn [mbind option_bind].
    destruct (queue_grows start (w_ptr w) (w_ring w) (waves o (w_level w) j) Hstart Hp) as (Eq & Eu & Ep);
      [rewrite length_waves, <- Elen; lia|rewrite length_waves; lia|].
    cbv zeta in Eq, Eu, Ep. rewrite (length_waves o (w_level w) j) in Eq, Eu, Ep.
    eexists _, j, j. split; [reflexivity|]. unfold after in *. cbn [w_incr w_level w_ptr w_ring] in *.
    split; [constructor; cbn [w_incr w_level w_ptr w_ring]; try done; exact Eq || exact Eu || exact Ep || lia || congruence|].
    split; [exact Hj|]. unfold wave_ok. cbn [w_incr w_level w_ptr w_ring].
    split; [apply (level_after_ok o); assumption|]. split; [exact Hn'|]. split; [exact Ep|].
    fold (wrap (w_ptr w + Z.of_nat j)). rewrite Eu, Hd'. lia.
  - rewrite (drop_samples_ok o) by assumption. fold j. cbn [mbind option_bind].
    eexists _, j, 0%nat. split; [reflexivity|]. unfold after. cbn [w_incr w_level w_ptr w_ring waves level_after store_bytes].
    rewrite Z.add_0_r. destruct (Z.eqb_spec (w_ptr w) BUFFER_LENGTH) as [E|_]; [unfold index in Hp; lia|].
    split; [constructor; cbn [w_incr w_level w_ptr w_ring waves level_after]; try done; try lia|].
    + rewrite app_nil_r. done.
    + intros H. specialize (H 0%nat ltac:(lia)). cbn in H. congruence.
    + split; [exact Hj|]. unfold wave_ok. cbn [w_incr w_level w_ptr w_ring].
      split; [exact Hl|]. split; [exact Hn'|]. split; [exact Hp|]. rewrite Hd'. lia.
Qed.

Lemma produced_trans w w1 w2 j1 k1 j2 k2 :
  produced w w1 j1 k1 → produced w1 w2 j2 k2 → produced w w2 (j1 + j2) (k1 + k2).
Proof.
  intros [Ei Eq El Eu Ep Ec Ea Es Ez] [Fi Fq Fl Fu Fp Fc Fa Fs Fz].
  assert (is_sound_silent o (level_after o (w_level w) k1) = false → k2 = 0%nat) as Hz by (rewrite <- El; exact Fz).
  constructor; try assumption; try lia.
  - rewrite Fq, Eq, El, waves_app, app_assoc. done.
  - rewrite Fl, El, level_after_app. done.
  - intros H. assert (k1 = j1) as -> by (apply Ea; intros i Hi; apply H; lia). f_equal. apply Fa.
    intros i Hi. rewrite El, <- level_after_app. apply H. lia.
  - intros H. destruct (decide (k1 < j1)%nat) as [H1|].
    + rewrite (Hz (Es H1)), Nat.add_0_r. exact (Es H1).
    + rewrite level_after_app, <- El. apply Fs. lia.
  - intros H. pose proof (Ez H) as ->. rewrite (Hz H). done.
Qed.
Lemma loop_produces reads n : ∀ fuel w,
  (∀ i, reads i = (start, start)) → wave_ok w → (due (w_incr w) <= n)%nat → (n <= fuel)%nat →
  ∃ w' k, sound_loop fuel reads o w = Some w' ∧ produced w w' (due (w_incr w)) k ∧ level_ok (w_level w').
Proof.
  induction n as [|n IH]; intros fuel w Hr Hw Hd Hf.
  - pose proof Hw as (Hl & Hn & Hp & _). assert ((CYCLES_PER_SEC_DIV_50 <? w_incr w) = false) as E.
    { destruct (_ <? _) eqn:E; [|done]. apply due_some in E. lia. }
    exists w, 0%nat. assert (due (w_incr w) = 0%nat) as -> by lia.
    split; [destruct fuel; cbn [sound_loop]; rewrite E; done|]. split; [|exact Hl].
    constructor; try done; try (cbn; lia). rewrite app_nil_r. done.
  - destruct (CYCLES_PER_SEC_DIV_50 <? w_incr w) eqn:E.
    + pose proof (due_some _ E) as Es. destruct (turn_produces w Hw ltac:(lia)) as (w1 & j & k & Et & Hp & Hj & Hw1).
      destruct fuel as [|fuel]; [lia|].
      destruct (due_sub (w_incr w) j) as [_ Hd1]; [apply Hw|lia|]. rewrite <- (pr_incr _ _ _ _ Hp) in Hd1.
      destruct (IH fuel w1 Hr Hw1 ltac:(lia) ltac:(lia)) as (w2 & k2 & E2 & Hp2 & Hl2).
      exists w2, (k + k2)%nat. split; [|split; [|exact Hl2]].
      * cbn [sound_loop]. rewrite E, Hr. cbn [fst snd]. rewrite Et. exact E2.
      * replace (due (w_incr w)) with (j + due (w_incr w1))%nat by lia. exact (produced_trans _ _ _ _ _ _ _ Hp Hp2).
    + apply (IH fuel); try assumption; [|lia]. destruct Hw as (_ & Hn & _).
      rewrite due_none; [lia|apply Hn|exact E].
Qed.
End Producer.

(** ** The two sides *)
Record sdl_ok (s : sdl) : Prop := {
  ok_start : index (sample_start s); ok_end : index (sample_end s);
  ok_level : level_ok (sample_level s); ok_incr : dword (incr s) }.
Definition contents (s : sdl) : list Z := queue (sample_start s) (sample_end s) (sample_buffer s).
Definition length_of_queue (s : sdl) : Z := used (sample_start s) (sample_end s).
Lemma length_contents d : sdl_ok d → Z.of_nat (length (contents d)) = length_of_queue d.
Proof.
  intros [Hs He _ _]. unfold contents, length_of_queue, queue, used, index in *.
  destruct (Z.leb_spec (sample_start d) (sample_end d)); rewrite ?length_app, !length_chars_from; lia.
Qed.
Lemma output_of_ok bit : output_ok (output_of bit).
Proof. unfold output_of, output_ok. destruct (bit =? 0); auto. Qed.
Lemma due_below n : 0 <= n < CYCLES_PER_SEC_DIV_50 → due n = 0%nat.
Proof. intros. apply due_none; [lia|]. apply Z.ltb_ge. lia. Qed.
Lemma due_fuel n : dword n → (due n <= SOUND_FUEL)%nat.
Proof.
  unfold due, SOUND_FUEL, dword. change CYCLES_PER_SEC_DIV_50 with 320000. intros.
  assert ((n - 1) / 320000 <= 13422) by (Z.div_mod_to_equations; lia). lia.
Qed.

Lemma sound_update_run s bit new_incr :
  let total := incr s + new_incr * 960 in
  let o := output_of bit in
  sdl_ok s → 0 <= new_incr → total < 4294967296 →
  length_of_queue s + Z.of_nat (due total) < BUFFER_LENGTH →
  ∃ s' k, sound_update (undisturbed s) bit new_incr s = Some s' ∧ sdl_ok s' ∧
    contents s' = contents s ++ waves o (sample_level s) k ∧ (k <= due total)%nat ∧
    ((∀ i, (i < due total)%nat → is_sound_silent o (level_after o (sample_level s) i) = true) →
      k = due total) ∧
    sample_level s' = level_after o (sample_level s) k ∧
    incr s' = total - CYCLES_PER_SEC_DIV_50 * Z.of_nat (due total) ∧
    ((k < due total)%nat → is_sound_silent o (level_after o (sample_level s) k) = false).
Proof.
  intros total o [Hs He Hl Hi] Hn Ht Hroom. unfold sound_update.
  change (SAMPLE_RATE / 50) with 960. fold total.
  assert (dword total) as Hd by (unfold dword in *; lia). rewrite (u32_id total Hd).
  destruct (Z.ltb_spec total CYCLES_PER_SEC_DIV_50) as [Hlt|Hge].
  - rewrite (due_below total) by (unfold dword in Hd; lia).
    eexists _, 0%nat. split; [reflexivity|]. split; [constructor; assumption|].
    unfold contents. cbn [sample_start sample_end sample_buffer sample_level incr waves level_after].
    rewrite app_nil_r. split_and!; done || lia.
  - fold o. destruct (loop_produces (sample_start s) o Hs (output_of_ok bit) (undisturbed s) (due total) SOUND_FUEL
      (Wave total (sample_level s) (sample_end s) (sample_buffer s))) as (w & k & -> & [Ei Eq El Eu Ep Ec Ea Es _] & Hl');
      [done|split_and!; assumption || apply Hl || apply He || apply Hd|done|apply due_fuel, Hd|].
    cbn [mbind option_bind w_incr w_level w_ptr w_ring] in *.
    destruct (due_sub total (due total) Hd ltac:(lia)) as [Hd' _].
    eexists _, k. split; [reflexivity|]. rewrite (s16_level _ Hl').
    split; [constructor; cbn; try assumption; rewrite Ei; exact Hd'|].
    unfold contents. cbn [sample_start sample_end sample_buffer sample_level incr]. split_and!; assumption.
Qed.

(** The sound is exact. When the 8-bit timer reports a level of the output and the
    cycles it lasted, SDL's thread does not run in between and the ring has room for
    the samples, [sound_update] returns; 48000 samples are taken off the cycles of a
    second, and what is left over is kept for the next call; the samples appended to
    the queue continue the wave of the samples before - all of them as long as there is
    anything to hear, and never more; the samples that SDL has not taken yet stay as
    they are; and the level never exceeds 4096, so that every sample fits its 16
    bits. *)
Theorem sound_update_exact s bit new_incr :
  let total := incr s + new_incr * 960 in
  let o := output_of bit in
  sdl_ok s → 0 <= new_incr → total < 4294967296 →
  length_of_queue s + Z.of_nat (due total) < BUFFER_LENGTH →
  ∃ s' k, sound_update (undisturbed s) bit new_incr s = Some s' ∧ sdl_ok s' ∧
    contents s' = contents s ++ waves o (sample_level s) k ∧ (k <= due total)%nat ∧
    ((∀ i, (i < due total)%nat → is_sound_silent o (level_after o (sample_level s) i) = true) →
      k = due total) ∧
    sample_level s' = level_after o (sample_level s) k ∧
    incr s' = total - CYCLES_PER_SEC_DIV_50 * Z.of_nat (due total).
Proof.
  intros total o Hs Hn Ht Hroom. destruct (sound_update_run s bit new_incr Hs Hn Ht Hroom) as (s' & k & H).
  exists s', k. split_and!; apply H.
Qed.

(** What SDL takes leaves the queue at its front; when it is empty, nothing does. *)
Lemma drop_chars_from ring b n k : (k <= n)%nat →
  drop k (chars_from ring b n) = chars_from ring (b + Z.of_nat k) (n - k).
Proof.
  intros H. replace n with (k + (n - k))%nat at 1 by lia. rewrite chars_from_app.
  rewrite drop_app_length'; [done|]. symmetry. apply length_chars_from.
Qed.
Lemma contents_forward start stop ring : index start → index stop → start <= stop →
  queue start stop ring = chars_from ring start (Z.to_nat (stop - start)).
Proof. intros. unfold queue. rewrite (proj2 (Z.leb_le start stop)) by lia. done. Qed.
Lemma take_forward start stop ring n :
  index start → index stop → start <= stop → 0 <= n →
  queue (start + Z.min (stop - start) n) stop ring = drop (Z.to_nat n) (queue start stop ring).
Proof.
  unfold index. intros Hs He Hle Hn. rewrite !contents_forward by (unfold index; lia).
  destruct (Z.min_spec (stop - start) n) as [[H ->]|[H ->]].
  - rewrite drop_ge by (rewrite length_chars_from; lia).
    replace (Z.to_nat (stop - (start + (stop - start)))) with 0%nat by lia. done.
  - rewrite drop_chars_from by lia. f_equal; lia.
Qed.
Lemma take_wrapped start stop ring n :
  index start → index stop → stop < start → 0 <= n →
  let size := Z.min (BUFFER_LENGTH - start) n in
  index ((start + size) mod BUFFER_LENGTH) ∧ (0 < n - size → (start + size) mod BUFFER_LENGTH = 0) ∧
  queue ((start + size) mod BUFFER_LENGTH) stop ring = drop (Z.to_nat size) (queue start stop ring).
Proof.
  intros Hs He Hlt Hn size. unfold index, BUFFER_LENGTH in *.
  split; [apply Z.mod_pos_bound; lia|]. unfold queue at 2. rewrite (proj2 (Z.leb_gt start stop)) by lia.
  unfold BUFFER_LENGTH. subst size. destruct (Z.min_spec (40960 - start) n) as [[H ->]|[H ->]].
  - replace (start + (40960 - start)) with 40960 by lia. rewrite Z.mod_same by lia. split; [done|].
    rewrite contents_forward by (unfold index, BUFFER_LENGTH; lia). rewrite drop_app_length' by (rewrite length_chars_from; lia).
    f_equal. lia.
  - destruct (Z.eq_dec n (40960 - start)) as [->|].
    { replace (start + (40960 - start)) with 40960 by lia. rewrite Z.mod_same by lia. split; [done|].
      rewrite contents_forward by (unfold index, BUFFER_LENGTH; lia). rewrite drop_app_length' by (rewrite length_chars_from; lia).
      f_equal. lia. }
    rewrite Z.mod_small by lia. split; [lia|]. unfold queue. rewrite (proj2 (Z.leb_gt _ stop)) by lia.
    rewrite drop_app_le by (rewrite length_chars_from; lia). rewrite drop_chars_from by lia.
    unfold BUFFER_LENGTH. f_equal. f_equal; lia.
Qed.
Lemma queue_start_stop p ring : index p → queue p p ring = [].
Proof. intros H. rewrite contents_forward by (done || lia). rewrite Z.sub_diag. done. Qed.
(** The second half of [sound_send_samples]: up to [sample_end], without a wrap. *)
Definition taken_to (stop start n : Z) : Z :=
  if (0 <? n) && (0 <? u32 (stop - start)) then u32 (start + Z.min (u32 (stop - start)) n) else start.
Lemma taken_to_ok start stop ring n :
  index start → index stop → 0 <= n → start <= stop ∨ n = 0 →
  index (taken_to stop start n) ∧ queue (taken_to stop start n) stop ring = drop (Z.to_nat n) (queue start stop ring).
Proof.
  intros Hs He Hn Hle. unfold taken_to. destruct (Z.ltb_spec 0 n) as [Hn0|Hn0]; cbn [andb].
  - assert (start <= stop) as Hss by lia. pose proof Hs as Hs'. pose proof He as He'. unfold index, BUFFER_LENGTH in Hs', He'.
    rewrite (u32_id (stop - start)) by (unfold dword; lia).
    destruct (Z.ltb_spec 0 (stop - start)).
    + rewrite u32_id by (unfold dword; lia). split; [unfold index, BUFFER_LENGTH; lia|].
      apply take_forward; assumption.
    + assert (start = stop) as -> by lia. split; [exact Hs|]. rewrite queue_start_stop by exact Hs.
      rewrite drop_nil. done.
  - assert (n = 0) as -> by lia. done.
Qed.
Theorem sound_send_takes data s :
  sdl_ok s → let s' := (sound_send_samples data s).2 in
  sdl_ok s' ∧ contents s' = drop (length data / 2) (contents s) ∧ sample_end s' = sample_end s.
Proof.
  intros [Hs He Hl Hi]. unfold sound_send_samples, contents. cbv zeta.
  set (n := Z.of_nat (length data) / 2).
  assert (Z.to_nat n = length data / 2)%nat as <- by (unfold n; change 2 with (Z.of_nat 2); rewrite <- Nat2Z.inj_div; lia).
  assert (0 <= n) as Hn by (unfold n; apply Z.div_pos; lia). clearbody n.
  destruct s as [ring start stop level inc sil].
  cbn [sample_buffer sample_start sample_end sample_level incr sdl_silence_level] in *.
  assert (u32 (BUFFER_LENGTH - start) = BUFFER_LENGTH - start) as Eu.
  { unfold index, BUFFER_LENGTH in *. apply u32_id. unfold dword. lia. }
  destruct (Z.ltb_spec stop start) as [Hw|Hw].
  - rewrite Eu. destruct (take_wrapped start stop ring n Hs He Hw Hn) as (Hi1 & H0 & Hq).
    set (size := Z.min (BUFFER_LENGTH - start) n) in *. set (start1 := (start + size) mod BUFFER_LENGTH) in *.
    assert (0 <= n - size ∧ 0 <= size) as [H1 H2] by (unfold size, index, BUFFER_LENGTH in *; lia).
    destruct (taken_to_ok start1 stop ring (n - size) Hi1 He H1) as [Hi2 Hq2].
    { destruct (Z.eq_dec (n - size) 0); [right; done|left]. rewrite H0 by lia. apply He. }
    rewrite Hq, drop_drop in Hq2. replace (Z.to_nat size + Z.to_nat (n - size))%nat with (Z.to_nat n) in Hq2 by lia.
    unfold taken_to in *. destruct (_ && _); cbn [snd sample_buffer sample_start sample_end sample_level incr];
      (split; [constructor; assumption|split; [exact Hq2|done]]).
  - destruct (taken_to_ok start stop ring n Hs He Hn ltac:(lia)) as [Hi2 Hq2].
    unfold taken_to in *. destruct (_ && _); cbn [snd sample_buffer sample_start sample_end sample_level incr];
      (split; [constructor; assumption|split; [exact Hq2|done]]).
Qed.

(** ** Witness: one second of a 1 kHz tone starts with half a millisecond of its high level *)
Definition quiet : sdl := Sdl ∅ 100 100 0 0 0.
Lemma quiet_ok : sdl_ok quiet.
Proof. constructor; unfold index, level_ok, dword, BUFFER_LENGTH; cbn; lia. Qed.
Lemma sound_update_exact_witness :
  ∃ s', sound_update (undisturbed quiet) 1 8000 quiet = Some s' ∧
    take 4 (contents s') = [192; 375; 549; 715] ∧ length (contents s') = 23%nat ∧ incr s' = 320000.
Proof.
  destruct (sound_update_exact quiet 1 8000 quiet_ok ltac:(lia) ltac:(cbn; lia) ltac:(vm_compute; done))
    as (s' & k & E & _ & Ec & _ & Ek & _ & Ei).
  exists s'. split; [exact E|]. rewrite Ec, Ei, Ek; [vm_compute; auto|].
  intros i Hi. change (due _) with 23%nat in Hi.
  do 23 (destruct i as [|i]; [vm_compute; reflexivity|]). lia.
Defined.

(** ** What goes wrong

    [memcpy] gets the number of samples for the number of bytes: of four samples that
    are taken, two reach SDL, and the rest of its buffer is as it was. *)
Definition four_samples : sdl := Sdl (store_bytes 0 [1; 2; 3; 4] ∅) 0 4 0 0 0.
Lemma send_copies_half :
  sound_send_samples (replicate 8 255) four_samples =
  ([1; 0; 2; 0; 255; 255; 255; 255], Sdl (sample_buffer four_samples) 4 4 0 0 0).
Proof. vm_compute. reflexivity. Qed.
Lemma put_beyond o len w :
  dword (w_incr w) → 0 <= w_ptr w <= BUFFER_LENGTH → BUFFER_LENGTH - w_ptr w < Z.of_nat len →
  BUFFER_LENGTH - w_ptr w < Z.of_nat (due (w_incr w)) → put_samples len o w = None.
Proof.
  revert w. induction len as [|len IH]; intros [n l p r] Hn Hp Hl Hd; cbn [w_incr w_level w_ptr w_ring] in *; [lia|].
  cbn [put_samples w_incr w_level w_ptr w_ring]. destruct (CYCLES_PER_SEC_DIV_50 <? n) eqn:E.
  - rewrite (proj2 (Z.leb_le 0 p)) by lia. destruct (Z.ltb_spec p BUFFER_LENGTH); [|done]. cbn [andb].
    rewrite (due_some n E) in Hd. change CYCLES_PER_SEC_DIV_50 with 320000 in *. unfold dword, BUFFER_LENGTH in *.
    assert (u32 (n - 320000) = n - 320000) as -> by width_lia.
    assert (u32 (p + 1) = p + 1) as -> by width_lia. apply IH; cbn [w_incr w_ptr]; lia.
  - rewrite due_none in Hd by (done || apply Hn). lia.
Qed.
(** When SDL's thread goes from the end of the ring to its start between the two reads
    of [sample_start], the room comes out as almost 2^32, and samples are stored behind
    the ring. *)
Lemma race_leaves_ring n ring :
  dword n → (6 <= due n)%nat → sound_turn 40958 0 AMPLITUDE (Wave n 0 40955 ring) = None.
Proof.
  intros Hn Hd. unfold sound_turn. cbn [w_ptr]. change (room 40958 0 40955) with 4294926340. cbv zeta.
  cbn [w_incr w_level w_ptr w_ring Z.eqb]. change (is_sound_silent AMPLITUDE 0) with true. cbv iota.
  rewrite put_beyond; [done|exact Hn|..]; cbn [w_incr w_level w_ptr w_ring]; unfold BUFFER_LENGTH; lia.
Qed.
(** With [sample_start] at 0 the samples fill the ring up to its end, where the full
    ring is taken for an empty one. *)
Definition filled (s : option sdl) : bool :=
  match s with Some s => (length (contents s) =? 0)%nat | None => false end.
Lemma full_is_empty :
  length (contents (Sdl ∅ 0 40950 0 0 0)) = Z.to_nat 40950 ∧
  filled (sound_update (undisturbed (Sdl ∅ 0 40950 0 0 0)) 1 3334 (Sdl ∅ 0 40950 0 0 0)) = true.
Proof. split; [apply length_chars_from|vm_compute; reflexivity]. Qed.
