(* ===== verification/SoundThreads.v ===== *)
(** * SoundThreads: the two threads of the sound

    SDL's thread may call [sound_send_samples] at any time while [sound_update] runs.
    Of what SDL changes [sound_update] reads [sample_start] only, once or twice in every
    turn of its loop; of what [sound_update] changes SDL reads the samples up to the old
    [sample_end].  A schedule says which calls come before each of these reads. *)
From S2P Require Export SoundProps.

Definition with_ring (ring : gmap Z Z) (s : sdl) : sdl :=
  Sdl ring (sample_start s) (sample_end s) (sample_level s) (incr s) (sdl_silence_level s).
(** Calls of SDL one after the other: what is in the buffers afterwards. *)
Fixpoint sdl_calls (bufs : list (list Z)) (s : sdl) : list (list Z) * sdl :=
  match bufs with
  | [] => ([], s)
  | buf :: bufs =>
      let '(data, s) := sound_send_samples buf s in
      let '(datas, s) := sdl_calls bufs s in (data :: datas, s)
  end.
(** For each turn, the calls before its first and those before its second read. *)
Definition schedule : Type := list (list (list Z) * list (list Z)).
Definition all_calls (sched : schedule) : list (list Z) := concat ((λ c, c.1 ++ c.2) <$> sched).
(** The loop of [sound_update] with the calls of SDL; those that the loop does not wait for
    come before [sample_end] is written. *)
Fixpoint threads_loop (fuel : nat) (sched : schedule) (output : Z) (w : wave) (s : sdl)
  : option (list (list Z) * wave * sdl) :=
  if CYCLES_PER_SEC_DIV_50 <? w_incr w then
    match fuel with
    | O => None
    | S fuel =>
        let '(before, between) := default ([], []) (head sched) in
        let s := with_ring (w_ring w) s in
        let '(d1, s) := sdl_calls before s in
        let start := sample_start s in
        let '(d2, s) := sdl_calls between s in
        w ← sound_turn start (sample_start s) output w;
        r ← threads_loop fuel (tail sched) output w s;
        Some (d1 ++ d2 ++ r.1.1, r.1.2, r.2)
    end
  else
    let '(d, s) := sdl_calls (all_calls sched) (with_ring (w_ring w) s) in Some (d, w, s).
Definition sound_update_threads (sched : schedule) (bit new_incr : Z) (s : sdl) : option (list (list Z) * sdl) :=
  let n := u32 (incr s + new_incr * (SAMPLE_RATE / 50)) in
  if n <? CYCLES_PER_SEC_DIV_50 then
    let '(d, s) := sdl_calls (all_calls sched) s in
    Some (d, Sdl (sample_buffer s) (sample_start s) (sample_end s) (sample_level s) n (sdl_silence_level s))
  else
    r ← threads_loop SOUND_FUEL sched (output_of bit) (Wave n (sample_level s) (sample_end s) (sample_buffer s)) s;
    let '(d, w, s) := r in
    Some (d, Sdl (w_ring w) (sample_start s) (w_ptr w) (s16 (w_level w)) (w_incr w) (sdl_silence_level s)).

(** ** What SDL's thread can reach

    [base] samples have been published since [start]; SDL is somewhere among them. *)
Definition tracks (start base : Z) (a : Z) : Prop := index a ∧ used start a <= base.
Definition read_ok (start base : Z) (r : Z * Z) : Prop :=
  tracks start base r.1 ∧ tracks start base r.2 ∧ used start r.1 <= used start r.2.

Section Reads.
Context (start o base : Z).
Hypothesis Hstart : index start.
Hypothesis Ho : output_ok o.
Lemma room_reads a b p : read_ok start base (a, b) → index p → base <= used start p →
  used start p < BUFFER_LENGTH - 1 →
  0 < room a b p ∧ 0 < room start start p ∧
  (room a b p = room start start p ∧ p + room a b p <= BUFFER_LENGTH ∨
   BUFFER_LENGTH - 1 - used start p <= room a b p ∧ BUFFER_LENGTH - 1 - used start p <= room start start p ∧
   p + (BUFFER_LENGTH - 1 - used start p) <= BUFFER_LENGTH).
Proof.
  unfold read_ok, tracks, index, used, room, BUFFER_LENGTH in *. cbn [fst snd]. intros (Ha & Hb & Hab) Hp Hbase Hu.
  destruct (Z.leb_spec start p); destruct (Z.ltb_spec p start); try lia;
    destruct (Z.leb_spec start a); destruct (Z.leb_spec start b); destruct (Z.ltb_spec p a); try lia; width_lia.
Qed.
(** Wherever SDL is, the turn does the same. *)
Lemma turn_reads a b w : read_ok start base (a, b) → wave_ok start w → base <= used start (w_ptr w) →
  (0 < due (w_incr w))%nat → sound_turn a b o w = sound_turn start start o w.
Proof.
  intros Hr (Hl & Hn & Hp & Hu) Hb Hd.
  destruct (room_reads a b (w_ptr w) Hr Hp Hb ltac:(lia)) as (H1 & H2 & H3).
  unfold sound_turn. set (len := room a b (w_ptr w)) in *. set (len0 := room start start (w_ptr w)) in *.
  destruct (Z.eqb_spec len 0), (Z.eqb_spec len0 0); try lia. cbn [w_incr w_level w_ptr w_ring].
  replace (Wave (w_incr w) (w_level w) (w_ptr w) (w_ring w)) with w by (destruct w; done).
  assert (Nat.min (Z.to_nat len) (due (w_incr w)) = Nat.min (Z.to_nat len0) (due (w_incr w)) ∧
    w_ptr w + Z.of_nat (Nat.min (Z.to_nat len) (due (w_incr w))) <= BUFFER_LENGTH) as [E Htop] by lia.
  destruct (is_sound_silent o (w_level w)).
  - rewrite !put_samples_ok; try assumption; try apply Hp; [rewrite E; done|rewrite <- E; exact Htop].
  - rewrite !(drop_samples_ok o), E by assumption. done.
Qed.
Lemma loop_reads reads n : ∀ fuel w,
  (∀ i, read_ok start base (reads i)) → wave_ok start w → base <= used start (w_ptr w) →
  (due (w_incr w) <= n)%nat →
  sound_loop fuel reads o w = sound_loop fuel (λ _, (start, start)) o w.
Proof.
  induction n as [|n IH]; intros fuel w Hr Hw Hb Hd.
  - pose proof Hw as (Hl & Hn & Hp & _). assert ((CYCLES_PER_SEC_DIV_50 <? w_incr w) = false) as E.
    { destruct (_ <? _) eqn:E; [|done]. apply due_some in E. lia. }
    destruct fuel; cbn [sound_loop]; rewrite E; done.
  - destruct fuel as [|fuel]; [done|]. cbn [sound_loop]. destruct (CYCLES_PER_SEC_DIV_50 <? w_incr w) eqn:E; [|done].
    pose proof (due_some _ E). cbn [fst snd].
    pose proof (Hr fuel) as Hf. destruct (reads fuel) as [a b]. cbn [fst snd]. rewrite turn_reads by (assumption || lia).
    destruct (turn_produces start o Hstart Ho w Hw ltac:(lia)) as (w1 & j & k & Et & Hp & Hj & Hw1).
    rewrite Et. cbn [mbind option_bind]. destruct (due_sub (w_incr w) j) as [_ Hd1]; [apply Hw|lia|].
    rewrite <- (pr_incr _ _ _ _ _ _ Hp) in Hd1. apply IH; try assumption; [|lia].
    rewrite (pr_used _ _ _ _ _ _ Hp). lia.
Qed.
End Reads.

(** ** SDL's side *)
(** The samples that have been published and not been taken. *)
Definition live (s : sdl) (i : Z) : Prop :=
  index i ∧ used (sample_start s) i < used (sample_start s) (sample_end s).
Lemma ring_bytes_ext r r' i n : (∀ j, i <= j < i + (n + 1) / 2 → get0 r j = get0 r' j) →
  ring_bytes r i n = ring_bytes r' i n.
Proof.
  intros H. unfold ring_bytes. apply list_fmap_ext. intros k x Hk. apply lookup_seq in Hk as [-> Hk].
  unfold ring_byte. rewrite H; [done|]. Z.div_mod_to_equations. lia.
Qed.
Lemma send_ring buf r r' s : index (sample_start s) → index (sample_end s) →
  (∀ i, live s i → get0 r i = get0 r' i) →
  (sound_send_samples buf (with_ring r s)).1 = (sound_send_samples buf (with_ring r' s)).1 ∧
  (sound_send_samples buf (with_ring r s)).2 = with_ring r (sound_send_samples buf (with_ring r' s)).2.
Proof.
  intros Hs He Hr. unfold sound_send_samples, with_ring.
  cbn [sample_buffer sample_start sample_end sample_level incr sdl_silence_level].
  set (n := Z.of_nat (length buf) / 2). assert (0 <= n) as Hn by (apply Z.div_pos; lia). clearbody n.
  unfold live, index, used, BUFFER_LENGTH in *. set (a := sample_start s) in *. set (e := sample_end s) in *. clearbody a e.
  destruct (Z.ltb_spec e a) as [Hw|Hw].
  - rewrite (u32_id (40960 - a)) by (unfold dword; lia). set (size := Z.min (40960 - a) n).
    assert (0 <= size <= 40960 - a ∧ size <= n ∧ (size < n → size = 40960 - a)) as (H1 & H2 & H3) by lia. clearbody size.
    assert (ring_bytes r a size = ring_bytes r' a size) as ->.
    { apply ring_bytes_ext. intros j Hj. apply Hr. destruct (Z.leb_spec a j), (Z.leb_spec a e); Z.div_mod_to_equations; lia. }
    set (a1 := (a + size) mod 40960).
    destruct (Z.ltb_spec 0 (n - size)) as [Hlt|_]; cbn [andb snd fst sample_start sample_end sample_level incr sdl_silence_level];
      [|split; reflexivity].
    assert (a1 = 0) as -> by (unfold a1; rewrite H3 by lia; replace (a + (40960 - a)) with 40960 by lia; done).
    rewrite Z.sub_0_r, (u32_id e) by (unfold dword; lia).
    destruct (Z.ltb_spec 0 e); cbn [andb snd fst sample_start sample_end sample_level incr sdl_silence_level]; [|split; reflexivity].
    assert (ring_bytes r 0 (Z.min e (n - size)) = ring_bytes r' 0 (Z.min e (n - size))) as ->; [|split; reflexivity].
    apply ring_bytes_ext. intros j Hj. apply Hr. destruct (Z.leb_spec a j), (Z.leb_spec a e); Z.div_mod_to_equations; lia.
  - rewrite (u32_id (e - a)) by (unfold dword; lia).
    destruct ((0 <? n) && (0 <? e - a)) eqn:E; cbn [andb snd fst sample_start sample_end sample_level incr sdl_silence_level];
      [|split; reflexivity].
    assert (ring_bytes r a (Z.min (e - a) n) = ring_bytes r' a (Z.min (e - a) n)) as ->; [|split; reflexivity].
    apply ring_bytes_ext. intros j Hj. apply Hr. destruct (Z.leb_spec a j), (Z.leb_spec a e); Z.div_mod_to_equations; lia.
Qed.
(** SDL goes forward, and not beyond what was published. *)
Record near (start base : Z) (s : sdl) : Prop := {
  nr_start : index (sample_start s); nr_end : index (sample_end s); nr_base : used start (sample_end s) = base;
  nr_rest : used start (sample_start s) + used (sample_start s) (sample_end s) = base }.
Lemma near_reads start base s : near start base s → tracks start base (sample_start s).
Proof. intros [Hs He _ Hr]. split; [exact Hs|]. unfold used, index, BUFFER_LENGTH in *. destruct (Z.leb_spec (sample_start s) (sample_end s)); lia. Qed.
Lemma near_live start base s i : index start → near start base s → live s i → used start i < base.
Proof.
  unfold live, used, index, BUFFER_LENGTH. intros Hi [Hs He Hb Hr] [Hx Hu]. unfold used, index, BUFFER_LENGTH in *.
  destruct (Z.leb_spec start (sample_end s)), (Z.leb_spec start (sample_start s)), (Z.leb_spec (sample_start s) (sample_end s)),
    (Z.leb_spec (sample_start s) i), (Z.leb_spec start i); lia.
Qed.
Lemma send_keep buf s : let s' := (sound_send_samples buf s).2 in
  incr s' = incr s ∧ sample_level s' = sample_level s ∧ sample_end s' = sample_end s ∧
  sample_buffer s' = sample_buffer s ∧ sdl_silence_level s' = sdl_silence_level s.
Proof. unfold sound_send_samples. cbv zeta. repeat (case_match; cbn; try done). Qed.
Lemma send_near start base buf s : sdl_ok s → near start base s → index start →
  let s' := (sound_send_samples buf s).2 in
  sdl_ok s' ∧ near start base s' ∧ used start (sample_start s) <= used start (sample_start s').
Proof.
  intros Hok Hn Hi. destruct (sound_send_takes buf s Hok) as (Hok' & Hc & He). cbv zeta in *.
  set (s' := (sound_send_samples buf s).2) in *. clearbody s'.
  assert (length_of_queue s' <= length_of_queue s) as Hle by (rewrite <- !length_contents, Hc, length_drop by assumption; lia).
  split; [exact Hok'|]. destruct Hn as [Hs1 He1 Hb Hr], Hok' as [Hs' He' _ _]. unfold length_of_queue in Hle. rewrite He in *.
  assert (used start (sample_start s) <= used start (sample_start s') ∧
    used start (sample_start s') + used (sample_start s') (sample_end s) = base) as [H1 H2].
  { unfold used, index, BUFFER_LENGTH in *.
    destruct (Z.leb_spec start (sample_end s)), (Z.leb_spec start (sample_start s)), (Z.leb_spec (sample_start s) (sample_end s)),
      (Z.leb_spec start (sample_start s')), (Z.leb_spec (sample_start s') (sample_end s)); lia. }
  split; [|exact H1]. constructor; rewrite ?He; assumption.
Qed.
Lemma calls_near start base bufs : index start → ∀ s, sdl_ok s → near start base s →
  let s' := (sdl_calls bufs s).2 in
  sdl_ok s' ∧ near start base s' ∧ used start (sample_start s) <= used start (sample_start s').
Proof.
  intros Hi. induction bufs as [|buf bufs IH]; intros s Hok Hn; cbn [sdl_calls]; [cbn; auto with lia|].
  destruct (send_near start base buf s Hok Hn Hi) as (Hok1 & Hn1 & H1). destruct (sound_send_samples buf s) as [d s1].
  destruct (IH s1 Hok1 Hn1) as (Hok2 & Hn2 & H2). destruct (sdl_calls bufs s1) as [ds s2].
  cbv zeta in *. cbn [snd] in *. split; [exact Hok2|]. split; [exact Hn2|lia].
Qed.
Lemma calls_app a b s :
  sdl_calls (a ++ b) s =
  let '(d1, s1) := sdl_calls a s in let '(d2, s2) := sdl_calls b s1 in (d1 ++ d2, s2).
Proof.
  revert s. induction a as [|buf a IH]; intros s; cbn [app sdl_calls]; [destruct (sdl_calls b s); done|].
  destruct (sound_send_samples buf s) as [d s1]. rewrite IH.
  destruct (sdl_calls a s1) as [d1 s2]. destruct (sdl_calls b s2) as [d2 s3]. done.
Qed.
(** SDL only moves [sample_start]. *)
Lemma calls_keep bufs s : let s' := (sdl_calls bufs s).2 in
  incr s' = incr s ∧ sample_level s' = sample_level s ∧ sample_end s' = sample_end s ∧
  sample_buffer s' = sample_buffer s ∧ sdl_silence_level s' = sdl_silence_level s.
Proof.
  revert s. induction bufs as [|buf bufs IH]; intros s; cbn [sdl_calls]; [done|].
  pose proof (send_keep buf s) as Hk. destruct (sound_send_samples buf s) as [d s1].
  specialize (IH s1). destruct (sdl_calls bufs s1) as [ds s2]. cbv zeta in *. cbn [snd] in *. intuition congruence.
Qed.
(** Two rings with the same published samples. *)
Definition agree (start base : Z) (r r' : gmap Z Z) : Prop :=
  ∀ i, index i → used start i < base → get0 r i = get0 r' i.
Lemma with_ring_ok r s : sdl_ok s → sdl_ok (with_ring r s).
Proof. intros [H1 H2 H3 H4]. constructor; assumption. Qed.
Lemma with_ring_near start base r s : near start base s → near start base (with_ring r s).
Proof. intros [H1 H2 H3 H4]. constructor; assumption. Qed.
Lemma with_ring_id s : with_ring (sample_buffer s) s = s.
Proof. destruct s. reflexivity. Qed.
Lemma calls_ring start base r r' bufs : index start → agree start base r r' → ∀ s, sdl_ok s → near start base s →
  (sdl_calls bufs (with_ring r s)).1 = (sdl_calls bufs (with_ring r' s)).1 ∧
  (sdl_calls bufs (with_ring r s)).2 = with_ring r (sdl_calls bufs (with_ring r' s)).2.
Proof.
  intros Hi Hr. induction bufs as [|buf bufs IH]; intros s Hok Hn; [done|]. cbn [sdl_calls].
  destruct (send_ring buf r r' s) as [E1 E2]; [apply Hn|apply Hn|intros i Hl; apply Hr; [apply Hl|exact (near_live _ _ _ _ Hi Hn Hl)]|].
  destruct (send_near start base buf (with_ring r' s) (with_ring_ok r' s Hok) (with_ring_near _ _ r' s Hn) Hi) as (Hok1 & Hn1 & _).
  destruct (send_ring buf r' r' s) as [_ E3]; [apply Hn|apply Hn|done|].
  destruct (sound_send_samples buf (with_ring r s)) as [d s1]. destruct (sound_send_samples buf (with_ring r' s)) as [d' s1'].
  cbv zeta in *. cbn [fst snd] in *. subst d s1. destruct (IH s1' Hok1 Hn1) as [F1 F2].
  rewrite <- E3 in F1, F2. destruct (sdl_calls bufs (with_ring r s1')) as [ds s2]. destruct (sdl_calls bufs s1') as [ds' s2'].
  cbn [fst snd] in *. subst. done.
Qed.
Lemma queue_lookup start ptr ring i : index start → index ptr → index i → used start i < used start ptr →
  queue start ptr ring !! Z.to_nat (used start i) = Some (get0 ring i).
Proof.
  unfold index, used, queue, BUFFER_LENGTH. intros Hs Hp Hi Hu.
  assert (∀ b (n : nat) j, 0 <= j < Z.of_nat n → chars_from ring b n !! Z.to_nat j = Some (get0 ring (b + j))) as Hc.
  { intros b n j Hj. unfold chars_from. rewrite list_lookup_fmap, lookup_seq_lt by lia. cbn. f_equal. f_equal. lia. }
  destruct (Z.leb_spec start ptr), (Z.leb_spec start i); try lia.
  - rewrite Hc by lia. f_equal. f_equal. lia.
  - rewrite lookup_app_l by (rewrite length_chars_from; lia). rewrite Hc by lia. f_equal. f_equal. lia.
  - rewrite lookup_app_r by (rewrite length_chars_from; lia). rewrite length_chars_from.
    replace (Z.to_nat (40960 - start + i) - Z.to_nat (40960 - start))%nat with (Z.to_nat i) by lia. rewrite Hc by lia. done.
Qed.
(** [sound_update] stores behind what was published. *)
Lemma produced_agrees start o w w' j k : index start → index (w_ptr w) → produced start o w w' j k →
  agree start (used start (w_ptr w)) (w_ring w') (w_ring w).
Proof.
  intros Hs Hp [_ Eq _ Eu Hp' _ _] i Hi Hu.
  pose proof (queue_lookup start (w_ptr w) (w_ring w) i Hs Hp Hi Hu) as H1.
  pose proof (queue_lookup start (w_ptr w') (w_ring w') i Hs Hp' Hi ltac:(lia)) as H2.
  rewrite Eq, lookup_app_l in H2 by (apply lookup_lt_Some in H1; exact H1). congruence.
Qed.
Lemma agree_trans start base base' r1 r2 r3 : base <= base' →
  agree start base' r1 r2 → agree start base r2 r3 → agree start base r1 r3.
Proof. intros Hle H1 H2 i Hi Hu. rewrite H1, H2 by (assumption || lia). done. Qed.

(** ** Together *)
Lemma all_calls_head sched :
  all_calls sched = (default ([], []) (head sched)).1 ++ (default ([], []) (head sched)).2 ++ all_calls (tail sched).
Proof. destruct sched as [|[a b] sched]; [done|]. unfold all_calls. cbn. rewrite <- app_assoc. done. Qed.
(** The calls of one turn do the same on a ring with the same published samples. *)
Lemma turn_calls start base r r0 before between s :
  index start → agree start base r r0 → sdl_ok s → near start base s →
  let '(d1, s1) := sdl_calls before (with_ring r s) in
  let '(d2, s2) := sdl_calls between s1 in
  read_ok start base (sample_start s1, sample_start s2) ∧ sdl_ok s2 ∧ near start base s2 ∧
  ∀ rest, sdl_calls (before ++ between ++ rest) (with_ring r0 s) =
    let '(d3, s3) := sdl_calls rest (with_ring r0 s2) in (d1 ++ d2 ++ d3, s3).
Proof.
  intros Hi Hr Hok Hn. destruct (calls_ring start base r r0 before Hi Hr s Hok Hn) as [E1 E2].
  destruct (calls_ring start base r0 r0 before Hi (λ _ _ _, eq_refl) s Hok Hn) as [_ E1'].
  destruct (calls_near start base before Hi (with_ring r0 s) (with_ring_ok r0 s Hok) (with_ring_near _ _ r0 s Hn)) as (Hok1 & Hn1 & _).
  pose proof (λ rest, calls_app before (between ++ rest) (with_ring r0 s)) as Happ.
  destruct (sdl_calls before (with_ring r s)) as [d1 s1]. destruct (sdl_calls before (with_ring r0 s)) as [d1' s1'].
  cbv zeta in *. cbn [fst snd] in *. subst d1 s1.
  destruct (calls_ring start base r r0 between Hi Hr s1' Hok1 Hn1) as [E3 E4].
  destruct (calls_ring start base r0 r0 between Hi (λ _ _ _, eq_refl) s1' Hok1 Hn1) as [_ E4']. rewrite <- E1' in E3, E4, E4'.
  destruct (calls_near start base between Hi s1' Hok1 Hn1) as (Hok2 & Hn2 & Hu2).
  destruct (sdl_calls between (with_ring r s1')) as [d2 s2]. destruct (sdl_calls between s1') as [d2' s2'] eqn:Eb.
  cbn [fst snd] in *. subst d2 s2.
  split; [exact (conj (near_reads _ _ _ Hn1) (conj (near_reads _ _ _ Hn2) Hu2))|].
  split; [exact (with_ring_ok _ _ Hok2)|]. split; [exact (with_ring_near _ _ _ _ Hn2)|]. intros rest.
  change (with_ring r0 (with_ring r s2')) with (with_ring r0 s2'). rewrite Happ, calls_app, Eb, <- E4'.
  destruct (sdl_calls rest s2') as [d3 s3]. done.
Qed.
(** The loop with SDL's calls is the loop without them, after them. *)
Lemma threads_loop_eq start o base r0 : index start → output_ok o → ∀ fuel sched w s w',
  sdl_ok s → near start base s → wave_ok start w → base <= used start (w_ptr w) → agree start base (w_ring w) r0 →
  sound_loop fuel (λ _, (start, start)) o w = Some w' →
  let r := sdl_calls (all_calls sched) (with_ring r0 s) in
  ∃ s', threads_loop fuel sched o w s = Some (r.1, w', s') ∧ with_ring r0 s' = r.2.
Proof.
  intros Hi Ho. induction fuel as [|fuel IH]; intros sched w s w' Hok Hn Hw Hb Hr E; cbn [sound_loop threads_loop] in *.
  all: destruct (CYCLES_PER_SEC_DIV_50 <? w_incr w) eqn:Ei; [|injection E as <-;
    destruct (calls_ring start base (w_ring w) r0 (all_calls sched) Hi Hr s Hok Hn) as [E1 E2];
    destruct (sdl_calls (all_calls sched) (with_ring (w_ring w) s)) as [d s1]; cbn [fst snd] in *; subst d s1;
    eexists; split; [reflexivity|]; destruct (calls_ring start base r0 r0 (all_calls sched) Hi (λ _ _ _, eq_refl) s Hok Hn) as [_ E3];
    rewrite E3; reflexivity].
  { discriminate E. }
  cbn [fst snd] in E. rewrite all_calls_head. destruct (default ([], []) (head sched)) as [before between]. cbn [fst snd].
  pose proof (turn_calls start base (w_ring w) r0 before between s Hi Hr Hok Hn) as Hcalls.
  destruct (sdl_calls before (with_ring (w_ring w) s)) as [d1 s1]. destruct (sdl_calls between s1) as [d2 s2].
  destruct Hcalls as (Hread & Hok2 & Hn2 & Hrest). rewrite Hrest. pose proof (due_some _ Ei) as Hdue.
  rewrite (turn_reads start o base Hi Ho (sample_start s1) (sample_start s2) w Hread Hw Hb) by lia.
  destruct (turn_produces start o Hi Ho w Hw ltac:(lia)) as (w1 & j & k & Et & Hp & Hj & Hw1).
  rewrite Et in *. cbn [mbind option_bind] in *. pose proof Hw as (_ & _ & Hptr & _).
  destruct (IH (tail sched) w1 s2 w' Hok2 Hn2 Hw1) as (s3 & E5 & E6); [rewrite (pr_used _ _ _ _ _ _ Hp); lia| |exact E|].
  { exact (agree_trans _ _ _ _ _ _ Hb (produced_agrees _ _ _ _ _ _ Hi Hptr Hp) Hr). }
  rewrite E5. cbn [mbind option_bind fst snd].
  destruct (sdl_calls (all_calls (tail sched)) (with_ring r0 s2)) as [d3 s4]. cbn [fst snd] in *. subst s4.
  eexists. split; [reflexivity|]. done.
Qed.

(** C16: With room in the ring, the two threads are linearizable. Let the ring have room for
    all the samples of [sound_update] when it starts, and let every call of
    [sound_send_samples] by SDL's thread run as a whole, before one of the two reads of
    [sample_start] in some turn of the loop or behind the loop - any number of calls, of any
    size. Then the update ends, and the buffers SDL gets, the ring and all variables
    afterwards are those of the same calls made one after the other before an update that
    runs alone. What such a call copies is what [sound_send_samples] copies
    ([send_copies_half] says how much that is); without the room the race is real
    ([race_leaves_ring], [full_is_empty]). *)
Theorem sound_linearizable sched bit new_incr s :
  sdl_ok s → 0 <= new_incr → incr s + new_incr * 960 < 4294967296 →
  length_of_queue s + Z.of_nat (due (incr s + new_incr * 960)) < BUFFER_LENGTH →
  let '(datas, s1) := sdl_calls (all_calls sched) s in
  ∃ s2, sound_update (undisturbed s1) bit new_incr s1 = Some s2 ∧
    sound_update_threads sched bit new_incr s = Some (datas, s2).
Proof.
  intros Hok Hn Ht Hroom. pose proof Hok as [Hs He Hl Hinc].
  assert (near (sample_start s) (length_of_queue s) s) as Hnear.
  { constructor; [exact Hs|exact He|done|]. unfold used at 1. rewrite Z.leb_refl, Z.sub_diag. done. }
  destruct (calls_near _ _ (all_calls sched) Hs s Hok Hnear) as (Hok1 & Hn1 & _). pose proof (calls_keep (all_calls sched) s) as Hk.
  destruct (sdl_calls (all_calls sched) s) as [datas s1] eqn:Ec. cbn [snd] in *. destruct Hk as (K1 & K2 & K3 & K4 & K5).
  unfold sound_update, sound_update_threads. rewrite K1, K2, K3, K4. change (SAMPLE_RATE / 50) with 960.
  set (total := incr s + new_incr * 960) in *. assert (dword total) as Hd by (unfold dword in *; lia). rewrite (u32_id total Hd).
  destruct (total <? CYCLES_PER_SEC_DIV_50).
  { rewrite Ec. eexists. split; [reflexivity|]. rewrite ?K2, ?K3, ?K4. done. }
  set (w0 := Wave total (sample_level s) (sample_end s) (sample_buffer s)). pose proof (output_of_ok bit) as Ho.
  assert (wave_ok (sample_start s) w0) as Hw by (split_and!; assumption).
  destruct (loop_produces (sample_start s) _ Hs Ho (undisturbed s) (due total) SOUND_FUEL w0) as (w & k & Ew & _ & _);
    [done|exact Hw|done|apply due_fuel, Hd|].
  rewrite (loop_reads (sample_start s) (output_of bit) (length_of_queue s) Hs Ho (undisturbed s1) (due total));
    [|intros i; split; [|split]; [exact (near_reads _ _ _ Hn1)..|apply Z.le_refl]|exact Hw|apply Z.le_refl|done].
  change (λ _, (sample_start s, sample_start s)) with (undisturbed s). rewrite Ew. cbn [mbind option_bind].
  eexists. split; [reflexivity|].
  destruct (threads_loop_eq _ _ _ (sample_buffer s) Hs Ho SOUND_FUEL sched w0 s w Hok Hnear Hw (Z.le_refl _) (λ _ _ _, eq_refl) Ew)
    as (s' & -> & E'). cbn [mbind option_bind]. rewrite with_ring_id, Ec in *. cbn [fst snd] in *.
  rewrite <- E'. destruct s'. reflexivity.
Qed.

(** ** Witness: SDL takes four, two and three samples while the update goes round the ring *)
Definition ring_busy : sdl := Sdl (store_bytes 40950 [1; 2; 3; 4; 5; 6; 7; 8] ∅) 40950 40958 0 0 0.
Definition busy_sched : schedule :=
  [([replicate 8 255], [replicate 4 255]); ([], [replicate 6 255])].
Lemma ring_busy_ok : sdl_ok ring_busy.
Proof. constructor; unfold index, level_ok, dword, BUFFER_LENGTH; cbn; lia. Qed.
Lemma sound_linearizable_witness :
  ∃ s2, sound_update_threads busy_sched 1 8000 ring_busy =
    Some ([[1; 0; 2; 0; 255; 255; 255; 255]; [5; 0; 255; 255]; [7; 0; 255; 255; 0; 0]], s2) ∧
    sample_start s2 = 40958 ∧ sample_end s2 = 21 ∧ take 4 (contents s2) = [192; 375; 549; 715].
Proof.
  pose proof (sound_linearizable busy_sched 1 8000 ring_busy ring_busy_ok ltac:(lia) ltac:(cbn; lia) ltac:(vm_compute; done)) as Hl.
  destruct (sdl_calls (all_calls busy_sched) ring_busy) as [datas s1] eqn:E. vm_compute in E. injection E as <- <-.
  destruct Hl as (s2 & Es & Et). exists s2. split; [exact Et|]. clear Et. vm_compute in Es. injection Es as <-.
  vm_compute. auto.
Defined.
