(* ===== verification/Alsa.v ===== *)
(** * Alsa: the samples written to the ALSA library ([sound_alsa.c])

    The other driver of the 8-bit timers' sound.  The library is the class [Pcm]; the
    area that it maps into memory is addressed in samples.  What is printed is left
    out. *)
From S2P Require Export Sound.

Definition SND_PCM_STATE_XRUN : Z := 4.
Definition SND_PCM_STATE_SUSPENDED : Z := 7.
Definition EAGAIN : Z := 11.
Record area := Area { a_addr : Z; a_first : Z; a_step : Z }.
(** The calls of [sound_init] that set the device up, in their order. *)
Inductive setting :=
  | HwAny | HwAccessMmapInterleaved | HwFormatS16 | HwChannels (n : Z) | HwRateNear (n : Z)
  | HwBufferTimeNear (usecs : Z) | HwGetBufferSize | HwPeriodTimeNear (usecs : Z) | HwParams
  | HwGetPeriodSize | HwGetChannels | HwGetRate | SwCurrent | SwStartThreshold (n : Z)
  | SwAvailMin (n : Z) | SwParams.
Class Pcm (H : Type) := {
  pcm_open_playback : H → Z * H;
  pcm_setting : setting → H → Z * H;
  (** The sizes that [HwGetBufferSize] and [HwGetPeriodSize] give. *)
  pcm_buffer_size : H → Z;
  pcm_period_size : H → Z;
  pcm_state : H → Z;
  pcm_prepare : H → Z * H;
  pcm_resume : H → Z * H;
  pcm_avail_update : H → Z * H;
  pcm_delay : H → Z * H;
  pcm_start : H → Z * H;
  (** The area, the offset in it and the frames that follow there; at most the frames
      asked for. *)
  pcm_mmap_begin : Z → H → (area * Z * Z) * H;
  pcm_mmap_commit : Z → Z → H → Z * H;
  (** A store to the mapped memory. *)
  pcm_store : Z → Z → H → H }.

Record alsa (H : Type) := Alsa {
  al_level : Z; al_incr : Z; pcm_open : bool; pcm_stopped : bool; pcm : H }.
Arguments Alsa {H}. Arguments al_level {H}. Arguments al_incr {H}. Arguments pcm_open {H}.
Arguments pcm_stopped {H}. Arguments pcm {H}.

Section Driver.
Context {H : Type} `{!Pcm H}.

(** [while ((err = snd_pcm_resume(pcm_handle)) == -EAGAIN)]. *)
Fixpoint resume (fuel : nat) (h : H) : option H :=
  match fuel with
  | O => None
  | S fuel =>
      let '(err, h) := pcm_resume h in
      if err =? - EAGAIN then resume fuel h
      else Some (if err <? 0 then (pcm_prepare h).2 else h)
  end.
(** What is done about an underrun or a suspension. *)
Definition recover (fuel : nat) (stopped : bool) (h : H) : option (bool * H) :=
  if pcm_state h =? SND_PCM_STATE_XRUN then Some (true, (pcm_prepare h).2)
  else if pcm_state h =? SND_PCM_STATE_SUSPENDED then h ← resume fuel h; Some (stopped, h)
  else Some (stopped, h).
Definition restart (avail : Z) (stopped : bool) (h : H) : bool * H :=
  if stopped then
    let h := (pcm_delay h).2 in
    if avail <? 5000 then (false, (pcm_start h).2) else (true, h)
  else (false, h).

(** [while (len-- > 0)]: the samples, from [sptr] on, [step] apart. *)
Fixpoint put_frames (len : nat) (sptr step output level : Z) (h : H) : Z * H :=
  match len with
  | O => (level, h)
  | S len =>
      let level := next_level output level in
      put_frames len (sptr + step) step output level (pcm_store sptr (s16 level) h)
  end.
(** One turn of the outer loop: [incr], [level] and the library. *)
Definition alsa_turn (avail output incr level : Z) (h : H) : Z * Z * H :=
  let frames := incr / CYCLES_PER_SEC_DIV_50 in
  let '(frames, incr) :=
    if avail <? frames then (avail, u32 (avail * CYCLES_PER_SEC_DIV_50)) else (frames, incr) in
  let '(a, offset, frames, h) := pcm_mmap_begin frames h in
  let step := a_step a / 16 in
  let sptr := a_addr a / 2 + a_first a / 16 + step * offset in
  let '(level, h) := put_frames (Z.to_nat frames) sptr step output level h in
  let h := (pcm_mmap_commit offset frames h).2 in
  (u32 (incr - frames * CYCLES_PER_SEC_DIV_50), level, h).
Fixpoint alsa_loop (fuel : nat) (avail output incr level : Z) (h : H) : option (Z * Z * H) :=
  if CYCLES_PER_SEC_DIV_50 <? incr then
    match fuel with
    | O => None
    | S fuel =>
        let '(incr, level, h) := alsa_turn avail output incr level h in
        alsa_loop fuel avail output incr level h
    end
  else Some (incr, level, h).
(** [fuel]: the attempts to resume. *)
Definition alsa_update (fuel : nat) (bit new_incr : Z) (s : alsa H) : option (alsa H) :=
  if pcm_open s then
    let n := u32 (al_incr s + new_incr * (SAMPLE_RATE / 50)) in
    if n <? CYCLES_PER_SEC_DIV_50 then Some (Alsa (al_level s) n true (pcm_stopped s) (pcm s))
    else
      r ← recover fuel (pcm_stopped s) (pcm s);
      let '(stopped, h) := r in
      let '(avail, h) := pcm_avail_update h in
      if avail <? 0 then Some (Alsa (al_level s) n true stopped h)
      else
        let '(stopped, h) := restart avail stopped h in
        r ← alsa_loop SOUND_FUEL avail (output_of bit) n (al_level s) h;
        let '(n, level, h) := r in
        Some (Alsa (s16 level) n true stopped h)
  else Some s.

(** The results of [HwGetChannels] and [HwGetRate] are not looked at. *)
Definition checked (x : setting) : bool :=
  match x with HwGetChannels | HwGetRate => false | _ => true end.
(** The calls up to the first that fails, and whether there is none. *)
Fixpoint settings (l : list setting) (h : H) : bool * H :=
  match l with
  | [] => (true, h)
  | x :: l => let '(err, h) := pcm_setting x h in if checked x && (err <? 0) then (false, h) else settings l h
  end.
Definition hw_settings : list setting :=
  [HwAny; HwAccessMmapInterleaved; HwFormatS16; HwChannels 1; HwRateNear SAMPLE_RATE;
   HwBufferTimeNear 500000; HwGetBufferSize; HwPeriodTimeNear 100000; HwParams;
   HwGetPeriodSize; HwGetChannels; HwGetRate].
Definition sw_settings (buffer period : Z) : list setting :=
  [SwCurrent; SwStartThreshold (buffer / period * period); SwAvailMin period; SwParams].
(** [None]: the process ends, by [exit] or because the period is 0. *)
Definition alsa_init (s : alsa H) : option (alsa H) :=
  let '(err, h) := pcm_open_playback (pcm s) in
  if negb (err =? 0) then Some (Alsa (al_level s) (al_incr s) (pcm_open s) (pcm_stopped s) h)
  else
    let '(ok, h) := settings hw_settings h in
    if negb ok then Some (Alsa (al_level s) (al_incr s) true (pcm_stopped s) h)
    else if pcm_period_size h =? 0 then None
    else
      let '(ok, h) := settings (sw_settings (pcm_buffer_size h) (pcm_period_size h)) h in
      if negb ok then Some (Alsa (al_level s) (al_incr s) true (pcm_stopped s) h)
      else
        let '(err, h) := pcm_prepare h in
        if err <? 0 then None else Some (Alsa (al_level s) (al_incr s) true true h).
End Driver.
