(* ===== verification/AlsaProps.v ===== *)
(** * AlsaProps: ALSA plays the same wave *)
From S2P Require Export Alsa SoundProps.

Section Stores.
Context {H : Type} `{!Pcm H}.
Fixpoint store_run (p step : Z) (l : list Z) (h : H) : H :=
  match l with [] => h | v :: l => store_run (p + step) step l (pcm_store p v h) end.
Lemma put_frames_run n p step o l h : output_ok o → level_ok l →
  put_frames n p step o l h = (level_after o l n, store_run p step (waves o l n) h).
Proof.
  intros Ho. revert p l h. induction n as [|n IH]; intros p l h Hl; [done|].
  pose proof (next_level_ok _ _ Ho Hl) as Hl'. cbn [put_frames level_after waves store_run].
  rewrite IH, s16_level by assumption. done.
Qed.
End Stores.

(** What the manual of ALSA promises: the mapped area shows a part of the free space, at
    least a frame unless none was asked for, and committing what was stored there
    plays it. *)
Definition start_of (a : area) (offset : Z) : Z :=
  a_addr a / 2 + a_first a / 16 + a_step a / 16 * offset.
Class PcmOk (H : Type) `{!Pcm H} := {
  played : H → list Z;
  space : H → Z;
  avail_ok h avail h' : pcm_avail_update h = (avail, h') → avail <= space h' ∧ played h' = played h;
  mmap_ok n h a offset k h' :
    0 <= n <= space h → pcm_mmap_begin n h = (a, offset, k, h') →
    0 <= k <= n ∧ (0 < n → 0 < k) ∧
    ∀ l, length l = Z.to_nat k →
      let h'' := (pcm_mmap_commit offset k (store_run (start_of a offset) (a_step a / 16) l h')).2 in
      played h'' = played h ++ l ∧ space h'' = space h - k }.

Section Played.
Context {H : Type} `{!Pcm H, !PcmOk H} (o : Z) (Ho : output_ok o).

(** The cycles that a turn goes by: those of the frames that fit. *)
Definition clamp (avail incr : Z) : Z :=
  if avail <? incr / CYCLES_PER_SEC_DIV_50 then avail * CYCLES_PER_SEC_DIV_50 else incr.
Record plays (incr : Z) (l : Z) (h : H) (n incr' l' : Z) (h' : H) : Prop := {
  pl_count : 0 <= n; pl_incr : incr = incr' + n * CYCLES_PER_SEC_DIV_50;
  pl_level : l' = level_after o l (Z.to_nat n); pl_ok : level_ok l';
  pl_played : played h' = played h ++ waves o l (Z.to_nat n); pl_space : space h' = space h - n }.
Lemma plays_trans incr l h n1 incr1 l1 h1 n2 incr2 l2 h2 :
  plays incr l h n1 incr1 l1 h1 → plays incr1 l1 h1 n2 incr2 l2 h2 → plays incr l h (n1 + n2) incr2 l2 h2.
Proof.
  intros [Hn Ei El Hl Ep Es] [Hn' Ei' El' Hl' Ep' Es']. constructor; [lia|lia| |done| |lia].
  - rewrite El', El, Z2Nat.inj_add, level_after_app by done. done.
  - rewrite Ep', Ep, El, Z2Nat.inj_add, waves_app, app_assoc by done. done.
Qed.
Lemma alsa_turn_plays avail incr l h :
  dword incr → 0 <= avail → clamp avail incr / CYCLES_PER_SEC_DIV_50 <= space h → level_ok l →
  ∃ n incr' l' h', alsa_turn avail o incr l h = (incr', l', h') ∧
    plays (clamp avail incr) l h n incr' l' h' ∧ 0 <= incr' ∧
    (0 < clamp avail incr / CYCLES_PER_SEC_DIV_50 → 0 < n).
Proof.
  intros Hi Ha Hs Hl. unfold alsa_turn. set (m := clamp avail incr / CYCLES_PER_SEC_DIV_50) in *.
  assert ((if avail <? incr / CYCLES_PER_SEC_DIV_50
           then (avail, u32 (avail * CYCLES_PER_SEC_DIV_50)) else (incr / CYCLES_PER_SEC_DIV_50, incr))
          = (m, clamp avail incr) ∧ dword (clamp avail incr) ∧ 0 <= m) as (-> & Hc & Hm).
  { unfold m, clamp, dword in *. change CYCLES_PER_SEC_DIV_50 with 320000 in *.
    destruct (Z.ltb_spec avail (incr / 320000)).
    - assert (0 <= avail * 320000 < 4294967296) as Hd by (Z.div_mod_to_equations; lia).
      rewrite Z.div_mul, u32_id by (lia || exact Hd). split; [done|]. lia.
    - split; [done|]. split; [exact Hi|apply Z.div_pos; lia]. }
  destruct (pcm_mmap_begin m h) as [[[a off] k] h1] eqn:E.
  destruct (mmap_ok m h a off k h1 (conj Hm Hs) E) as (Hk & Hk0 & Hrun). clear E.
  rewrite put_frames_run by assumption. specialize (Hrun (waves o l (Z.to_nat k)) (length_waves _ _ _)).
  destruct Hrun as [Ep Es]. exists k. do 3 eexists. split; [reflexivity|].
  assert (0 <= clamp avail incr - k * CYCLES_PER_SEC_DIV_50 < 4294967296) as Hr.
  { assert (m * CYCLES_PER_SEC_DIV_50 <= clamp avail incr) as Hle by (rewrite Z.mul_comm; apply Z.mul_div_le; done).
    change CYCLES_PER_SEC_DIV_50 with 320000 in *. unfold dword in Hc. nia. }
  rewrite u32_id by exact Hr. split; [|split; [lia|exact Hk0]].
  constructor; [lia|lia|done|apply level_after_ok; assumption|exact Ep|exact Es].
Qed.
(** Once everything fits, every turn plays at least a frame, and the frames that remain
    get fewer. *)
Lemma alsa_loop_plays avail f : ∀ incr l h,
  dword incr → incr / CYCLES_PER_SEC_DIV_50 <= avail → incr / CYCLES_PER_SEC_DIV_50 <= space h →
  incr / CYCLES_PER_SEC_DIV_50 <= Z.of_nat f → level_ok l →
  ∃ n incr' l' h', alsa_loop f avail o incr l h = Some (incr', l', h') ∧ plays incr l h n incr' l' h' ∧
    0 <= incr' <= CYCLES_PER_SEC_DIV_50.
Proof.
  induction f as [|f IH]; intros incr l h Hi Ha Hs Hf Hl; cbn [alsa_loop].
  all: destruct (Z.ltb_spec CYCLES_PER_SEC_DIV_50 incr) as [Hlt|Hge];
    [|exists 0, incr, l, h; unfold dword in Hi; split; [done|split; [|lia]];
      constructor; [lia|lia|done|done|cbn; rewrite app_nil_r; done|lia]].
  { change CYCLES_PER_SEC_DIV_50 with 320000 in *. Z.div_mod_to_equations. lia. }
  assert (clamp avail incr = incr) as Ec by (unfold clamp; rewrite (proj2 (Z.ltb_ge _ _)) by lia; done).
  assert (0 < incr / CYCLES_PER_SEC_DIV_50) as H0.
  { change CYCLES_PER_SEC_DIV_50 with 320000 in *. Z.div_mod_to_equations. lia. }
  destruct (alsa_turn_plays avail incr l h) as (n & i1 & l1 & h1 & -> & Hp & Hi1 & Hn);
    rewrite ?Ec; [exact Hi|lia|exact Hs|exact Hl|]. rewrite Ec in Hp, Hn. specialize (Hn H0). cbv beta iota.
  assert (i1 / CYCLES_PER_SEC_DIV_50 = incr / CYCLES_PER_SEC_DIV_50 - n) as Ed.
  { rewrite (pl_incr _ _ _ _ _ _ _ Hp), Z.div_add by done. lia. }
  pose proof (pl_space _ _ _ _ _ _ _ Hp). pose proof (pl_incr _ _ _ _ _ _ _ Hp) as Ei.
  destruct (IH i1 l1 h1) as (n2 & i2 & l2 & h2 & -> & Hp2 & Hi2);
    [unfold dword in *; change CYCLES_PER_SEC_DIV_50 with 320000 in *; lia|lia|lia|lia|apply Hp|].
  exists (n + n2), i2, l2, h2. split; [done|]. split; [eapply plays_trans; eassumption|exact Hi2].
Qed.
Lemma alsa_loop_clamped avail f incr l h :
  dword incr → 0 <= avail → CYCLES_PER_SEC_DIV_50 < incr → avail <= space h →
  incr / CYCLES_PER_SEC_DIV_50 <= Z.of_nat f → level_ok l →
  ∃ n incr' l' h', alsa_loop (S f) avail o incr l h = Some (incr', l', h') ∧
    plays (clamp avail incr) l h n incr' l' h' ∧ 0 <= incr' <= CYCLES_PER_SEC_DIV_50.
Proof.
  intros Hi Ha Hlt Hs Hf Hl. cbn [alsa_loop]. rewrite (proj2 (Z.ltb_lt _ _) Hlt).
  assert (clamp avail incr / CYCLES_PER_SEC_DIV_50 <= avail ∧
          clamp avail incr / CYCLES_PER_SEC_DIV_50 <= incr / CYCLES_PER_SEC_DIV_50 ∧
          clamp avail incr < 4294967296) as (Hc & Hc' & Hd).
  { unfold clamp, dword in *. change CYCLES_PER_SEC_DIV_50 with 320000 in *. destruct (Z.ltb_spec avail (incr / 320000)).
    - rewrite Z.div_mul by lia. split; [lia|]. split; [lia|]. Z.div_mod_to_equations. lia.
    - lia. }
  destruct (alsa_turn_plays avail incr l h Hi Ha) as (n & i1 & l1 & h1 & -> & Hp & Hi1 & Hn); [lia|exact Hl|].
  cbv beta iota. pose proof (pl_space _ _ _ _ _ _ _ Hp) as Es. pose proof (pl_incr _ _ _ _ _ _ _ Hp) as Ei.
  pose proof (pl_count _ _ _ _ _ _ _ Hp) as Hn0.
  assert (i1 / CYCLES_PER_SEC_DIV_50 = clamp avail incr / CYCLES_PER_SEC_DIV_50 - n) as Ed.
  { rewrite Ei, Z.div_add by done. lia. }
  destruct (alsa_loop_plays avail f i1 l1 h1) as (n2 & i2 & l2 & h2 & -> & Hp2 & Hi2);
    [unfold dword in *; change CYCLES_PER_SEC_DIV_50 with 320000 in *; lia|lia|lia|lia|apply Hp|].
  exists (n + n2), i2, l2, h2. split; [done|]. split; [eapply plays_trans; eassumption|exact Hi2].
Qed.
End Played.

(** ALSA hears the same wave. When the timer reports a level of the output and the
    cycles it lasted, and the device is neither in an underrun nor suspended nor has
    been stopped, the samples that are handed to it continue the wave of the samples
    before, each cycle of the timer being kept for the next call or played, at a
    sample for 1/48000 of a second; only when the device has not got the room are
    cycles dropped, as many as the room falls short of. The areas that the library
    maps may be of any size; the loop over them ends. *)
Theorem alsa_update_exact {H : Type} `{!Pcm H, !PcmOk H} fuel (s : alsa H) bit new_incr avail h :
  let total := al_incr s + new_incr * 960 in
  let o := output_of bit in
  let kept := if CYCLES_PER_SEC_DIV_50 <? total then clamp avail total else total in
  pcm_open s = true → pcm_stopped s = false → level_ok (al_level s) → dword total →
  pcm_state (pcm s) ≠ SND_PCM_STATE_XRUN → pcm_state (pcm s) ≠ SND_PCM_STATE_SUSPENDED →
  pcm_avail_update (pcm s) = (avail, h) → 0 <= avail →
  ∃ s' n, alsa_update fuel bit new_incr s = Some s' ∧
    played (pcm s') = played (pcm s) ++ waves o (al_level s) n ∧
    al_level s' = level_after o (al_level s) n ∧ level_ok (al_level s') ∧
    kept = al_incr s' + Z.of_nat n * CYCLES_PER_SEC_DIV_50 ∧ 0 <= al_incr s' <= CYCLES_PER_SEC_DIV_50.
Proof.
  intros total o kept Ho Hst Hl Ht Hx Hsu Ea Ha. unfold alsa_update. rewrite Ho, Hst.
  change (SAMPLE_RATE / 50) with 960. fold total o. rewrite (u32_id total Ht).
  destruct (Z.ltb_spec total CYCLES_PER_SEC_DIV_50) as [Hlt|Hge].
  { unfold kept. rewrite (proj2 (Z.ltb_ge CYCLES_PER_SEC_DIV_50 total)) by lia.
    eexists _, 0%nat. split; [reflexivity|]. cbn [pcm al_level al_incr waves level_after]. rewrite app_nil_r.
    unfold dword in Ht. split_and!; done || lia. }
  unfold recover. rewrite (proj2 (Z.eqb_neq _ _) Hx), (proj2 (Z.eqb_neq _ _) Hsu). cbn [mbind option_bind].
  rewrite Ea. cbv beta iota. rewrite (proj2 (Z.ltb_ge avail 0)) by lia. cbn [restart].
  destruct (avail_ok _ _ _ Ea) as [Hs Ep]. pose proof (output_of_ok bit) as Hoo. fold o in Hoo.
  assert (total / CYCLES_PER_SEC_DIV_50 <= 13421) as Hf.
  { unfold dword in Ht. change CYCLES_PER_SEC_DIV_50 with 320000. Z.div_mod_to_equations. lia. }
  destruct (Z.ltb_spec CYCLES_PER_SEC_DIV_50 total) as [Hlt|Hle].
  - destruct (alsa_loop_clamped o Hoo avail (pred SOUND_FUEL) total (al_level s) h) as (n & i & l & h' & E & [Hn Ei El Hl' Ep' _] & Hi);
      [exact Ht|exact Ha|exact Hlt|exact Hs|unfold SOUND_FUEL; lia|exact Hl|].
    change (S (pred SOUND_FUEL)) with SOUND_FUEL in E. rewrite E. cbn [mbind option_bind].
    exists (Alsa (s16 l) i true false h'), (Z.to_nat n). cbn [pcm al_level al_incr]. rewrite s16_level by exact Hl'.
    split; [done|]. rewrite Ep', Ep. split_and!; try done; try apply Hi; try apply Hl'. unfold kept.
    rewrite Z2Nat.id by lia. exact Ei.
  - assert (alsa_loop SOUND_FUEL avail o total (al_level s) h = Some (total, al_level s, h)) as ->.
    { assert ((CYCLES_PER_SEC_DIV_50 <? total) = false) as E by lia. destruct SOUND_FUEL; cbn [alsa_loop]; rewrite E; done. }
    cbn [mbind option_bind]. eexists _, 0%nat. split; [reflexivity|]. cbn [pcm al_level al_incr waves level_after].
    rewrite s16_level, app_nil_r by exact Hl. unfold dword in Ht, kept. split_and!; try done; try apply Hl; lia.
Qed.

(** After [sound_init] the device waits for the first samples, unless one of its calls
    failed; then it is as before, or, when the device was opened, it stays open without
    having been set up. *)
Lemma alsa_init_cases {H : Type} `{!Pcm H} (s s' : alsa H) :
  pcm_stopped s = false → alsa_init s = Some s' →
  al_level s' = al_level s ∧ al_incr s' = al_incr s ∧
  (pcm_stopped s' = true → pcm_open s' = true ∧ ∃ h h0 h1,
    pcm_open_playback (pcm s) = (0, h) ∧ settings hw_settings h = (true, h0) ∧
    settings (sw_settings (pcm_buffer_size h0) (pcm_period_size h0)) h0 = (true, h1)).
Proof.
  intros Hst. unfold alsa_init. destruct (pcm_open_playback _) as [err h] eqn:E.
  destruct (Z.eqb_spec err 0) as [->|]; cbn [negb]; [|intros [= <-]; cbn; split_and!; congruence].
  destruct (settings _ h) as [[|] h0] eqn:E0; cbn [negb]; [|intros [= <-]; cbn; split_and!; congruence].
  destruct (_ =? 0); [done|]. destruct (settings _ h0) as [[|] h1] eqn:E1; cbn [negb];
    [|intros [= <-]; cbn; split_and!; congruence].
  destruct (pcm_prepare h1) as [err2 h2]. destruct (err2 <? 0); [done|]. intros [= <-]. cbn.
  split_and!; try done. intros _. split; [done|]. exists h, h0, h1. auto.
Qed.

(** ** A device whose area is a ring of 64 frames *)
Record ring_pcm := Ring { rp_mem : gmap Z Z; rp_pos : Z; rp_space : Z; rp_played : list Z }.
Definition RING : Z := 64.
Definition ring_offset (r : ring_pcm) : Z := rp_pos r mod RING.
#[export] Instance ring_is_pcm : Pcm ring_pcm := {
  pcm_open_playback r := (0, r); pcm_setting _ r := (0, r); pcm_buffer_size _ := RING; pcm_period_size _ := 16;
  pcm_state _ := 3; pcm_prepare r := (0, r); pcm_resume r := (0, r);
  pcm_avail_update r := (rp_space r, r); pcm_delay r := (0, r); pcm_start r := (0, r);
  pcm_mmap_begin n r := (Area 0 0 16, ring_offset r, Z.min n (RING - ring_offset r), r);
  pcm_mmap_commit offset n r :=
    (n, Ring (rp_mem r) (rp_pos r + n) (rp_space r - n) (rp_played r ++ chars_from (rp_mem r) offset (Z.to_nat n)));
  pcm_store p v r := Ring (<[p := v]> (rp_mem r)) (rp_pos r) (rp_space r) (rp_played r) }.
Lemma ring_store_run p l r :
  store_run p 1 l r = Ring (store_bytes p l (rp_mem r)) (rp_pos r) (rp_space r) (rp_played r).
Proof. revert p r. induction l as [|v l IH]; intros p r; [destruct r; done|]. cbn [store_run store_bytes]. rewrite IH. done. Qed.
Lemma ring_mmap_ok n (r : ring_pcm) a offset k r' :
  0 <= n <= rp_space r → pcm_mmap_begin n r = (a, offset, k, r') →
  0 <= k <= n ∧ (0 < n → 0 < k) ∧
  ∀ l, length l = Z.to_nat k →
    let r'' := (pcm_mmap_commit offset k (store_run (start_of a offset) (a_step a / 16) l r')).2 in
    rp_played r'' = rp_played r ++ l ∧ rp_space r'' = rp_space r - k.
Proof.
  intros Hn E. cbn [pcm_mmap_begin ring_is_pcm] in E. injection E as <- <- <- <-.
  assert (0 <= ring_offset r < RING) as Ho by (apply Z.mod_pos_bound; done).
  split; [lia|]. split; [lia|]. intros l El. unfold start_of. cbn [a_addr a_first a_step].
  change (0 / 2 + 0 / 16 + 16 / 16 * ring_offset r) with (1 * ring_offset r). rewrite Z.mul_1_l.
  change (16 / 16) with 1. rewrite ring_store_run. cbn [pcm_mmap_commit ring_is_pcm snd rp_mem rp_pos rp_space rp_played].
  split; [|done]. rewrite <- El, chars_from_store. done.
Qed.
#[export] Instance ring_ok : PcmOk ring_pcm.
Proof.
  refine {| played := rp_played; space := rp_space |}; [|exact ring_mmap_ok].
  intros r avail r' E. cbn in E. injection E as <- <-. split; [apply Z.le_refl|done].
Defined.
Definition ring_idle : alsa ring_pcm := Alsa 0 0 true false (Ring ∅ 60 100 []).
(** The first samples of a tone go around the end of the ring. *)
Lemma alsa_update_exact_witness :
  (∃ s' n, alsa_update 1 1 3000 ring_idle = Some s' ∧
    rp_played (pcm s') = waves AMPLITUDE 0 n ∧ 3000 * 960 = al_incr s' + Z.of_nat n * 320000) ∧
  match alsa_update 1 1 3000 ring_idle with
  | Some s => rp_played (pcm s) = [192; 375; 549; 715; 873; 1024; 1168; 1305; 1435] ∧ rp_pos (pcm s) = 69
  | None => False
  end.
Proof.
  split; [|vm_compute; split; reflexivity].
  destruct (alsa_update_exact 1 ring_idle 1 3000 100 (pcm ring_idle)) as (s' & n & E & Ep & _ & _ & Ek & _);
    [reflexivity|reflexivity|unfold level_ok; cbn; lia|unfold dword; cbn; lia|discriminate|discriminate|reflexivity|lia|].
  exists s', n. split; [exact E|]. split; [exact Ep|exact Ek].
Defined.
