(* ===== verification/Tone.v ===== *)
(** * Tone: from the timer to the samples

    [t8_update_time] hands the levels of its output, with the cycles they lasted, to
    [sound_update], which turns them into samples. *)
From S2P Require Export Timer8Props SoundProps.

(** The calls of [sound_update], in their order. *)
Fixpoint play (l : list (Z * Z)) (d : sdl) : option sdl :=
  match l with
  | [] => Some d
  | (bit, n) :: l => d ← sound_update (undisturbed d) bit n d; play l d
  end.
(** [t8_update_time] with its sound. *)
Definition t8_update_heard (s : t8) (c : clock) (d : sdl) : option (t8 * clock * sdl) :=
  r ← t8_update_time (T8 (tm0 s) (tm1 s) (stcr s) []) c;
  d ← play (sound r.1) d;
  Some (r, d).

(** ** What the calls must write

    The samples of a call go on with the wave of the samples before it.  A call with [n]
    cycles has [due] samples to account for; it writes them, all or up to a sample behind
    which there is nothing to hear any more ([is_sound_silent] is false of the level it
    leaves): the samples that it skips would be of silence. *)
Definition rendered_call (bit n level rest : Z) (ws : list Z) (level' rest' : Z) : Prop :=
  let o := output_of bit in
  let total := rest + n * 960 in
  ∃ k, (k <= due total)%nat ∧ ((k < due total)%nat → is_sound_silent o (level_after o level k) = false) ∧
    ws = waves o level k ∧ level' = level_after o level k ∧
    rest' = total - CYCLES_PER_SEC_DIV_50 * Z.of_nat (due total).
(** The samples of a list of calls, one after the other. *)
Fixpoint rendered (l : list (Z * Z)) (level rest : Z) (ws : list Z) (level' rest' : Z) : Prop :=
  match l with
  | [] => ws = [] ∧ level' = level ∧ rest' = rest
  | (bit, n) :: l => ∃ w1 w2 level1 rest1,
      rendered_call bit n level rest w1 level1 rest1 ∧ rendered l level1 rest1 w2 level' rest' ∧ ws = w1 ++ w2
  end.
(** Between [d] and [d'] the driver has written what the calls [l] make. *)
Record heard (l : list (Z * Z)) (d d' : sdl) : Prop := {
  hd_ok : sdl_ok d';
  hd_samples : ∃ ws, contents d' = contents d ++ ws ∧
    rendered l (sample_level d) (incr d) ws (sample_level d') (incr d') }.

(** 48000 samples for the 16 million cycles of a second: the samples due and the cycles
    kept are the cycles of the calls. *)
Lemma due_exact n : 0 < n → CYCLES_PER_SEC_DIV_50 * Z.of_nat (due n) < n <= CYCLES_PER_SEC_DIV_50 * (Z.of_nat (due n) + 1).
Proof.
  unfold due. change CYCLES_PER_SEC_DIV_50 with 320000. intros.
  assert (0 <= (n - 1) / 320000) by (Z.div_mod_to_equations; lia). Z.div_mod_to_equations. lia.
Qed.
Lemma due_le n : dword n → Z.of_nat (due n) <= n / CYCLES_PER_SEC_DIV_50.
Proof. unfold due, dword. change CYCLES_PER_SEC_DIV_50 with 320000. intros. Z.div_mod_to_equations. lia. Qed.
Lemma sound_update_renders d bit n :
  let total := incr d + n * 960 in
  sdl_ok d → 0 <= n → total < 4294967296 →
  length_of_queue d + Z.of_nat (due total) < BUFFER_LENGTH →
  ∃ d' ws, sound_update (undisturbed d) bit n d = Some d' ∧ sdl_ok d' ∧ contents d' = contents d ++ ws ∧
    (length ws <= due total)%nat ∧
    rendered_call bit n (sample_level d) (incr d) ws (sample_level d') (incr d').
Proof.
  intros total Hd Hn Ht Hr. destruct (sound_update_run d bit n Hd Hn Ht Hr) as (d' & k & E & Hd' & Ec & Hk & _ & El & Ei & Es).
  exists d', (waves (output_of bit) (sample_level d) k). rewrite length_waves. do 4 (split; [assumption|]).
  exists k. split_and!; assumption || done.
Qed.
Lemma play_heard l : ∀ d,
  sdl_ok d → spans l → incr d + duration l * 960 < 4294967296 →
  length_of_queue d + (incr d + duration l * 960) / CYCLES_PER_SEC_DIV_50 < BUFFER_LENGTH →
  ∃ d', play l d = Some d' ∧ heard l d d'.
Proof.
  induction l as [|[bit n] l IH]; intros d Hd Hl Ht Hr.
  { exists d. split; [done|]. split; [exact Hd|]. exists []. rewrite app_nil_r. done. }
  apply Forall_cons in Hl as [Hn Hl]. cbn [snd duration foldr] in Hn, Ht, Hr. fold (duration l) in Ht, Hr.
  assert (0 <= duration l) as Hdl by (clear -Hl; induction Hl as [|x l Hx _ IH]; cbn; unfold dword in *; [done|unfold duration in IH; lia]).
  pose proof (ok_incr _ Hd) as Hi. unfold dword in Hi, Hn.
  assert (dword (incr d + n * 960)) as Ht1 by (unfold dword; lia). pose proof (due_le _ Ht1) as Hdue.
  assert ((incr d + n * 960) / CYCLES_PER_SEC_DIV_50 <= (incr d + (n + duration l) * 960) / CYCLES_PER_SEC_DIV_50) as Hle
    by (apply Z.div_le_mono; [done|lia]).
  destruct (sound_update_renders d bit n Hd) as (d1 & w1 & E & Hd1 & Ec & Hk & Hw1); [lia|lia|lia|].
  pose proof Hw1 as (_ & _ & _ & _ & _ & Ei).
  assert (length_of_queue d1 <= length_of_queue d + Z.of_nat (due (incr d + n * 960))) as Hq.
  { rewrite <- !length_contents, Ec, length_app by assumption. lia. }
  assert ((incr d1 + duration l * 960) / CYCLES_PER_SEC_DIV_50 =
          (incr d + (n + duration l) * 960) / CYCLES_PER_SEC_DIV_50 - Z.of_nat (due (incr d + n * 960))) as Ediv.
  { rewrite Ei. replace (incr d + n * 960 - CYCLES_PER_SEC_DIV_50 * Z.of_nat (due (incr d + n * 960)) + duration l * 960)
      with (incr d + (n + duration l) * 960 + (- Z.of_nat (due (incr d + n * 960))) * CYCLES_PER_SEC_DIV_50) by lia.
    rewrite Z.div_add by done. lia. }
  destruct (IH d1 Hd1 Hl) as (d' & E' & [Hd' (w2 & Ec' & Hw2)]);
    [pose proof (Nat2Z.is_nonneg (due (incr d + n * 960))); change CYCLES_PER_SEC_DIV_50 with 320000 in *; lia|lia|].
  exists d'. cbn [play]. rewrite E. cbn [mbind option_bind]. split; [exact E'|]. split; [exact Hd'|].
  exists (w1 ++ w2). rewrite Ec', Ec, app_assoc. split; [done|]. exists w1, w2, (sample_level d1), (incr d1). done.
Qed.
(** No cycle is lost: what the calls last is what the samples due account for and what is kept. *)
Lemma rendered_cycles l : ∀ level rest ws level' rest', rendered l level rest ws level' rest' →
  ∃ n : nat, rest' + CYCLES_PER_SEC_DIV_50 * Z.of_nat n = rest + duration l * 960 ∧ (length ws <= n)%nat.
Proof.
  induction l as [|[bit n] l IH]; intros level rest ws level' rest' H.
  { destruct H as (-> & _ & ->). exists 0%nat. cbn. lia. }
  destruct H as (w1 & w2 & l1 & r1 & (k & Hk & _ & -> & _ & Er) & H & ->). apply IH in H as (m & Em & Hm).
  exists (due (rest + n * 960) + m)%nat. rewrite length_app, length_waves. cbn [duration foldr snd]. fold (duration l). lia.
Qed.

(** C14: Sound and simulated time agree. When SDL's thread does not run in between and the
    ring has room for the samples, one update of the 8-bit timer - however it runs, is
    stopped or clears meanwhile - calls [sound_update] with levels of its output whose
    durations sum up to exactly the cycles by which the timer advanced, and the driver
    appends to what SDL has not taken yet exactly the samples of these levels: every call
    goes on with the wave where the last one left it, accounts for 48000 samples in
    16 million cycles and keeps the remainder for the next call; samples are left out only
    from a level on at which there is nothing more to hear. *)
Theorem tone_in_time s c d :
  t8_ok (tm0 s) → 0 <= last_cycles (tm0 s) < 9223372036854775808 →
  0 <= cycles c - last_cycles (tm0 s) < 2147483648 → sdl_ok d →
  incr d + (cycles c - last_cycles (tm0 s)) * 960 < 4294967296 →
  length_of_queue d + (incr d + (cycles c - last_cycles (tm0 s)) * 960) / CYCLES_PER_SEC_DIV_50 < BUFFER_LENGTH →
  ∃ s' c' d', t8_update_heard s c d = Some (s', c', d') ∧
    t8_update_time (T8 (tm0 s) (tm1 s) (stcr s) []) c = Some (s', c') ∧
    duration (sound s') = last_cycles (tm0 s') - last_cycles (tm0 s) ∧
    heard (sound s') d d'.
Proof.
  intros Hok Hlast He Hd Ht Hr.
  destruct (t8_update_calls (T8 (tm0 s) (tm1 s) (stcr s) []) c Hok Hlast He) as (s' & c' & l & E & El & Edur & Hle & Hsp).
  cbn [tm0 sound app] in *. destruct (play_heard l d Hd Hsp) as (d' & Ep & Hh); [lia| |].
  - assert ((incr d + duration l * 960) / CYCLES_PER_SEC_DIV_50 <=
            (incr d + (cycles c - last_cycles (tm0 s)) * 960) / CYCLES_PER_SEC_DIV_50)
      by (apply Z.div_le_mono; [done|lia]). lia.
  - exists s', c', d'. unfold t8_update_heard. rewrite E. cbn [mbind option_bind fst]. rewrite El, Ep. auto.
Qed.
(** A tone of the timer, played on an empty ring. *)
Lemma tone_in_time_witness :
  ∃ s' c' d', t8_update_heard t8_demo (Clock 4000 1600000 1600000) quiet = Some (s', c', d') ∧
    heard (sound s') quiet d' ∧ contents d' = [-192; -375; -550; -717; -876; -1027; -1171; -1309].
Proof.
  destruct (tone_in_time t8_demo (Clock 4000 1600000 1600000) quiet) as (s' & c' & d' & E & _ & _ & Hh);
    [plain_memory..|exact quiet_ok|reflexivity|reflexivity|].
  exists s', c', d'. split; [exact E|]. split; [exact Hh|].
  vm_compute in E. injection E as <- <- <-. vm_compute. reflexivity.
Defined.
