(* ===== verification/IrServer.v ===== *)
(** * IrServer: the infrared light between the bricks ([ir-server.c])

    A process of its own to which the emulators connect; what one of them sends reaches
    all, itself included.  The operating system is the class [Network]; the connections
    that are accepted, read, written and closed are recorded in [log]. *)
From S2P Require Export Prelude.

(** [n_select]: the descriptors that are ready of those in the list.  [n_accept]: a new
    connection, -1 for none.  [n_read]: up to 4096 bytes, none at the end or on an
    error.  [n_write]: whether [write] succeeds, and then all is written, as on a
    blocking socket. *)
Class Network (H : Type) := {
  n_select : list Z → H → (Z → bool) * H;
  n_accept : H → Z * H;
  n_read : Z → H → list Z * H;
  n_write : Z → list Z → H → bool * H;
  n_close : Z → H → H }.
Inductive event := Accepted (fd : Z) | Read (fd : Z) (l : list Z) | Written (fd : Z) (l : list Z) (ok : bool) | Closed (fd : Z).
(** Entry 0 of [sockets] is the server's own; -1 is a free entry. *)
Record ir (H : Type) := Ir { sockets : list Z; log : list event; net : H }.
Arguments Ir {H}. Arguments sockets {H}. Arguments log {H}. Arguments net {H}.
Definition MAX_CLIENTS : nat := 1000.

Section Server.
Context {H : Type} `{!Network H}.
(** [inr]: the process has ended. *)
Abbreviation run := (ir H + ir H)%type.
Definition and_then (r : run) (f : ir H → run) : run :=
  match r with inl s => f s | inr s => inr s end.
Fixpoint each (f : nat → ir H → run) (l : list nat) (s : ir H) : run :=
  match l with [] => inl s | i :: l => and_then (f i s) (each f l) end.

Definition socket (i : nat) (s : ir H) : Z := nth i (sockets s) (-1).
Definition clients (s : ir H) : list Z := filter (λ fd, 0 <= fd) (drop 1 (sockets s)).
Definition check_exit (s : ir H) : run :=
  if forallb (λ fd, fd =? -1) (drop 1 (sockets s)) then inr s else inl s.
Definition drop_client (i : nat) (s : ir H) : run :=
  let fd := socket i s in
  check_exit (Ir (<[i := -1]> (sockets s)) (log s ++ [Closed fd]) (n_close fd (net s))).
(** [if (write(sockets[i], buff, len) < 0) ...] *)
Definition send_to (buff : list Z) (i : nat) (s : ir H) : run :=
  let fd := socket i s in
  let '(ok, h) := n_write fd buff (net s) in
  let s := Ir (sockets s) (log s ++ [Written fd buff ok]) h in
  if ok then inl s else drop_client i s.
Definition other_slots (i : nat) : list nat := filter (λ j, i ≠ j) (seq 1 (MAX_CLIENTS - 1)).
Definition client_turn (ready : Z → bool) (i : nat) (s : ir H) : run :=
  let fd := socket i s in
  if (0 <=? fd) && ready fd then
    let '(buff, h) := n_read fd (net s) in
    let s := Ir (sockets s) (log s) h in
    match buff with
    | [] => drop_client i s
    | _ =>
        let s := Ir (sockets s) (log s ++ [Read fd buff]) h in
        and_then (each (λ j s, if 0 <=? socket j s then send_to buff j s else inl s) (other_slots i) s)
          (send_to buff i)
    end
  else inl s.

(** The first free entry takes a new client. *)
Fixpoint free_slot (l : list nat) (s : ir H) : option nat :=
  match l with
  | [] => None
  | i :: l => if socket i s =? -1 then Some i else free_slot l s
  end.
(** One turn of [while (1)]. *)
Definition server_turn (s : ir H) : run :=
  let '(ready, h) := n_select (filter (λ fd, 0 <= fd) (sockets s)) (net s) in
  let s := Ir (sockets s) (log s) h in
  let accepted :=
    if ready (socket 0 s) then
      let '(client, h) := n_accept (net s) in
      if client =? -1 then (false, Ir (sockets s) (log s) h)
      else let s := Ir (sockets s) (log s ++ [Accepted client]) h in
           match free_slot (seq 1 (MAX_CLIENTS - 1)) s with
           | Some i => (true, Ir (<[i := client]> (sockets s)) (log s) (net s))
           | None => (true, Ir (sockets s) (log s ++ [Closed client]) (n_close client (net s)))
           end
    else (true, s) in
  let '(go_on, s) := accepted in
  if (go_on : bool) then each (client_turn ready) (seq 1 (MAX_CLIENTS - 1)) s else inl s.
Fixpoint server (n : nat) (s : ir H) : run :=
  match n with O => inl s | S n => and_then (server_turn s) (server n) end.
Definition ir_start (server_socket : Z) (h : H) : ir H :=
  Ir (server_socket :: replicate (MAX_CLIENTS - 1) (-1)) [] h.
End Server.
