(* ===== verification/IrServerProps.v ===== *)
(** * IrServerProps: every message reaches every client *)
From S2P Require Export IrServer.

Section Broadcast.
Context {H : Type} `{!Network H}.
Implicit Types s : ir H.

Definition valid s : Prop := length (sockets s) = MAX_CLIENTS.
Definition slot (j : nat) : Prop := (1 <= j < MAX_CLIENTS)%nat.
Definition is_open s (j : nat) : bool := 0 <=? socket j s.
Definition deserted s : bool := forallb (λ fd, fd =? -1) (drop 1 (sockets s)).
(** What a write leaves in the log. *)
Definition delivery (fd : Z) (l : list Z) (ok : bool) : list event :=
  Written fd l ok :: (if ok then [] else [Closed fd]).
Definition kept_open (fd : Z) (ok : bool) : Z := if ok then fd else -1.

Lemma socket_insert s j k v (lg : list event) (h : H) : valid s → (j < MAX_CLIENTS)%nat →
  socket k (Ir (<[j := v]> (sockets s)) lg h) = if decide (k = j) then v else socket k s.
Proof.
  intros Hv Hj. unfold socket. cbn [sockets]. rewrite !nth_lookup. destruct (decide (k = j)) as [->|].
  - rewrite list_lookup_insert_eq by (rewrite Hv; exact Hj). done.
  - rewrite list_lookup_insert_ne by done. done.
Qed.
Lemma not_deserted s i : valid s → slot i → is_open s i = true → deserted s = false.
Proof.
  unfold valid, slot, is_open, deserted, socket. intros Hv Hi Ho.
  destruct (forallb _ _) eqn:E; [|done]. exfalso. rewrite forallb_forall in E.
  rewrite nth_lookup in Ho. destruct (sockets s !! i) as [fd|] eqn:El; [|discriminate Ho].
  assert (drop 1 (sockets s) !! (i - 1)%nat = Some fd) as Hd.
  { rewrite lookup_drop. replace (1 + (i - 1))%nat with i by lia. exact El. }
  apply list_elem_of_lookup_2, list_elem_of_In, E in Hd. cbn in Ho. lia.
Qed.
Definition dropped (i : nat) s : ir H :=
  Ir (<[i := -1]> (sockets s)) (log s ++ [Closed (socket i s)]) (n_close (socket i s) (net s)).
Lemma drop_client_eq i s :
  drop_client i s = if deserted (dropped i s) then inr (dropped i s) else inl (dropped i s).
Proof. reflexivity. Qed.
Lemma send_to_spec s l j : valid s → slot j →
  ∃ (s' : ir H) (ok : bool), send_to l j s = (if ok then inl s' else if deserted s' then inr s' else inl s') ∧ valid s' ∧
    log s' = log s ++ delivery (socket j s) l ok ∧
    ∀ k, socket k s' = if decide (k = j) then kept_open (socket j s) ok else socket k s.
Proof.
  intros Hv [_ Hj]. unfold send_to. destruct (n_write _ _ _) as [[|] h] eqn:E.
  - eexists _, true. split; [reflexivity|]. split; [exact Hv|]. split; [done|].
    intros k. unfold kept_open. destruct (decide (k = j)) as [->|]; reflexivity.
  - rewrite drop_client_eq. eexists _, false. split; [reflexivity|]. unfold dropped. cbn [sockets log].
    split; [unfold valid; cbn [sockets]; rewrite length_insert; exact Hv|].
    split; [unfold delivery, socket; cbn [sockets]; rewrite <- app_assoc; done|].
    intros k. apply (socket_insert s); assumption.
Qed.

(** What the writes to the clients of a list leave in the log, and in their entries. *)
Definition deliveries s (l : list Z) (ok : nat → bool) (js : list nat) : list event :=
  concat ((λ j, if is_open s j then delivery (socket j s) l (ok j) else []) <$> js).
Definition after s (ok : nat → bool) (js : list nat) (k : nat) : Z :=
  if bool_decide (k ∈ js) && is_open s k then kept_open (socket k s) (ok k) else socket k s.
Lemma deliveries_cons s l ok j js :
  deliveries s l ok (j :: js) = (if is_open s j then delivery (socket j s) l (ok j) else []) ++ deliveries s l ok js.
Proof. reflexivity. Qed.
Lemma deliveries_one s l ok j :
  deliveries s l ok [j] = if is_open s j then delivery (socket j s) l (ok j) else [].
Proof. rewrite deliveries_cons. apply app_nil_r. Qed.
Lemma deliveries_ext s1 s2 l ok1 ok2 js :
  (∀ k, k ∈ js → socket k s1 = socket k s2 ∧ ok1 k = ok2 k) → deliveries s1 l ok1 js = deliveries s2 l ok2 js.
Proof.
  unfold deliveries. intros Hk. f_equal. apply list_fmap_ext. intros i k Hi.
  apply list_elem_of_lookup_2, Hk in Hi as [E1 E2]. unfold is_open. rewrite E1, E2. done.
Qed.
Definition send_open (l : list Z) (j : nat) (s : ir H) : ir H + ir H :=
  if 0 <=? socket j s then send_to l j s else inl s.
(** One of the other clients, which leaves the sender open. *)
Lemma deliver_one s l i j : valid s → slot i → slot j → i ≠ j → is_open s i = true →
  ∃ (s' : ir H) (ok : bool), send_open l j s = inl s' ∧ valid s' ∧ log s' = log s ++ deliveries s l (λ _, ok) [j] ∧
    is_open s' i = true ∧ ∀ k, socket k s' = after s (λ _, ok) [j] k.
Proof.
  intros Hv Hi Hj Hij Ho. unfold send_open, after.
  change (0 <=? socket j s) with (is_open s j).
  destruct (is_open s j) eqn:Ej.
  - destruct (send_to_spec s l j Hv Hj) as (s' & ok & E & Hv' & Hl & Hk).
    assert (is_open s' i = true) as Ho' by (unfold is_open; rewrite Hk, decide_False by congruence; exact Ho).
    exists s', ok. rewrite E, (not_deserted s' i) by assumption.
    rewrite deliveries_one, Ej. split; [destruct ok; done|]. split_and!; [done..|]. intros k. rewrite Hk.
    destruct (decide (k = j)) as [Ekj|Ekj].
    + rewrite bool_decide_true by (apply list_elem_of_singleton; exact Ekj). subst k. rewrite Ej. done.
    + rewrite bool_decide_false by (rewrite list_elem_of_singleton; exact Ekj). done.
  - exists s, true. rewrite deliveries_one, Ej, app_nil_r. split_and!; [done..|]. intros k.
    destruct (decide (k = j)) as [Ekj|Ekj]; [subst k; rewrite Ej, andb_false_r; done|].
    rewrite bool_decide_false by (rewrite list_elem_of_singleton; exact Ekj). done.
Qed.
Lemma deliver_others l i js : NoDup js → i ∉ js → slot i → (∀ j, j ∈ js → slot j) → ∀ s,
  valid s → is_open s i = true →
  ∃ (s' : ir H) (ok : nat → bool), each (send_open l) js s = inl s' ∧ valid s' ∧
    log s' = log s ++ deliveries s l ok js ∧ ∀ k, socket k s' = after s ok js k.
Proof.
  intros Hnd Hni Hi. induction js as [|j js IH]; intros Hjs s Hv Ho.
  { exists s, (λ _, true). split_and!; [done..|cbn; rewrite app_nil_r; done|]. done. }
  apply NoDup_cons in Hnd as [Hj Hnd]. apply not_elem_of_cons in Hni as [Hij Hni].
  destruct (deliver_one s l i j Hv Hi) as (s1 & ok1 & E1 & Hv1 & Hl1 & Ho1 & Hk1);
    [apply Hjs, list_elem_of_here|done..|].
  destruct (IH Hnd Hni) with (s := s1) as (s2 & ok2 & E2 & Hv2 & Hl2 & Hk2);
    [intros k Hk; apply Hjs, list_elem_of_further, Hk|done..|].
  assert (∀ k, k ≠ j → socket k s1 = socket k s) as Hsame.
  { intros k Hk. rewrite Hk1. unfold after.
    rewrite bool_decide_false by (rewrite list_elem_of_singleton; exact Hk). done. }
  exists s2, (λ k, if decide (k = j) then ok1 else ok2 k).
  split; [cbn [each]; rewrite E1; exact E2|]. split; [exact Hv2|]. split.
  - rewrite Hl2, Hl1, <- app_assoc. f_equal. rewrite deliveries_one, deliveries_cons, decide_True by done. f_equal. apply deliveries_ext. intros k Hk.
    assert (k ≠ j) as Hne by (intros ->; done). rewrite decide_False by exact Hne. split; [apply Hsame, Hne|done].
  - intros k. rewrite Hk2. unfold after, is_open. destruct (decide (k = j)) as [->|Hne].
    + rewrite (bool_decide_false (j ∈ js)) by exact Hj. cbn [andb]. rewrite Hk1.
      rewrite (bool_decide_true (j ∈ j :: js)) by apply list_elem_of_here. unfold after.
      rewrite bool_decide_true by (apply list_elem_of_singleton; done). done.
    + rewrite Hsame by exact Hne.
      assert (bool_decide (k ∈ j :: js) = bool_decide (k ∈ js)) as ->; [|done].
      apply bool_decide_ext. rewrite elem_of_cons. tauto.
Qed.

(** The order of the writes: every slot once, the sender's last. *)
Definition write_order (i : nat) : list nat := other_slots i ++ [i].
Lemma elem_of_slots j : j ∈ seq 1 (MAX_CLIENTS - 1) ↔ slot j.
Proof. rewrite elem_of_seq. unfold slot, MAX_CLIENTS. lia. Qed.
Lemma other_slots_not i : i ∉ other_slots i.
Proof. unfold other_slots. rewrite list_elem_of_filter. tauto. Qed.
Lemma other_slots_nodup i : NoDup (other_slots i).
Proof. apply NoDup_filter, NoDup_seq. Qed.
Lemma write_order_perm i : slot i → write_order i ≡ₚ seq 1 (MAX_CLIENTS - 1).
Proof.
  intros Hi. apply NoDup_Permutation.
  - apply NoDup_app. split; [apply other_slots_nodup|]. split; [|apply NoDup_singleton].
    intros j Hj. rewrite list_elem_of_singleton. intros ->. exact (other_slots_not i Hj).
  - apply NoDup_seq.
  - intros j. unfold write_order, other_slots. rewrite elem_of_app, list_elem_of_filter, list_elem_of_singleton.
    rewrite elem_of_slots. destruct (decide (i = j)) as [->|]; intuition congruence.
Qed.
Lemma deliveries_app s l ok js ks :
  deliveries s l ok (js ++ ks) = deliveries s l ok js ++ deliveries s l ok ks.
Proof. unfold deliveries. rewrite fmap_app, concat_app. done. Qed.

Lemma client_turn_chunk s i ready buff h :
  valid s → slot i → is_open s i = true → ready (socket i s) = true →
  n_read (socket i s) (net s) = (buff, h) → buff ≠ [] →
  write_order i ≡ₚ seq 1 (MAX_CLIENTS - 1) ∧
  ∃ (s' : ir H) (ok : nat → bool),
    client_turn ready i s = (if deserted s' then inr s' else inl s') ∧ valid s' ∧
    log s' = log s ++ Read (socket i s) buff :: deliveries s buff ok (write_order i) ∧
    ∀ k, slot k → socket k s' = if is_open s k && negb (ok k) then -1 else socket k s.
Proof.
  intros Hv Hi Ho Hr Hread Hb. split; [apply write_order_perm, Hi|].
  unfold client_turn. change (0 <=? socket i s) with (is_open s i). rewrite Ho, Hr, Hread. cbn [andb].
  destruct buff as [|b buff]; [done|]. cbv zeta. cbn [sockets log]. set (l := b :: buff). set (s0 := Ir (sockets s) (log s ++ [Read (socket i s) l]) h).
  destruct (deliver_others l i (other_slots i)) with (s := s0) as (s1 & ok1 & E1 & Hv1 & Hl1 & Hk1);
    [apply other_slots_nodup|apply other_slots_not|exact Hi| |exact Hv|exact Ho|].
  { intros j Hj. unfold other_slots in Hj. apply list_elem_of_filter in Hj as [_ Hj]. apply elem_of_slots, Hj. }
  assert (socket i s1 = socket i s) as Ei.
  { rewrite Hk1. unfold after. rewrite bool_decide_false by apply other_slots_not. done. }
  destruct (send_to_spec s1 l i Hv1 Hi) as (s2 & ok2 & E2 & Hv2 & Hl2 & Hk2).
  exists s2, (λ k, if decide (k = i) then ok2 else ok1 k).
  split; [|split; [exact Hv2|split]].
  - change (each _ _ s0) with (each (send_open l) (other_slots i) s0). rewrite E1. cbn [and_then]. rewrite E2.
    destruct ok2; [|done]. rewrite (not_deserted s2 i); [done|exact Hv2|exact Hi|].
    unfold is_open. rewrite Hk2, decide_True by done. cbn [kept_open]. rewrite Ei. exact Ho.
  - rewrite Hl2, Hl1, Ei, <- !app_assoc. unfold write_order. rewrite deliveries_app, deliveries_one, Ho, decide_True by done.
    unfold s0 at 1. cbn [log]. rewrite <- app_assoc. f_equal. cbn [app]. f_equal. f_equal. apply deliveries_ext. intros k Hk. split; [done|].
    rewrite decide_False; [done|]. intros ->. exact (other_slots_not i Hk).
  - intros k Hk. rewrite Hk2. destruct (decide (k = i)) as [->|Hne].
    + rewrite Ei, Ho. destruct ok2; done.
    + rewrite Hk1. unfold after. rewrite bool_decide_true.
      * change (is_open s0 k) with (is_open s k). change (socket k s0) with (socket k s).
        unfold kept_open. destruct (is_open s k), (ok1 k); done.
      * unfold other_slots. apply list_elem_of_filter. split; [congruence|]. apply elem_of_slots, Hk.
Qed.

(** What one brick sends reaches every brick. When the socket of a client is ready
    and a chunk is read from it, the chunk is written exactly once to every connected
    client - first to the others in the order of their entries, then to the sender,
    which reads its own light -, whatever the writes to the others return; exactly the
    clients whose write failed are closed and lose their entry, the sender included;
    and the server ends exactly when no client is left, so never in the middle. *)
Theorem ir_broadcast s i ready buff h :
  valid s → slot i → is_open s i = true → ready (socket i s) = true →
  n_read (socket i s) (net s) = (buff, h) → buff ≠ [] →
  write_order i ≡ₚ seq 1 (MAX_CLIENTS - 1) ∧
  ∃ (s' : ir H) (ok : nat → bool),
    client_turn ready i s = (if deserted s' then inr s' else inl s') ∧ valid s' ∧
    log s' = log s ++ Read (socket i s) buff :: deliveries s buff ok (write_order i) ∧
    ∀ k, slot k → socket k s' = if is_open s k && negb (ok k) then -1 else socket k s.
Proof. exact (client_turn_chunk s i ready buff h). Qed.
(** The end of a connection: the entry is free again. *)
Lemma client_hangs_up s i ready h :
  valid s → slot i → is_open s i = true → ready (socket i s) = true → n_read (socket i s) (net s) = ([], h) →
  ∃ s' : ir H, client_turn ready i s = (if deserted s' then inr s' else inl s') ∧ valid s' ∧
    log s' = log s ++ [Closed (socket i s)] ∧ ∀ k, socket k s' = if decide (k = i) then -1 else socket k s.
Proof.
  intros Hv [_ Hi] Ho Hr Hread. unfold client_turn. change (0 <=? socket i s) with (is_open s i).
  rewrite Ho, Hr, Hread. cbn [andb]. rewrite drop_client_eq. eexists. split; [reflexivity|].
  unfold dropped. cbn [log sockets]. split; [unfold valid; cbn [sockets]; rewrite length_insert; exact Hv|].
  split; [done|]. intros k. apply (socket_insert s); assumption.
Qed.

(** The server ends only when no client is left. *)
Definition good (r : ir H + ir H) : Prop :=
  match r with inl s => valid s | inr s => valid s ∧ deserted s = true end.
Lemma good_drop i s : valid s → good (drop_client i s).
Proof.
  intros Hv. rewrite drop_client_eq. assert (valid (dropped i s)) as Hd.
  { unfold valid, dropped. cbn [sockets]. rewrite length_insert. exact Hv. }
  destruct (deserted (dropped i s)) eqn:E; cbn; auto.
Qed.
Lemma good_and_then r (f : ir H → ir H + ir H) : good r → (∀ s, valid s → good (f s)) → good (and_then r f).
Proof. destruct r; cbn; auto. Qed.
Lemma good_each (f : nat → ir H → ir H + ir H) js :
  (∀ j s, valid s → good (f j s)) → ∀ s, valid s → good (each f js s).
Proof. intros Hf. induction js as [|j js IH]; intros s Hv; [exact Hv|]. apply good_and_then; auto. Qed.
Lemma good_send l i s : valid s → good (send_to l i s).
Proof. intros Hv. unfold send_to. destruct (n_write _ _ _) as [[|] h]; [exact Hv|]. apply good_drop, Hv. Qed.
Lemma good_client_turn ready i s : valid s → good (client_turn ready i s).
Proof.
  intros Hv. unfold client_turn. destruct (_ && _); [|exact Hv]. destruct (n_read _ _) as [[|b l] h]; [apply good_drop, Hv|].
  apply good_and_then; [|intros; apply good_send; assumption]. apply good_each; [|exact Hv].
  intros j s' Hv'. destruct (_ <=? _); [apply good_send|]; exact Hv'.
Qed.
Lemma good_server_turn s : valid s → good (server_turn s).
Proof.
  intros Hv. unfold server_turn. destruct (n_select _ _) as [ready h].
  assert (∀ s', valid s' → good (each (client_turn ready) (seq 1 (MAX_CLIENTS - 1)) s')) as Hturns.
  { intros s' Hv'. apply good_each; [|exact Hv']. intros. apply good_client_turn. assumption. }
  destruct (ready _); [|apply Hturns, Hv]. destruct (n_accept _) as [c h']. destruct (c =? -1); [exact Hv|].
  destruct (free_slot _ _) as [i|]; apply Hturns; [|exact Hv].
  unfold valid. cbn [sockets]. rewrite length_insert. exact Hv.
Qed.
(** However long the server runs and whatever the network does, its table keeps its
    1000 entries; when it has ended, no client is connected. *)
Theorem server_good n fd (h : H) : good (server n (ir_start fd h)).
Proof.
  assert (valid (ir_start fd h)) as Hv.
  { unfold valid, ir_start. cbn [sockets length]. rewrite length_replicate. done. }
  revert Hv. generalize (ir_start fd h). induction n as [|n IH]; intros s Hv; [exact Hv|].
  apply good_and_then; [apply good_server_turn, Hv|exact IH].
Qed.

(** ** All bricks hear the same

    What a client has received, from the log. *)
Definition received_in (fd : Z) (e : event) : list Z :=
  match e with Written fd' l true => if fd' =? fd then l else [] | _ => [] end.
Definition received (fd : Z) (es : list event) : list Z := concat (received_in fd <$> es).
Definition distinct s : Prop := ∀ j k, slot j → slot k → is_open s j = true → is_open s k = true →
  socket j s = socket k s → j = k.
Lemma received_app fd es es' : received fd (es ++ es') = received fd es ++ received fd es'.
Proof. unfold received. rewrite fmap_app, concat_app. done. Qed.
Lemma received_delivery fd fd' l ok :
  received fd (delivery fd' l ok) = if (fd' =? fd) && ok then l else [].
Proof. unfold delivery, received. destruct ok; cbn; [|rewrite andb_false_r; done]. rewrite andb_true_r, app_nil_r. done. Qed.
Lemma received_others fd s l ok js :
  (∀ j, j ∈ js → is_open s j = true → socket j s ≠ fd) → received fd (deliveries s l ok js) = [].
Proof.
  intros Hne. induction js as [|j js IH]; [done|]. rewrite deliveries_cons, received_app, IH, app_nil_r.
  - destruct (is_open s j) eqn:E; [|done]. rewrite received_delivery.
    rewrite (proj2 (Z.eqb_neq _ _)) by (apply Hne; [apply list_elem_of_here|exact E]). done.
  - intros k Hk. apply Hne, list_elem_of_further, Hk.
Qed.
Lemma received_once s l ok js k :
  NoDup js → (∀ j, j ∈ js → slot j) → distinct s → k ∈ js → is_open s k = true → ok k = true →
  received (socket k s) (deliveries s l ok js) = l.
Proof.
  intros Hnd Hjs Hd Hk Ho Hok. apply list_elem_of_split in Hk as (l1 & l2 & ->).
  assert (∀ j, j ∈ l1 ∨ j ∈ l2 → is_open s j = true → socket j s ≠ socket k s) as Hne.
  { intros j Hj Hoj E. assert (j = k) as ->.
    { apply Hd; try assumption; apply Hjs; rewrite elem_of_app, elem_of_cons; tauto. }
    apply NoDup_app in Hnd as (_ & H1 & H2). apply NoDup_cons in H2 as [H2 _].
    destruct Hj as [Hj|Hj]; [|done]. apply (H1 k Hj), list_elem_of_here. }
  rewrite deliveries_app, deliveries_cons, !received_app, Ho, received_delivery, Z.eqb_refl, Hok.
  rewrite !received_others by (intros; apply Hne; tauto). cbn. apply app_nil_r.
Qed.

(** Every client that is still there has received the same bytes. *)
Definition same_bytes s (r : ir H + ir H) : Prop :=
  match r with
  | inl s' => valid s' ∧ (∀ k, slot k → is_open s' k = true → is_open s k = true ∧ socket k s' = socket k s) ∧
      ∃ bytes, ∀ k, slot k → is_open s' k = true →
        received (socket k s') (log s') = received (socket k s') (log s) ++ bytes
  | inr _ => True
  end.
Lemma same_bytes_refl s h : valid s → same_bytes s (inl (Ir (sockets s) (log s) h)).
Proof. intros Hv. split; [exact Hv|]. split; [auto|]. exists []. intros. rewrite app_nil_r. done. Qed.
Lemma same_bytes_then s r f :
  same_bytes s r → (∀ s', r = inl s' → valid s' → same_bytes s' (f s')) → same_bytes s (and_then r f).
Proof.
  destruct r as [s'|s']; [|done]. intros (Hv & Hk & bytes & Hb) Hf. specialize (Hf s' eq_refl Hv). cbn [and_then].
  destruct (f s') as [s2|]; [|done]. destruct Hf as (Hv2 & Hk2 & bytes2 & Hb2). split; [exact Hv2|]. split.
  - intros k Hs Ho. destruct (Hk2 k Hs Ho) as [Ho' E]. destruct (Hk k Hs Ho') as [Ho'' E']. split; congruence.
  - exists (bytes ++ bytes2). intros k Hs Ho. destruct (Hk2 k Hs Ho) as [Ho' E]. rewrite Hb2 by assumption.
    rewrite E, Hb, app_assoc by assumption. done.
Qed.
Lemma distinct_after s s' : distinct s →
  (∀ k, slot k → is_open s' k = true → is_open s k = true ∧ socket k s' = socket k s) → distinct s'.
Proof.
  intros Hd Hk j k Hj Hsk Hoj Hok E. destruct (Hk j Hj Hoj) as [? Ej], (Hk k Hsk Hok) as [? Ek].
  apply Hd; try assumption. congruence.
Qed.
Lemma client_turn_same ready i s : valid s → distinct s → slot i → same_bytes s (client_turn ready i s).
Proof.
  intros Hv Hd Hi. destruct (is_open s i) eqn:Ho.
  2:{ unfold client_turn. change (0 <=? socket i s) with (is_open s i). rewrite Ho. destruct s. apply same_bytes_refl, Hv. }
  destruct (ready (socket i s)) eqn:Hr.
  2:{ unfold client_turn. rewrite Hr, andb_false_r. destruct s. apply same_bytes_refl, Hv. }
  destruct (n_read (socket i s) (net s)) as [[|b buff] h] eqn:Hread.
  - destruct (client_hangs_up s i ready h Hv Hi Ho Hr Hread) as (s' & -> & Hv' & Hl & Hk).
    destruct (deserted s'); [done|]. split; [exact Hv'|]. split.
    + intros k _. unfold is_open. rewrite Hk. destruct (decide (k = i)); [done|]. auto.
    + exists []. intros k _ _. rewrite Hl, received_app. done.
  - destruct (client_turn_chunk s i ready _ h Hv Hi Ho Hr Hread) as (Hperm & s' & ok & -> & Hv' & Hl & Hk); [discriminate|].
    destruct (deserted s'); [done|].
    assert (∀ k, slot k → is_open s' k = true → is_open s k = true ∧ ok k = true ∧ socket k s' = socket k s) as Hopen.
    { intros k Hs. unfold is_open. rewrite (Hk k Hs). unfold is_open. destruct (0 <=? socket k s) eqn:E, (ok k); cbn; auto; congruence. }
    split; [exact Hv'|]. split; [intros k Hs Ho'; destruct (Hopen k Hs Ho') as (? & _ & ?); auto|].
    exists (b :: buff). intros k Hs Ho'. destruct (Hopen k Hs Ho') as (Hok & Hokk & Ek). rewrite Hl, received_app, Ek.
    f_equal. apply received_once; try assumption.
    + rewrite Hperm. apply NoDup_seq.
    + intros j. rewrite Hperm. apply elem_of_slots.
    + rewrite Hperm. apply elem_of_slots, Hs.
Qed.
Lemma turns_same ready js : (∀ j, j ∈ js → slot j) → ∀ s, valid s → distinct s →
  same_bytes s (each (client_turn ready) js s).
Proof.
  induction js as [|j js IH]; intros Hjs s Hv Hd; [destruct s; apply same_bytes_refl, Hv|]. cbn [each].
  pose proof (client_turn_same ready j s Hv Hd (Hjs j (list_elem_of_here _ _))) as Hj. apply same_bytes_then; [exact Hj|].
  intros s' E Hv'. rewrite E in Hj. destruct Hj as (_ & Hk & _).
  apply IH; [intros k Hk'; apply Hjs, list_elem_of_further, Hk'|exact Hv'|exact (distinct_after s s' Hd Hk)].
Qed.
Lemma free_slot_spec js s i : free_slot js s = Some i → i ∈ js ∧ is_open s i = false.
Proof.
  induction js as [|j js IH]; [done|]. cbn [free_slot]. destruct (Z.eqb_spec (socket j s) (-1)) as [E|].
  - intros [= ->]. split; [apply list_elem_of_here|]. unfold is_open. rewrite E. done.
  - intros Hf. destruct (IH Hf). split; [apply list_elem_of_further|]; assumption.
Qed.
Lemma distinct_new s i c lg h : valid s → distinct s → slot i →
  (∀ k, slot k → is_open s k = true → socket k s ≠ c) → distinct (Ir (<[i := c]> (sockets s)) lg h).
Proof.
  intros Hv Hd Hi Hc j k Hj Hk. unfold is_open. rewrite !(socket_insert s) by (assumption || apply Hi).
  destruct (decide (j = i)), (decide (k = i)); intros Hoj Hok E; subst; try done.
  - destruct (Hc k Hk Hok). done.
  - destruct (Hc j Hj Hoj). done.
  - apply Hd; assumption.
Qed.

(** All bricks hear the same light in the same order. Whatever arrives in one turn of
    the server, from however many clients, and whichever writes fail: every client
    that is connected afterwards - one that was accepted in this turn included - has
    received the same bytes in the same order; and no two entries of the table name
    the same connection. *)
Theorem ir_total_order s :
  valid s → distinct s →
  (∀ h c h', n_accept h = (c, h') → c ≠ -1 → ∀ k, slot k → is_open s k = true → socket k s ≠ c) →
  match server_turn s with
  | inl s' => valid s' ∧ distinct s' ∧
      ∃ bytes, ∀ k, slot k → is_open s' k = true →
        received (socket k s') (log s') = received (socket k s') (log s) ++ bytes
  | inr s' => deserted s' = true
  end.
Proof.
  intros Hv Hd Hacc.
  assert (∀ r s0, valid s0 → distinct s0 → (∀ fd, received fd (log s0) = received fd (log s)) → same_bytes s0 r → good r →
    match r with
    | inl s' => valid s' ∧ distinct s' ∧ ∃ bytes, ∀ k, slot k → is_open s' k = true →
        received (socket k s') (log s') = received (socket k s') (log s) ++ bytes
    | inr s' => deserted s' = true
    end) as Hfinish.
  { intros [s'|s'] s0 Hv0 Hd0 Hl0 Hs Hg; [|apply Hg]. destruct Hs as (Hv' & Hk & bytes & Hb).
    split; [exact Hv'|]. split; [exact (distinct_after s0 s' Hd0 Hk)|]. exists bytes. intros k Hsk Ho.
    rewrite Hb, Hl0 by assumption. done. }
  pose proof (good_server_turn s Hv) as Hgood. revert Hgood. unfold server_turn. destruct (n_select _ _) as [ready h].
  assert (∀ j, j ∈ seq 1 (MAX_CLIENTS - 1) → slot j) as Hslots by (intros j; apply elem_of_slots).
  destruct (ready _); [|intros Hg; eapply Hfinish; [| | |apply turns_same; [exact Hslots| |]|exact Hg]; done].
  cbn [net]. destruct (n_accept h) as [c h'] eqn:Ea. destruct (Z.eqb_spec c (-1)) as [|Hc].
  { intros Hg. exact (Hfinish (inl (Ir (sockets s) (log s) h')) s Hv Hd (λ _, eq_refl) (same_bytes_refl s h' Hv) Hg). }
  destruct (free_slot _ _) as [i|] eqn:Ef; intros Hg.
  - apply free_slot_spec in Ef as [Hi _]. apply Hslots in Hi. cbn [sockets log net] in *.
    assert (valid (Ir (<[i := c]> (sockets s)) (log s ++ [Accepted c]) h')) as Hv' by (unfold valid; cbn [sockets]; rewrite length_insert; exact Hv).
    assert (distinct (Ir (<[i := c]> (sockets s)) (log s ++ [Accepted c]) h')) as Hd' by (apply distinct_new; try assumption; eapply Hacc; eassumption).
    eapply Hfinish; [exact Hv'|exact Hd'| |apply turns_same; assumption|exact Hg].
    intros fd. cbn [log]. rewrite received_app. apply app_nil_r.
  - cbn [sockets log net] in *. eapply (Hfinish _ (Ir (sockets s) ((log s ++ [Accepted c]) ++ [Closed c]) (n_close c h'))); [exact Hv|exact Hd| |apply turns_same; assumption|exact Hg].
    intros fd. cbn [log]. rewrite !received_app. rewrite !app_nil_r. done.
Qed.
End Broadcast.

(** ** Witness: three bricks, one of which has gone

    A network in which 5 sends two bytes and the write to 6 fails. *)
#[local] Instance three_bricks : Network unit := {
  n_select _ h := ((λ fd, fd =? 5), h); n_accept h := (-1, h);
  n_read _ h := ([0x55; 0xff], h); n_write fd _ h := (negb (fd =? 6), h); n_close _ h := h }.
Definition bricks_open : ir unit := Ir (3 :: 4 :: 5 :: 6 :: replicate 996 (-1)) [] tt.
Lemma bricks_valid : valid bricks_open ∧ slot 2.
Proof. split; [reflexivity|unfold slot, MAX_CLIENTS; lia]. Qed.
Lemma ir_broadcast_witness :
  (∃ s' : ir unit, ∃ ok, client_turn (λ fd, fd =? 5) 2 bricks_open = (if deserted s' then inr s' else inl s') ∧
    log s' = Read 5 [0x55; 0xff] :: deliveries bricks_open [0x55; 0xff] ok (write_order 2)) ∧
  match client_turn (λ fd, fd =? 5) 2 bricks_open with
  | inl s => log s = [Read 5 [0x55; 0xff]; Written 4 [0x55; 0xff] true; Written 6 [0x55; 0xff] false; Closed 6; Written 5 [0x55; 0xff] true]
             ∧ take 4 (sockets s) = [3; 4; 5; -1]
  | inr _ => False
  end.
Proof.
  split; [|vm_compute; done]. destruct bricks_valid as [Hv Hi].
  destruct (ir_broadcast bricks_open 2 (λ fd, fd =? 5) [0x55; 0xff] tt Hv Hi) as [_ (s' & ok & E & _ & El & _)];
    [reflexivity|reflexivity|reflexivity|discriminate|]. exists s', ok. split; [exact E|exact El].
Defined.

(** Two of three bricks speak at once. *)
#[local] Instance two_speak : Network unit := {
  n_select _ h := ((λ fd, (fd =? 4) || (fd =? 6)), h); n_accept h := (-1, h);
  n_read fd h := ([fd; 0xff], h); n_write _ _ h := (true, h); n_close _ h := h }.
Lemma bricks_distinct : distinct bricks_open.
Proof.
  assert (∀ k, slot k → is_open bricks_open k = true → socket k bricks_open = Z.of_nat k + 3) as Hk.
  { intros k [Hk1 Hk2] Ho. do 4 (destruct k as [|k]; [lia || reflexivity|]). exfalso. revert Ho.
    unfold is_open, socket. cbn [sockets bricks_open nth]. rewrite nth_lookup.
    destruct (_ !! k) as [v|] eqn:E; [|done]. apply lookup_replicate in E as [-> _]. done. }
  intros j k Hj Hsk Hoj Hok E. rewrite !Hk in E by assumption. lia.
Qed.
Lemma nobody_new (h : unit) c h' : n_accept h = (c, h') → c = -1.
Proof. cbn. congruence. Qed.
Lemma ir_total_order_witness :
  match server_turn bricks_open with
  | inl s' => distinct s' ∧ received 5 (log s') = [4; 0xff; 6; 0xff] ∧ received 6 (log s') = [4; 0xff; 6; 0xff]
  | inr _ => False
  end.
Proof.
  pose proof (ir_total_order bricks_open (proj1 bricks_valid) bricks_distinct
    (λ h c h' E Hc, False_ind _ (Hc (nobody_new h c h' E)))) as Ht.
  destruct (server_turn bricks_open) as [s'|s'] eqn:E; [|vm_compute in E; discriminate E].
  destruct Ht as (_ & Hd & _). split; [exact Hd|]. vm_compute in E. injection E as <-. split; reflexivity.
Defined.
