(* ===== verification/Infrared.v ===== *)
(** * Infrared: bricks that talk through the server

    The serial interfaces of many emulators and the server that connects them.  What the
    operating system does with the connections is the class [Streams]; the system is a
    step relation, in which the programs of the bricks, the updates of their serial
    interfaces and the turns of the server come in any order, and emulators come and go. *)
From S2P Require Export IrServerProps Serial.

(** [up]: what the client of a connection has written and the server has not read.  [opened]: the
    descriptors in use.  [put]: a client writes. *)
Class Connections (H : Type) := { up : H → Z → list Z; opened : H → Z → bool; put : Z → list Z → H → H }.
Definition alike {H} `{!Connections H} (h h' : H) (fd : Z) : Prop := up h' fd = up h fd ∧ opened h' fd = opened h fd.
(** A connection keeps the order of the bytes and loses none; each call touches its own descriptor
    only; a descriptor of [accept] is not one in use.  Nothing is said about when a descriptor is
    ready, when clients connect and whether a call fails: a [read] may return nothing at any time,
    as at the end of a connection. *)
Class Streams (H : Type) `{!Network H, !Connections H} := {
  put_up fd l h fd' : up (put fd l h) fd' = if fd =? fd' then up h fd' ++ l else up h fd';
  put_opened fd l h fd' : opened (put fd l h) fd' = opened h fd';
  select_alike l h fd : alike h (n_select l h).2 fd;
  read_alike fd h fd' : fd' ≠ fd → alike h (n_read fd h).2 fd';
  read_opened fd h : opened (n_read fd h).2 fd = opened h fd;
  read_up fd h : (n_read fd h).1 ≠ [] → up h fd = (n_read fd h).1 ++ up (n_read fd h).2 fd;
  write_alike fd l h fd' : alike h (n_write fd l h).2 fd';
  close_alike fd h fd' : fd' ≠ fd → alike h (n_close fd h) fd';
  accept_alike h fd : fd ≠ (n_accept h).1 → alike h (n_accept h).2 fd;
  accept_new h : (n_accept h).1 ≠ -1 →
    opened h (n_accept h).1 = false ∧ opened (n_accept h).2 (n_accept h).1 = true }.

(** ** What has gone through the server, from its log *)
Abbreviation traffic := (list (Z * Z)).
(** The bytes that were read, each with the connection of its sender. *)
Definition spoken_in (e : event) : traffic := match e with Read fd l => pair fd <$> l | _ => [] end.
Definition spoken (es : list event) : traffic := concat (spoken_in <$> es).
Definition from (fd : Z) (T : traffic) : list Z := (filter (λ x, x.1 = fd) T).*2.
(** The log since the connection [fd] was accepted. *)
Definition since_step (fd : Z) (es : list event) (e : event) : list event :=
  match e with Accepted fd' => if fd' =? fd then [] else es ++ [e] | _ => es ++ [e] end.
Definition since (fd : Z) (es : list event) : list event := fold_left (since_step fd) es [].

(** What the program of a brick does to take a received byte: it reads SSR and RDR and writes SSR
    with RDRF 0. *)
Definition take_byte (c : clock) (s : ser) : ser * Z :=
  let '(s, x) := get_SSR s in
  ((set_SSR (x &! Z.lnot SSR_RDRF) s c).1, get_RDR s).
(** The test of [ser_update_time] before [read]. *)
Definition rx_due (s : ser) (c : clock) : bool := 0 <=? s32 (cycles c - rx_cycle s).
(** RDRF and ORER of SSR, and the byte that waits in RDR. *)
Definition rdrf (b : ser) : bool := Z.testbit (ssr (regs b)) 6.
Definition overrun (b : ser) : bool := Z.testbit (ssr (regs b)) 5.
Definition in_rdr (b : ser) : list Z := if rdrf b then [rdr (regs b)] else [].
(** Both directions are enabled, with 8 bits. *)
Definition working (b : ser) : Prop :=
  (scr (regs b) &? SCR_TE) = true ∧ (scr (regs b) &? SCR_RE) = true ∧ (smr (regs b) &? SMR_CHR) = false.

Section System.
Context {H : Type} `{!Network H}.

(** The bricks by their entry in the table of the server; [nread] counts the bytes a brick has read
    from its connection.  [said] and [taken] are the programs' own records. *)
Record world := World {
  brick_at : nat → ser; nread : nat → nat; said : nat → list Z; taken : nat → list Z; the_server : ir H }.
Definition at_brick {A} (k : nat) (v : A) (f : nat → A) : nat → A := λ j, if decide (j = k) then v else f j.
Definition connected (w : world) (k : nat) : Prop := slot k ∧ is_open (the_server w) k = true.
(** What went through the server since the brick of an entry was accepted, and what the server has
    written to its connection. *)
Definition overheard (w : world) (k : nat) : traffic :=
  spoken (since (socket k (the_server w)) (log (the_server w))).
Definition delivered (w : world) (k : nat) : list Z :=
  received (socket k (the_server w)) (since (socket k (the_server w)) (log (the_server w))).
Definition incoming (w : world) (k : nat) : option Z := delivered w k !! nread w k.

Context `{!Connections H}.
(** What the client of an entry has written and the server has not read. *)
Definition unread (w : world) (k : nat) : list Z := up (net (the_server w)) (socket k (the_server w)).
(** What an operation of brick [k] writes goes to its connection. *)
Definition put_brick (k : nat) (b : ser) (w : world) : world :=
  let s := the_server w in
  let new := drop (length (tx_line (brick_at w k))) (tx_line b) in
  World (at_brick k b (brick_at w)) (nread w) (said w) (taken w)
    (Ir (sockets s) (log s) (put (socket k s) new (net s))).
Definition brick_sends (k : nat) (v : Z) (c : clock) (w : world) : world :=
  let w := put_brick k (send_byte v c (brick_at w k)) w in
  World (brick_at w) (nread w) (at_brick k (said w k ++ [v]) (said w)) (taken w) (the_server w).
Definition brick_updates (k : nat) (c : clock) (w : world) : world :=
  let rx := incoming w k in
  let read := if rx_due (brick_at w k) c && bool_decide (is_Some rx) then S (nread w k) else nread w k in
  let w := put_brick k (ser_update_time rx (brick_at w k) c).1 w in
  World (brick_at w) (at_brick k read (nread w)) (said w) (taken w) (the_server w).
Definition brick_takes (k : nat) (c : clock) (w : world) : world :=
  let '(b, v) := take_byte c (brick_at w k) in
  let w := put_brick k b w in
  World (brick_at w) (nread w) (said w) (at_brick k (taken w k ++ [v]) (taken w)) (the_server w).

(** A brick that has just been accepted: it may have sent before, but has read nothing yet. *)
Record newcomer (w : world) (k : nat) : Prop := {
  nc_working : working (brick_at w k); nc_rdr : rdrf (brick_at w k) = false;
  nc_nread : nread w k = 0%nat; nc_taken : taken w k = [];
  nc_said : said w k = tx_line (brick_at w k) ++ held (brick_at w k);
  nc_line : tx_line (brick_at w k) = from (socket k (the_server w)) (overheard w k) ++ unread w k }.
Definition same_brick (w w' : world) (k : nat) : Prop :=
  brick_at w' k = brick_at w k ∧ nread w' k = nread w k ∧ said w' k = said w k ∧ taken w' k = taken w k.

(** Programs send when TDRE is 1 and take a byte when RDRF is 1.  [step_outside]: emulators start,
    connect and end.  A turn of the server may accept a connection and drop others. *)
Inductive ir_step : world → world → Prop :=
  | step_sends k v c w : connected w k → tdre (brick_at w k) = true → ir_step w (brick_sends k v c w)
  | step_updates k c w : connected w k → ir_step w (brick_updates k c w)
  | step_takes k c w : connected w k → (ssr (regs (brick_at w k)) &? SSR_RDRF) = true → ir_step w (brick_takes k c w)
  | step_outside w h : (∀ fd, alike (net (the_server w)) h fd) →
      ir_step w (World (brick_at w) (nread w) (said w) (taken w) (Ir (sockets (the_server w)) (log (the_server w)) h))
  | step_server w w' : server_turn (the_server w) = inl (the_server w') →
      (∀ k, connected w k → same_brick w w' k) →
      (∀ k, connected w' k → ¬ connected w k → newcomer w' k) → ir_step w w'.
End System.
Arguments world : clear implicits.
