(* ===== verification/InfraredProps.v ===== *)
(** * InfraredProps: what one brick says, all bricks take *)
From S2P Require Export Infrared.

(** ** The log of the server *)
Lemma from_app fd T T' : from fd (T ++ T') = from fd T ++ from fd T'.
Proof. unfold from. rewrite filter_app, fmap_app. done. Qed.
Lemma from_tagged fd i l : from fd (pair i <$> l) = if decide (fd = i) then l else [].
Proof.
  unfold from. induction l as [|v l IH]; cbn [fmap list_fmap]; [destruct (decide _); done|].
  rewrite filter_cons. cbn [fst]. destruct (decide (i = fd)) as [->|].
  - rewrite decide_True in * by done. cbn [fmap list_fmap snd]. f_equal. exact IH.
  - rewrite IH, !decide_False by congruence. done.
Qed.
Lemma tagged_bytes (i : Z) (l : list Z) : (pair i <$> l).*2 = l.
Proof. rewrite <- list_fmap_compose. apply list_fmap_id. Qed.
Lemma spoken_app es es' : spoken (es ++ es') = spoken es ++ spoken es'.
Proof. unfold spoken. rewrite fmap_app, concat_app. done. Qed.
Lemma spoken_delivery fd l ok : spoken (delivery fd l ok) = [].
Proof. destruct ok; done. Qed.

Definition nobody_accepted (es : list event) : Prop := Forall (λ e, ∀ fd, e ≠ Accepted fd) es.
Lemma since_snoc fd es e : since fd (es ++ [e]) = since_step fd (since fd es) e.
Proof. unfold since. rewrite fold_left_app. done. Qed.
Lemma since_app fd es es' : nobody_accepted es' → since fd (es ++ es') = since fd es ++ es'.
Proof.
  intros Hes. revert es. induction Hes as [|e es' He _ IH]; intros es; [rewrite !app_nil_r; done|].
  replace (es ++ e :: es') with ((es ++ [e]) ++ es') by (rewrite <- app_assoc; done). rewrite IH, since_snoc.
  assert (since_step fd (since fd es) e = since fd es ++ [e]) as -> by (destruct e; [destruct (He fd0)|..]; done).
  rewrite <- app_assoc. done.
Qed.
(** What is since a connection is the end of the log: all the bricks hear one sequence, from where
    they joined. *)
Lemma since_suffix fd es : ∃ before, es = before ++ since fd es.
Proof.
  induction es as [|e es [before IH]] using rev_ind; [exists []; done|]. rewrite since_snoc.
  assert (∃ b, es ++ [e] = b ++ since fd es ++ [e]) as Hs by (exists before; rewrite IH at 1; rewrite app_assoc; done).
  destruct e; try exact Hs. cbn [since_step]. destruct (_ =? fd); [|exact Hs].
  exists (es ++ [Accepted fd0]). rewrite app_nil_r. done.
Qed.

Section Server.
Context {H : Type} `{!Network H, !Connections H, !Streams H}.
Implicit Types s : ir H.

Lemma quiet_deliveries s l ok js : nobody_accepted (deliveries s l ok js) ∧ spoken (deliveries s l ok js) = [].
Proof.
  induction js as [|j js [IH1 IH2]]; [split; [constructor|done]|]. rewrite deliveries_cons. destruct (is_open s j); [|done].
  split; [|rewrite spoken_app, spoken_delivery; exact IH2]. apply Forall_app. split; [|exact IH1].
  unfold delivery. repeat constructor; try done. destruct (ok j); repeat constructor; done.
Qed.

(** [tx]: what the client of each entry has written since it was accepted. *)
Record serves (tx : nat → list Z) s : Prop := {
  sv_valid : valid s; sv_distinct : distinct s;
  sv_opened k : slot k → is_open s k = true → opened (net s) (socket k s) = true;
  sv_out k : slot k → is_open s k = true →
    received (socket k s) (since (socket k s) (log s)) = (spoken (since (socket k s) (log s))).*2;
  sv_in k : slot k → is_open s k = true →
    tx k = from (socket k s) (spoken (since (socket k s) (log s))) ++ up (net s) (socket k s) }.
(** Nobody is new, and nothing happens to the connections that stay. *)
Definition steady s s' : Prop :=
  valid s' ∧ ∀ k, slot k → is_open s' k = true →
    is_open s k = true ∧ socket k s' = socket k s ∧ alike (net s) (net s') (socket k s').
Definition steady_run s (r : ir H + ir H) : Prop := match r with inl s' => steady s s' | inr _ => True end.
Lemma steady_refl s : valid s → steady s s.
Proof. intros Hv. split; [exact Hv|]. unfold alike. auto. Qed.
Lemma steady_distinct s s' : steady s s' → distinct s → distinct s'.
Proof.
  intros [_ Hk] Hd. apply (distinct_after s); [exact Hd|]. intros k Hs Ho. destruct (Hk k Hs Ho) as (? & ? & _). auto.
Qed.
Lemma steady_trans s1 s2 s3 : steady s1 s2 → steady s2 s3 → steady s1 s3.
Proof.
  intros [_ H1] [Hv H2]. split; [exact Hv|]. intros k Hs Ho. destruct (H2 k Hs Ho) as (Ho2 & E2 & A2 & B2).
  destruct (H1 k Hs Ho2) as (Ho1 & E1 & A1 & B1). rewrite <- E2 in *. unfold alike. split_and!; congruence.
Qed.
Lemma steady_then s r f : steady_run s r → (∀ s', r = inl s' → steady s s' → steady_run s' (f s')) →
  steady_run s (and_then r f).
Proof.
  destruct r as [s'|]; [|done]. intros H1 H2. cbn [and_then]. specialize (H2 s' eq_refl H1).
  destruct (f s') as [s2|]; [|done]. exact (steady_trans _ _ _ H1 H2).
Qed.
Lemma drop_steady j s h : valid s → distinct s → slot j → is_open s j = true →
  (∀ fd, fd ≠ socket j s → alike h (net s) fd) →
  steady_run (Ir (sockets s) (log s) h) (drop_client j s).
Proof.
  intros Hv Hd Hj Ho Hh. rewrite drop_client_eq. destruct (deserted _); [done|]. cbn [steady_run]. unfold dropped.
  split; [unfold valid; cbn [sockets]; rewrite length_insert; exact Hv|]. intros k Hk. unfold is_open.
  rewrite (socket_insert s) by (assumption || apply Hj). change (socket k (Ir _ _ _)) with (socket k s).
  destruct (decide (k = j)) as [|Hne]; [done|]. intros Hok. split; [exact Hok|]. split; [done|]. cbn [net].
  assert (socket k s ≠ socket j s) as Hfd by (intros E; apply Hne, (Hd k j); assumption).
  destruct (Hh _ Hfd) as [E1 E2], (close_alike (socket j s) (net s) _ Hfd) as [E3 E4]. split; congruence.
Qed.
Lemma send_steady l j s : valid s → distinct s → slot j → is_open s j = true → steady_run s (send_to l j s).
Proof.
  intros Hv Hd Hj Ho. unfold send_to. pose proof (write_alike (socket j s) l (net s)) as Hw.
  destruct (n_write _ _ _) as [[|] h]; cbn [snd] in Hw.
  - split; [exact Hv|]. intros k _ Hok. split; [exact Hok|]. split; [done|]. apply Hw.
  - destruct s as [ss lg h0]. apply (drop_steady j (Ir ss (lg ++ _) h) h0); try assumption. intros fd _. apply Hw.
Qed.
Lemma each_steady l js : (∀ j, j ∈ js → slot j) → ∀ s, valid s → distinct s → steady_run s (each (send_open l) js s).
Proof.
  induction js as [|j js IH]; intros Hjs s Hv Hd; [apply steady_refl, Hv|]. cbn [each]. apply steady_then.
  - unfold send_open. change (0 <=? socket j s) with (is_open s j). destruct (is_open s j) eqn:Ho; [|apply steady_refl, Hv].
    apply send_steady; try assumption. apply Hjs, list_elem_of_here.
  - intros s' _ Hs. apply IH; [intros k Hk; apply Hjs, list_elem_of_further, Hk|apply Hs|exact (steady_distinct _ _ Hs Hd)].
Qed.
Lemma client_steady ready i s : valid s → distinct s → slot i →
  let h := (n_read (socket i s) (net s)).2 in
  is_open s i = true → ready (socket i s) = true → steady_run (Ir (sockets s) (log s) h) (client_turn ready i s).
Proof.
  intros Hv Hd Hi h Ho Hr. unfold client_turn, h. change (0 <=? socket i s) with (is_open s i). rewrite Ho, Hr. cbn [andb].
  destruct (n_read (socket i s) (net s)) as [[|b buff] h'] eqn:Hread; cbn [snd].
  - apply (drop_steady i (Ir (sockets s) (log s) h') h'); try assumption. unfold alike. auto.
  - set (s0 := Ir (sockets s) (log s ++ [Read (socket i s) (b :: buff)]) h').
    change (steady_run s0 (and_then (each (send_open (b :: buff)) (other_slots i) s0) (send_to (b :: buff) i))).
    assert (∀ j, j ∈ other_slots i → slot j) as Hjs.
    { intros j Hj. unfold other_slots in Hj. apply list_elem_of_filter in Hj as [_ Hj]. apply elem_of_slots, Hj. }
    apply steady_then; [apply each_steady; assumption|]. intros s1 E Hs1.
    apply send_steady; [apply Hs1|exact (steady_distinct _ _ Hs1 Hd)|exact Hi|].
    destruct (deliver_others (b :: buff) i (other_slots i) (other_slots_nodup i) (other_slots_not i) Hi Hjs s0 Hv Ho)
      as (s1' & ok & E' & _ & _ & Hk). rewrite E in E'. injection E' as <-. unfold is_open. rewrite Hk. unfold after.
    rewrite bool_decide_false by apply other_slots_not. exact Ho.
Qed.

(** A turn of client [i]. *)
Definition turn_serves (tx : nat → list Z) s (r : ir H + ir H) : Prop :=
  match r with
  | inl s' => serves tx s' ∧ (∀ k, slot k → is_open s' k = true → is_open s k = true ∧ socket k s' = socket k s) ∧
      ∃ new, log s' = log s ++ new ∧ nobody_accepted new
  | inr _ => True
  end.
Lemma turn_idle tx s : serves tx s → turn_serves tx s (inl s).
Proof. intros Hs. split; [exact Hs|]. split; [auto|]. exists []. rewrite app_nil_r. split; [done|constructor]. Qed.
Lemma hangup_serves tx s ready i h : serves tx s → slot i → is_open s i = true → ready (socket i s) = true →
  n_read (socket i s) (net s) = ([], h) → turn_serves tx s (client_turn ready i s).
Proof.
  intros [Hv Hd Hop Hout Hin] Hi Ho Hr Hread. pose proof (client_steady ready i s Hv Hd Hi Ho Hr) as Hst.
  destruct (client_hangs_up s i ready h Hv Hi Ho Hr Hread) as (s' & E & Hv' & Hl & Hk). rewrite E, Hread in Hst.
  rewrite E. destruct (deserted s'); [done|]. cbn [steady_run snd] in Hst.
  assert (nobody_accepted [Closed (socket i s)]) as Hq by (repeat constructor; done).
  assert (∀ k, slot k → is_open s' k = true → is_open s k = true ∧ socket k s' = socket k s ∧ alike (net s) (net s') (socket k s))
    as Hkept.
  { intros k Hsk Hok. destruct (proj2 Hst k Hsk Hok) as (H1 & H2 & H3 & H4). cbn [net] in *. rewrite H2 in *.
    split; [exact H1|]. split; [done|]. assert (socket k s ≠ socket i s) as Hne.
    { intros Eq. assert (k = i) as -> by (apply Hd; assumption). unfold is_open in Hok. rewrite Hk, decide_True in Hok; done. }
    change (socket k (Ir _ _ _)) with (socket k s) in *.
    destruct (read_alike (socket i s) (net s) _ Hne) as [A B]. rewrite Hread in A, B. cbn [snd] in A, B. split; congruence. }
  split; [|split].
  - constructor; [exact Hv'|apply (distinct_after s); [exact Hd|]; intros k Hsk Hok; destruct (Hkept k Hsk Hok) as (? & ? & _); auto|..];
      intros k Hsk Hok; destruct (Hkept k Hsk Hok) as (Hok' & Ek & A & B); rewrite Ek, ?A, ?B.
    + apply Hop; assumption.
    + rewrite Hl, since_app, received_app, spoken_app, fmap_app, Hout by assumption. done.
    + rewrite Hl, since_app, spoken_app, from_app by assumption. cbn. rewrite app_nil_r. apply Hin; assumption.
  - intros k Hsk Hok. destruct (Hkept k Hsk Hok) as (? & ? & _). auto.
  - exists [Closed (socket i s)]. auto.
Qed.
Lemma chunk_received s i l ok k : valid s → distinct s → slot i → slot k → is_open s k = true → ok k = true →
  received (socket k s) (Read (socket i s) l :: deliveries s l ok (write_order i)) = l.
Proof.
  intros Hv Hd Hi Hk Ho Hok. pose proof (write_order_perm i Hi) as Hperm.
  change (received ?fd (Read ?a ?b :: ?es)) with (received fd es). apply received_once; try assumption.
  - rewrite Hperm. apply NoDup_seq.
  - intros j. rewrite Hperm. apply elem_of_slots.
  - rewrite Hperm. apply elem_of_slots, Hk.
Qed.
Lemma chunk_serves tx s ready i l h : serves tx s → slot i → is_open s i = true → ready (socket i s) = true →
  n_read (socket i s) (net s) = (l, h) → l ≠ [] → turn_serves tx s (client_turn ready i s).
Proof.
  intros [Hv Hd Hop Hout Hin] Hi Ho Hr Hread Hl. pose proof (client_steady ready i s Hv Hd Hi Ho Hr) as Hst.
  destruct (client_turn_chunk s i ready l h Hv Hi Ho Hr Hread Hl) as (_ & s' & ok & E & Hv' & Hlog & Hk).
  rewrite E, Hread in Hst. rewrite E. destruct (deserted s'); [done|]. cbn [steady_run snd] in Hst.
  set (new := Read (socket i s) l :: deliveries s l ok (write_order i)) in *.
  destruct (quiet_deliveries s l ok (write_order i)) as [Hq Hsp].
  assert (nobody_accepted new) as Hq' by (constructor; [done|exact Hq]).
  assert (spoken new = pair (socket i s) <$> l) as Hsp'.
  { change (spoken new) with ((pair (socket i s) <$> l) ++ spoken (deliveries s l ok (write_order i))).
    rewrite Hsp, app_nil_r. done. }
  assert (∀ k, slot k → is_open s' k = true → is_open s k = true ∧ ok k = true ∧ socket k s' = socket k s ∧
    alike h (net s') (socket k s)) as Hkept.
  { intros k Hsk Hok. destruct (proj2 Hst k Hsk Hok) as (H1 & H2 & H3). cbn [net] in H3.
    change (socket k (Ir _ _ _)) with (socket k s) in *. rewrite H2 in H3. change (is_open s k = true) in H1.
    split; [exact H1|]. split; [|split; [exact H2|exact H3]]. unfold is_open in Hok. rewrite (Hk k Hsk), H1 in Hok.
    destruct (ok k); done. }
  split; [|split].
  - constructor; [exact Hv'|apply (distinct_after s); [exact Hd|]; intros k Hsk Hok; destruct (Hkept k Hsk Hok) as (? & _ & ? & _); auto|..];
      intros k Hsk Hok; destruct (Hkept k Hsk Hok) as (Hok' & Hokk & Ek & A & B); rewrite Ek, ?A, ?B.
    + destruct (decide (socket k s = socket i s)) as [->|Hne].
      * pose proof (read_opened (socket i s) (net s)) as Ho2. rewrite Hread in Ho2. rewrite <- (Hop i Hi Ho). exact Ho2.
      * destruct (read_alike (socket i s) (net s) _ Hne) as [_ B']. rewrite Hread in B'. rewrite <- (Hop k Hsk Hok'). exact B'.
    + rewrite Hlog, since_app, received_app, spoken_app, fmap_app, Hout, Hsp', tagged_bytes by assumption. f_equal.
      apply chunk_received; assumption.
    + rewrite Hlog, since_app, spoken_app, from_app, Hsp', from_tagged, Hin, <- app_assoc by assumption. f_equal.
      pose proof (read_up (socket i s) (net s)) as Hru. rewrite Hread in Hru. specialize (Hru Hl). cbn [fst snd] in Hru.
      destruct (decide (socket k s = socket i s)) as [->|Hne]; [exact Hru|].
      destruct (read_alike (socket i s) (net s) _ Hne) as [A' _]. rewrite Hread in A'. rewrite <- A'. done.
  - intros k Hsk Hok. destruct (Hkept k Hsk Hok) as (? & _ & ? & _). auto.
  - exists new. auto.
Qed.
Lemma client_serves tx s ready i : serves tx s → slot i → turn_serves tx s (client_turn ready i s).
Proof.
  intros Hs Hi. destruct (is_open s i && ready (socket i s)) eqn:E.
  2:{ unfold client_turn. change (0 <=? socket i s) with (is_open s i). rewrite E. apply turn_idle, Hs. }
  apply andb_true_iff in E as [Ho Hr]. destruct (n_read (socket i s) (net s)) as [[|b l] h] eqn:Hread.
  - eapply hangup_serves; eassumption.
  - eapply chunk_serves; try eassumption. done.
Qed.
Lemma turns_serve tx ready js : (∀ j, j ∈ js → slot j) → ∀ s, serves tx s →
  turn_serves tx s (each (client_turn ready) js s).
Proof.
  intros Hjs. induction js as [|j js IH]; intros s Hs; [apply turn_idle, Hs|]. cbn [each].
  pose proof (client_serves tx s ready j Hs (Hjs j (list_elem_of_here _ _))) as H1.
  destruct (client_turn ready j s) as [s1|]; [|done]. destruct H1 as (Hs1 & Hk1 & n1 & E1 & Q1). cbn [and_then].
  specialize (IH (λ k Hk, Hjs k (list_elem_of_further _ _ _ Hk)) s1 Hs1). destruct (each _ js s1) as [s2|]; [|done].
  destruct IH as (Hs2 & Hk2 & n2 & E2 & Q2). split; [exact Hs2|]. split.
  - intros k Hk Ho. destruct (Hk2 k Hk Ho) as [Ho1 Ek]. destruct (Hk1 k Hk Ho1) as [? ?]. split; congruence.
  - exists (n1 ++ n2). rewrite E2, E1, app_assoc. split; [done|]. apply Forall_app. auto.
Qed.
(** The connections that stay, and what the log says since they were accepted. *)
Definition heard_on s s' : Prop := ∀ k, slot k → is_open s k = true → is_open s' k = true →
  socket k s' = socket k s ∧ ∃ more, since (socket k s) (log s') = since (socket k s) (log s) ++ more.
Definition run_serves (tx : nat → list Z) s (r : ir H + ir H) : Prop :=
  match r with
  | inl s' => ∃ tx', (∀ k, slot k → is_open s k = true → tx' k = tx k) ∧ serves tx' s' ∧ heard_on s s'
  | inr _ => True
  end.
Lemma serves_net tx s h : serves tx s → (∀ k, slot k → is_open s k = true → alike (net s) h (socket k s)) →
  serves tx (Ir (sockets s) (log s) h).
Proof.
  intros [Hv Hd Hop Hout Hin] Hh. constructor; [exact Hv|exact Hd|..|exact Hout|]; intros k Hk Ho;
    change (socket k (Ir _ _ _)) with (socket k s); destruct (Hh k Hk Ho) as [A B]; cbn [net log]; rewrite ?A, ?B;
    [apply Hop|apply Hin]; assumption.
Qed.
Lemma since_other fd c es : fd ≠ c → since fd (es ++ [Accepted c]) = since fd es ++ [Accepted c].
Proof. intros Hne. rewrite since_snoc. cbn [since_step]. rewrite (proj2 (Z.eqb_neq _ _)) by congruence. done. Qed.
Lemma serves_accept tx s i c h : serves tx s → slot i → is_open s i = false → opened (net s) c = false →
  opened h c = true → (∀ fd, fd ≠ c → alike (net s) h fd) →
  let s' := Ir (<[i := c]> (sockets s)) (log s ++ [Accepted c]) h in
  serves (at_brick i (up h c) tx) s' ∧ heard_on s s'.
Proof.
  intros [Hv Hd Hop Hout Hin] Hi Hfree Hnew Hc Hh. cbv zeta. set (s' := Ir _ _ _).
  assert (∀ k, slot k → is_open s k = true → socket k s ≠ c) as Hfresh.
  { intros k Hk Ho E. rewrite <- E, (Hop k Hk Ho) in Hnew. done. }
  assert (∀ k, socket k s' = if decide (k = i) then c else socket k s) as Hsock.
  { intros k. apply (socket_insert s); [exact Hv|apply Hi]. }
  assert (since c (log s') = []) as Hsc by (cbn [s' log]; rewrite since_snoc; cbn [since_step]; rewrite Z.eqb_refl; done).
  assert (∀ k, slot k → is_open s' k = true → k ≠ i → is_open s k = true ∧ socket k s' = socket k s ∧
    since (socket k s) (log s') = since (socket k s) (log s) ++ [Accepted c] ∧ alike (net s) h (socket k s)) as Hold.
  { intros k Hk. unfold is_open. rewrite Hsock. destruct (decide (k = i)); [done|]. intros Ho _. specialize (Hfresh k Hk Ho).
    split; [exact Ho|]. split; [done|]. split; [apply since_other, Hfresh|apply Hh, Hfresh]. }
  split.
  - constructor; [unfold valid; cbn [s' sockets]; rewrite length_insert; exact Hv|apply distinct_new; assumption|..];
      intros k Hk Ho; (destruct (decide (k = i)) as [->|Hne];
        [rewrite Hsock, decide_True by done|destruct (Hold k Hk Ho Hne) as (Ho' & -> & Es & A & B)]).
    + exact Hc.
    + cbn [s' net]. rewrite B. apply Hop; assumption.
    + rewrite Hsc. done.
    + rewrite Es, received_app, spoken_app, fmap_app, Hout by assumption. done.
    + unfold at_brick. rewrite Hsc, decide_True by done. done.
    + unfold at_brick. rewrite decide_False, Es, spoken_app, from_app by exact Hne. cbn. rewrite A, app_nil_r. apply Hin; assumption.
  - intros k Hk Ho Ho'. assert (k ≠ i) as Hne by (intros ->; congruence).
    destruct (Hold k Hk Ho' Hne) as (_ & E & Es & _). split; [exact E|]. exists [Accepted c]. exact Es.
Qed.
Lemma serves_full tx s c h : serves tx s → opened (net s) c = false → (∀ fd, fd ≠ c → alike (net s) h fd) →
  let s' := Ir (sockets s) ((log s ++ [Accepted c]) ++ [Closed c]) (n_close c h) in serves tx s' ∧ heard_on s s'.
Proof.
  intros [Hv Hd Hop Hout Hin] Hnew Hh. cbv zeta. set (s' := Ir _ _ _).
  assert (∀ k, slot k → is_open s k = true → since (socket k s) (log s') = since (socket k s) (log s) ++ [Accepted c; Closed c] ∧
    alike (net s) (net s') (socket k s)) as Hold.
  { intros k Hk Ho. assert (socket k s ≠ c) as Hne by (intros E; rewrite <- E, (Hop k Hk Ho) in Hnew; done).
    split; [cbn [s' log]; rewrite since_app, since_other, <- app_assoc by (exact Hne || (repeat constructor; done)); done|].
    destruct (Hh _ Hne) as [A B], (close_alike c h _ Hne) as [A' B']. split; cbn [s' net]; congruence. }
  split.
  - constructor; [exact Hv|exact Hd|..]; intros k Hk Ho; change (socket k s') with (socket k s);
      destruct (Hold k Hk Ho) as (Es & A & B); rewrite ?Es, ?A, ?B.
    + apply Hop; assumption.
    + rewrite received_app, spoken_app, fmap_app, Hout by assumption. done.
    + rewrite spoken_app, from_app. cbn. rewrite app_nil_r. apply Hin; assumption.
  - intros k Hk Ho _. split; [done|]. exists [Accepted c; Closed c]. apply Hold; assumption.
Qed.
(** The turns of the clients, after the connection of a newcomer if there is one. *)
Lemma turns_after tx tx' s s0 ready : (∀ k, slot k → is_open s k = true → tx' k = tx k) →
  serves tx' s0 → heard_on s s0 → (∀ k, slot k → is_open s k = true → is_open s0 k = true) →
  run_serves tx s (each (client_turn ready) (seq 1 (MAX_CLIENTS - 1)) s0).
Proof.
  intros Htx Hs Hh Ho. pose proof (turns_serve tx' ready (seq 1 (MAX_CLIENTS - 1)) (λ j, proj1 (elem_of_slots j)) s0 Hs) as Ht.
  destruct (each _ _ s0) as [s'|]; [|done]. destruct Ht as (Hs' & Hk' & new & El & Hq). exists tx'. split; [exact Htx|].
  split; [exact Hs'|]. intros k Hk Hok Hok'. destruct (Hk' k Hk Hok') as [Ho0 E0]. destruct (Hh k Hk Hok Ho0) as [E [more Em]].
  split; [congruence|]. exists (more ++ new). rewrite El, since_app, Em, app_assoc by exact Hq. done.
Qed.
Lemma heard_refl s h : heard_on s (Ir (sockets s) (log s) h).
Proof. intros k _ _ _. split; [done|]. exists []. rewrite app_nil_r. done. Qed.
Lemma server_serves tx s : serves tx s → run_serves tx s (server_turn s).
Proof.
  intros Hs. unfold server_turn. pose proof (select_alike (filter (λ fd, 0 <= fd) (sockets s)) (net s)) as Hsel.
  destruct (n_select _ _) as [ready h]. cbn [snd net] in *.
  pose proof (serves_net tx s h Hs (λ k _ _, Hsel (socket k s))) as Hs0.
  destruct (ready _); [|apply (turns_after tx tx); [done|exact Hs0|apply heard_refl|done]].
  pose proof (accept_alike h) as Ha. pose proof (accept_new h) as Hn. destruct (n_accept h) as [c h'].
  cbn [fst snd] in Ha, Hn. destruct (Z.eqb_spec c (-1)) as [->|Hc].
  - exists tx. split; [done|]. split; [|exact (heard_refl s h')]. apply (serves_net tx (Ir (sockets s) (log s) h)); [exact Hs0|].
    intros k _ Ho. apply Ha. unfold is_open in Ho. cbn [net]. intros E. rewrite E in Ho. done.
  - destruct (Hn Hc) as [Hn1 Hn2]. destruct (free_slot _ _) as [i|] eqn:Ef.
    + apply free_slot_spec in Ef as [Hi Hfree]. apply elem_of_slots in Hi. cbn [log].
      change (is_open (Ir (sockets s) (log s) h) i = false) in Hfree.
      destruct (serves_accept tx _ i c h' Hs0 Hi Hfree Hn1 Hn2 Ha) as [Hs1 Hh1].
      apply (turns_after tx (at_brick i (up h' c) tx)); [|exact Hs1|exact Hh1|].
      * intros k _ Ho. unfold at_brick. destruct (decide (k = i)) as [->|]; [|done]. change (is_open s i = false) in Hfree. congruence.
      * intros k _ Ho. unfold is_open. rewrite (socket_insert s) by (apply Hs || apply Hi).
        destruct (decide (k = i)) as [->|]; [|exact Ho]. change (is_open s i = false) in Hfree. congruence.
    + destruct (serves_full tx _ c h' Hs0 Hn1 Ha) as [Hs1 Hh1].
      apply (turns_after tx tx); [done|exact Hs1|exact Hh1|done].
Qed.
End Server.

(** ** One brick *)
(** What the transmitter leaves alone. *)
Record rx_same (b b' : ser) : Prop := {
  rs_scr : scr (regs b') = scr (regs b); rs_smr : smr (regs b') = smr (regs b); rs_rdr : rdr (regs b') = rdr (regs b);
  rs_rdrf : rdrf b' = rdrf b; rs_overrun : overrun b' = overrun b; rs_rx : rx_cycle b' = rx_cycle b }.
Lemma rdrf_bit b : (ssr (regs b) &? SSR_RDRF) = rdrf b.
Proof. apply (bit_test 6). done. Qed.
Lemma rx_same_working b b' : rx_same b b' → working b → working b'.
Proof. intros [E1 E2 _ _ _ _]. unfold working. rewrite E1, E2. done. Qed.
Lemma rx_same_in_rdr b b' : rx_same b b' → in_rdr b' = in_rdr b.
Proof. intros [_ _ E1 E2 _ _]. unfold in_rdr. rewrite E1, E2. done. Qed.
Definition grows (b b' : ser) : Prop := ∃ new, tx_line b' = tx_line b ++ new.
Lemma grows_same b b' : tx_line b' = tx_line b → grows b b'.
Proof. intros E. exists []. rewrite app_nil_r. exact E. Qed.

Lemma transmit_rx b c : rx_same b (ser_transmit b c) ∧ grows b (ser_transmit b c).
Proof.
  unfold ser_transmit. repeat case_if; split; try (apply grows_same; reflexivity); try (eexists; reflexivity);
    constructor; try reflexivity; unfold rdrf, overrun;
    cbn [set_tx_cycle put_ssr write_line set_regs regs ssr set_ssr]; rewrite Z.lor_spec, orb_false_r; done.
Qed.
Lemma update_rx rx b c : working b →
  let b' := (ser_update_time rx b c).1 in
  working b' ∧ grows b b' ∧
  match rx with
  | Some v => if rx_due b c
      then if rdrf b then overrun b' = true else overrun b' = overrun b ∧ in_rdr b' = [v]
      else overrun b' = overrun b ∧ in_rdr b' = in_rdr b
  | None => overrun b' = overrun b ∧ in_rdr b' = in_rdr b
  end.
Proof.
  intros Hw. unfold ser_update_time. cbn [fst]. destruct (transmit_rx b c) as [Hs Hg].
  pose proof (rx_same_working _ _ Hs Hw) as Hw'. pose proof (rx_same_in_rdr _ _ Hs) as Hin.
  destruct Hs as [_ _ _ Hr Ho Hx]. unfold rx_due. rewrite <- Hx, <- Hr, <- Ho, <- Hin.
  set (b1 := ser_transmit b c) in *. clearbody b1. destruct Hw' as (Ht & Hre & Hc). unfold ser_receive.
  destruct (receive_fields rx b1 c) as (El & _). unfold ser_receive in El.
  assert (∀ b', tx_line b' = tx_line b1 → grows b b') as Hgrow.
  { intros b' E. destruct Hg as [new Hg]. exists new. congruence. }
  destruct (0 <=? _); [|destruct rx; split; try done; split; apply Hgrow || done; done].
  destruct rx as [v|]; [|split; [done|split; [apply Hgrow; done|done]]]. rewrite Hre in *. cbv zeta in *.
  cbn [regs set_receiving set_rx_cycle] in *. rewrite rdrf_bit in *.
  destruct (rdrf b1) eqn:E; (split; [done|split; [apply Hgrow; done|]]).
  - unfold overrun. cbn [put_ssr set_regs regs set_ssr ssr]. rewrite Z.lor_spec, orb_true_r. done.
  - rewrite Hc. unfold overrun, in_rdr, rdrf. cbn [set_regs regs set_ssr set_rdr ssr rdr].
    rewrite !Z.lor_spec, orb_true_r, orb_false_r. done.
Qed.
Lemma start_rx b c : rx_same b (ser_start b c) ∧ grows b (ser_start b c) ∧ readssr (regs (ser_start b c)) = readssr (regs b).
Proof.
  unfold ser_start. cbv zeta. cbn [put_ssr set_regs regs set_ssr tx_cycle scr].
  repeat case_if; (split; [|split; [|reflexivity]]); try (apply grows_same; reflexivity); try (eexists; reflexivity);
    constructor; try reflexivity; unfold rdrf, overrun;
    cbn [set_tx_cycle put_ssr write_line set_regs regs ssr set_ssr];
    rewrite ?Z.lor_spec, Z.land_spec, ?orb_false_r, andb_true_r; done.
Qed.
(** The program reads SSR, perhaps writes TDR, and writes to SSR what it has read, except for [off]. *)
Definition clears_flag (off v : Z) (c : clock) (b : ser) : ser :=
  (set_SSR (ssr (regs b) &! Z.lnot off) (set_TDR v (get_SSR b).1) c).1.
Lemma clears_flag_rx off v c b :
  let b' := clears_flag off v c b in
  scr (regs b') = scr (regs b) ∧ smr (regs b') = smr (regs b) ∧ rdr (regs b') = rdr (regs b) ∧ grows b b' ∧
  ∀ k, k = 5 ∨ k = 6 → Z.testbit (ssr (regs b')) k = Z.testbit (ssr (regs b)) k && negb (Z.testbit off k).
Proof.
  unfold clears_flag, set_SSR, get_SSR, set_TDR. cbn [fst set_regs regs set_readssr set_tdr readssr ssr].
  set (b1 := set_regs _ _). destruct (start_rx b1 c) as ([E1 E2 E3 E4 E5 _] & Hg & Er).
  assert (∀ b2, scr (regs b2) = scr (regs b) → smr (regs b2) = smr (regs b) → rdr (regs b2) = rdr (regs b) →
    readssr (regs b2) = ssr (regs b) → grows b b2 → rdrf b2 = rdrf b → overrun b2 = overrun b →
    let x := ssr (regs b2) &! (Z.lnot (readssr (regs b2)) |! (ssr (regs b) &! Z.lnot off) |! Z.lnot SSR_CLEARABLE) in
    let b' := put_ssr (u8 (x ^! ((x ^! (ssr (regs b) &! Z.lnot off)) &! SSR_MPBT))) b2 in
    scr (regs b') = scr (regs b) ∧ smr (regs b') = smr (regs b) ∧ rdr (regs b') = rdr (regs b) ∧ grows b b' ∧
    ∀ k, k = 5 ∨ k = 6 → Z.testbit (ssr (regs b')) k = Z.testbit (ssr (regs b)) k && negb (Z.testbit off k)) as Hwrite.
  { intros b2 F1 F2 F3 F4 Hg2 F5 F6. cbv zeta. cbn [put_ssr set_regs regs set_ssr scr smr rdr ssr].
    do 4 (split; [assumption|]). intros k Hk. rewrite ssr_write_bit, F4 by lia.
    rewrite Z.land_spec, Z.lnot_spec by lia. unfold rdrf, overrun in *.
    destruct Hk as [->| ->]; rewrite ?F5, ?F6; [destruct (Z.testbit (ssr (regs b)) 5)|destruct (Z.testbit (ssr (regs b)) 6)];
      destruct (Z.testbit off _); done. }
  destruct (_ &? SSR_TDRE); apply Hwrite; try reflexivity; try assumption. apply grows_same. reflexivity.
Qed.
Lemma send_is_clears v c b : send_byte v c b = clears_flag SSR_TDRE v c b.
Proof. reflexivity. Qed.
Lemma take_is_clears c b : take_byte c b = (clears_flag SSR_RDRF (tdr (regs b)) c b, rdr (regs b)).
Proof. unfold take_byte, clears_flag, get_SSR, set_TDR, get_RDR. destruct b as [[] ? ? ? ? ?]. reflexivity. Qed.
Lemma send_rx v c b : working b →
  let b' := send_byte v c b in
  working b' ∧ grows b b' ∧ overrun b' = overrun b ∧ in_rdr b' = in_rdr b.
Proof.
  rewrite send_is_clears. destruct (clears_flag_rx SSR_TDRE v c b) as (E1 & E2 & E3 & Hg & Hb). cbv zeta in *.
  unfold working, in_rdr, rdrf, overrun. rewrite E1, E2, E3, !Hb, !andb_true_r by lia. done.
Qed.
Lemma take_rx c b : working b → rdrf b = true →
  let b' := (take_byte c b).1 in
  (take_byte c b).2 = rdr (regs b) ∧ working b' ∧ overrun b' = overrun b ∧ in_rdr b' = [].
Proof.
  rewrite take_is_clears. cbn [fst snd].
  destruct (clears_flag_rx SSR_RDRF (tdr (regs b)) c b) as (E1 & E2 & E3 & Hg & Hb). cbv zeta in *.
  unfold working, in_rdr, rdrf, overrun. rewrite E1, E2, !Hb by lia. intros Hw ->. rewrite andb_true_r. done.
Qed.
(** Taking a byte does not touch the transmitter. *)
Lemma take_tx c b : let b' := (take_byte c b).1 in tx_line b' = tx_line b ∧ held b' = held b.
Proof.
  unfold take_byte, get_SSR, set_SSR. cbn [fst set_regs regs set_readssr readssr ssr].
  assert ((ssr (regs b) &! Z.lnot (ssr (regs b) &! Z.lnot SSR_RDRF)) &? SSR_TDRE = false) as ->.
  { change SSR_TDRE with (2 ^ 7). rewrite bit_test by done. rewrite Z.land_spec, Z.lnot_spec, Z.land_spec by done.
    destruct (Z.testbit (ssr (regs b)) 7); done. }
  split; [done|]. unfold held. rewrite !tdre_bit. cbn [put_ssr set_regs regs set_ssr ssr set_readssr tdr].
  rewrite ssr_write_bit by done. change (negb (Z.testbit SSR_CLEARABLE 7)) with true. rewrite orb_true_r, andb_true_r. done.
Qed.

(** ** The system *)
Section Run.
Context {H : Type} `{!Network H, !Connections H, !Streams H}.
Implicit Types w : world H.

(** A brick between its program and its connection. *)
Record brick_ok w (k : nat) : Prop := {
  bo_working : working (brick_at w k);
  bo_said : tx_line (brick_at w k) ++ held (brick_at w k) = said w k;
  bo_read : (nread w k <= length (delivered w k))%nat;
  bo_taken : overrun (brick_at w k) = false →
    taken w k ++ in_rdr (brick_at w k) = take (nread w k) (delivered w k) }.
Definition world_ok w : Prop :=
  serves (λ k, tx_line (brick_at w k)) (the_server w) ∧ ∀ k, connected w k → brick_ok w k.

(** What is written by a brick is carried by its own connection only. *)
Lemma put_serves k b w : connected w k → grows (brick_at w k) b →
  serves (λ j, tx_line (brick_at w j)) (the_server w) →
  serves (λ j, tx_line (brick_at (put_brick k b w) j)) (the_server (put_brick k b w)).
Proof.
  intros [Hk Hok] [new Hg] [Hv Hd Hop Ho Hi]. constructor; [exact Hv|exact Hd| |exact Ho|].
  { intros j Hj Hoj. cbn [put_brick the_server net]. rewrite put_opened. apply Hop; assumption. }
  intros j Hj Hoj. cbn [put_brick brick_at the_server net sockets log]. unfold at_brick. rewrite put_up.
  change (socket j (Ir _ _ _)) with (socket j (the_server w)). change (is_open (the_server w) j = true) in Hoj.
  destruct (decide (j = k)) as [->|Hne].
  - rewrite Z.eqb_refl, app_assoc, <- Hi by assumption. rewrite Hg, drop_app_length. done.
  - destruct (Z.eqb_spec (socket k (the_server w)) (socket j (the_server w))) as [E|_]; [|apply Hi; assumption].
    exfalso. apply Hne. apply Hd; try assumption. done.
Qed.
(** A step of one brick: the others do not notice. *)
Lemma brick_step k w w' b :
  connected w k → world_ok w → grows (brick_at w k) b →
  the_server w' = the_server (put_brick k b w) → (∀ j, brick_at w' j = at_brick k b (brick_at w) j) →
  (∀ j, j ≠ k → nread w' j = nread w j ∧ said w' j = said w j ∧ taken w' j = taken w j) →
  (brick_ok w k → delivered w' k = delivered w k → brick_ok w' k) → world_ok w'.
Proof.
  intros Hk (Hs & Hb) Hg Es Eb Ej Hown. pose proof (put_serves k b w Hk Hg Hs) as [Hv Hd Hop Ho Hi]. split.
  - rewrite Es. constructor; [exact Hv|exact Hd|exact Hop|exact Ho|]. intros j Hj Hoj. rewrite Eb. apply Hi; assumption.
  - intros j [Hj Hoj]. rewrite Es in Hoj. change (is_open (the_server w) j = true) in Hoj.
    assert (∀ i, delivered w' i = delivered w i) as Edel by (intros i; unfold delivered; rewrite Es; done).
    pose proof (Hb j (conj Hj Hoj)) as Hbj. destruct (decide (j = k)) as [->|Hne].
    + apply Hown; auto.
    + destruct (Ej j Hne) as (E1 & E2 & E3), Hbj as [B1 B2 B3 B4].
      assert (brick_at w' j = brick_at w j) as E0 by (rewrite Eb; unfold at_brick; rewrite decide_False by exact Hne; done).
      constructor; rewrite ?E0, ?E1, ?E2, ?E3, ?Edel; assumption.
Qed.
Lemma at_same {A} k (v : A) f : at_brick k v f k = v.
Proof. unfold at_brick. rewrite decide_True by done. done. Qed.
Lemma at_other {A} k (v : A) f j : j ≠ k → at_brick k v f j = f j.
Proof. intros. unfold at_brick. rewrite decide_False by assumption. done. Qed.

Lemma sends_ok k v c w : connected w k → tdre (brick_at w k) = true → world_ok w → world_ok (brick_sends k v c w).
Proof.
  intros Hk Ht Hok. pose proof (bo_working _ _ (proj2 Hok k Hk)) as Hw. destruct (send_rx v c _ Hw) as (Hw' & Hg & Hov & Hin).
  apply (brick_step k w _ (send_byte v c (brick_at w k)) Hk Hok Hg); [done|done|..].
  - intros j Hj. cbn [brick_sends nread said taken put_brick]. rewrite at_other by exact Hj. done.
  - intros [_ B2 B3 B4] Edel. constructor; rewrite ?Edel; cbn [brick_sends put_brick brick_at nread said taken]; rewrite ?at_same.
    + exact Hw'.
    + destruct (step_queue (brick_at w k) (Send v c) (proj1 Hw) Ht) as [E _]. etransitivity; [exact E|].
      rewrite app_assoc, B2. done.
    + exact B3.
    + rewrite Hov, Hin. exact B4.
Qed.
Lemma takes_ok k c w : connected w k → (ssr (regs (brick_at w k)) &? SSR_RDRF) = true → world_ok w →
  world_ok (brick_takes k c w).
Proof.
  intros Hk Ht Hok. pose proof (bo_working _ _ (proj2 Hok k Hk)) as Hw. rewrite rdrf_bit in Ht. destruct (take_rx c _ Hw Ht) as (Ev & Hw' & Hov & Hin).
  destruct (take_tx c (brick_at w k)) as [Etx Ehd]. unfold brick_takes.
  destruct (take_byte c (brick_at w k)) as [b v]. cbn [fst snd] in *. subst v. cbv zeta in *.
  apply (brick_step k w _ b Hk Hok (grows_same _ _ Etx)); [done|done|..].
  - intros j Hj. cbn [nread said taken put_brick]. rewrite at_other by exact Hj. done.
  - intros [_ B2 B3 B4] Edel. constructor; rewrite ?Edel; cbn [put_brick brick_at nread said taken]; rewrite ?at_same.
    + exact Hw'.
    + rewrite Etx, Ehd. exact B2.
    + exact B3.
    + rewrite Hov, Hin, app_nil_r. intros Ho. rewrite <- B4 by exact Ho. unfold in_rdr. rewrite Ht. done.
Qed.
Lemma updates_ok k c w : connected w k → world_ok w → world_ok (brick_updates k c w).
Proof.
  intros Hk Hok. pose proof (bo_working _ _ (proj2 Hok k Hk)) as Hw. set (rx := incoming w k). destruct (update_rx rx _ c Hw) as (Hw' & Hg & Hrx).
  apply (brick_step k w _ (ser_update_time rx (brick_at w k) c).1 Hk Hok Hg); [done|done|..].
  - intros j Hj. cbn [brick_updates nread said taken put_brick]. rewrite at_other by exact Hj. done.
  - intros [_ B2 B3 B4] Edel. cbv zeta in Hrx, Hw'.
    destruct (step_queue (brick_at w k) (Update rx c) (proj1 Hw) I) as [E _].
    change (ser_step (brick_at w k) (Update rx c)) with (ser_update_time rx (brick_at w k) c).1 in E. cbv zeta in E.
    change (sent [Update rx c]) with (@nil Z) in E. rewrite app_nil_r, B2 in E.
    set (b' := (ser_update_time rx (brick_at w k) c).1) in *.
    assert (brick_at (brick_updates k c w) k = b') as Eb by (cbn [brick_updates put_brick brick_at]; apply at_same).
    assert (nread (brick_updates k c w) k =
      if rx_due (brick_at w k) c && bool_decide (is_Some rx) then S (nread w k) else nread w k) as En
      by (cbn [brick_updates nread]; apply at_same).
    constructor; rewrite ?Edel, ?Eb, ?En; [exact Hw'|exact E|..]; clear Eb En E; change (said (brick_updates k c w)) with (said w);
      change (taken (brick_updates k c w)) with (taken w); clearbody b'; unfold rx, incoming in *; clear rx.
    + destruct (delivered w k !! nread w k) as [v|] eqn:El; [|rewrite andb_false_r; exact B3].
      rewrite bool_decide_true by (exists v; done). destruct (rx_due _ c); [apply lookup_lt_Some in El; cbn; lia|exact B3].
    + intros Ho. destruct (delivered w k !! nread w k) as [v|] eqn:El.
      2:{ rewrite andb_false_r. destruct Hrx as [H1 H2]. rewrite H2. apply B4. congruence. }
      rewrite bool_decide_true by (exists v; done). rewrite andb_true_r. destruct (rx_due _ c).
      * destruct (rdrf (brick_at w k)) eqn:Er; [congruence|]. destruct Hrx as [H1 H2]. rewrite H2.
        rewrite (take_S_r _ _ v) by exact El. rewrite <- B4 by congruence. unfold in_rdr. rewrite Er, app_nil_r. done.
      * destruct Hrx as [H1 H2]. rewrite H2. apply B4. congruence.
Qed.
Lemma newcomer_ok w k : newcomer w k → brick_ok w k.
Proof.
  intros [Hw Hr Hn Ht Hs _]. constructor; [exact Hw|symmetry; exact Hs|lia|]. intros _. rewrite Hn, Ht. unfold in_rdr. rewrite Hr. done.
Qed.
Lemma connected_dec w k : connected w k ∨ ¬ connected w k.
Proof. unfold connected, slot. destruct (decide (1 <= k < MAX_CLIENTS)%nat), (is_open (the_server w) k); intuition congruence. Qed.
Lemma server_ok w w' : world_ok w → server_turn (the_server w) = inl (the_server w') →
  (∀ k, connected w k → same_brick w w' k) → (∀ k, connected w' k → ¬ connected w k → newcomer w' k) → world_ok w'.
Proof.
  intros (Hs & Hb) E Hsame Hnew. pose proof (server_serves _ _ Hs) as Ht. rewrite E in Ht. destruct Ht as (tx' & Htx & Hs' & Hh).
  split.
  - destruct Hs' as [Hv Hd Hop Ho Hi]. constructor; [exact Hv|exact Hd|exact Hop|exact Ho|]. intros k Hk Hok.
    rewrite <- Hi by assumption. destruct (connected_dec w k) as [Hc|Hc].
    + rewrite (Htx k Hk (proj2 Hc)). destruct (Hsame k Hc) as [-> _]. done.
    + rewrite (Hi k Hk Hok). apply (nc_line w' k), Hnew; [split; assumption|exact Hc].
  - intros k Hk'. destruct (connected_dec w k) as [Hc|Hc]; [|apply newcomer_ok, Hnew; assumption].
    destruct (Hsame k Hc) as (E0 & E1 & E2 & E3), (Hb k Hc) as [B1 B2 B3 B4].
    destruct (Hh k (proj1 Hc) (proj2 Hc) (proj2 Hk')) as [Ek [more Em]].
    assert (delivered w' k = delivered w k ++ received (socket k (the_server w)) more) as Edel
      by (unfold delivered; rewrite Ek, Em, received_app; done).
    constructor; rewrite ?Edel, ?E0, ?E1, ?E2, ?E3; [exact B1|exact B2|rewrite length_app; lia|].
    intros Hov. rewrite take_app_le by exact B3. apply B4, Hov.
Qed.
Lemma started_ok w fd h : the_server w = ir_start fd h → world_ok w.
Proof.
  intros E. assert (∀ k, slot k → is_open (the_server w) k = false) as Hno.
  { intros k [Hk _]. rewrite E. unfold is_open, socket, ir_start. cbn [sockets]. destruct k as [|k]; [lia|]. cbn [nth].
    rewrite nth_lookup. destruct (_ !! k) as [v|] eqn:El; [|done]. apply lookup_replicate in El as [-> _]. done. }
  split; [|intros k [Hk Ho]; rewrite (Hno k Hk) in Ho; done].
  constructor; try (intros k Hk Ho; rewrite (Hno k Hk) in Ho; done).
  - rewrite E. unfold valid, ir_start. cbn [sockets length]. rewrite length_replicate. done.
  - intros j k Hj _ Ho. rewrite (Hno j Hj) in Ho. done.
Qed.
Lemma ir_steps_ok w w' : rtc ir_step w w' → world_ok w → world_ok w'.
Proof.
  intros Hr. induction Hr as [w|w1 w2 w3 Hst _ IH]; intros Hok; [exact Hok|]. apply IH. clear IH.
  destruct Hst as [k v c w Hk Ht|k c w Hk|k c w Hk Ht|w h Hh|w w' E Hsame Hnew].
  - apply sends_ok; assumption.
  - apply updates_ok; assumption.
  - apply takes_ok; assumption.
  - destruct Hok as [Hs Hb]. split; [|intros k Hk; destruct (Hb k Hk); constructor; assumption].
    cbn [the_server brick_at]. apply serves_net; [exact Hs|]. intros k _ _. apply Hh.
  - eapply server_ok; eassumption.
Qed.

(** C12: What one brick says, all bricks take - in one order. The server has just been
    started. However emulators connect, late ones included, and go, calls on their
    connections fail, the programs of the connected bricks - which have enabled both
    directions of the interface, with 8 bits, send when TDRE is set and take when RDRF
    is set - send and take bytes, their serial interfaces are updated and the server has
    its turns: for every brick
    that is connected, [overheard] - the bytes that the server has read since it
    accepted this brick, from all bricks - is the end of the one sequence of all the
    bytes the server has read, and
    - the bytes its program has sent are those of this sequence it is the sender of, in
      this order, followed by those still on the connection and in TDR;
    - the bytes its program has taken, and the one that waits in RDR, are the beginning
      of the sequence, as long as the overrun flag is not set; the rest has been written
      to its connection and not been read.
    So no byte is lost, repeated, reordered or made up between two connected programs,
    and a brick misses only what the server read before it was accepted. *)
Theorem infrared_total_order w w' fd h :
  the_server w = ir_start fd h → rtc ir_step w w' →
  ∀ k, connected w' k →
    (∃ before, spoken (log (the_server w')) = before ++ overheard w' k) ∧
    said w' k = from (socket k (the_server w')) (overheard w' k) ++ unread w' k ++ held (brick_at w' k) ∧
    (overrun (brick_at w' k) = false →
     (overheard w' k).*2 = taken w' k ++ in_rdr (brick_at w' k) ++ drop (nread w' k) (delivered w' k)).
Proof.
  intros Hs Hr k Hk. destruct (ir_steps_ok w w' Hr (started_ok w fd h Hs)) as (Hsv & Hb).
  destruct (Hb k Hk) as [_ B2 B3 B4], Hk as [Hk Ho]. unfold overheard, unread. split_and!.
  - destruct (since_suffix (socket k (the_server w')) (log (the_server w'))) as [before E]. exists (spoken before).
    rewrite <- spoken_app, <- E. done.
  - rewrite <- B2, (sv_in _ _ Hsv k Hk Ho), app_assoc. done.
  - intros Hov. rewrite app_assoc, (B4 Hov), take_drop. symmetry. exact (sv_out _ _ Hsv k Hk Ho).
Qed.
End Run.

(** ** Witness: a second brick joins

    The connections of one machine: clients that wait to be accepted, with what they have sent
    already, and the lines of the open descriptors. *)
Record wires := Wires { waiting : list (list Z); lines : Z → list Z; used : list Z }.
Definition set_line (fd : Z) (l : list Z) (f : Z → list Z) : Z → list Z := λ f', if f' =? fd then l else f f'.
Definition wires_accept (h : wires) : Z * wires :=
  match waiting h with
  | [] => (-1, h)
  | l :: w => let c := 1 + foldr Z.max 3 (used h) in (c, Wires w (set_line c l (lines h)) (c :: used h))
  end.
#[export] Instance wires_network : Network wires := {
  n_select l h := ((λ fd, if fd =? 3 then match waiting h with [] => false | _ => true end
                          else match lines h fd with [] => false | _ => bool_decide (fd ∈ l) end), h);
  n_accept := wires_accept;
  n_read fd h := (take 4096 (lines h fd), Wires (waiting h) (set_line fd (drop 4096 (lines h fd)) (lines h)) (used h));
  n_write fd _ h := (bool_decide (fd ∈ used h), h);
  n_close fd h := Wires (waiting h) (lines h) (filter (λ x, x ≠ fd) (used h)) }.
#[export] Instance wires_connections : Connections wires := {
  up := lines; opened h fd := bool_decide (fd ∈ used h);
  put fd l h := Wires (waiting h) (set_line fd (lines h fd ++ l) (lines h)) (used h) }.
Lemma set_line_other fd l f fd' : fd' ≠ fd → set_line fd l f fd' = f fd'.
Proof. intros Hne. unfold set_line. rewrite (proj2 (Z.eqb_neq _ _) Hne). done. Qed.
Lemma used_max x l : x ∈ l → x <= foldr Z.max 3 l.
Proof. induction l as [|y l IH]; [intros []%elem_of_nil|]. rewrite elem_of_cons. cbn. intros [->|Hx]; [|specialize (IH Hx)]; lia. Qed.
#[export] Instance wires_streams : Streams wires.
Proof.
  constructor.
  - intros fd l h fd'. cbn. unfold set_line. rewrite (Z.eqb_sym fd'). destruct (Z.eqb_spec fd fd') as [->|]; done.
  - done.
  - done.
  - intros fd h fd' Hne. split; [|done]. apply set_line_other, Hne.
  - done.
  - intros fd h _. cbn. unfold set_line. rewrite Z.eqb_refl, take_drop. done.
  - done.
  - intros fd h fd' Hne. split; [done|]. apply bool_decide_ext. cbn. rewrite list_elem_of_filter. tauto.
  - intros h fd. cbn. unfold wires_accept. destruct (waiting h) as [|l w]; [done|]. intros Hne. split.
    + apply set_line_other, Hne.
    + apply bool_decide_ext. cbn in *. rewrite elem_of_cons. tauto.
  - intros h. cbn. unfold wires_accept. destruct (waiting h) as [|l w]; [done|]. intros _. cbn. split.
    + apply bool_decide_false. intros Hin%used_max. lia.
    + apply bool_decide_true, list_elem_of_here.
Qed.

Definition outcome {H} (r : ir H + ir H) : ir H := match r with inl s | inr s => s end.
Definition goes_on {H} (r : ir H + ir H) : bool := match r with inl _ => true | inr _ => false end.
Lemma runs_on {H} (r : ir H + ir H) : goes_on r = true → r = inl (outcome r).
Proof. destruct r; done. Qed.
Definition only_new (w w' : world wires) (k0 : nat) : bool :=
  forallb (λ k, implb (is_open (the_server w') k && negb (is_open (the_server w) k)) (k =? k0)%nat) (seq 1 (MAX_CLIENTS - 1)).
Lemma only_new_spec w w' k0 : only_new w w' k0 = true → ∀ k, connected w' k → ¬ connected w k → k = k0.
Proof.
  unfold only_new. rewrite forallb_forall. intros Hall k [Hk Ho] Hno.
  specialize (Hall k (proj1 (list_elem_of_In _ _) (proj2 (elem_of_slots k) Hk))). rewrite Ho in Hall.
  destruct (is_open (the_server w) k) eqn:E; [destruct Hno; split; assumption|]. apply Nat.eqb_eq, Hall.
Qed.
(** A turn of the server, after which brick [k0] is [b] if it is new. *)
Definition turn (k0 : nat) (b : ser) (w : world wires) : world wires :=
  World (at_brick k0 b (brick_at w)) (nread w) (at_brick k0 (tx_line b) (said w)) (taken w) (outcome (server_turn (the_server w))).
Definition knock (l : list Z) (w : world wires) : world wires :=
  World (brick_at w) (nread w) (said w) (taken w) (Ir (sockets (the_server w)) (log (the_server w))
    (Wires [l] (lines (net (the_server w))) (used (net (the_server w))))).
Definition second (c : Z) : clock := Clock c 90000 90000.
(** The first brick joins and sends 55; then the second one, which has already sent 66, joins. *)
Definition joiner : ser := send_byte 0x66 (second 2000) ser_demo.
Definition room : world wires :=
  World (λ _, ser_demo) (λ _, 0%nat) (λ _, []) (λ _, []) (ir_start 3 (Wires [] (λ _, []) [3])).
Definition room1 : world wires := turn 1 ser_demo (knock [] room).
Definition room2 : world wires := brick_sends 1 0x55 (second 2000) room1.
Definition quiet_turn (w : world wires) : world wires :=
  World (brick_at w) (nread w) (said w) (taken w) (outcome (server_turn (the_server w))).
Definition room3 : world wires := quiet_turn room2.
Definition room4 : world wires := turn 2 joiner (knock [0x66] room3).
Definition room5 : world wires := quiet_turn room4.
Definition room6 : world wires := brick_takes 2 (second 3000) (brick_updates 2 (second 2000) room5).
Lemma slots_12 : slot 1 ∧ slot 2.
Proof. unfold slot, MAX_CLIENTS. lia. Qed.
Lemma knock_step l w : ir_step w (knock l w).
Proof. apply step_outside. done. Qed.
Lemma turn_step k0 b w : goes_on (server_turn (the_server w)) = true → only_new w (turn k0 b w) k0 = true →
  is_open (the_server w) k0 = false → newcomer (turn k0 b w) k0 → ir_step w (turn k0 b w).
Proof.
  intros Hgo Hnew Hno Hnc. apply step_server; [apply runs_on, Hgo|..].
  - intros k [_ Hk]. assert (k ≠ k0) as Hne by congruence. unfold same_brick, turn. cbn [brick_at nread said taken].
    rewrite !at_other by exact Hne. done.
  - intros k H1 H2. rewrite (only_new_spec _ _ _ Hnew k H1 H2). exact Hnc.
Qed.
Lemma quiet_step w : goes_on (server_turn (the_server w)) = true → only_new w (quiet_turn w) 0 = true → ir_step w (quiet_turn w).
Proof.
  intros Hgo Hnew. apply step_server; [apply runs_on, Hgo|done|]. intros k H1 H2.
  pose proof (only_new_spec _ _ _ Hnew k H1 H2) as ->. destruct H1 as [[H1 _] _]. lia.
Qed.
Lemma room_run : rtc ir_step room room6.
Proof.
  apply (rtc_l _ _ (knock [] room)); [apply knock_step|].
  apply (rtc_l _ _ room1); [apply turn_step; [vm_compute; reflexivity..|]|].
  { constructor; try (vm_compute; reflexivity). split_and!; vm_compute; reflexivity. }
  apply (rtc_l _ _ room2); [apply step_sends; [split; [apply slots_12|vm_compute; reflexivity]|reflexivity]|].
  apply (rtc_l _ _ room3); [apply quiet_step; vm_compute; reflexivity|].
  apply (rtc_l _ _ (knock [0x66] room3)); [apply knock_step|].
  apply (rtc_l _ _ room4); [apply turn_step; [vm_compute; reflexivity..|]|].
  { constructor; try (vm_compute; reflexivity). split_and!; vm_compute; reflexivity. }
  apply (rtc_l _ _ room5); [apply quiet_step; vm_compute; reflexivity|].
  eapply rtc_l; [apply (step_updates 2 (second 2000)); split; [apply slots_12|vm_compute; reflexivity]|].
  eapply rtc_l; [apply (step_takes 2 (second 3000)); [split; [apply slots_12|]|]; vm_compute; reflexivity|].
  apply rtc_refl.
Qed.
Lemma infrared_total_order_witness :
  (overheard room6 1).*2 = [0x55; 0x66] ∧ said room6 1 = from 4 (overheard room6 1) ∧
  (overheard room6 2).*2 = taken room6 2 ∧ taken room6 2 = [0x66].
Proof.
  destruct (infrared_total_order room room6 3 _ eq_refl room_run 1%nat) as (_ & H1 & _); [split; [apply slots_12|vm_compute; reflexivity]|].
  destruct (infrared_total_order room room6 3 _ eq_refl room_run 2%nat) as (_ & _ & H2); [split; [apply slots_12|vm_compute; reflexivity]|].
  assert (unread room6 1 ++ held (brick_at room6 1) = []) as E1 by (vm_compute; reflexivity).
  assert (in_rdr (brick_at room6 2) ++ drop (nread room6 2) (delivered room6 2) = []) as E2 by (vm_compute; reflexivity).
  rewrite E1, app_nil_r in H1. rewrite E2, app_nil_r in H2.
  split; [vm_compute; reflexivity|]. split; [exact H1|]. split; [apply H2; vm_compute; reflexivity|vm_compute; reflexivity].
Defined.
