(* ===== verification/SaveFile.v ===== *)
(** * SaveFile: the state of the machine as a file ([savefile.c])

    A save file holds a signature, the two arrays of [memory.c], the symbols and one
    record per device: its letter, a length and the bytes of a C structure.  Numbers
    of the container are big-endian, the structures have the layout of a 64-bit
    little-endian host: a field is aligned to its size, and the padding holds what
    the buffer held before.  [gzwrite] and [gzread] of zlib give back the bytes that
    were written; a file is their list. *)
From stdpp Require Import strings.
From S2P Require Export Symbols.
From S2P Require Export DeviceOk.

(** ** C structures *)
Fixpoint le (n : nat) (v : Z) : list Z :=
  match n with O => [] | S n => u8 v :: le n (v >>! 8) end.
Fixpoint from_le (l : list Z) : Z :=
  match l with [] => 0 | b :: l => b + 256 * from_le l end.
Definition slice (o n : nat) (buf : list Z) : list Z := take n (drop o buf).
(** [memcpy] to the start of a buffer. *)
Definition overlay (l buf : list Z) : list Z := l ++ drop (length l) buf.
Definition u8_at (o : nat) (buf : list Z) : Z := from_le (slice o 1 buf).
Definition s8_at (o : nat) (buf : list Z) : Z := s8 (from_le (slice o 1 buf)).
Definition u16_at (o : nat) (buf : list Z) : Z := from_le (slice o 2 buf).
Definition s32_at (o : nat) (buf : list Z) : Z := s32 (from_le (slice o 4 buf)).
Definition u64_at (o : nat) (buf : list Z) : Z := from_le (slice o 8 buf).

(** [pack x buf]: the bytes of the structure in [buf] after its fields have been
    assigned; [unpack] reads the fields. *)
Class Layout (T : Type) := {
  size_of : nat;
  pack : T → list Z → list Z;
  unpack : list Z → T }.
Arguments size_of T {_}.

#[export] Instance ser_layout : Layout ser_regs := {
  size_of := 8;
  pack d buf := le 1 (rdr d) ++ le 1 (tdr d) ++ le 1 (smr d) ++ le 1 (scr d) ++ le 1 (ssr d) ++
    le 1 (readssr d) ++ le 1 (brr d) ++ le 1 (ser_stcr d);
  unpack b := SerRegs (u8_at 0 b) (u8_at 1 b) (u8_at 2 b) (u8_at 3 b) (u8_at 4 b) (u8_at 5 b)
    (u8_at 6 b) (u8_at 7 b) }.
#[export] Instance periph_layout : Layout periph_save_type := {
  size_of := 56;
  pack d buf := le 4 (sv_wait_states d) ++ slice 4 4 buf ++ le 8 (sv_cycles d) ++
    le 8 (sv_next_timer_cycle d) ++ le 8 (sv_next_nmi_cycle d) ++ le 4 (sv_db_trap d) ++
    sv_reg d ++ le 2 (sv_pc d) ++ le 1 (sv_ccr d) ++ le 1 (sv_syscr d);
  unpack b := PeriphSave (s32_at 0 b) (u64_at 8 b) (u64_at 16 b) (u64_at 24 b) (s32_at 32 b)
    (slice 36 16 b) (u16_at 52 b) (u8_at 54 b) (u8_at 55 b) }.
(** [t16_save] leaves out the field [temp]. *)
#[export] Instance t16_layout : Layout t16_save_type := {
  size_of := 24;
  pack d buf := le 8 (sv_my_last_cycles d) ++ le 2 (sv_frc d) ++ le 2 (sv_ocra d) ++ le 2 (sv_ocrb d) ++
    le 1 (sv_tcsr d) ++ le 1 (sv_tier d) ++ le 1 (sv_tcr d) ++ le 1 (sv_tocr d) ++ slice 18 6 buf;
  unpack b := T16Save (u64_at 0 b) (u16_at 8 b) (u16_at 10 b) (u16_at 12 b) (u8_at 14 b) (u8_at 15 b)
    (u8_at 16 b) (u8_at 17 b) }.
Definition le_pair (n : nat) (p : Z * Z) : list Z := le n p.1 ++ le n p.2.
#[export] Instance t8_layout : Layout t8_save_type := {
  size_of := 48;
  pack d buf := le_pair 8 (sv8_last_cycles d) ++ le_pair 8 (sv8_my_next_cycle d) ++
    le_pair 1 (sv8_tcnt d) ++ le_pair 1 (sv8_tcr d) ++ le_pair 1 (sv8_tcsr d) ++
    le_pair 1 (sv8_tcora d) ++ le_pair 1 (sv8_tcorb d) ++ le_pair 1 (sv8_out d) ++
    le 1 (sv8_stcr d) ++ slice 45 3 buf;
  unpack b := T8Save (u64_at 0 b, u64_at 8 b) (u64_at 16 b, u64_at 24 b) (u8_at 32 b, u8_at 33 b)
    (u8_at 34 b, u8_at 35 b) (u8_at 36 b, u8_at 37 b) (u8_at 38 b, u8_at 39 b)
    (u8_at 40 b, u8_at 41 b) (u8_at 42 b, u8_at 43 b) (u8_at 44 b) }.
#[export] Instance btn_layout : Layout buttons := {
  size_of := 4;
  pack d buf := le 1 (btn_state d) ++ le 1 (iscr d) ++ le 1 (ier d) ++ le 1 (irqpending d);
  unpack b := Buttons (u8_at 0 b) (u8_at 1 b) (u8_at 2 b) (u8_at 3 b) }.
#[export] Instance lcd_layout : Layout lcd_save_type := {
  size_of := 19;
  pack d buf := svl_data d ++ le 1 (svl_mode d) ++ le 1 (svl_ptr d) ++ le 1 (svl_subaddr d) ++
    le 1 (svl_i2c_state d) ++ le 1 (svl_i2c_data d) ++ le 1 (svl_i2c_bitnr d) ++ le 1 (svl_port6 d);
  unpack b := LcdSave (slice 0 12 b) (s8_at 12 b) (s8_at 13 b) (s8_at 14 b) (s8_at 15 b)
    (s8_at 16 b) (s8_at 17 b) (u8_at 18 b) }.
#[export] Instance ad_layout : Layout ad_save_type := {
  size_of := 24;
  pack d buf := le 8 (sva_start_cycle d) ++ concat (le 2 <$> sva_polled d) ++ le 1 (sva_tmp d) ++
    le 1 (sva_adcsr d) ++ le 1 (sva_read_adcsr d) ++ le 1 (sva_adcr d) ++ le 1 (sva_adchannel d) ++
    slice 21 3 buf;
  unpack b := AdSave (u64_at 0 b) [u16_at 8 b; u16_at 10 b; u16_at 12 b; u16_at 14 b] (u8_at 16 b)
    (u8_at 17 b) (u8_at 18 b) (u8_at 19 b) (u8_at 20 b) }.
#[export] Instance wdog_layout : Layout wdog_save_type := {
  size_of := 16;
  pack d buf := le 8 (svw_last_cycles d) ++ le 1 (svw_tcsr d) ++ le 1 (svw_readtcsr d) ++
    le 1 (svw_tcnt d) ++ le 1 (svw_pw d) ++ slice 12 4 buf;
  unpack b := WdogSave (u64_at 0 b) (u8_at 8 b) (u8_at 9 b) (u8_at 10 b) (u8_at 11 b) }.

(** ** Writing *)
Definition BLOCK_SIZE : Z := 512.
Definition SAVEFILE_MAGIC : list Z := [66; 114; 69; 109; 117; 83; 70; 48].
Definition be16 (v : Z) : list Z := [u8 (v >>! 8); u8 v].
Definition chars (s : string) : list Z :=
  (λ c, Z.of_nat (Ascii.nat_of_ascii c)) <$> String.list_ascii_of_string s.
Definition save_symbol (x : key * string) : list Z :=
  be16 x.1.1 ++ be16 x.1.2 ++ be16 (Z.of_nat (length (chars x.2))) ++ chars x.2.
Definition save_symbols (syms : tree) : list Z :=
  concat (save_symbol <$> symbols_iterate syms) ++ save_symbol ((0, 0), EmptyString).
(** A device's letter and its function [save_data], which returns the length and
    leaves the structure in the buffer. *)
Definition saver : Type := Z * (list Z → Z * list Z).
Fixpoint save_blocks (l : list saver) (buf : list Z) : list Z :=
  match l with
  | [] => [0]
  | (id, save_data) :: l =>
      let '(len, buf) := save_data buf in
      id :: be16 len ++ take (Z.to_nat len) buf ++ save_blocks l buf
  end.
Definition save_content (memory memtype : gmap Z Z) (syms : tree) (l : list saver) (buf : list Z) : list Z :=
  SAVEFILE_MAGIC ++ chars_from memory 0 (Z.to_nat 65536) ++ chars_from memtype 0 (Z.to_nat 65536) ++
  save_symbols syms ++ save_blocks l buf.
Definition save_with {T} `{!Layout T} (x : T) (buf : list Z) : Z * list Z :=
  (Z.of_nat (size_of T), overlay (pack x buf) buf).

(** ** Reading

    The rest of the file, and whether a read has come up short ([gzeof]). *)
Definition gzfile : Type := list Z * bool.
Definition gzread (n : nat) (f : gzfile) : list Z * gzfile :=
  (take n f.1, (drop n f.1, f.2 || (length f.1 <? n)%nat)).
Definition from_be (hi lo : Z) : Z := (hi <<! 8) |! lo.
Fixpoint name_of (l : list Z) : string :=
  match l with
  | [] => EmptyString
  | c :: l => if c =? 0 then EmptyString
              else String (Ascii.ascii_of_nat (Z.to_nat c)) (name_of l)
  end.
(** [entry] is what [sym_entry] holds, once it holds something.  [None]: a field or
    a name is used that was never read, or the loop does not end. *)
Fixpoint load_symbols (fuel : nat) (entry : option (list Z)) (f : gzfile) (syms : tree)
    : option (gzfile * tree) :=
  match fuel with
  | O => None
  | S fuel =>
      let '(got, f) := gzread 6 f in
      entry ← match entry with
              | Some e => Some (overlay got e)
              | None => if (length got =? 6)%nat then Some got else None
              end;
      match entry with
      | [a1; a0; t1; t0; n1; n0] =>
          if (from_be a1 a0 =? 0) && (from_be t1 t0 =? 0) && (from_be n1 n0 =? 0) then Some (f, syms)
          else
            let namelen := s16 (from_be n1 n0) in
            if namelen <? 0 then None
            else
              let '(name, f) := gzread (Z.to_nat namelen) f in
              if Z.of_nat (length name) =? namelen
              then load_symbols fuel (Some [a1; a0; t1; t0; n0; n1]) f
                     (symbols_add (from_be a1 a0, s16 (from_be t1 t0)) (name_of name) syms)
              else None
      | _ => None
      end
  end.

Section Load.
Context {P : Type}.
(** The devices' letters and functions [load_data]; a null pointer is [None]. *)
Abbreviation loader := (Z * option (list Z → M P unit))%type.
Fixpoint load_data_of (l : list loader) (id : Z) : option (option (list Z → M P unit)) :=
  match l with
  | [] => None
  | (i, f) :: l => if id =? i then Some f else load_data_of l id
  end.
(** The loop over the records; [len] is what the variable holds, once it has been
    read.  [false]: a record is longer than the buffer. *)
Fixpoint load_blocks (fuel : nat) (l : list loader) (buf : list Z) (len : option (list Z)) (f : gzfile)
    : M P bool :=
  match fuel with
  | O => blocked
  | S fuel =>
      if f.2 then mret true
      else
        let '(got, f) := gzread 1 f in
        match got with
        | [] => undefined
        | id :: _ =>
            if id =? 0 then mret true
            else
              let '(got, f) := gzread 2 f in
              match match len with
                    | Some l => Some (overlay got l)
                    | None => if (length got =? 2)%nat then Some got else None
                    end with
              | Some [hi; lo] =>
                  let len := from_be hi lo in
                  if BLOCK_SIZE <? len then mret false
                  else
                    let '(got, f) := gzread (Z.to_nat len) f in
                    let buf := overlay got buf in
                    _ ← match load_data_of l id with
                        | None => mret tt
                        | Some None => undefined
                        | Some (Some load_data) => load_data buf
                        end;
                    load_blocks fuel l buf (Some [lo; hi]) f
              | _ => undefined
              end
        end
  end.
End Load.
