(* ===== verification/SaveFileProps.v ===== *)
(** * SaveFileProps: a save file gives back what was saved *)
From stdpp Require Import strings.
From S2P Require Import PeriphProps.
From S2P Require Export SaveFile.

(** ** Numbers in structures *)
Lemma length_le n v : length (le n v) = n.
Proof. revert v. induction n as [|n IH]; intros v; [done|]. simpl. f_equal. apply IH. Qed.
Lemma from_le_le n v : from_le (le n v) = v mod 2 ^ (8 * Z.of_nat n).
Proof.
  revert v. induction n as [|n IH]; intros v; [rewrite Z.mod_1_r; done|].
  cbn [le from_le]. rewrite IH. unfold u8. rewrite Z.shiftr_div_pow2 by lia.
  replace (8 * Z.of_nat (S n)) with (8 + 8 * Z.of_nat n) by lia.
  rewrite Z.pow_add_r by lia. change (2 ^ 8) with 256.
  rewrite Z.rem_mul_r by lia. lia.
Qed.
Lemma le_bytes n v : Forall byte (le n v).
Proof. revert v. induction n as [|n IH]; intros v; constructor; [apply u8_byte|apply IH]. Qed.
Lemma le_all_bytes n l : Forall byte (concat (le n <$> l)).
Proof. induction l as [|v l IH]; [constructor|]. apply Forall_app_2; [apply le_bytes|exact IH]. Qed.
Lemma read_u8 v : byte v → from_le (le 1 v) = v.
Proof. intros. rewrite from_le_le. apply Z.mod_small. done. Qed.
Lemma read_u16 v : word v → from_le (le 2 v) = v.
Proof. intros. rewrite from_le_le. apply Z.mod_small. done. Qed.
Lemma read_u64 v : qword v → from_le (le 8 v) = v.
Proof. intros. rewrite from_le_le. apply Z.mod_small. done. Qed.
Lemma read_s8 v : -128 <= v < 128 → s8 (from_le (le 1 v)) = v.
Proof. intros. rewrite from_le_le. change (2 ^ _) with 256. width_lia. Qed.
Lemma read_s32 v : -2147483648 <= v < 2147483648 → s32 (from_le (le 4 v)) = v.
Proof. intros. rewrite from_le_le. change (2 ^ _) with 4294967296. width_lia. Qed.
Lemma from_le_bound l : Forall byte l → 0 <= from_le l < 2 ^ (8 * Z.of_nat (length l)).
Proof.
  induction 1 as [|b l Hb _ IH]; [cbn; lia|]. cbn [from_le length].
  replace (8 * Z.of_nat (S (length l))) with (8 + 8 * Z.of_nat (length l)) by lia.
  rewrite Z.pow_add_r by lia. change (2 ^ 8) with 256. unfold byte in Hb. lia.
Qed.
Lemma slice_bytes o n buf : Forall byte buf → Forall byte (slice o n buf).
Proof. intros. apply Forall_take, Forall_drop. assumption. Qed.
Lemma from_le_width o n buf w :
  Forall byte buf → w = 2 ^ (8 * Z.of_nat n) → 0 <= from_le (slice o n buf) < w.
Proof.
  intros Hb ->. pose proof (from_le_bound _ (slice_bytes o n buf Hb)) as Hl.
  assert (length (slice o n buf) <= n)%nat by (unfold slice; rewrite length_take; lia).
  assert (2 ^ (8 * Z.of_nat (length (slice o n buf))) <= 2 ^ (8 * Z.of_nat n)); [|lia].
  apply Z.pow_le_mono_r; lia.
Qed.
Lemma u8_at_byte o b : Forall byte b → byte (u8_at o b).
Proof. intros. apply (from_le_width o 1 b); done. Qed.
Lemma u16_at_word o b : Forall byte b → word (u16_at o b).
Proof. intros. apply (from_le_width o 2 b); done. Qed.
Lemma u64_at_qword o b : Forall byte b → qword (u64_at o b).
Proof. intros. apply (from_le_width o 8 b); done. Qed.
Definition s8_fits (v : Z) : Prop := -128 <= v < 128.
Definition s32_fits (v : Z) : Prop := -2147483648 <= v < 2147483648.
Lemma s8_at_fits o b : s8_fits (s8_at o b).
Proof. unfold s8_fits, s8_at. width_lia. Qed.
Lemma s32_at_fits o b : s32_fits (s32_at o b).
Proof. unfold s32_fits, s32_at. width_lia. Qed.
Create HintDb layout.
#[local] Hint Resolve u8_at_byte u16_at_word u64_at_qword s8_at_fits s32_at_fits slice_bytes : layout.
Lemma length_overlay l buf : (length l <= length buf)%nat → length (overlay l buf) = length buf.
Proof. intros. unfold overlay. rewrite length_app, length_drop. lia. Qed.
Lemma length_slice o n buf : (o + n <= length buf)%nat → length (slice o n buf) = n.
Proof. intros. unfold slice. rewrite length_take, length_drop. lia. Qed.

(** ** The structures *)

(** [fits]: the fields have the widths of the structure. *)
Class LayoutOk (T : Type) `{!Layout T} (fits : T → Prop) := {
  pack_length x buf : fits x → (size_of T <= length buf)%nat → length (pack x buf) = size_of T;
  unpack_pack x buf rest : fits x → (size_of T <= length buf)%nat → unpack (pack x buf ++ rest) = x;
  unpack_fits b : Forall byte b → (size_of T <= length b)%nat → fits (unpack b);
  pack_bytes x buf : fits x → Forall byte buf → Forall byte (pack x buf) }.

Definition pair_fits (Q : Z → Prop) (p : Z * Z) : Prop := Q p.1 ∧ Q p.2.
Definition periph_fits (d : periph_save_type) : Prop :=
  s32_fits (sv_wait_states d) ∧ qword (sv_cycles d) ∧ qword (sv_next_timer_cycle d) ∧
  qword (sv_next_nmi_cycle d) ∧ s32_fits (sv_db_trap d) ∧ length (sv_reg d) = 16%nat ∧
  Forall byte (sv_reg d) ∧   word (sv_pc d) ∧ byte (sv_ccr d) ∧ byte (sv_syscr d).
Definition t16_fits (d : t16_save_type) : Prop :=
  qword (sv_my_last_cycles d) ∧ word (sv_frc d) ∧ word (sv_ocra d) ∧ word (sv_ocrb d) ∧
  byte (sv_tcsr d) ∧ byte (sv_tier d) ∧ byte (sv_tcr d) ∧ byte (sv_tocr d).
Definition t8_fits (d : t8_save_type) : Prop :=
  pair_fits qword (sv8_last_cycles d) ∧ pair_fits qword (sv8_my_next_cycle d) ∧
  pair_fits byte (sv8_tcnt d) ∧ pair_fits byte (sv8_tcr d) ∧ pair_fits byte (sv8_tcsr d) ∧
  pair_fits byte (sv8_tcora d) ∧ pair_fits byte (sv8_tcorb d) ∧ pair_fits byte (sv8_out d) ∧
  byte (sv8_stcr d).
Definition lcd_fits (d : lcd_save_type) : Prop :=
  length (svl_data d) = 12%nat ∧ Forall byte (svl_data d) ∧ s8_fits (svl_mode d) ∧ s8_fits (svl_ptr d) ∧
  s8_fits (svl_subaddr d) ∧ s8_fits (svl_i2c_state d) ∧ s8_fits (svl_i2c_data d) ∧
  s8_fits (svl_i2c_bitnr d) ∧ byte (svl_port6 d).
Definition ad_fits (d : ad_save_type) : Prop :=
  qword (sva_start_cycle d) ∧ length (sva_polled d) = 4%nat ∧ Forall word (sva_polled d) ∧
  byte (sva_tmp d) ∧ byte (sva_adcsr d) ∧ byte (sva_read_adcsr d) ∧ byte (sva_adcr d) ∧
  byte (sva_adchannel d).
Definition wdog_fits (d : wdog_save_type) : Prop :=
  qword (svw_last_cycles d) ∧ byte (svw_tcsr d) ∧ byte (svw_readtcsr d) ∧ byte (svw_tcnt d) ∧
  byte (svw_pw d).

Ltac fields :=
  repeat first [ apply read_u8; assumption | apply read_u16; assumption | apply read_u64; assumption
               | apply read_s8; assumption | apply read_s32; assumption ].
Ltac layout := intros [] buf rest; cbn -[u8 Z.shiftr]; intros; destruct_and?; f_equal; fields.
Ltac packed ok :=
  intros x buf Hx Hb; unfold ok, pair_fits in Hx; destruct_and?; cbn [pack]; unfold le_pair;
  repeat apply Forall_app_2; try apply le_bytes; try (apply slice_bytes; exact Hb); try assumption.
Ltac unpacked ok :=
  intros b Hb Hl; unfold ok, pair_fits; cbn -[u8_at u16_at u64_at s8_at s32_at slice];
  split_and!; repeat apply Forall_cons_2; auto with layout; apply length_slice; cbn in Hl; lia.

#[export] Instance ser_layout_ok : LayoutOk ser_regs ser_regs_ok.
Proof. constructor; [done|unfold ser_regs_ok; layout|unpacked ser_regs_ok|packed ser_regs_ok]. Qed.
Lemma list_of_4 (l : list Z) : length l = 4%nat → ∃ a b c d, l = [a; b; c; d].
Proof. destruct l as [|a [|b [|c [|d []]]]]; try discriminate. eauto. Qed.
Lemma list_of_12 (l : list Z) : length l = 12%nat →
  ∃ a b c d a' b' c' d' x y z w, l = [a; b; c; d; a'; b'; c'; d'; x; y; z; w].
Proof. do 13 (destruct l as [|? l]; try discriminate). eauto 20. Qed.
#[export] Instance btn_layout_ok : LayoutOk buttons btn_regs_ok.
Proof. constructor; [done|unfold btn_regs_ok; layout|unpacked btn_regs_ok|packed btn_regs_ok]. Qed.
#[export] Instance wdog_layout_ok : LayoutOk wdog_save_type wdog_fits.
Proof.
  constructor; [|unfold wdog_fits; layout|unpacked wdog_fits|packed wdog_fits].
  intros x buf _ Hl. cbn [pack wdog_layout]. rewrite !length_app, !length_le, length_slice; [done|]. exact Hl.
Qed.
#[export] Instance t16_layout_ok : LayoutOk t16_save_type t16_fits.
Proof.
  constructor; [|unfold t16_fits; layout|unpacked t16_fits|packed t16_fits].
  intros x buf _ Hl. cbn [pack t16_layout]. rewrite !length_app, !length_le, length_slice; [done|]. exact Hl.
Qed.
#[export] Instance t8_layout_ok : LayoutOk t8_save_type t8_fits.
Proof.
  constructor.
  - intros x buf _ Hl. cbn [pack t8_layout]. unfold le_pair.
    rewrite !length_app, !length_le, length_slice; [done|]. exact Hl.
  - intros [[] [] [] [] [] [] [] [] c] buf rest. unfold t8_fits, pair_fits. cbn -[u8 Z.shiftr].
    intros; destruct_and?. f_equal; try apply pair_equal_spec; split_and?; fields.
  - unpacked t8_fits.
  - packed t8_fits.
Qed.
#[export] Instance ad_layout_ok : LayoutOk ad_save_type ad_fits.
Proof.
  constructor.
  - intros x buf (_ & Hp & _) Hl. cbn [pack ad_layout].
    destruct (list_of_4 _ Hp) as (p0 & p1 & p2 & p3 & ->).
    rewrite !length_app, !length_le, length_slice; [done|]. exact Hl.
  - intros [c p t a b d e] buf rest. unfold ad_fits. cbn -[u8 Z.shiftr byte word qword].
    intros (Hc & Hp & Hw & Ht & Ha & Hb & Hd & He) Hl.
    destruct (list_of_4 _ Hp) as (p0 & p1 & p2 & p3 & ->).
    rewrite !Forall_cons in Hw. destruct Hw as (? & ? & ? & ? & _).
    cbn -[u8 Z.shiftr byte word qword]. f_equal; [fields| |fields..]. repeat f_equal; fields.
  - unpacked ad_fits.
  - packed ad_fits. apply le_all_bytes.
Qed.
#[export] Instance lcd_layout_ok : LayoutOk lcd_save_type lcd_fits.
Proof.
  constructor.
  - intros x buf (Hd & _) Hl. cbn [pack lcd_layout]. rewrite !length_app, !length_le, Hd. done.
  - intros [d m p sa st i n p6] buf rest. unfold lcd_fits. cbn -[u8 s8 Z.shiftr byte s8_fits].
    intros (Hd & _ & ? & ? & ? & ? & ? & ? & ?) _. unfold s8_fits in *.
    destruct (list_of_12 _ Hd) as (? & ? & ? & ? & ? & ? & ? & ? & ? & ? & ? & ? & ->).
    unfold s8_at. cbn -[u8 s8 Z.shiftr]. f_equal; fields.
  - unpacked lcd_fits.
  - packed lcd_fits.
Qed.
#[export] Instance periph_layout_ok : LayoutOk periph_save_type periph_fits.
Proof.
  constructor.
  - intros x buf (_ & _ & _ & _ & _ & Hr & _) Hl. cbn [pack periph_layout].
    rewrite !length_app, !length_le, length_slice, Hr; [done|]. cbn in Hl. lia.
  - intros [w c t n tr r p cc sy] buf rest. unfold periph_fits.
    cbn -[u8 s32 slice Z.shiftr byte word qword s32_fits].
    intros (Hw & Hc & Ht & Hn & Htr & Hr & _ & Hp & Hcc & Hsy) Hl.
    pose proof (length_slice 4 4 buf ltac:(lia)) as Hpad.
    destruct (list_of_4 _ Hpad) as (? & ? & ? & ? & E). rewrite E.
    do 17 (destruct r as [|? r]; try discriminate Hr).
    cbn -[u8 s32 Z.shiftr]. unfold s32_fits in *. f_equal; fields.
  - unpacked periph_fits.
  - packed periph_fits.
Qed.

(** ** Symbols

    Adding a symbol keeps all others, also when its key is there already. *)
Lemma splay_loop_elements N a t L R :
  (tree_size t < N)%nat → t ≠ Leaf →
  symbols_iterate (splay_loop a t L R).1 = left_elems L ++ symbols_iterate t ++ right_elems R.
Proof.
  revert t L R. induction N as [|N IH]; [lia|]. intros t L R Hsz Hne.
  assert (∀ l k n r, symbols_iterate (assemble L R l k n r) =
    left_elems L ++ (symbols_iterate l ++ (k, n) :: symbols_iterate r) ++ right_elems R) as Ha.
  { intros. unfold assemble. cbn. rewrite elements_assemble_left, elements_assemble_right, <- !app_assoc. done. }
  destruct t as [|l k n r]; [done|]. cbn [splay_loop].
  destruct (key_lt a k); [|destruct (key_lt k a); [|apply Ha]].
  - destruct l as [|yl ky ny yr]; [apply Ha|]. destruct (key_lt a ky).
    + destruct yl as [|zl kz nz zr]; [cbn [fst]; rewrite !Ha; cbn; repeat (rewrite <- ?app_assoc; cbn); done|].
      rewrite IH by (try done; simpl in *; lia). cbn. repeat (rewrite <- ?app_assoc; cbn). done.
    + rewrite IH by (try done; simpl in *; lia). cbn. repeat (rewrite <- ?app_assoc; cbn). done.
  - destruct r as [|yl ky ny yr]; [apply Ha|]. destruct (key_lt ky a).
    + destruct yr as [|zl kz nz zr]; [cbn [fst]; rewrite !Ha; cbn; repeat (rewrite <- ?app_assoc; cbn); done|].
      rewrite IH by (try done; simpl in *; lia). cbn. repeat (rewrite <- ?app_assoc; cbn). done.
    + rewrite IH by (try done; simpl in *; lia). cbn. repeat (rewrite <- ?app_assoc; cbn). done.
Qed.
Lemma splay_elements a t : symbols_iterate (splay a t).1 = symbols_iterate t.
Proof.
  destruct t as [|l k n r]; [done|]. unfold splay. destruct (key_eq k a); [done|].
  rewrite (splay_loop_elements (S (tree_size (Node l k n r)))) by (try done; lia). cbn. apply app_nil_r.
Qed.
Lemma add_elements a n t : symbols_iterate (symbols_add a n t) ≡ₚ (a, n) :: symbols_iterate t.
Proof.
  pose proof (splay_elements a t) as He. unfold symbols_add.
  destruct (splay a t).1 as [|l k m r]; rewrite <- He; [done|]. destruct (_ || _); cbn.
  - rewrite <- Permutation_middle. done.
  - rewrite <- Permutation_middle, <- app_assoc. done.
Qed.

(** *** A list of symbols in a file *)
Definition saveable (x : key * string) : Prop :=
  word x.1.1 ∧ -32768 <= x.1.2 < 32768 ∧ Z.of_nat (length (chars x.2)) < 32768 ∧
  Forall (λ c, c ≠ 0) (chars x.2) ∧ x ≠ ((0, 0), EmptyString).
Lemma from_be_be16 v : from_be (u8 (v >>! 8)) (u8 v) = u16 v.
Proof.
  unfold from_be. rewrite join_bytes by apply u8_byte. unfold u8. rewrite Z.shiftr_div_pow2 by lia.
  change (2 ^ 8) with 256. width_lia.
Qed.
Lemma chars_bytes s : Forall byte (chars s).
Proof.
  induction s as [|c s IH]; [constructor|]. cbn. constructor; [|exact IH].
  pose proof (Ascii.nat_ascii_bounded c). unfold byte. lia.
Qed.
Lemma name_of_chars s : Forall (λ c, c ≠ 0) (chars s) → name_of (chars s) = s.
Proof.
  induction s as [|c s IH]; [done|]. cbn [chars String.list_ascii_of_string fmap list_fmap].
  intros [Hc Hs]%Forall_cons. cbn [name_of].
  destruct (Z.eqb_spec (Z.of_nat (Ascii.nat_of_ascii c)) 0); [done|].
  rewrite Nat2Z.id, Ascii.ascii_nat_embedding. f_equal. apply IH, Hs.
Qed.
Lemma save_symbols_bytes t : Forall byte (save_symbols t).
Proof.
  assert (∀ v, Forall byte (be16 v)) as Hbe by (intros; repeat constructor; apply u8_byte).
  assert (∀ x, Forall byte (save_symbol x)) as Hs.
  { intros x. unfold save_symbol. repeat apply Forall_app_2; try apply Hbe. apply chars_bytes. }
  unfold save_symbols. apply Forall_app_2; [|apply Hs].
  induction (symbols_iterate t) as [|x l IH]; [constructor|]. apply Forall_app_2; [apply Hs|exact IH].
Qed.
Lemma symbol_length x : (6 <= length (save_symbol x))%nat.
Proof. unfold save_symbol. rewrite !length_app. cbn [be16 length]. lia. Qed.
Lemma save_symbols_length t : (length (symbols_iterate t) < length (save_symbols t))%nat.
Proof.
  unfold save_symbols. rewrite length_app. cbn [save_symbol].
  assert (length (save_symbol ((0, 0), EmptyString)) = 6%nat) as -> by reflexivity.
  induction (symbols_iterate t) as [|x l IH]; [cbn; lia|]. cbn [fmap list_fmap concat length].
  rewrite length_app. pose proof (symbol_length x). lia.
Qed.
Lemma gzread_app l l' n : length l = n → gzread n (l ++ l', false) = (l, (l', false)).
Proof.
  intros <-. unfold gzread. cbn [fst snd]. rewrite take_app_length, drop_app_length.
  replace (length (l ++ l') <? length l)%nat with false; [done|].
  symmetry. apply Nat.ltb_ge. rewrite length_app. lia.
Qed.
Lemma overlay_same l e : length l = length e → overlay l e = l.
Proof. intros El. unfold overlay. rewrite El, drop_all. apply app_nil_r. Qed.
Lemma list_of_6 (l : list Z) : length l = 6%nat → ∃ a b c d e f, l = [a; b; c; d; e; f].
Proof. do 7 (destruct l as [|? l]; try discriminate). eauto 10. Qed.

(** The header of an entry is read into [sym_entry]. *)
Lemma read_entry got (entry : option (list Z)) :
  length got = 6%nat → (∀ e, entry = Some e → length e = 6%nat) →
  match entry with
  | Some e => Some (overlay got e)
  | None => if (length got =? 6)%nat then Some got else None
  end = Some got.
Proof.
  intros Hg He. destruct entry as [e|]; [|rewrite Hg; done].
  rewrite overlay_same; [done|]. rewrite (He e); done.
Qed.
Lemma load_symbols_end fuel entry rest t :
  (∀ e, entry = Some e → length e = 6%nat) →
  load_symbols (S fuel) entry (save_symbol ((0, 0), EmptyString) ++ rest, false) t = Some ((rest, false), t).
Proof.
  intros He. cbn [load_symbols]. rewrite (gzread_app (save_symbol _)) by done.
  rewrite read_entry by done. done.
Qed.
Lemma load_symbols_entry fuel entry x rest t :
  saveable x → (∀ e, entry = Some e → length e = 6%nat) →
  ∃ e, length e = 6%nat ∧
    load_symbols (S fuel) entry (save_symbol x ++ rest, false) t =
    load_symbols fuel (Some e) (rest, false) (symbols_add x.1 x.2 t).
Proof.
  destruct x as [[a ty] n]. intros (Ha & Ht & Hl & Hn & Hx) He. cbn [fst snd] in *.
  cbn [load_symbols]. unfold save_symbol. cbn [fst snd].
  set (k := Z.of_nat (length (chars n))) in *. rewrite <- !app_assoc.
  rewrite (app_assoc (be16 a)), (app_assoc (be16 a ++ be16 ty)).
  rewrite (gzread_app ((be16 a ++ be16 ty) ++ be16 k)) by done. rewrite read_entry by done.
  cbn -[u8 Z.shiftr from_be gzread load_symbols]. rewrite !from_be_be16.
  rewrite (u16_id a) by done. assert (u16 k = k) as -> by (unfold k in *; width_lia).
  destruct ((a =? 0) && (u16 ty =? 0) && (k =? 0)) eqn:E0.
  { exfalso. apply Hx. rewrite !andb_true_iff, !Z.eqb_eq in E0. destruct E0 as [[-> E1] E2].
    assert (ty = 0) as -> by width_lia. destruct n as [|c n]; [done|].
    unfold k, chars in E2. cbn in E2. lia. }
  assert (s16 k = k) as -> by (unfold k in *; width_lia).
  assert ((k <? 0) = false) as -> by (unfold k; lia).
  rewrite gzread_app by (unfold k; lia). unfold k at 1. rewrite Z.eqb_refl, name_of_chars by done.
  assert (s16 (u16 ty) = ty) as -> by width_lia. eexists. split; [|reflexivity]. done.
Qed.
Lemma load_symbols_list fuel l entry rest t :
  Forall saveable l → (∀ e, entry = Some e → length e = 6%nat) → (length l < fuel)%nat →
  ∃ t', load_symbols fuel entry
      (concat (save_symbol <$> l) ++ save_symbol ((0, 0), EmptyString) ++ rest, false) t = Some ((rest, false), t') ∧
    symbols_iterate t' ≡ₚ l ++ symbols_iterate t.
Proof.
  revert fuel entry t. induction l as [|x l IH]; intros fuel entry t Hl He Hf; (destruct fuel as [|fuel]; [simpl in Hf; lia|]).
  { exists t. split; [apply load_symbols_end; done|done]. }
  apply Forall_cons in Hl as [Hx Hl]. cbn [fmap list_fmap concat]. rewrite <- app_assoc.
  destruct (load_symbols_entry fuel entry x (concat (save_symbol <$> l) ++
    save_symbol ((0, 0), EmptyString) ++ rest) t Hx He) as (e & Hlen & ->).
  destruct (IH fuel (Some e) (symbols_add x.1 x.2 t) Hl) as (t' & Et & Hp);
    [intros e' [= <-]; done|simpl in Hf; lia|].
  exists t'. split; [exact Et|]. rewrite Hp, add_elements. destruct x. cbn. rewrite <- Permutation_middle. done.
Qed.

(** ** The records

    A device with a saved value and the operation that takes it back. *)
Record saved_device (P : Type) := SavedDevice {
  sd_id : Z; sd_type : Type; sd_layout : Layout sd_type; sd_value : sd_type;
  sd_load : sd_type → M P unit }.
Arguments SavedDevice {P}. Arguments sd_id {P}. Arguments sd_type {P}. Arguments sd_layout {P}.
Arguments sd_value {P}. Arguments sd_load {P}.

Section Blocks.
Context {P : Type}.
Implicit Types d : saved_device P.
Definition saver_of d : saver := (sd_id d, @save_with _ (sd_layout d) (sd_value d)).
Definition loader_of d : list Z → M P unit := λ b, sd_load d (@unpack _ (sd_layout d) b).
(** The table [loaders] takes back what [d] saved. *)
Definition answers (loaders : list (Z * option (list Z → M P unit))) d : Prop :=
  byte (sd_id d) ∧ sd_id d ≠ 0 ∧ (@size_of _ (sd_layout d) <= 512)%nat ∧
  load_data_of loaders (sd_id d) = Some (Some (loader_of d)) ∧
  ∃ fits, @LayoutOk _ (sd_layout d) fits ∧ fits (sd_value d).

Lemma save_blocks_cons d l buf :
  save_blocks (saver_of d :: l) buf =
  sd_id d :: be16 (Z.of_nat (@size_of _ (sd_layout d))) ++
    take (@size_of _ (sd_layout d)) (overlay (@pack _ (sd_layout d) (sd_value d) buf) buf) ++
    save_blocks l (overlay (@pack _ (sd_layout d) (sd_value d) buf) buf).
Proof. cbn [save_blocks]. unfold saver_of, save_with. rewrite Nat2Z.id. done. Qed.
Lemma take_overlay n l buf : length l = n → take n (overlay l buf) = l.
Proof. intros <-. unfold overlay. apply take_app_length. Qed.
(** A record is there for every device, made of bytes. *)
Lemma save_blocks_length l buf : (length l < length (save_blocks (saver_of <$> l) buf))%nat.
Proof.
  revert buf. induction l as [|d l IH]; intros buf; [cbn; lia|]. cbn [fmap list_fmap].
  rewrite save_blocks_cons. cbn [length]. rewrite !length_app. specialize (IH (overlay (@pack _ (sd_layout d) (sd_value d) buf) buf)). lia.
Qed.
Lemma save_blocks_bytes loaders l buf :
  Forall (answers loaders) l → Forall byte buf → Forall byte (save_blocks (saver_of <$> l) buf).
Proof.
  intros Hl. revert buf. induction Hl as [|d l (Hi & _ & _ & _ & fits & Hok & Hv) _ IH]; intros buf Hb.
  { apply Forall_singleton, byte_const. done. }
  cbn [fmap list_fmap]. rewrite save_blocks_cons.
  pose proof (@pack_bytes _ (sd_layout d) fits Hok (sd_value d) buf Hv Hb) as Hp.
  assert (Forall byte (overlay (@pack _ (sd_layout d) (sd_value d) buf) buf)) as Ho.
  { apply Forall_app_2; [exact Hp|]. apply Forall_drop, Hb. }
  constructor; [exact Hi|]. apply Forall_app_2; [repeat constructor; apply u8_byte|].
  apply Forall_app_2; [apply Forall_take, Ho|apply IH, Ho].
Qed.

Lemma load_blocks_saved loaders l fuel buf b len rest m :
  Forall (answers loaders) l → (length l < fuel)%nat → (512 <= length buf)%nat →
  (∀ x, len = Some x → length x = 2%nat) →
  load_blocks fuel loaders b len (save_blocks (saver_of <$> l) buf ++ rest, false) m =
  (_ ← for_each (λ d, sd_load d (sd_value d)) l; mret true) m.
Proof.
  revert fuel buf b len m. induction l as [|d l IH]; intros fuel buf b len m Hl Hf Hb Hlen;
    (destruct fuel as [|fuel]; [simpl in Hf; lia|]); [done|].
  apply Forall_cons in Hl as [(Hi & Hi0 & Hs & Hld & fits & Hok & Hv) Hl].
  cbn [fmap list_fmap]. rewrite save_blocks_cons. set (n := @size_of _ (sd_layout d)) in *.
  pose proof (@pack_length _ (sd_layout d) fits Hok (sd_value d) buf Hv ltac:(lia)) as Hp. fold n in Hp.
  set (buf' := overlay _ buf) in *. cbn [load_blocks snd].
  change (sd_id d :: ?x) with ([sd_id d] ++ x). rewrite <- !app_assoc, gzread_app by done.
  cbn [app]. destruct (Z.eqb_spec (sd_id d) 0); [done|].
  rewrite (gzread_app (be16 _)) by done.
  assert (match len with
          | Some x => Some (overlay (be16 (Z.of_nat n)) x)
          | None => if (length (be16 (Z.of_nat n)) =? 2)%nat then Some (be16 (Z.of_nat n)) else None
          end = Some (be16 (Z.of_nat n))) as ->.
  { destruct len as [x|]; [|done]. rewrite overlay_same; [done|]. rewrite (Hlen x); done. }
  unfold be16 at 1. rewrite from_be_be16, u16_id by (unfold word; lia).
  unfold BLOCK_SIZE. destruct (Z.ltb_spec 512 (Z.of_nat n)); [lia|].
  assert (take n buf' = @pack _ (sd_layout d) (sd_value d) buf) as Ht by (apply take_overlay; done).
  rewrite Ht, gzread_app by lia. rewrite Hld.
  assert (loader_of d (overlay (@pack _ (sd_layout d) (sd_value d) buf) b) = sd_load d (sd_value d)) as ->.
  { unfold loader_of, overlay. rewrite (@unpack_pack _ (sd_layout d) fits Hok (sd_value d) buf); [done|exact Hv|lia]. }
  assert (512 <= length buf')%nat as Hb' by (unfold buf'; rewrite length_overlay; lia).
  cbn [for_each]. unfold mbind, M_bind. destruct (sd_load d (sd_value d) m) as [[] m1| | | |]; try done.
  assert ((length l < fuel)%nat) as Hf' by (simpl in Hf; lia).
  specialize (IH fuel buf' (overlay (@pack _ (sd_layout d) (sd_value d) buf) b)
    (Some [u8 (Z.of_nat n); u8 (Z.of_nat n >>! 8)]) m1 Hl Hf' Hb' ltac:(intros x [= <-]; done)).
  exact IH.
Qed.
End Blocks.

(** ** Loading any bytes

    Whatever the records hold, the devices' registers keep their widths. *)
Lemma htons_word x : word (htons x).
Proof.
  unfold htons. cbv zeta. apply word_join; [rewrite land_255; apply u8_byte|].
  apply word_hi, u16_word.
Qed.
Lemma htonl_qword x : qword (htonl x).
Proof. pose proof (htonl_bound x). unfold dword in *. unfold qword. lia. Qed.
Create HintDb loaded.
#[local] Hint Resolve htons_word htonl_qword u8_byte byte_lor byte_land_l : loaded.
Lemma ser_load_ok d s c : ser_regs_ok d → ser_ok (ser_load d s c).
Proof. intros Hd. exact Hd. Qed.
Lemma t16_load_ok d s : t16_fits d → t16_ok s → t16_ok (t16_load d s).
Proof. unfold t16_fits, t16_ok. cbn. intros; destruct_and?. split_and!; auto with loaded. Qed.
Lemma t8_load_ok d s : t8_fits d → t8_state_ok (t8_load d s).
Proof.
  unfold t8_fits, pair_fits, t8_state_ok, tm_ok. cbn. intros; destruct_and?. split_and!; auto with loaded.
Qed.
Lemma btn_load_ok d b c : btn_regs_ok d → btn_regs_ok b → clock_ok c → kept btn_regs_ok (btn_load d b c).
Proof.
  intros (H1 & H2 & H3 & H4) (? & _) Hc. split; [|apply btn_next_ok, Hc].
  split_and!; cbn; auto with loaded.
Qed.
Lemma lcd_load_ok d s : lcd_fits d → lcd_ok s → lcd_ok (lcd_load d s).
Proof. unfold lcd_fits, lcd_ok. cbn. intros; destruct_and?. split_and!; auto with loaded. Qed.
Lemma ad_load_ok d s : ad_fits d → ad_ok s → ad_ok (ad_load d s).
Proof.
  unfold ad_fits, ad_ok. cbn. intros; destruct_and?. rewrite length_fmap.
  split_and!; auto with loaded. apply Forall_fmap, Forall_true. apply htons_word.
Qed.
Lemma wdog_load_ok d w : wdog_fits d → wdog_regs_ok (wdog_load d w).
Proof. unfold wdog_fits, wdog_regs_ok. cbn. intros; destruct_and?. split_and!; auto with loaded. Qed.

(** *** The records *)
Section LoadWf.
Context {P : Type} `{!BoardInv P}.
Lemma gzread_bytes n f : Forall byte f.1 → Forall byte (gzread n f).1 ∧ Forall byte (gzread n f).2.1.
Proof. intros Hf. split; [apply Forall_take|apply Forall_drop]; exact Hf. Qed.
Lemma overlay_bytes l buf : Forall byte l → Forall byte buf → Forall byte (overlay l buf).
Proof. intros. apply Forall_app. split; [assumption|]. apply Forall_drop. assumption. Qed.
Lemma load_data_in (l : list (Z * option (list Z → M P unit))) i f :
  load_data_of l i = Some (Some f) → (i, Some f) ∈ l.
Proof.
  induction l as [|[j g] l IH]; [done|]. cbn [load_data_of]. destruct (Z.eqb_spec i j) as [->|].
  - intros [= ->]. apply list_elem_of_here.
  - intros E. apply list_elem_of_further, IH, E.
Qed.
(** A table of devices that take any 512 bytes. *)
Definition loaders_ok (l : list (Z * option (list Z → M P unit))) : Prop :=
  ∀ i f b, (i, Some f) ∈ l → Forall byte b → length b = 512%nat → keeps (λ _, True) (f b).
Lemma keeps_load_blocks l fuel buf len f :
  loaders_ok l → Forall byte buf → length buf = 512%nat → Forall byte f.1 →
  keeps (λ _, True) (load_blocks fuel l buf len f).
Proof.
  intros Hl. revert buf len f. induction fuel as [|fuel IH]; intros buf len f Hb Hlen Hf; cbn [load_blocks];
    [apply keeps_blocked|].
  destruct f.2; [apply keeps_ret; exact I|].
  pose proof (gzread_bytes 1 f Hf) as [_ H1]. destruct (gzread 1 f) as [got f1]. cbn [fst snd] in H1.
  destruct got as [|i ?]; [apply keeps_undefined|]. destruct (i =? 0); [apply keeps_ret; exact I|].
  pose proof (gzread_bytes 2 f1 H1) as [_ H2]. destruct (gzread 2 f1) as [got2 f2]. cbn [fst snd] in H2.
  destruct (match len with Some _ => _ | None => _ end) as [[|hi [|lo []]]|]; try apply keeps_undefined.
  destruct (Z.ltb_spec BLOCK_SIZE (from_be hi lo)) as [|Hle]; [apply keeps_ret; exact I|].
  set (n := Z.to_nat (from_be hi lo)). pose proof (gzread_bytes n f2 H2) as [H3 H4].
  assert (length (gzread n f2).1 <= 512)%nat as Hn.
  { unfold gzread. cbn [fst]. rewrite length_take. unfold BLOCK_SIZE in Hle. lia. }
  destruct (gzread n f2) as [got3 f3]. cbn [fst snd] in H3, H4, Hn.
  assert (Forall byte (overlay got3 buf)) as Hb' by (apply overlay_bytes; assumption).
  assert (length (overlay got3 buf) = 512%nat) as Hlen' by (rewrite length_overlay; lia).
  apply (keeps_bind (λ _, True)); [|intros _ _; apply IH; assumption].
  destruct (load_data_of l i) as [[g|]|] eqn:E; [|apply keeps_undefined|apply keeps_ret; exact I].
  apply (Hl i); [apply load_data_in, E|assumption..].
Qed.
End LoadWf.
