(* ===== verification/DebuggerOk.v ===== *)
(** * DebuggerOk: gdb cannot break the machine's invariant

    Whatever packets arrive, well-formed or not, the debugger leaves registers,
    memory and memory types arrays of bytes. *)
From S2P Require Export Debugger.

Section DebuggerOk.
Context {P : Type} `{!BoardInv P} (can_write : list Z → bool).
Abbreviation St := (db * machine P)%type.

(** A step of the debugger that leaves a well-formed machine, if any. *)
Definition leaves_wf (r : option St) : Prop :=
  match r with Some s => wf s.2 | None => True end.

Lemma leaves_none : leaves_wf None.
Proof. exact I. Qed.
Lemma leaves_bind {A} (r : option A) k : (∀ a, r = Some a → leaves_wf (k a)) → leaves_wf (r ≫= k).
Proof. intros Hk. destruct r as [a|]; [exact (Hk a eq_refl)|exact I]. Qed.
Lemma leaves_then (r : option St) k :
  leaves_wf r → (∀ s, wf s.2 → leaves_wf (k s)) → leaves_wf (r ≫= k).
Proof. intros Hr Hk. destruct r as [s|]; [exact (Hk s Hr)|exact I]. Qed.
Lemma leaves_on_db f (s : St) : wf s.2 → leaves_wf (on_db f s).
Proof. intros Hs. unfold on_db. destruct (f s.1); [exact Hs|exact I]. Qed.
Lemma leaves_if (b : bool) (r r' : option St) : leaves_wf r → leaves_wf r' → leaves_wf (if b then r else r').
Proof. destruct b; auto. Qed.

Lemma hex_bytes_byte count buf l : hex_bytes count buf = Some l → Forall byte l.
Proof.
  revert buf l. induction count as [|n IH]; intros [|h [|h' buf]] l; simpl; try (intros [= <-]; done); try done.
  destruct (hex_bytes n buf) as [l'|] eqn:E; [|done]. intros [= <-].
  constructor; [apply u8_byte|exact (IH _ _ E)].
Qed.
Lemma nth_byte (l : list Z) i : Forall byte l → byte (l !!! i).
Proof.
  intros Hl. rewrite list_lookup_total_alt. destruct (l !! i) as [v|] eqn:E.
  - exact (Forall_lookup_1 _ _ _ _ Hl E).
  - apply byte_const. done.
Qed.
Lemma map_range_ok f n a t : (∀ x, byte x → byte (f x)) → bytes_map t → bytes_map (map_range f a n t).
Proof.
  intros Hf. revert a t. induction n as [|n IH]; intros a t Ht; simpl; [exact Ht|].
  apply IH, bytes_map_insert; [exact Ht|]. apply Hf, get0_byte, Ht.
Qed.
Lemma set_mask_byte set mask t : byte mask → byte t → byte (set_mask set mask t).
Proof. intros Hm Ht. unfold set_mask. destruct set; [apply byte_lor; done|apply u8_byte]. Qed.
Lemma bptype_byte t : byte (bptype2mask t).
Proof.
  apply byte_const. unfold bptype2mask. destruct t as [|[[]|[[]|[]|]|]|]; reflexivity.
Qed.
Lemma store_bytes_map l a mem : bytes_map mem → Forall byte l → bytes_map (store_bytes a l mem).
Proof.
  intros Hm Hl. revert a mem Hm. induction Hl as [|b l Hb _ IH]; intros a mem Hm; [done|].
  apply IH. apply bytes_map_insert; done.
Qed.

Lemma set_register_wf r value (m : machine P) : Forall byte value → wf m → wf (set_register r value m).
Proof.
  intros Hv Hm. unfold set_register. destruct (_ && _).
  { destruct Hm. constructor; cbn; try assumption; [rewrite !length_insert; assumption|].
    apply Forall_insert; [|apply nth_byte, Hv]. apply Forall_insert; [assumption|apply nth_byte, Hv]. }
  destruct (r =? 8); [destruct Hm; constructor; cbn; try assumption; apply nth_byte, Hv|].
  destruct (r =? 9); [|exact Hm]. destruct Hm; constructor; cbn -[u16]; try assumption. apply u16_word.
Qed.
Lemma write_bytes_wf a n l (s : St) : Forall byte l → wf s.2 → leaves_wf (write_bytes a n l s).
Proof.
  intros Hl Hs. unfold write_bytes. destruct (accessible a n); [|exact I]. cbn.
  destruct Hs; constructor; cbn; try assumption. apply store_bytes_map; assumption.
Qed.
Lemma change_memtype_wf set mask a n (s : St) :
  byte mask → wf s.2 → leaves_wf (change_memtype (set_mask set mask) a n s).
Proof.
  intros Hk Hs. unfold change_memtype. destruct (accessible a n); [|exact I]. cbn.
  destruct Hs; constructor; cbn; try assumption. apply map_range_ok; [|assumption].
  intros x Hx. apply set_mask_byte; done.
Qed.

(** Decompose a command: reading a number or a character changes nothing. *)
Ltac leaves :=
  repeat match goal with
  | |- leaves_wf None => exact I
  | |- leaves_wf (Some _) => assumption
  | |- leaves_wf (on_db _ _) => apply leaves_on_db; assumption
  | |- leaves_wf (on_db _ _ ≫= _) => apply leaves_then; [apply leaves_on_db; assumption|intros ? ?]
  | |- leaves_wf (hexToInt _ ≫= _) => apply leaves_bind; intros [[? ?] ?] _
  | |- leaves_wf (if _ then _ else _) => apply leaves_if
  | |- leaves_wf (match ?l with [] => _ | _ :: _ => _ end) => destruct l
  end.
Lemma cmd_read_wf packet (s : St) : wf s.2 → leaves_wf (cmd_read packet s).
Proof.
  intros Hs. unfold cmd_read. leaves.
  apply leaves_bind. intros bytes _. apply leaves_bind. intros d _. exact Hs.
Qed.
Lemma cmd_write_wf packet (s : St) : wf s.2 → leaves_wf (cmd_write packet s).
Proof.
  intros Hs. unfold cmd_write. cbv zeta. leaves.
  apply leaves_bind. intros bytes Hb. apply leaves_then.
  - apply write_bytes_wf; [|exact Hs]. revert Hb. unfold hex2mem. case_match; apply hex_bytes_byte.
  - intros s' Hs'. leaves.
Qed.
Lemma cmd_set_register_wf packet (s : St) : wf s.2 → leaves_wf (cmd_set_register packet s).
Proof.
  intros Hs. unfold cmd_set_register. leaves.
  apply leaves_bind. intros value Hv. apply leaves_then.
  - apply leaves_on_db. apply set_register_wf; [|exact Hs].
    revert Hv. unfold hex2mem. case_match; apply hex_bytes_byte.
  - intros s' Hs'. apply cmd_read_wf, Hs'.
Qed.
Lemma cmd_breakpoint_wf set packet (s : St) : wf s.2 → leaves_wf (cmd_breakpoint set packet s).
Proof.
  intros Hs. unfold cmd_breakpoint. cbv zeta. leaves.
  apply leaves_then; [apply change_memtype_wf; [apply bptype_byte|exact Hs]|]. intros s' Hs'. leaves.
Qed.
Lemma cmd_continue_wf step start packet (s : St) :
  wf s.2 → leaves_wf (cmd_continue can_write step start packet s).
Proof.
  intros Hs. unfold cmd_continue. apply leaves_bind. intros [[ok a] l] _. cbv zeta.
  apply leaves_bind. intros d _. cbn [leaves_wf snd].
  destruct ok; [|destruct Hs; constructor; assumption].
  destruct Hs; constructor; cbn -[u16]; try assumption. apply u16_word.
Qed.
Lemma db_reply_wf start (s : St) : wf s.2 → leaves_wf (db_reply can_write start s).
Proof. intros Hs. apply leaves_on_db, Hs. Qed.

Lemma db_handle_packet_wf packet (s : St) : wf s.2 → leaves_wf (db_handle_packet can_write packet s).
Proof.
  intros Hs. unfold db_handle_packet. apply leaves_then; [apply leaves_on_db, Hs|].
  clear s Hs. intros s Hs. cbv zeta. destruct packet as [|c packet]; [exact I|].
  assert (∀ start r, leaves_wf r → leaves_wf (r ≫= db_reply can_write start)) as Hr.
  { intros start r Hr. apply leaves_then; [exact Hr|]. intros. apply db_reply_wf. assumption. }
  repeat case_match; try (apply db_reply_wf; exact Hs);
    try (apply Hr; first [ apply cmd_read_wf | apply cmd_write_wf | apply cmd_set_register_wf
                         | apply cmd_breakpoint_wf | apply leaves_on_db ]; exact Hs);
    try (apply cmd_continue_wf; exact Hs).
  apply leaves_bind. intros regs _. apply Hr, leaves_on_db, Hs.
Qed.

Lemma answer_wf buf i sum (s : St) : wf s.2 → leaves_wf (answer can_write buf i sum s).
Proof.
  intros Hs. unfold answer. destruct (negb _); [apply leaves_on_db, Hs|].
  apply leaves_then; [apply leaves_on_db, Hs|]. intros s' Hs'. cbv zeta.
  destruct (_ =? 58); [|apply db_handle_packet_wf, Hs'].
  apply leaves_then; [apply leaves_on_db, Hs'|]. intros. apply db_handle_packet_wf. assumption.
Qed.
Lemma set_trap_wf v (m : machine P) : wf m → wf (set_db_trap v m).
Proof. intros []. constructor; assumption. Qed.
Lemma parse_loop_wf fuel i (s : St) : wf s.2 → leaves_wf (parse_loop can_write fuel i s).
Proof.
  revert i s. induction fuel as [|fuel IH]; intros i s Hs; cbn [parse_loop].
  { destruct (_ <? _); [exact I|exact Hs]. }
  destruct (_ <? _); [|exact Hs]. destruct (skip_garbage _ _ _) as [j trap]. cbv zeta.
  pose proof (set_trap_wf trap s.2 Hs) as Ht.
  destruct (_ <=? j); [exact Ht|]. apply leaves_bind. intros buf _.
  destruct (sum_payload _ _ _) as [k sum]. destruct (_ =? _); [exact Ht|].
  apply leaves_then; [apply answer_wf, Ht|]. intros s' Hs'. apply leaves_bind. intros buf' _.
  apply IH. exact Hs'.
Qed.
Lemma db_parse_packet_wf (s : St) : wf s.2 → leaves_wf (db_parse_packet can_write s).
Proof. intros Hs. unfold db_parse_packet. destruct (_ && _); [|exact I]. apply parse_loop_wf, Hs. Qed.

Lemma db_handletrap_wf (s : St) : wf s.2 → leaves_wf (db_handletrap can_write s).
Proof.
  intros Hs. unfold db_handletrap. cbv zeta. destruct (connected _); [|exact Hs].
  apply leaves_then; [apply leaves_on_db, Hs|]. intros s1 H1.
  apply leaves_then; [apply leaves_on_db, H1|]. intros s2 H2. apply db_reply_wf, H2.
Qed.
Lemma db_handlefd_wf data (s : St) : wf s.2 → leaves_wf (db_handlefd can_write data s).
Proof.
  intros Hs. unfold db_handlefd. cbv zeta. destruct data as [[|c l]|].
  - apply set_trap_wf, Hs.
  - destruct (_ && _); [|exact I]. apply db_parse_packet_wf, Hs.
  - apply db_parse_packet_wf, Hs.
Qed.
End DebuggerOk.
