(* ===== verification/Brick.v ===== *)
(** * Brick: all parts of the emulator together

    [main.c] registers the devices with the processor: their getters and setters in
    the table [port], their operations in the table [peripherals].  The state of the
    brick is the record of the devices' states; what the operating system delivers
    (time, the GUI's and gdb's characters, the infrared server, files) comes from a
    state of type [H] through the operations of the class [Host]. *)
From stdpp Require Import strings.
From S2P Require Import Printf.
From S2P Require Import Debugger.
From S2P Require Import Loader.
From S2P Require Import Frame.
From S2P Require Import SaveFile.
From S2P Require Import Dump.
From S2P Require Export Run.
From S2P Require Export DeviceOk.

(** ** The outside world *)

(** [h_gui]: the next character of the GUI's connection, [None] at its end.  [h_ir]:
    what the infrared server has sent, if anything.  [h_gdb]: the result of [read]
    from gdb, [None] for an error.  [h_gdb_accepts]: whether [write] to gdb succeeds.
    [h_open]: the contents of a file, if it can be opened; [h_create] writes a file.
    [h_stack]: what a local buffer of 512 bytes holds before anything is stored.
    [h_print]: output to the terminal; [h_reply]: an answer to the GUI. *)
Class Host (H : Type) := {
  h_gettimeofday : H → Z * H;
  h_select : option Z → H → option ready * H;
  h_gui : H → option Z * H;
  h_ir : H → option Z * H;
  h_gdb : H → option (list Z) * H;
  h_gdb_accepts : H → list Z → bool;
  h_open : list Z → H → option (list Z);
  h_create : list Z → list Z → H → H;
  h_stack : H → list Z;
  h_print : list printed → H → H;
  h_reply : printed → H → H }.

(** ** The state *)
Record brick (H : Type) := Brick {
  b_periph : periph_state; b_t16 : t16; b_t8 : t8; b_wdog : wdog; b_btn : buttons;
  b_ad : ad; b_motors : motors; b_lcd : lcd; b_ser : ser; b_wcsr : Z; b_db : db;
  b_syms : tree; b_frame : option profiler; b_console : list Z;
  rom_file_name : option string; b_host : H }.
Arguments Brick {H}. Arguments b_periph {H}. Arguments b_t16 {H}. Arguments b_t8 {H}.
Arguments b_wdog {H}. Arguments b_btn {H}. Arguments b_ad {H}. Arguments b_motors {H}.
Arguments b_lcd {H}. Arguments b_ser {H}. Arguments b_wcsr {H}. Arguments b_db {H}.
Arguments b_syms {H}. Arguments b_frame {H}. Arguments b_console {H}.
Arguments rom_file_name {H}. Arguments b_host {H}.

Section Brick.
Context {H : Type}.
Implicit Types b : brick H.
Definition set_periph x b : brick H := Brick x (b_t16 b) (b_t8 b) (b_wdog b) (b_btn b) (b_ad b)
  (b_motors b) (b_lcd b) (b_ser b) (b_wcsr b) (b_db b) (b_syms b) (b_frame b) (b_console b)
  (rom_file_name b) (b_host b).
Definition with_t16 x b : brick H := Brick (b_periph b) x (b_t8 b) (b_wdog b) (b_btn b) (b_ad b)
  (b_motors b) (b_lcd b) (b_ser b) (b_wcsr b) (b_db b) (b_syms b) (b_frame b) (b_console b)
  (rom_file_name b) (b_host b).
Definition with_t8 x b : brick H := Brick (b_periph b) (b_t16 b) x (b_wdog b) (b_btn b) (b_ad b)
  (b_motors b) (b_lcd b) (b_ser b) (b_wcsr b) (b_db b) (b_syms b) (b_frame b) (b_console b)
  (rom_file_name b) (b_host b).
Definition with_wdog x b : brick H := Brick (b_periph b) (b_t16 b) (b_t8 b) x (b_btn b) (b_ad b)
  (b_motors b) (b_lcd b) (b_ser b) (b_wcsr b) (b_db b) (b_syms b) (b_frame b) (b_console b)
  (rom_file_name b) (b_host b).
Definition with_btn x b : brick H := Brick (b_periph b) (b_t16 b) (b_t8 b) (b_wdog b) x (b_ad b)
  (b_motors b) (b_lcd b) (b_ser b) (b_wcsr b) (b_db b) (b_syms b) (b_frame b) (b_console b)
  (rom_file_name b) (b_host b).
Definition with_ad x b : brick H := Brick (b_periph b) (b_t16 b) (b_t8 b) (b_wdog b) (b_btn b) x
  (b_motors b) (b_lcd b) (b_ser b) (b_wcsr b) (b_db b) (b_syms b) (b_frame b) (b_console b)
  (rom_file_name b) (b_host b).
Definition with_motors x b : brick H := Brick (b_periph b) (b_t16 b) (b_t8 b) (b_wdog b) (b_btn b)
  (b_ad b) x (b_lcd b) (b_ser b) (b_wcsr b) (b_db b) (b_syms b) (b_frame b) (b_console b)
  (rom_file_name b) (b_host b).
Definition with_lcd x b : brick H := Brick (b_periph b) (b_t16 b) (b_t8 b) (b_wdog b) (b_btn b)
  (b_ad b) (b_motors b) x (b_ser b) (b_wcsr b) (b_db b) (b_syms b) (b_frame b) (b_console b)
  (rom_file_name b) (b_host b).
Definition with_ser x b : brick H := Brick (b_periph b) (b_t16 b) (b_t8 b) (b_wdog b) (b_btn b)
  (b_ad b) (b_motors b) (b_lcd b) x (b_wcsr b) (b_db b) (b_syms b) (b_frame b) (b_console b)
  (rom_file_name b) (b_host b).
Definition with_wcsr x b : brick H := Brick (b_periph b) (b_t16 b) (b_t8 b) (b_wdog b) (b_btn b)
  (b_ad b) (b_motors b) (b_lcd b) (b_ser b) x (b_db b) (b_syms b) (b_frame b) (b_console b)
  (rom_file_name b) (b_host b).
Definition with_db x b : brick H := Brick (b_periph b) (b_t16 b) (b_t8 b) (b_wdog b) (b_btn b) (b_ad
  b) (b_motors b) (b_lcd b) (b_ser b) (b_wcsr b) x (b_syms b) (b_frame b) (b_console b) (rom_file_name
  b) (b_host b).
Definition with_syms x b : brick H := Brick (b_periph b) (b_t16 b) (b_t8 b) (b_wdog b) (b_btn b)
  (b_ad b) (b_motors b) (b_lcd b) (b_ser b) (b_wcsr b) (b_db b) x (b_frame b) (b_console b)
  (rom_file_name b) (b_host b).
Definition with_frame x b : brick H := Brick (b_periph b) (b_t16 b) (b_t8 b) (b_wdog b) (b_btn b)
  (b_ad b) (b_motors b) (b_lcd b) (b_ser b) (b_wcsr b) (b_db b) (b_syms b) x (b_console b)
  (rom_file_name b) (b_host b).
Definition with_console x b : brick H := Brick (b_periph b) (b_t16 b) (b_t8 b) (b_wdog b) (b_btn b)
  (b_ad b) (b_motors b) (b_lcd b) (b_ser b) (b_wcsr b) (b_db b) (b_syms b) (b_frame b) x
  (rom_file_name b) (b_host b).
Definition with_host x b : brick H := Brick (b_periph b) (b_t16 b) (b_t8 b) (b_wdog b) (b_btn b)
  (b_ad b) (b_motors b) (b_lcd b) (b_ser b) (b_wcsr b) (b_db b) (b_syms b) (b_frame b) (b_console b)
  (rom_file_name b) x.

(** An operation of a device on its part of the brick. *)
Definition dev {S A} (get : brick H → S) (put : S → brick H → brick H) (f : dev_op S A) : M (brick H) A :=
  λ m, match f (get (board m)) (clk m) with
       | Some (s, c, a) => Done a (set_clk c (set_board (put s (board m)) m))
       | None => Undefined
       end.
Definition on_t16 {A} : dev_op t16 A → M (brick H) A := dev b_t16 with_t16.
Definition on_t8 {A} : dev_op t8 A → M (brick H) A := dev b_t8 with_t8.
Definition on_wdog {A} : dev_op wdog A → M (brick H) A := dev b_wdog with_wdog.
Definition on_btn {A} : dev_op buttons A → M (brick H) A := dev b_btn with_btn.
Definition on_ad {A} : dev_op ad A → M (brick H) A := dev b_ad with_ad.
Definition on_motors {A} : dev_op motors A → M (brick H) A := dev b_motors with_motors.
Definition on_lcd {A} : dev_op lcd A → M (brick H) A := dev b_lcd with_lcd.
Definition on_ser {A} : dev_op ser A → M (brick H) A := dev b_ser with_ser.
Definition on_host {A} (f : H → A * H) : M (brick H) A :=
  λ m, let '(a, h) := f (b_host (board m)) in Done a (set_board (with_host h (board m)) m).

Context `{!Host H}.

(** ** Reading from the GUI *)

(** The next character; [at_end] is what a function does without one.  A loop that
    waits for more characters never ends when the GUI is gone. *)
Definition gui_char (at_end : M (brick H) Z) : M (brick H) Z :=
  c ← on_host h_gui;
  match c with Some c => mret c | None => at_end end.
Definition next_char : M (brick H) Z := gui_char blocked.
(** The characters up to the end of the line, for a buffer of [room] bytes.  At the
    end of the file before the first character the loop looks at [filename[-1]]. *)
Fixpoint read_chars (at_end : M (brick H) Z) (room : nat) : M (brick H) (list Z) :=
  match room with
  | O => undefined
  | S room =>
      c ← gui_char at_end;
      if (c =? 10) || (c =? 13) then mret [] else l ← read_chars blocked room; mret (c :: l)
  end.
Definition read_line (room : nat) : M (brick H) (list Z) := read_chars undefined room.

(** ** The table [peripherals], in the order of [main] *)
Definition timed {S} (f : S → clock → S) : dev_op S unit := act (λ s c, (f s c, c)).
Definition no_read_fd (do_reset : M (brick H) unit) : M (brick H) unit := undefined.

(** [read] asks the infrared server only when a character may be there. *)
Definition ser_update : M (brick H) unit :=
  s ← gets (λ m, b_ser (board m));
  c ← gets clk;
  rx ← (if 0 <=? s32 (cycles c - rx_cycle s) then on_host h_ir else mret None);
  on_ser (act (ser_update_time rx)).
Definition serial : peripheral_ops (brick H) :=
  PeripheralOps 83 (Some (on_ser (timed ser_reset))) (Some ser_update) no_read_fd
    (Some (on_ser (look ser_check_irq))).
Definition periph_cmd : M (brick H) Z := gui_char undefined.
Definition timer16 : peripheral_ops (brick H) :=
  PeripheralOps 84 (Some (on_t16 (timed (flip t16_reset)))) (Some (on_t16 (try_act t16_update_time)))
    no_read_fd (Some (on_t16 (look t16_check_irq))).
Definition timer8 : peripheral_ops (brick H) :=
  PeripheralOps 56 (Some (on_t8 (timed (flip t8_reset)))) (Some (on_t8 (try_act t8_update_time)))
    no_read_fd (Some (on_t8 (look t8_check_irq))).
(** [char] is signed. *)
Definition btn_message (do_reset : M (brick H) unit) : M (brick H) unit :=
  letter ← next_char; val ← next_char; _ ← next_char;
  on_btn (act (btn_read_fd (s8 letter) (s8 val))).
Definition buttons_ops : peripheral_ops (brick H) :=
  PeripheralOps 66 (Some (on_btn (change (λ _, btn_reset)))) None btn_message
    (Some (on_btn (latch btn_check_irq))).
Definition lcd_ops : peripheral_ops (brick H) := PeripheralOps 76 None None no_read_fd None.
Definition ad_message (do_reset : M (brick H) unit) : M (brick H) unit :=
  b0 ← next_char; b1 ← next_char; b2 ← next_char; b3 ← next_char; _ ← next_char;
  on_ad (λ s c, s ← ad_read_fd (s8 b0) (s8 b1) (s8 b2) (s8 b3) s; Some (s, c, tt)).
Definition adsensor : peripheral_ops (brick H) :=
  PeripheralOps 65 (Some (on_ad (change ad_reset))) (Some (on_ad (try_act ad_update_time)))
    ad_message (Some (on_ad (look ad_check_irq))).
Definition watchdog : peripheral_ops (brick H) :=
  PeripheralOps 87 (Some (on_wdog (timed (flip wdog_reset)))) (Some (on_wdog (act wdog_update_time)))
    no_read_fd (Some (on_wdog (λ w c, Some (wdog_check_irq w c)))).
(** What a file changes: memory and symbols. *)
Definition load_with {A} (f : gmap Z Z → tree → option (A * gmap Z Z * tree)) : M (brick H) A :=
  λ m, match f (memory m) (b_syms (board m)) with
       | Some (a, mem, t) => Done a (set_memory mem (set_board (with_syms t (board m)) m))
       | None => Undefined
       end.
Definition MAX_PATHNAME_LEN : nat := Z.to_nat 4096.
Definition firm_message (do_reset : M (brick H) unit) : M (brick H) unit :=
  filename ← read_line (S MAX_PATHNAME_LEN);
  file ← gets (λ m, h_open filename (b_host (board m)));
  load_with (λ mem t, '(mem, t) ← firm_load file mem t; Some (tt, mem, t)).
Definition firmware : peripheral_ops (brick H) :=
  PeripheralOps 70 (Some (mret tt)) (Some (mret tt)) firm_message (Some (mret 255)).
Definition motor : peripheral_ops (brick H) :=
  PeripheralOps 77 None (Some (on_motors (act motor_update_time))) no_read_fd None.


(** *** The commands of the kernels *)
Definition print_table (f : machine (brick H) → option (tree * list printed)) : M (brick H) unit :=
  λ m, match f m with
       | Some (t, l) =>
           let b := with_syms t (board m) in
           Done tt (set_board (with_host (h_print l (b_host b)) b) m)
       | None => Undefined
       end.
(** A table that leaves the symbols alone. *)
Definition print_memory (f : tree → gmap Z Z → option (list printed)) : M (brick H) unit :=
  print_table (λ m, l ← f (b_syms (board m)) (memory m); Some (b_syms (board m), l)).
Definition reply (x : printed) : M (brick H) unit :=
  on_host (λ h, (tt, h_reply x h)).
(** A line for a buffer of [n] bytes, whose last one is overwritten with 0. *)
Fixpoint read_short (at_end : M (brick H) Z) (n : nat) : M (brick H) (list Z) :=
  match n with
  | O => mret []
  | S n =>
      c ← gui_char at_end;
      if (c =? 10) || (c =? 13) || (n =? 0)%nat then mret []
      else l ← read_short blocked n; mret (c :: l)
  end.
Fixpoint number_of (acc : Z) (l : list Z) : Z :=
  match l with
  | [] => acc
  | c :: l => if (48 <=? c) && (c <=? 57) then number_of (10 * acc + (c - 48)) l else acc
  end.
Fixpoint atoi (l : list Z) : Z :=
  match l with
  | c :: r => if (c =? 32) || ((9 <=? c) && (c <=? 13)) then atoi r
              else if c =? 45 then - number_of 0 r
              else if c =? 43 then number_of 0 r
              else number_of 0 l
  | [] => 0
  end.
Definition is_letter (c upper : Z) : bool := (c =? upper) || (c =? upper + 32).
(** The commands that both kernels have. *)
Definition kernel_command (heap : KernelHeap) (dump_memory dump_programs dump_threads : M (brick H) unit)
    (letter : Z) : M (brick H) unit :=
  if is_letter letter 77 then dump_memory
  else if is_letter letter 80 then dump_programs
  else if is_letter letter 79 then
    ok ← gets (λ m, brickos_checkos (b_syms (board m)));
    reply (Printf "OO%d\n" [Num (if (ok : bool) then 1 else 0)])
  else if is_letter letter 65 then
    l ← read_short undefined 20;
    match l with
    | [] => undefined
    | slot :: size =>
        addr ← load_with (λ mem t, '(a, mem) ← @newprogram_addr heap (s8 slot) (atoi size) mem t; Some (a, mem, t));
        reply (Printf "OA%x\n" [Num addr])
    end
  else if is_letter letter 78 then
    c ← periph_cmd;
    answer ← load_with (λ mem t, let '(a, mem) := brickos_sethostaddr (s8 c) mem t in Some (a, mem, t));
    when (c =? 63) (reply (match answer with
                           | Some a => Printf "ON%x\n" [Num a]
                           | None => Printf "ON?\n" []
                           end))
  else if is_letter letter 84 then dump_threads
  else if is_letter letter 76 then
    slot ← periph_cmd;
    filename ← read_line (S MAX_PATHNAME_LEN);
    file ← gets (λ m, h_open filename (b_host (board m)));
    load_with (λ mem t, '(mem, t) ← @load_program heap (s8 slot) file mem t; Some (tt, mem, t))
  else mret tt.
Definition brickos_message : M (brick H) unit :=
  letter ← periph_cmd;
  kernel_command brickos_heap (print_memory brickos_dump_memory) (print_memory brickos_dump_programs)
    (print_memory brickos_dump_threads) letter.
(** Without a BiBo kernel the message is one of brickOS - and then there is another
    letter to be read, as there is no [return]. *)
Definition bibo_message (do_reset : M (brick H) unit) : M (brick H) unit :=
  td_idle ← gets (λ m, symbols_getaddr "_td_idle"%string (b_syms (board m)));
  _ ← when (td_idle =? 0) brickos_message;
  letter ← periph_cmd;
  if is_letter letter 67 then print_table (λ m, bibo_dump_timers (memory m) (b_syms (board m)))
  else
    kernel_command bibo_heap (print_memory bibo_dump_memory) (print_memory bibo_dump_programs)
      (r7 ← GET_REG16 7;
       print_table (λ m, prof ← b_frame (board m);
                         bibo_dump_threads (memory m) (pc m) r7 prof (b_syms (board m)))) letter.
Definition bibo : peripheral_ops (brick H) :=
  PeripheralOps 79 None None bibo_message (Some (mret 255)).

(** ** The rest of what [peripherals.c] calls *)
Definition codes (s : string) : list Z := (λ c, Z.of_nat (Ascii.nat_of_ascii c)) <$> String.list_ascii_of_string s.
Definition load_rom : M (brick H) bool :=
  name ← gets (λ m, rom_file_name (board m));
  file ← gets (λ m, name ≫= λ n, h_open (codes n) (b_host (board m)));
  load_with (Loader.read_rom name file).
Definition brick_read_rom : M (brick H) unit := _ ← load_rom; mret tt.
Definition on_debugger (f : db * machine (brick H) → option (db * machine (brick H))) : M (brick H) unit :=
  λ m, match f (b_db (board m), m) with
       | Some (d, m) => Done tt (set_board (with_db d (board m)) m)
       | None => Undefined
       end.
Definition brick_handlefd : M (brick H) unit :=
  data ← on_host h_gdb;
  can_write ← gets (λ m, h_gdb_accepts (b_host (board m)));
  on_debugger (Debugger.db_handlefd can_write data).
Definition brick_handletrap : M (brick H) unit :=
  can_write ← gets (λ m, h_gdb_accepts (b_host (board m)));
  on_debugger (Debugger.db_handletrap can_write).
Definition on_brick (f : brick H → brick H) : M (brick H) unit := modify (λ m, set_board (f (board m)) m).

(** The brick with a table of peripherals.  The handler of [periph] only changes the
    variables of [peripherals.c], whatever the table. *)
Definition with_peripherals (l : list (peripheral_ops (brick H))) : Peripherals (brick H) := {|
  periph_of := b_periph;
  with_periph := set_periph;
  peripherals := l;
  gettimeofday := on_host h_gettimeofday;
  select t := on_host (h_select t);
  read_id := on_host h_gui;
  db_handlefd := brick_handlefd;
  db_handletrap := brick_handletrap;
  symbols_clear := on_brick (λ b, with_syms (symbols_removeall (b_syms b)).1 b);
  read_rom := brick_read_rom |}.
Definition periph_message : M (brick H) unit → M (brick H) unit :=
  @periph_read_fd _ (with_peripherals []) periph_cmd.
Definition periph_ops : peripheral_ops (brick H) := PeripheralOps 80 None None periph_message None.

(** ** Save files

    The functions [save_data] and [load_data], in the order of the table. *)
Definition savers (m : machine (brick H)) : list saver :=
  [(83, save_with (ser_save (b_ser (board m))));
   (80, save_with (@periph_save _ (with_peripherals []) m));
   (84, save_with (t16_save (b_t16 (board m))));
   (56, save_with (t8_save (b_t8 (board m))));
   (66, save_with (btn_save (b_btn (board m))));
   (76, save_with (lcd_save (b_lcd (board m))));
   (65, save_with (ad_save (b_ad (board m))));
   (87, save_with (wdog_save (b_wdog (board m))))].
Definition take_ser (d : ser_regs) : M (brick H) unit := on_ser (timed (ser_load d)).
Definition take_periph (d : periph_save_type) : M (brick H) unit :=
  modify (@periph_load _ (with_peripherals []) d).
Definition take_t16 (d : t16_save_type) : M (brick H) unit := on_t16 (change (t16_load d)).
Definition take_t8 (d : t8_save_type) : M (brick H) unit := on_t8 (change (t8_load d)).
Definition take_btn (d : buttons) : M (brick H) unit := on_btn (act (btn_load d)).
Definition take_lcd (d : lcd_save_type) : M (brick H) unit := on_lcd (change (lcd_load d)).
Definition take_ad (d : ad_save_type) : M (brick H) unit := on_ad (change (ad_load d)).
Definition take_wdog (d : wdog_save_type) : M (brick H) unit := on_wdog (change (wdog_load d)).
Definition loaders : list (Z * option (list Z → M (brick H) unit)) :=
  [(83, Some (take_ser ∘ unpack)); (80, Some (take_periph ∘ unpack)); (67, None);
   (84, Some (take_t16 ∘ unpack)); (56, Some (take_t8 ∘ unpack)); (66, Some (take_btn ∘ unpack));
   (76, Some (take_lcd ∘ unpack)); (65, Some (take_ad ∘ unpack)); (87, Some (take_wdog ∘ unpack));
   (70, None); (77, None); (79, None)].

Definition saved (m : machine (brick H)) : list Z :=
  save_content (memory m) (memtype m) (b_syms (board m)) (savers m) (h_stack (b_host (board m))).
Definition savefile_save (path : list Z) : M (brick H) unit :=
  _ ← @stop_time _ (with_peripherals []);
  l ← gets saved;
  _ ← on_brick (λ b, with_host (h_create path l (b_host b)) b);
  @cont_time _ (with_peripherals []).
Definition load_memory (f : gzfile) : M (brick H) gzfile :=
  let '(mem, f) := gzread (Z.to_nat 65536) f in
  let '(types, f) := gzread (Z.to_nat 65536) f in
  _ ← modify (λ m, set_memory (store_bytes 0 mem (memory m)) m);
  _ ← modify (λ m, set_memtype (store_bytes 0 types (memtype m)) m);
  mret f.
Definition load_tree (f : gzfile) : M (brick H) gzfile :=
  λ m, match load_symbols (S (length f.1)) None f (b_syms (board m)) with
       | Some (f, t) => Done f (set_board (with_syms t (board m)) m)
       | None => Undefined
       end.
Definition reset_profiler : M (brick H) unit :=
  _ ← modify (set_opcstat ∅); on_brick (with_frame (Some frame_init)).
(** After the signature; [buffer] holds it. *)
Definition load_state (buffer : list Z) (f : gzfile) : M (brick H) unit :=
  f ← load_memory f;
  f ← load_tree f;
  all ← load_blocks (S (length f.1)) loaders buffer None f;
  if (all : bool) then _ ← reset_profiler; @cont_time _ (with_peripherals []) else mret tt.
Definition savefile_load (path : list Z) : M (brick H) unit :=
  _ ← @stop_time _ (with_peripherals []);
  file ← gets (λ m, h_open path (b_host (board m)));
  stack ← gets (λ m, h_stack (b_host (board m)));
  let '(magic, f) := gzread 8 (default [] file, false) in
  if bool_decide (take (length magic) SAVEFILE_MAGIC = magic)
  then if (length magic =? 8)%nat then load_state (overlay magic stack) f else undefined
  else mret tt.
(** [case 'L'] has no [break]. *)
Definition savefile_message (do_reset : M (brick H) unit) : M (brick H) unit :=
  letter ← periph_cmd;
  filename ← read_line (S MAX_PATHNAME_LEN);
  let load := (letter =? 76) || (letter =? 108) in
  _ ← when load (savefile_load filename);
  when (load || (letter =? 83) || (letter =? 115)) (savefile_save filename).
Definition savefile : peripheral_ops (brick H) := PeripheralOps 67 None None savefile_message None.
#[export] Instance brick_peripherals : Peripherals (brick H) :=
  with_peripherals [serial; periph_ops; savefile; timer16; timer8; buttons_ops; lcd_ops; adsensor;
                    watchdog; firmware; motor; bibo].

(** ** The table [port]

    The entries that the [*_init] functions set, by the low byte of the address.
    [wait] is [wait_peripherals], which the setters of TCR and of port 6 call. *)
Section Ports.
Context (wait : M (brick H) unit).
Abbreviation getter := (Z * M (brick H) Z)%type.
Abbreviation setter := (Z * (Z → M (brick H) unit))%type.

Definition ser_getters : list getter :=
  [(0xd8, on_ser (look (λ s, smr (regs s)))); (0xd9, on_ser (look (λ s, brr (regs s))));
   (0xda, on_ser (look (λ s, scr (regs s)))); (0xdb, on_ser (look get_TDR));
   (0xdc, on_ser (latch get_SSR)); (0xdd, on_ser (look get_RDR))].
Definition ser_setters : list setter :=
  [(0xd8, λ v, on_ser (timed (set_SMR v))); (0xd9, λ v, on_ser (timed (set_BRR v)));
   (0xda, λ v, on_ser (act (set_SCR v))); (0xdb, λ v, on_ser (change (set_TDR v)));
   (0xdc, λ v, on_ser (act (set_SSR v)))].
Definition periph_getters : list getter := [(0xc4, gets (λ m, get_syscr (b_periph (board m))))].
Definition periph_setters : list setter :=
  [(0xc4, λ v, on_brick (λ b, set_periph (set_syscr v (b_periph b)) b))].
Definition t16_getters : list getter :=
  [(0x90, on_t16 (look tier)); (0x91, on_t16 (look tcsr)); (0x92, on_t16 (latch get_FRCH));
   (0x93, on_t16 (look get_FRCL)); (0x94, on_t16 (look get_OCRH)); (0x95, on_t16 (look get_OCRL));
   (0x96, on_t16 (look tcr)); (0x97, on_t16 (look tocr)); (0x98, mret 0); (0x99, mret 0)].
Definition t16_setters : list setter :=
  [(0x90, λ v, on_t16 (act (set_TIER v))); (0x91, λ v, on_t16 (act (Timer16.set_TCSR v)));
   (0x92, λ v, on_t16 (change (set_FRCH v))); (0x93, λ v, on_t16 (change (set_FRCL v)));
   (0x94, λ v, on_t16 (change (set_OCRH v))); (0x95, λ v, on_t16 (change (set_OCRL v)));
   (0x96, λ v, _ ← wait; on_t16 (act (set_TCR (λ x, x) v))); (0x97, λ v, on_t16 (change (set_TOCR v)))].
Definition t8_getters : list getter :=
  [(0xc8, on_t8 (look (λ s, tm_tcr (tm0 s)))); (0xc9, on_t8 (get_TCSR8 true));
   (0xca, on_t8 (look (λ s, tcora (tm0 s)))); (0xcb, on_t8 (look (λ s, tcorb (tm0 s))));
   (0xcc, on_t8 (look (λ s, tcnt (tm0 s)))); (0xd0, on_t8 (look (λ s, tm_tcr (tm1 s))));
   (0xd1, on_t8 (get_TCSR8 false)); (0xd2, on_t8 (look (λ s, tcora (tm1 s))));
   (0xd3, on_t8 (look (λ s, tcorb (tm1 s)))); (0xd4, on_t8 (look (λ s, tcnt (tm1 s))));
   (0xc3, on_t8 (look stcr))].
Definition t8_setters : list setter :=
  [(0xc8, λ v, on_t8 (try_act (set_TCR8 true v))); (0xc9, λ v, on_t8 (try_act (set_TCSR0 v)));
   (0xca, λ v, on_t8 (try_act (set_TCORA true v))); (0xcb, λ v, on_t8 (try_act (set_TCORB true v)));
   (0xcc, λ v, on_t8 (try_act (set_TCNT true v))); (0xd0, λ v, on_t8 (try_act (set_TCR8 false v)));
   (0xd1, λ v, on_t8 (try_act (set_TCSR1 v))); (0xd2, λ v, on_t8 (try_act (set_TCORA false v)));
   (0xd3, λ v, on_t8 (try_act (set_TCORB false v))); (0xd4, λ v, on_t8 (try_act (set_TCNT false v)));
   (0xc3, λ v, on_t8 (try_act (set_STCR v)))].
Definition btn_getters : list getter :=
  [(0xb7, on_btn (look get_port4)); (0xbe, on_btn (look get_port7));
   (0xc6, on_btn (look get_iscr)); (0xc7, on_btn (look get_ier))].
Definition btn_setters : list setter :=
  [(0xc6, λ v, on_btn (act (set_iscr v))); (0xc7, λ v, on_btn (act (set_ier v)))].

(** A write to port 6: [wait_peripherals] runs where the display's messages are sent, and
    the rest of [set_port6] goes on with the state it left; [motor.c] keeps the analog
    lines. *)
Definition lcd_react (x : lcd_msg) : M (brick H) unit :=
  match x with
  | AnalogActive v => on_motors (change (set_analog_active v))
  | WaitPeripherals | Segments _ _ | Enable _ => mret tt
  end.
Definition lcd_write (v : Z) : M (brick H) unit :=
  call ← on_lcd (λ s c, '(s, call) ← port6_before v s; Some (s, c, call));
  _ ← (match call with NoCall => mret tt | _ => wait end);
  old ← gets (λ m, b_lcd (board m));
  _ ← on_lcd (change (port6_after v call));
  new ← gets (λ m, b_lcd (board m));
  for_each lcd_react (drop (length (lcd_out old)) (lcd_out new)).
Definition ws_write (v : Z) : M (brick H) unit :=
  let '(w, n) := set_WCSR v in
  _ ← on_brick (with_wcsr w); modify (set_wait_states n).
Definition lcd_setters : list setter := [(0xbb, lcd_write)].
Definition ws_getters : list getter := [(0xc2, gets (λ m, u8 (b_wcsr (board m))))].
Definition ws_setters : list setter := [(0xc2, ws_write)].
Definition ad_getters : list getter :=
  [(0xe0, on_ad (latch (get_addrh 0))); (0xe1, on_ad (look get_addrl));
   (0xe2, on_ad (latch (get_addrh 1))); (0xe3, on_ad (look get_addrl));
   (0xe4, on_ad (latch (get_addrh 2))); (0xe5, on_ad (look get_addrl));
   (0xe6, on_ad (latch (get_addrh 3))); (0xe7, on_ad (look get_addrl));
   (0xe8, on_ad (latch get_adcsr)); (0xe9, on_ad (look get_adcr))].
Definition ad_setters : list setter :=
  [(0xe8, λ v, on_ad (act (set_adcsr v))); (0xe9, λ v, on_ad (act (set_adcr v)))].
Definition wdog_getters : list getter :=
  [(0xa8, on_wdog (latch get_WTCSR)); (0xa9, on_wdog (look get_WTCNT))].
Definition wdog_setters : list setter :=
  [(0xa8, λ v, on_wdog (change (set_pw v))); (0xa9, λ v, on_wdog (act (set_val v)))].

Definition getters : list getter :=
  ser_getters ++ periph_getters ++ t16_getters ++ t8_getters ++ btn_getters ++ ws_getters ++
  ad_getters ++ wdog_getters.
Definition setters : list setter :=
  ser_setters ++ periph_setters ++ t16_setters ++ t8_setters ++ btn_setters ++ lcd_setters ++
  ws_setters ++ ad_setters ++ wdog_setters.
End Ports.
Fixpoint registered {X} (l : list (Z * X)) (i : Z) : option X :=
  match l with
  | [] => None
  | (a, x) :: l => if a - 0x88 =? i then Some x else registered l i
  end.

(** ** The board

    [wait_peripherals], the sleep instruction and the trap handler access the ports
    again; [depth] bounds the nesting and [fuel] the turns of waiting. *)
Definition profile (f : profiler → option profiler) (m : machine (brick H)) : brick H :=
  with_frame (b_frame (board m) ≫= f) (board m).
Definition board_with (wait sleep print handletrap : M (brick H) unit) : Board (brick H) := {|
  port_get := registered getters;
  port_set := registered (setters wait);
  set_motor v := on_motors (λ s c, Some (motor_set v (cycles c) s, c, tt));
  cpu_sleep := sleep;
  debug_printf := print;
  periph_handletrap := handletrap;
  frame_begin sp irq m := profile (Frame.frame_begin (cycles (clk m)) (pc m) sp irq) m;
  frame_end sp irq m := profile (Frame.frame_end (cycles (clk m)) (memory m) sp) m;
  frame_switch old new m := profile (Frame.frame_switch (cycles (clk m)) (pc m) old new) m |}.
(** What the program prints goes to the console. *)
Definition brick_printf (B : Board (brick H)) : M (brick H) unit :=
  l ← printf_text; on_brick (λ b, with_console (b_console b ++ l) b).
Fixpoint brick_board (fuel : positive) (depth : nat) : Board (brick H) :=
  match depth with
  | O => board_with blocked blocked blocked blocked
  | S depth =>
      let B := brick_board fuel depth in
      board_with (wait_peripherals depth) (cpu_sleep_with depth fuel) (brick_printf B)
        (periph_handletrap_with depth fuel)
  end.

(** ** [main] *)

(** The static variables when the program starts. *)
Definition statics (rom : option string) (h : H) : machine (brick H) :=
  Machine (replicate 16 0) 0 0 ∅ ∅ (Clock 0 0 0) 0 0 0 0 0 0 0 ∅
    (Brick (PeriphState 0 0 0 0 0 0 0) (T16 0 0 0 0 0 0 0 0 0)
       (T8 (Tm 0 0 0 0 0 0 0 0) (Tm 0 0 0 0 0 0 0 0) 0 []) (Wdog 0 0 0 0 0) (Buttons 0 0 0 0)
       (Ad (replicate 8 0) (replicate 4 0) 0 0 0 0 0 0)
       (Motors 0 0 [0; 0; 0] [0; 0; 0] [0; 0; 0] [0; 0; 0] 0 0 0 0 [])
       (Lcd (replicate 12 0) 0 0 0 0 0 0 0 []) (Ser (SerRegs 0 0 0 0 0 0 0 0) false 0 0 0 []) 0
       (Db (replicate 2048 0) 0 ∅ 0 false 0 false false (replicate 52 0) [])
       Leaf None [] rom h).
Definition brick_periph_init : M (brick H) unit :=
  _ ← modify (λ m, set_clk (set_cycles 0 (clk m)) m);
  us ← on_host h_gettimeofday;
  on_brick (λ b, set_periph
    (put_syscr 0x0b (set_startusecs us (set_nextsleep us (set_times us 0 (b_periph b))))) b).
(** The sockets are the business of the operating system; [debug] is the option
    [-d], [-g], [-debug] or [--debug]. *)
Definition brick_init (debug : bool) : M (brick H) unit :=
  _ ← when debug (modify (set_db_trap TRAP_EXCEPTION));
  ok ← load_rom;
  _ ← when (negb ok) halt;
  _ ← modify (λ m, set_memtype (mem_init (memtype m)) m);
  _ ← on_brick (with_frame (Some frame_init));
  _ ← brick_periph_init;
  _ ← on_lcd (change (set_i2c_state (-1)));
  _ ← ws_write 8;
  on_wdog (timed (flip wdog_reset)).
Definition brick_main (fuel : positive) (depth n : nat) (debug : bool) : M (brick H) (option label) :=
  _ ← brick_init debug;
  @run_cpu _ (brick_board fuel depth) _ depth n.
End Brick.
