(* ===== verification/BrickProps.v ===== *)
(** * BrickProps: the whole brick keeps its invariant

    The invariants of the processor and of the devices together are kept by
    [run_cpu] with all devices attached, whatever the GUI, gdb, the infrared server
    and the files deliver. *)
From stdpp Require Import strings.
From S2P Require Import Printf.
From S2P Require Import DebuggerOk.
From S2P Require Import LoaderProps.
From S2P Require Import SaveFileProps.
From S2P Require Import KernelOk.
From S2P Require Export Brick.

(** What the model relies on: characters and the contents of files are bytes. *)
Class HostOk (H : Type) `{!Host H} := {
  h_ir_byte h c h' : h_ir h = (Some c, h') → byte c;
  h_open_bytes name h l : h_open name h = Some l → Forall byte l;
  h_stack_bytes h : Forall byte (h_stack h) ∧ length (h_stack h) = 512%nat }.

Record brick_ok {H} (b : brick H) : Prop := {
  ok_syscr : byte (syscr (b_periph b));
  ok_t16 : t16_ok (b_t16 b);
  ok_t8 : t8_state_ok (b_t8 b);
  ok_wdog : wdog_regs_ok (b_wdog b);
  ok_btn : btn_regs_ok (b_btn b);
  ok_ad : ad_ok (b_ad b);
  ok_motors : motors_ok (b_motors b);
  ok_lcd : lcd_ok (b_lcd b);
  ok_ser : ser_ok (b_ser b) }.
#[export] Instance brick_inv {H} : BoardInv (brick H) := brick_ok.

Section BrickOk.
Context {H : Type} `{!Host H, !HostOk H}.
Abbreviation Mb := (M (brick H)).
Abbreviation ok c := (keeps (P:=brick H) (λ _, True) c).

(** ** The operations of a device *)
Lemma keeps_dev {S A} (inv : S → Prop) (Q : A → Prop) get put (f : dev_op S A) :
  (∀ b : brick H, brick_ok b → inv (get b)) →
  (∀ (b : brick H) s, brick_ok b → inv s → brick_ok (put s b)) →
  safe_op inv Q f → keeps Q (dev get put f).
Proof.
  intros Hget Hput Hf m Hm. unfold dev. pose proof (wf_board m Hm) as Hb.
  specialize (Hf (get (board m)) (clk m) (Hget _ Hb) (wf_clk m Hm)).
  destruct (f _ _) as [[[s c] a]|]; [|exact I]. destruct Hf as (Hs & Hc & Ha).
  split; [exact Ha|]. destruct Hm. constructor; cbn; try assumption. exact (Hput _ _ Hb Hs).
Qed.
Ltac device :=
  intros; eapply keeps_dev; [| |eassumption]; [intros ? []; assumption|intros ? ? [] ?; constructor; assumption].
Lemma keeps_t16 {A} (Q : A → Prop) f : safe_op t16_ok Q f → keeps Q (on_t16 (H:=H) f).
Proof. device. Qed.
Lemma keeps_t8 {A} (Q : A → Prop) f : safe_op t8_state_ok Q f → keeps Q (on_t8 (H:=H) f).
Proof. device. Qed.
Lemma keeps_wdog {A} (Q : A → Prop) f : safe_op wdog_regs_ok Q f → keeps Q (on_wdog (H:=H) f).
Proof. device. Qed.
Lemma keeps_btn {A} (Q : A → Prop) f : safe_op btn_regs_ok Q f → keeps Q (on_btn (H:=H) f).
Proof. device. Qed.
Lemma keeps_ad {A} (Q : A → Prop) f : safe_op ad_ok Q f → keeps Q (on_ad (H:=H) f).
Proof. device. Qed.
Lemma keeps_motors {A} (Q : A → Prop) f : safe_op motors_ok Q f → keeps Q (on_motors (H:=H) f).
Proof. device. Qed.
Lemma keeps_lcd {A} (Q : A → Prop) f : safe_op lcd_ok Q f → keeps Q (on_lcd (H:=H) f).
Proof. device. Qed.
Lemma keeps_ser {A} (Q : A → Prop) f : safe_op ser_ok Q f → keeps Q (on_ser (H:=H) f).
Proof. device. Qed.
Lemma safe_timed {S} (inv : S → Prop) f :
  (∀ s c, inv s → clock_ok c → inv (f s c)) → safe inv (timed f).
Proof. intros Hf. apply safe_act. intros s c Hs Hc. split; [apply Hf; assumption|exact Hc]. Qed.

(** Operations that change the rest of the brick. *)
Lemma keeps_on_host {A} (Q : A → Prop) (f : H → A * H) : (∀ h, Q (f h).1) → keeps Q (on_host f).
Proof.
  intros Hf m Hm. unfold on_host. specialize (Hf (b_host (board m))).
  destruct (f _) as [a h]. split; [exact Hf|]. destruct Hm. constructor; cbn; try assumption.
  destruct wf_board. constructor; assumption.
Qed.
Lemma keeps_on_brick f : (∀ b : brick H, brick_ok b → brick_ok (f b)) → ok (on_brick f).
Proof. intros Hf. apply keeps_set_board. intros m Hm. apply Hf, Hm. Qed.
Lemma keeps_gui_char c : ok c → ok (gui_char c).
Proof.
  intros Hc. unfold gui_char. apply (keeps_bind (λ _, True)); [apply keeps_on_host; done|].
  intros [x|] _; [apply keeps_ret; exact I|exact Hc].
Qed.
Lemma keeps_waiting_char : ok next_char.
Proof. apply keeps_gui_char, keeps_blocked. Qed.
Lemma keeps_periph_cmd : ok periph_cmd.
Proof. apply keeps_gui_char, keeps_undefined. Qed.
Lemma keeps_read_chars c room : ok c → ok (read_chars c room).
Proof.
  revert c. induction room as [|room IH]; intros c Hc; cbn [read_chars]; [apply keeps_undefined|].
  apply (keeps_bind (λ _, True)); [apply keeps_gui_char, Hc|]. intros x _.
  apply keeps_if; [apply keeps_ret; exact I|].
  apply (keeps_bind (λ _, True)); [apply IH, keeps_blocked|]. intros l _. apply keeps_ret. exact I.
Qed.
Lemma keeps_read_line room : ok (read_line room).
Proof. apply keeps_read_chars, keeps_undefined. Qed.
Lemma keeps_load_with {A} f :
  (∀ mem t (a : A) mem' t', bytes_map mem → f mem t = Some (a, mem', t') → bytes_map mem') →
  ok (load_with f).
Proof.
  intros Hf m Hm. unfold load_with. destruct (f _ _) as [[[a mem] t]|] eqn:E; [|exact I].
  split; [exact I|]. pose proof (Hf _ _ _ _ _ (wf_memory m Hm) E).
  destruct Hm. constructor; cbn; try assumption. destruct wf_board. constructor; assumption.
Qed.
Lemma keeps_on_debugger f :
  (∀ s, wf s.2 → leaves_wf (f s)) → ok (on_debugger f).
Proof.
  intros Hf m Hm. unfold on_debugger. specialize (Hf (b_db (board m), m) Hm).
  destruct (f _) as [[d m']|]; [|exact I]. split; [exact I|].
  destruct Hf. constructor; cbn; try assumption. destruct wf_board. constructor; assumption.
Qed.

(** ** The table [port] *)
Abbreviation getters_ok l := (Forall (λ p, keeps (P:=brick H) byte p.2) l).
Abbreviation setters_ok l := (Forall (λ p, ∀ v, byte v → ok (p.2 v)) l).
Ltac entries := repeat apply Forall_cons_2; try apply Forall_nil_2; cbn [snd].
Ltac fields ok := apply safe_look; intros s Hs; unfold ok in Hs; destruct_and?; assumption.

Lemma ser_getters_ok : getters_ok ser_getters.
Proof.
  unfold ser_getters. entries; apply keeps_ser;
    try (apply safe_look; intros s Hs; destruct Hs as (? & ? & ? & ? & ? & ? & ? & ?); assumption).
  apply safe_latch, get_SSR_ok.
Qed.
Lemma ser_setters_ok : setters_ok ser_setters.
Proof.
  unfold ser_setters. entries; intros v Hv; apply keeps_ser.
  - apply safe_timed. intros. apply set_SMR_ok; assumption.
  - apply safe_timed. intros. apply set_BRR_ok; assumption.
  - apply safe_act. intros. apply set_SCR_ok; assumption.
  - apply safe_change. intros. apply set_TDR_ok; assumption.
  - apply safe_act. intros. apply set_SSR_ok; assumption.
Qed.
Lemma periph_getters_ok : getters_ok periph_getters.
Proof. unfold periph_getters. entries. apply keeps_gets. intros m Hm. apply ok_syscr, (wf_board m Hm). Qed.
Lemma periph_setters_ok : setters_ok periph_setters.
Proof.
  unfold periph_setters. entries. intros v Hv. apply keeps_on_brick.
  intros b []. constructor; try assumption. apply byte_lxor; [exact Hv|]. apply byte_land_l, byte_lxor; assumption.
Qed.
Lemma t16_getters_ok : getters_ok t16_getters.
Proof.
  unfold t16_getters. entries; try (apply keeps_ret, byte_const; done); apply keeps_t16;
    try (apply safe_look; intros s Hs; destruct Hs as (? & ? & ? & ? & ? & ? & ? & ? & ?); assumption).
  - apply safe_latch, get_FRCH_ok.
  - apply safe_look, get_OCRH_ok.
  - apply safe_look, get_OCRL_ok.
Qed.
Lemma t16_setters_ok wait : ok wait → setters_ok (t16_setters wait).
Proof.
  intros Hw. unfold t16_setters. entries; intros v Hv; try (apply (keeps_bind (λ _, True)); [exact Hw|intros _ _]);
    apply keeps_t16.
  - apply safe_act. intros. apply set_TIER_ok; assumption.
  - apply safe_act. intros. apply set_TCSR_ok; assumption.
  - apply safe_change. intros. apply set_temp_ok; assumption.
  - apply safe_change. intros. apply set_FRCL_ok; assumption.
  - apply safe_change. intros. apply set_temp_ok; assumption.
  - apply safe_change. intros. apply set_OCRL_ok; assumption.
  - apply safe_act. intros s c Hs Hc. split; [apply set_tcr_ok; assumption|exact Hc].
  - apply safe_change. intros. apply set_TOCR_ok; assumption.
Qed.
Lemma t8_getters_ok : getters_ok t8_getters.
Proof.
  unfold t8_getters. entries; apply keeps_t8; try (match goal with |- context [get_TCSR8] => intros s c Hs Hc; apply get_TCSR8_ok; assumption end);
    apply safe_look; intros s ((? & ? & ? & ? & ? & ?) & (? & ? & ? & ? & ? & ?) & ?); assumption.
Qed.
Lemma t8_setters_ok : setters_ok t8_setters.
Proof.
  unfold t8_setters. entries; intros v Hv; apply keeps_t8, safe_try; intros s c Hs Hc.
  all: match goal with
  | |- context [set_TCR8] => apply set_TCR8_ok
  | |- context [set_TCSR0] => apply set_TCSR0_ok
  | |- context [set_TCSR1] => apply set_TCSR1_ok
  | |- context [set_TCNT] => apply set_TCNT_ok
  | |- context [set_TCORA] => apply set_TCORA_ok
  | |- context [set_TCORB] => apply set_TCORB_ok
  | |- context [set_STCR] => apply set_STCR_ok
  end; assumption.
Qed.
Lemma btn_getters_ok : getters_ok btn_getters.
Proof.
  unfold btn_getters. entries; apply keeps_btn, safe_look; intros s Hs;
    first [apply get_port4_ok|apply get_port7_ok|apply (get_ier_ok s)]; assumption.
Qed.
Lemma btn_setters_ok : setters_ok btn_setters.
Proof.
  unfold btn_setters. entries; intros v Hv; apply keeps_btn, safe_act; intros s c Hs Hc;
    first [apply set_iscr_ok|apply set_ier_ok]; assumption.
Qed.
Lemma lcd_write_ok wait v : ok wait → byte v → ok (lcd_write wait v).
Proof.
  intros Hw Hv. unfold lcd_write. apply (keeps_bind (λ _, True)).
  { apply keeps_lcd. intros s c Hs Hc. pose proof (port6_before_ok v s Hs) as Hb.
    destruct (port6_before v s) as [[s' call]|]; [|exact I]. cbn. auto. }
  intros call _. apply (keeps_bind (λ _, True)); [destruct call; [apply keeps_ret; exact I|exact Hw..]|].
  intros _ _. apply (keeps_bind (λ _, True)); [apply keeps_gets; done|]. intros old _.
  apply (keeps_bind (λ _, True)).
  { apply keeps_lcd, safe_change. intros s Hs. apply port6_after_ok; assumption. }
  intros _ _. apply (keeps_bind (λ _, True)); [apply keeps_gets; done|]. intros new _.
  apply keeps_for_each. intros [] _; cbn [lcd_react]; try (apply keeps_ret; exact I).
  apply keeps_motors, safe_change. intros. apply set_analog_ok. assumption.
Qed.
Lemma ws_write_ok v : ok (ws_write v).
Proof.
  unfold ws_write. destruct (set_WCSR v) as [w n]. apply (keeps_bind (λ _, True)).
  - apply keeps_on_brick. intros b []. constructor; assumption.
  - intros _ _. apply keeps_modify. intros m []. constructor; assumption.
Qed.
Lemma ad_getters_ok : getters_ok ad_getters.
Proof.
  unfold ad_getters. entries; apply keeps_ad;
    try (apply safe_latch; intros s Hs; apply get_addrh_ok; [lia|assumption]);
    try (apply safe_latch, get_adcsr_ok);
    apply safe_look; intros s (? & ? & ? & ? & ? & ? & ?); assumption.
Qed.
Lemma ad_setters_ok : setters_ok ad_setters.
Proof.
  unfold ad_setters. entries; intros v Hv; apply keeps_ad, safe_act; intros s c Hs Hc;
    first [apply set_adcsr_ok|apply set_adcr_ok]; assumption.
Qed.
Lemma wdog_getters_ok : getters_ok wdog_getters.
Proof.
  unfold wdog_getters. entries; apply keeps_wdog; [apply safe_latch, get_WTCSR_ok|].
  apply safe_look. intros s (? & ? & ? & ? & ?). assumption.
Qed.
Lemma wdog_setters_ok : setters_ok wdog_setters.
Proof.
  unfold wdog_setters. entries; intros v Hv; apply keeps_wdog.
  - apply safe_change. intros s Hs. apply set_pw_ok; assumption.
  - apply safe_act. intros s c Hs Hc. apply set_val_ok; assumption.
Qed.
Lemma all_getters_ok : getters_ok getters.
Proof.
  unfold getters. rewrite !Forall_app.
  split_and!; try assumption; [apply ser_getters_ok|apply periph_getters_ok|apply t16_getters_ok|
    apply t8_getters_ok|apply btn_getters_ok| |apply ad_getters_ok|apply wdog_getters_ok].
  unfold ws_getters. entries. apply keeps_gets. intros m Hm. apply u8_byte.
Qed.
Lemma all_setters_ok wait : ok wait → setters_ok (setters wait).
Proof.
  intros Hw. unfold setters. rewrite !Forall_app.
  split_and!; [apply ser_setters_ok|apply periph_setters_ok|apply t16_setters_ok; exact Hw|
    apply t8_setters_ok|apply btn_setters_ok| | |apply ad_setters_ok|apply wdog_setters_ok].
  - unfold lcd_setters. entries. intros v Hv. apply lcd_write_ok; assumption.
  - unfold ws_setters. entries. intros v Hv. apply ws_write_ok.
Qed.
Lemma registered_in {X} (l : list (Z * X)) i x : registered l i = Some x → (i + 0x88, x) ∈ l.
Proof.
  induction l as [|[a y] l IH]; [done|]. cbn [registered]. destruct (Z.eqb_spec (a - 0x88) i) as [<-|].
  - intros [= ->]. replace (a - 0x88 + 0x88) with a by lia. apply list_elem_of_here.
  - intros E. apply list_elem_of_further, IH, E.
Qed.

(** ** The table [peripherals] *)
Definition peripheral_ok (p : peripheral_ops (brick H)) : Prop :=
  (∀ c, reset p = Some c → ok c) ∧ (∀ c, update_time p = Some c → ok c) ∧
  (∀ rst, ok rst → ok (read_fd p rst)) ∧ (∀ c, check_irq_op p = Some c → ok c).
Ltac peripheral := unfold peripheral_ok; split_and!; cbn [reset update_time read_fd check_irq_op];
  lazymatch goal with
  | |- ∀ c, None = Some c → _ => intros c Hc; discriminate Hc
  | |- ∀ c, Some _ = Some c → _ => intros c [= <-]
  | |- ∀ rst, _ → keeps _ (no_read_fd _) => intros rst Hrst; apply keeps_undefined
  | |- _ => idtac
  end.
Lemma safe_any {S A} (inv : S → Prop) (f : S → A) : safe_op inv (λ _, True) (look f).
Proof. apply safe_look. intros s Hs. exact I. Qed.

Lemma serial_ok : peripheral_ok serial.
Proof.
  unfold serial. peripheral.
  - apply keeps_ser, safe_timed. intros s c Hs Hc. apply ser_reset_ok.
  - unfold ser_update. apply (keeps_bind (λ _, True)); [apply keeps_gets; done|]. intros s _.
    apply (keeps_bind (λ _, True)); [apply keeps_gets; done|]. intros c _.
    apply (keeps_bind (λ rx, ∀ x, rx = Some x → byte x)).
    + apply keeps_if; [|apply keeps_ret; done]. apply keeps_on_host.
      intros h x Hx. destruct (h_ir h) as [rx h'] eqn:E. cbn in Hx. subst. exact (h_ir_byte _ _ _ E).
    + intros rx Hrx. apply keeps_ser, safe_act. intros s' c' Hs Hc. apply ser_update_ok; assumption.
  - apply keeps_ser, safe_any.
Qed.
Lemma periph_ops_ok : peripheral_ok periph_ops.
Proof.
  unfold periph_ops. peripheral. intros rst Hrst. unfold periph_message, periph_read_fd.
  apply (keeps_bind (λ _, True)).
  - apply keeps_periph_cmd.
  - intros c _. apply keeps_if; [|apply keeps_ret; exact I].
    apply (keeps_bind (λ _, True)); [exact Hrst|]. intros _ _.
    apply keeps_set_board. intros m Hm. destruct (wf_board m Hm). constructor; assumption.
Qed.
Lemma timer16_ops_ok : peripheral_ok timer16.
Proof.
  unfold timer16. peripheral.
  - apply keeps_t16, safe_timed. intros. apply t16_reset_ok; assumption.
  - apply keeps_t16, safe_try. intros. apply t16_update_ok; assumption.
  - apply keeps_t16, safe_any.
Qed.
Lemma timer8_ops_ok : peripheral_ok timer8.
Proof.
  unfold timer8. peripheral.
  - apply keeps_t8, safe_timed. intros. apply t8_reset_ok; assumption.
  - apply keeps_t8, safe_try. intros. apply t8_update_ok; assumption.
  - apply keeps_t8, safe_any.
Qed.
Ltac chars := repeat (apply (keeps_bind (λ _, True)); [apply keeps_waiting_char|intros ? _]).
Lemma buttons_ops_ok : peripheral_ok buttons_ops.
Proof.
  unfold buttons_ops. peripheral.
  - apply keeps_btn, safe_change. intros b Hb. unfold btn_reset, btn_regs_ok. cbn. split_and!; apply byte_const; done.
  - intros rst Hrst. unfold btn_message. chars. apply keeps_btn, safe_act. intros. apply btn_read_ok; assumption.
  - apply keeps_btn, safe_latch. intros b Hb. split; [apply btn_irq_ok, Hb|exact I].
Qed.
Lemma lcd_ops_ok : peripheral_ok lcd_ops.
Proof. unfold lcd_ops. peripheral. Qed.
Lemma adsensor_ok : peripheral_ok adsensor.
Proof.
  unfold adsensor. peripheral.
  - apply keeps_ad, safe_change, ad_reset_ok.
  - apply keeps_ad, safe_try. intros. apply ad_update_ok; assumption.
  - intros rst Hrst. unfold ad_message. chars. apply keeps_ad. intros s c Hs Hc.
    pose proof (ad_read_ok (s8 a) (s8 a0) (s8 a1) (s8 a2) s Hs).
    destruct (ad_read_fd _ _ _ _ s); [|exact I]. cbn. auto.
  - apply keeps_ad, safe_any.
Qed.
Lemma watchdog_ok : peripheral_ok watchdog.
Proof.
  unfold watchdog. peripheral.
  - apply keeps_wdog, safe_timed. intros. apply wdog_reset_ok; assumption.
  - apply keeps_wdog, safe_act. intros. apply wdog_update_ok; assumption.
  - apply keeps_wdog. intros w c' Hw Hc'. pose proof (wdog_irq_ok w c' Hw Hc').
    destruct (wdog_check_irq w c') as [[w' c''] i]. naive_solver.
Qed.
Lemma firmware_ok : peripheral_ok firmware.
Proof.
  unfold firmware. peripheral; try (apply keeps_ret; exact I).
  intros rst Hrst. unfold firm_message. apply (keeps_bind (λ _, True)); [apply keeps_read_line|].
  intros name _. apply (keeps_bind (λ file, ∀ l, file = Some l → Forall byte l)).
  - apply keeps_gets. intros m Hm l. apply h_open_bytes.
  - intros file Hf. apply keeps_load_with. intros mem t u mem' t' Hm.
    destruct (firm_load file mem t) as [[mem1 t1]|] eqn:E; [|discriminate]. intros [= _ <- _].
    exact (firm_load_ok _ _ _ _ _ Hf Hm E).
Qed.
Lemma motor_ok : peripheral_ok motor.
Proof. unfold motor. peripheral. apply keeps_motors, safe_act. intros. apply motor_time_ok; assumption. Qed.


(** *** Save files *)
Lemma keeps_clock_step f :
  (∀ now s, syscr (f now s) = syscr s) →
  ok (now ← on_host h_gettimeofday; @on_periph _ (with_peripherals []) (f now)).
Proof.
  intros Hf. apply (keeps_bind (λ _, True)); [apply keeps_on_host; done|]. intros now _.
  apply keeps_set_board. intros m Hm. destruct (wf_board m Hm). cbn.
  constructor; try assumption. cbn. rewrite Hf. assumption.
Qed.
Lemma keeps_save path : ok (savefile_save path).
Proof.
  unfold savefile_save. apply (keeps_bind (λ _, True)).
  { apply (keeps_clock_step stop_time_step), stop_time_syscr. }
  intros _ _. apply (keeps_bind (λ _, True)); [apply keeps_gets; done|]. intros l _.
  apply (keeps_bind (λ _, True)); [apply keeps_on_brick; intros b []; constructor; assumption|].
  intros _ _. apply (keeps_clock_step cont_time_step), cont_time_syscr.
Qed.
Lemma take_ser_ok d : ser_regs_ok d → ok (take_ser d).
Proof. intros Hd. apply keeps_ser, safe_timed. intros s c _ _. apply ser_load_ok, Hd. Qed.
Lemma take_periph_ok d : periph_fits d → ok (take_periph d).
Proof.
  intros (_ & _ & _ & _ & _ & Hr & Hb & _ & Hc & Hs). apply keeps_modify. intros m Hm.
  pose proof (wf_board m Hm) as []. destruct Hm.
  constructor; cbn -[htons htonl]; try assumption; try apply htons_word.
  - split_and!; apply htonl_qword.
  - constructor; assumption.
Qed.
Lemma take_btn_ok d : btn_regs_ok d → ok (take_btn d).
Proof. intros Hd. apply keeps_btn, safe_act. intros s c Hs Hc. apply btn_load_ok; assumption. Qed.
Ltac stored dev := intros Hd; apply dev, safe_change; intros s Hs.
Lemma take_t16_ok d : t16_fits d → ok (take_t16 d).
Proof. stored (@keeps_t16 unit). apply t16_load_ok; assumption. Qed.
Lemma take_t8_ok d : t8_fits d → ok (take_t8 d).
Proof. stored (@keeps_t8 unit). apply t8_load_ok; assumption. Qed.
Lemma take_lcd_ok d : lcd_fits d → ok (take_lcd d).
Proof. stored (@keeps_lcd unit). apply lcd_load_ok; assumption. Qed.
Lemma take_ad_ok d : ad_fits d → ok (take_ad d).
Proof. stored (@keeps_ad unit). apply ad_load_ok; assumption. Qed.
Lemma take_wdog_ok d : wdog_fits d → ok (take_wdog d).
Proof. stored (@keeps_wdog unit). apply wdog_load_ok; assumption. Qed.
Definition takes (p : Z * option (list Z → Mb unit)) : Prop :=
  ∀ f b, p.2 = Some f → Forall byte b → length b = 512%nat → ok (f b).
Lemma takes_unpacked {T} `{!Layout T} fits `{!LayoutOk T fits} i (c : T → Mb unit) :
  (∀ d, fits d → ok (c d)) → (size_of T <= 512)%nat → takes (i, Some (c ∘ unpack)).
Proof. intros Hc Hs f b [= <-] Hb Hl. apply Hc, unpack_fits; [exact Hb|rewrite Hl; exact Hs]. Qed.
Lemma takes_none i : takes (i, None).
Proof. intros f b [=]. Qed.
Lemma all_loaders_ok : loaders_ok (loaders (H:=H)).
Proof.
  assert (Forall takes (loaders (H:=H))) as Hall.
  { unfold loaders. repeat apply Forall_cons_2; try apply Forall_nil_2; try apply takes_none.
    - apply (takes_unpacked ser_regs_ok); [apply take_ser_ok|cbn; lia].
    - apply (takes_unpacked periph_fits); [apply take_periph_ok|cbn; lia].
    - apply (takes_unpacked t16_fits); [apply take_t16_ok|cbn; lia].
    - apply (takes_unpacked t8_fits); [apply take_t8_ok|cbn; lia].
    - apply (takes_unpacked btn_regs_ok); [apply take_btn_ok|cbn; lia].
    - apply (takes_unpacked lcd_fits); [apply take_lcd_ok|cbn; lia].
    - apply (takes_unpacked ad_fits); [apply take_ad_ok|cbn; lia].
    - apply (takes_unpacked wdog_fits); [apply take_wdog_ok|cbn; lia]. }
  intros i f b Hi Hb Hl. exact (proj1 (Forall_forall _ _) Hall _ Hi f b eq_refl Hb Hl).
Qed.
Definition file_ok (f : gzfile) : Prop := Forall byte f.1.
Lemma keeps_load_memory f : file_ok f → keeps file_ok (load_memory (H:=H) f).
Proof.
  intros Hf. unfold load_memory.
  destruct (gzread_bytes (Z.to_nat 65536) f Hf) as [Hm H1].
  destruct (gzread (Z.to_nat 65536) f) as [mem f1]. cbn [fst snd] in Hm, H1.
  destruct (gzread_bytes (Z.to_nat 65536) f1 H1) as [Ht H2].
  destruct (gzread (Z.to_nat 65536) f1) as [types f2]. cbn [fst snd] in Ht, H2.
  apply (keeps_bind (λ _, True)).
  { apply keeps_modify. intros m []. pose proof (store_bytes_map mem 0 _ wf_memory Hm).
    constructor; assumption. }
  intros _ _. apply (keeps_bind (λ _, True)).
  { apply keeps_modify. intros m []. pose proof (store_bytes_map types 0 _ wf_memtype Ht).
    constructor; assumption. }
  intros _ _. apply keeps_ret. exact H2.
Qed.
Lemma load_symbols_bytes fuel e f t f' t' :
  file_ok f → load_symbols fuel e f t = Some (f', t') → file_ok f'.
Proof.
  revert e f t. induction fuel as [|fuel IH]; intros e f t Hf; [discriminate|]. cbn [load_symbols].
  destruct (gzread_bytes 6 f Hf) as [_ H1]. destruct (gzread 6 f) as [got f1]. cbn [fst snd] in H1.
  destruct (match e with Some _ => _ | None => _ end) as [e1|]; [|discriminate]. cbn [mbind option_bind].
  destruct e1 as [|a1 [|a0 [|t1 [|t0 [|n1 [|n0 []]]]]]]; try discriminate.
  destruct (_ && _); [intros [= <- <-]; exact H1|]. cbv zeta. destruct (_ <? 0); [discriminate|].
  set (n := Z.to_nat _). destruct (gzread_bytes n f1 H1) as [_ H2].
  destruct (gzread n f1) as [name f2]. cbn [fst snd] in H2. destruct (_ =? _); [|discriminate].
  apply IH. exact H2.
Qed.
Lemma keeps_load_tree f : file_ok f → keeps file_ok (load_tree (H:=H) f).
Proof.
  intros Hf m Hm. unfold load_tree. destruct (load_symbols _ _ _ _) as [[f' t]|] eqn:E; [|exact I].
  split; [exact (load_symbols_bytes _ _ _ _ _ _ Hf E)|].
  destruct Hm. constructor; cbn; try assumption. destruct wf_board. constructor; assumption.
Qed.
Lemma keeps_load_state buf f :
  Forall byte buf → length buf = 512%nat → file_ok f → ok (load_state buf f).
Proof.
  intros Hb Hl Hf. unfold load_state. apply (keeps_bind file_ok); [apply keeps_load_memory, Hf|].
  intros f1 H1. apply (keeps_bind file_ok); [apply keeps_load_tree, H1|]. intros f2 H2.
  apply (keeps_bind (λ _, True)); [apply keeps_load_blocks; try assumption; apply all_loaders_ok|].
  intros [] _; [|apply keeps_ret; exact I]. apply (keeps_bind (λ _, True)).
  { unfold reset_profiler. apply (keeps_bind (λ _, True)).
    - apply keeps_modify. intros m []. constructor; assumption.
    - intros _ _. apply keeps_on_brick. intros b []. constructor; assumption. }
  intros _ _. apply (keeps_clock_step cont_time_step), cont_time_syscr.
Qed.
Lemma keeps_load path : ok (savefile_load path).
Proof.
  unfold savefile_load. apply (keeps_bind (λ _, True)).
  { apply (keeps_clock_step stop_time_step), stop_time_syscr. }
  intros _ _. apply (keeps_bind (λ file, file_ok (default [] file, false))).
  { apply keeps_gets. intros m Hm. destruct (h_open path _) as [l|] eqn:E; [|constructor].
    exact (h_open_bytes _ _ _ E). }
  intros file Hfile. apply (keeps_bind (λ l, Forall byte l ∧ length l = 512%nat)).
  { apply keeps_gets. intros m Hm. apply h_stack_bytes. }
  intros stack [Hs Hl]. destruct (gzread_bytes 8 _ Hfile) as [Hm Hf].
  destruct (gzread 8 _) as [magic f]. cbn [fst snd] in Hm, Hf.
  apply keeps_if; [|apply keeps_ret; exact I].
  destruct (Nat.eqb_spec (length magic) 8); [|apply keeps_undefined].
  apply keeps_load_state; [apply overlay_bytes; assumption|rewrite length_overlay; lia|exact Hf].
Qed.
Lemma savefile_ok : peripheral_ok savefile.
Proof.
  unfold savefile. peripheral. intros rst Hrst. unfold savefile_message.
  apply (keeps_bind (λ _, True)); [apply keeps_periph_cmd|]. intros letter _.
  apply (keeps_bind (λ _, True)); [apply keeps_read_line|]. intros name _. cbv zeta.
  apply (keeps_bind (λ _, True)); [apply keeps_when, keeps_load|]. intros _ _. apply keeps_when, keeps_save.
Qed.

(** *** The kernels *)
Lemma keeps_print_table f : ok (print_table (H:=H) f).
Proof.
  intros m Hm. unfold print_table. destruct (f m) as [[t l]|]; [|exact I]. split; [exact I|].
  destruct Hm. constructor; cbn; try assumption. destruct wf_board. constructor; assumption.
Qed.
Lemma keeps_reply x : ok (reply x).
Proof. apply keeps_on_host. intros h. exact I. Qed.
Lemma keeps_read_short c n : ok c → ok (read_short c n).
Proof.
  revert c. induction n as [|n IH]; intros c Hc; cbn [read_short]; [apply keeps_ret; exact I|].
  apply (keeps_bind (λ _, True)); [apply keeps_gui_char, Hc|]. intros x _.
  apply keeps_if; [apply keeps_ret; exact I|].
  apply (keeps_bind (λ _, True)); [apply IH, keeps_blocked|]. intros l _. apply keeps_ret. exact I.
Qed.
Lemma keeps_changes {A} (f : gmap Z Z → tree → option (A * gmap Z Z * tree)) :
  (∀ mem t, bytes_map mem → yields (λ r, bytes_map r.1.2) (f mem t)) → ok (load_with f).
Proof. intros Hf. apply keeps_load_with. intros mem t a mem' t' Hm E. exact (Hf mem t Hm _ E). Qed.
Lemma keeps_new_program heap `{!HeapOk heap} slot size :
  ok (load_with (H:=H) (λ mem t, '(a, mem) ← @newprogram_addr heap slot size mem t; Some (a, mem, t))).
Proof.
  apply keeps_changes. intros mem t Hm. apply (yields_bind (λ r, bytes_map r.2)).
  - apply newprogram_bytes, Hm.
  - intros [x mem'] H'. apply yields_some. exact H'.
Qed.
Lemma keeps_program heap `{!HeapOk heap} slot file :
  (∀ l, file = Some l → Forall byte l) →
  ok (load_with (H:=H) (λ mem t, '(mem, t) ← @load_program heap slot file mem t; Some (tt, mem, t))).
Proof.
  intros Hf. apply keeps_changes. intros mem t Hm. apply (yields_bind (λ r, bytes_map r.1)).
  - apply load_program_bytes; assumption.
  - intros [mem' t'] H'. apply yields_some. exact H'.
Qed.
Lemma keeps_hostaddr c :
  ok (load_with (H:=H) (λ mem t, let '(a, mem) := brickos_sethostaddr c mem t in Some (a, mem, t))).
Proof.
  apply keeps_changes. intros mem t Hm. pose proof (sethostaddr_bytes c mem t Hm) as Hs.
  destruct (brickos_sethostaddr c mem t) as [a mem']. apply yields_some. exact Hs.
Qed.
Ltac steps := repeat (lazymatch goal with |- keeps _ (mbind _ _) => idtac end; apply (keeps_bind (λ _, True)); [|intros ? _]).
Lemma keeps_kernel_command heap `{!HeapOk heap} dm dp dt c :
  ok dm → ok dp → ok dt → ok (kernel_command heap dm dp dt c).
Proof.
  intros Hdm Hdp Hdt. unfold kernel_command. apply keeps_if; [exact Hdm|]. apply keeps_if; [exact Hdp|].
  apply keeps_if; [steps; [apply keeps_gets; done|apply keeps_reply]|].
  apply keeps_if.
  { steps; [apply keeps_read_short, keeps_undefined|]. destruct a as [|slot size]; [apply keeps_undefined|].
    steps; [apply keeps_new_program; assumption|apply keeps_reply]. }
  apply keeps_if; [steps; [apply keeps_periph_cmd|apply keeps_hostaddr|apply keeps_when, keeps_reply]|].
  apply keeps_if; [exact Hdt|]. apply keeps_if; [|apply keeps_ret; exact I].
  apply (keeps_bind (λ _, True)); [apply keeps_periph_cmd|]. intros slot _.
  apply (keeps_bind (λ _, True)); [apply keeps_read_line|]. intros name _.
  apply (keeps_bind (λ file, ∀ l, file = Some l → Forall byte l)).
  - apply keeps_gets. intros m Hm l. apply h_open_bytes.
  - intros file Hf. apply keeps_program; assumption.
Qed.
Lemma bibo_ok : peripheral_ok bibo.
Proof.
  unfold bibo. peripheral; [|apply keeps_ret; exact I]. intros rst Hrst. unfold bibo_message, brickos_message.
  steps; [apply keeps_gets; done| |apply keeps_periph_cmd|].
  - apply keeps_when. steps; [apply keeps_periph_cmd|].
    apply (keeps_kernel_command brickos_heap); apply keeps_print_table.
  - apply keeps_if; [apply keeps_print_table|].
    apply (keeps_kernel_command bibo_heap); [apply keeps_print_table..|].
    apply (keeps_bind word); [apply keeps_GET_REG16|]. intros r7 _. apply keeps_print_table.
Qed.

Lemma peripherals_all_ok p : p ∈ peripherals → peripheral_ok p.
Proof.
  intros Hp. apply (Forall_forall peripheral_ok peripherals); [|exact Hp].
  repeat apply Forall_cons_2; [apply serial_ok|apply periph_ops_ok|apply savefile_ok|apply timer16_ops_ok|apply timer8_ops_ok|
    apply buttons_ops_ok|apply lcd_ops_ok|apply adsensor_ok|apply watchdog_ok|apply firmware_ok|
    apply motor_ok|apply bibo_ok|apply Forall_nil_2].
Qed.

Lemma load_rom_wf : ok load_rom.
Proof.
  unfold load_rom. apply (keeps_bind (λ _, True)); [apply keeps_gets; done|]. intros name _.
  apply (keeps_bind (λ file, ∀ l, file = Some l → Forall byte l)).
  - apply keeps_gets. intros m Hm l. destruct name as [n|]; [|discriminate]. apply h_open_bytes.
  - intros file Hf. apply keeps_load_with. intros mem t r mem' t' Hm E.
    exact (read_rom_bytes _ _ _ _ _ _ _ Hf Hm E).
Qed.
Lemma read_rom_wf : ok brick_read_rom.
Proof. apply (keeps_bind (λ _, True)); [apply load_rom_wf|]. intros r _. apply keeps_ret. exact I. Qed.
#[export] Instance brick_peripherals_ok : PeripheralsOk (brick H).
Proof.
  constructor.
  - intros s b Hb E. destruct Hb. constructor; try assumption. cbn in *. rewrite E. assumption.
  - apply keeps_on_host. done.
  - intros t. apply keeps_on_host. done.
  - apply keeps_on_host. done.
  - unfold db_handlefd. cbn. unfold brick_handlefd. apply (keeps_bind (λ _, True)); [apply keeps_on_host; done|].
    intros data _. apply (keeps_bind (λ _, True)); [apply keeps_gets; done|]. intros w _.
    apply keeps_on_debugger. intros s Hs. apply db_handlefd_wf, Hs.
  - unfold db_handletrap. cbn. unfold brick_handletrap. apply (keeps_bind (λ _, True)); [apply keeps_gets; done|].
    intros w _. apply keeps_on_debugger. intros s Hs. apply db_handletrap_wf, Hs.
  - apply keeps_on_brick. intros b []. constructor; assumption.
  - apply read_rom_wf.
  - intros p c Hp Hc. exact (proj1 (peripherals_all_ok p Hp) c Hc).
  - intros p c Hp Hc. exact (proj1 (proj2 (peripherals_all_ok p Hp)) c Hc).
  - intros p c Hp Hc. exact (proj1 (proj2 (proj2 (peripherals_all_ok p Hp))) c Hc).
  - intros p c Hp Hc. exact (proj2 (proj2 (proj2 (peripherals_all_ok p Hp))) c Hc).
Qed.

(** ** The board *)
Lemma profile_ok f (m : machine (brick H)) : wf m → brick_ok (profile f m).
Proof. intros Hm. destruct (wf_board m Hm). constructor; assumption. Qed.
Lemma board_with_ok wait sleep print handletrap :
  ok wait → ok sleep → ok print → ok handletrap →
  @BoardOk _ (board_with wait sleep print handletrap) _.
Proof.
  intros Hw Hs Hp Ht. constructor; cbn [board_with port_get port_set set_motor cpu_sleep debug_printf
    periph_handletrap frame_begin frame_end frame_switch]; try assumption.
  - intros i g Hg. apply registered_in in Hg.
    exact (proj1 (Forall_forall _ _) all_getters_ok _ Hg).
  - intros i s v Hs' Hv. apply registered_in in Hs'.
    exact (proj1 (Forall_forall _ _) (all_setters_ok wait Hw) _ Hs' v Hv).
  - intros v Hv. apply keeps_motors. intros m c Hm Hc. split_and!; [|exact Hc|exact I].
    apply motor_set_ok; [exact Hv|apply Hc|exact Hm].
  - intros fp irq m. apply profile_ok.
  - intros fp irq m. apply profile_ok.
  - intros old new m. apply profile_ok.
Qed.
Lemma brick_board_ok fuel depth : @BoardOk _ (brick_board fuel depth) _.
Proof.
  induction depth as [|depth IH]; cbn [brick_board]; apply board_with_ok; try apply keeps_blocked.
  - apply keeps_wait_peripherals.
  - apply keeps_cpu_sleep_with.
  - unfold brick_printf. apply (keeps_bind (λ _, True)); [apply keeps_printf_text|]. intros l _.
    apply keeps_on_brick. intros b []. constructor; assumption.
  - apply keeps_periph_handletrap_with.
Qed.

(** ** From power-on *)
Lemma statics_wf rom (h : H) : wf (statics rom h).
Proof.
  assert (byte 0) as Hb by done. assert (word 0) as Hw by done. assert (qword 0) as Hq by done.
  constructor; cbn; try assumption; try reflexivity; try apply map_Forall_empty.
  - repeat first [assumption | apply Forall_cons_2 | apply Forall_nil_2].
  - split_and!; assumption.
  - constructor; cbn; unfold t16_ok, t8_state_ok, tm_ok, wdog_regs_ok, btn_regs_ok, ad_ok, motors_ok,
      lcd_ok, ser_ok, ser_regs_ok; cbn; split_and!; try assumption; try reflexivity;
      repeat first [assumption | apply Forall_cons_2 | apply Forall_nil_2].
Qed.
Lemma mem_init_bytes t : bytes_map t → bytes_map (mem_init t).
Proof. intros Ht. unfold mem_init. repeat apply bytes_map_fill; try (apply byte_const; done). exact Ht. Qed.
Lemma keeps_brick_init debug : ok (brick_init debug).
Proof.
  unfold brick_init. apply (keeps_bind (λ _, True)).
  { apply keeps_when, keeps_modify. intros m []. constructor; assumption. }
  intros _ _. apply (keeps_bind (λ _, True)); [apply load_rom_wf|]. intros r _.
  apply (keeps_bind (λ _, True)); [apply keeps_when, keeps_halt|]. intros _ _.
  apply (keeps_bind (λ _, True)).
  { apply keeps_modify. intros m []. pose proof (mem_init_bytes _ wf_memtype).
    constructor; assumption. }
  intros _ _. apply (keeps_bind (λ _, True)).
  { apply keeps_on_brick. intros b []. constructor; assumption. }
  intros _ _. apply (keeps_bind (λ _, True)).
  { unfold brick_periph_init. apply (keeps_bind (λ _, True)); [apply keeps_set_cycles; done|].
    intros _ _. apply (keeps_bind (λ _, True)); [apply keeps_on_host; done|]. intros us _.
    apply keeps_on_brick. intros b []. constructor; try assumption. apply byte_const. done. }
  intros _ _. apply (keeps_bind (λ _, True)); [apply keeps_lcd, safe_change; intros s Hs; exact Hs|].
  intros _ _. apply (keeps_bind (λ _, True)); [apply ws_write_ok|].
  intros _ _. apply keeps_wdog, safe_timed. intros. apply wdog_reset_ok; assumption.
Qed.

(** The whole emulator keeps its types: from power-on, with any ROM file, with
    all devices attached and whatever the GUI, gdb, the infrared server and the files
    deliver, after any number of turns of [run_cpu] - with the interrupts, resets,
    sleeps, traps and debugger commands in them - every register and every byte of
    memory of the processor and every register of the timers, the watchdog, the
    serial interface, the converter, the ports and the display fits its width. *)
Theorem brick_main_safe fuel depth n debug rom h e m :
  brick_main fuel depth n debug (statics rom h) = Done e m → wf m.
Proof.
  intros E. assert (keeps (λ _, True) (brick_main fuel depth n debug)) as Hk.
  { unfold brick_main. apply (keeps_bind (λ _, True)); [apply keeps_brick_init|]. intros _ _.
    pose proof (brick_board_ok fuel depth). apply keeps_run_cpu. }
  specialize (Hk _ (statics_wf rom h)). rewrite E in Hk. apply Hk.
Qed.
End BrickOk.

(** ** Witness: a button wakes a sleeping program

    A world of which the GUI's characters and the files are known from the start. *)
Record script := Script { s_time : Z; s_gui : list Z; s_files : list (list Z * list Z) }.
Definition find_file (name : list Z) (l : list (list Z * list Z)) : option (list Z) :=
  match List.find (λ f, bool_decide (f.1 = name)) l with Some f => Some (u8 <$> f.2) | None => None end.
#[export] Instance script_host : Host script := {
  h_gettimeofday h := (s_time h, h);
  h_select _ h := (match s_gui h with [] => None | _ => Some (Ready true false) end, h);
  h_gui h := match s_gui h with [] => (None, h) | c :: l => (Some c, Script (s_time h) l (s_files h)) end;
  h_ir h := (None, h);
  h_gdb h := (None, h);
  h_gdb_accepts _ _ := true;
  h_open name h := find_file name (s_files h);
  h_create name l h := Script (s_time h) (s_gui h) ((name, l) :: s_files h);
  h_stack _ := replicate 512 0;
  h_print _ h := h;
  h_reply _ h := h }.
#[export] Instance script_host_ok : HostOk script.
Proof.
  constructor; [discriminate| |].
  - intros name h l. unfold h_open. cbn. unfold find_file.
    destruct (List.find _ _) as [f|]; [|discriminate]. intros [= <-].
    apply Forall_fmap, Forall_true. intros x. apply u8_byte.
  - intros h. split; [|apply length_replicate]. apply Forall_replicate, byte_const. done.
Qed.
(** Reset at 0x100: R7 = 0xfe00, enable IRQ0, clear the mask, SLEEP.  IRQ0 at
    0x200: store 0x5a at 0x9000.  The GUI presses the run button. *)
Definition demo_rom : list Z :=
  [1; 0] ++ replicate 6 0 ++ [2; 0] ++ replicate 246 0 ++
  [0x79; 0x07; 0xfe; 0x00; 0xf8; 0x01; 0x38; 0xc7; 0x06; 0x7f; 0x01; 0x80; 0x40; 0xfe] ++
  replicate 242 0 ++ [0xf9; 0x5a; 0x6a; 0x89; 0x90; 0x00; 0x40; 0xfe].
Definition demo_start : machine (brick script) :=
  statics (Some "rom.bin"%string) (Script 5000000 [66; 82; 49; 10] [(codes "rom.bin", demo_rom)]).
Definition handled (o : outcome (brick script) (option label)) : bool :=
  match o with Done _ m => get0 (memory m) 0x9000 =? 0x5a | _ => false end.
Lemma brick_main_safe_witness :
  ∃ e m, brick_main 100 3 11 false demo_start = Done e m ∧ get0 (memory m) 0x9000 = 0x5a ∧ wf m.
Proof.
  assert (handled (brick_main 100 3 11 false demo_start) = true) as Hh by (vm_compute; reflexivity).
  destruct (brick_main 100 3 11 false demo_start) as [e m| | | |] eqn:E; try discriminate Hh.
  exists e, m. split; [reflexivity|]. split; [apply Z.eqb_eq; exact Hh|].
  exact (brick_main_safe 100 3 11 false _ _ e m E).
Defined.
(** The option to wait for the debugger is forgotten by the reset that [run_cpu]
    starts with: without any debugger the program runs all the same. *)
Lemma debug_option_lost : handled (brick_main 100 3 11 true demo_start) = true.
Proof. vm_compute. reflexivity. Qed.
