(* ===== verification/BrickBoard.v ===== *)
(** * BrickBoard: the brick as the processor's board

    What the processor relies on when it calls a device - a getter changes no register and
    returns, and nothing that it calls jumps to one of its labels - is proved of the whole
    brick, whatever the GUI, gdb, the infrared server and the files deliver.  With it the
    theorems about traps and about the program's [printf] hold of the emulator itself. *)
From S2P Require Import Printf.
From S2P Require Import Debugger.
From S2P Require Import Loader.
From S2P Require Import Frame.
From S2P Require Import SaveFile.
From S2P Require Export BrickProps.
From S2P Require Export RunProps.
From S2P Require Import CpuTrap.

Section BrickBoard.
Context {H : Type} `{!Host H}.
Abbreviation Mb := (M (brick H)).

(** ** Nothing jumps *)
Lemma total_opt {P} (c : option (M P unit)) : (∀ x, c = Some x → total x) → total (opt c).
Proof. intros Hc. destruct c as [x|]; [apply Hc; done|apply total_ret]. Qed.
Lemma total_for_each {P X} (f : X → M P unit) l : (∀ x, x ∈ l → total (f x)) → total (for_each f l).
Proof.
  induction l as [|x l IH]; intros Hf; cbn [for_each]; [apply total_ret|].
  apply total_bind; [apply Hf; set_solver|]. intros _. apply IH. intros. apply Hf. set_solver.
Qed.
Lemma total_do_while {P} p (c : M P bool) : total c → total (do_while p c).
Proof.
  intros Hc m l m'. unfold do_while. destruct (loop _ p m) as [|o] eqn:E; [done|].
  refine (loop_sound _ (λ _, True) (λ o, o ≠ Goto l m') _ p m o I E).
  intros m1 _. specialize (Hc m1). destruct (c m1) as [[] m2|l2 m2| | |]; try done. destruct (Hc l2 m2 eq_refl).
Qed.
Lemma total_dev {S A} get put (f : dev_op S A) : total (P:=brick H) (dev get put f).
Proof. intros m l m'. unfold dev. destruct (f _ _) as [[[s c] a]|]; done. Qed.
Lemma total_on_host {A} (f : H → A * H) : total (on_host f).
Proof. intros m l m'. unfold on_host. destruct (f _); done. Qed.
Lemma total_load_with {A} (f : gmap Z Z → tree → option (A * gmap Z Z * tree)) : total (P:=brick H) (load_with f).
Proof. intros m l m'. unfold load_with. destruct (f _ _) as [[[a mem] t]|]; done. Qed.
Lemma total_print_table f : total (P:=brick H) (print_table f).
Proof. intros m l m'. unfold print_table. destruct (f m) as [[t x]|]; done. Qed.
Lemma total_on_debugger f : total (P:=brick H) (on_debugger f).
Proof. intros m l m'. unfold on_debugger. destruct (f _) as [[d m1]|]; done. Qed.
Lemma total_load_tree f : total (P:=brick H) (load_tree f).
Proof. intros m l m'. unfold load_tree. destruct (load_symbols _ _ _ _) as [[? ?]|]; done. Qed.

Ltac total_go := repeat first
  [ progress cbv zeta
  | match goal with
    | |- total (mbind _ _) => apply total_bind; [|intros ?]
    | |- total (if _ then _ else _) => apply total_if
    | |- total (when _ _) => apply total_when
    | |- total (mret _) => apply total_ret
    | |- total (gets _) => apply total_gets
    | |- total (modify _) => apply total_modify
    | |- total undefined => apply total_undefined
    | |- total halt => apply total_halt
    | |- total blocked => apply total_blocked
    | |- total (dev _ _ _) => apply total_dev
    | |- total (on_ser _) => apply total_dev
    | |- total (on_t16 _) => apply total_dev
    | |- total (on_t8 _) => apply total_dev
    | |- total (on_wdog _) => apply total_dev
    | |- total (on_btn _) => apply total_dev
    | |- total (on_ad _) => apply total_dev
    | |- total (on_motors _) => apply total_dev
    | |- total (on_lcd _) => apply total_dev
    | |- total (on_brick _) => apply total_modify
    | |- total (on_periph _) => apply total_modify
    | |- total (on_host _) => apply total_on_host
    | |- total (load_with _) => apply total_load_with
    | |- total (print_table _) => apply total_print_table
    | |- total (on_debugger _) => apply total_on_debugger
    | |- total (load_tree _) => apply total_load_tree
    | |- total (let '(_, _) := ?x in _) => destruct x
    | |- total (match ?x with Some _ => _ | None => _ end) => destruct x
    end
  | assumption ].
Lemma total_gui_char c : total c → total (gui_char (H:=H) c).
Proof. intros Hc. unfold gui_char. total_go. Qed.
Lemma total_read_chars room : ∀ c, total c → total (read_chars (H:=H) c room).
Proof.
  induction room as [|room IH]; intros c Hc; cbn [read_chars]; total_go; [apply total_gui_char, Hc|].
  apply IH, total_blocked.
Qed.
Lemma total_read_short n : ∀ c, total c → total (read_short (H:=H) c n).
Proof.
  induction n as [|n IH]; intros c Hc; cbn [read_short]; total_go; [apply total_gui_char, Hc|].
  apply IH, total_blocked.
Qed.
Lemma total_periph_cmd : total (periph_cmd (H:=H)).
Proof. apply total_gui_char, total_undefined. Qed.
Lemma total_next_char : total (Brick.next_char (H:=H)).
Proof. apply total_gui_char, total_blocked. Qed.
Lemma total_read_line room : total (read_line (H:=H) room).
Proof. apply total_read_chars, total_undefined. Qed.
Lemma total_GET_REG16_brick nr : total (P:=brick H) (GET_REG16 nr).
Proof. unfold GET_REG16, reg8. total_go. Qed.
Ltac total_more := repeat first
  [ progress total_go
  | match goal with
    | |- total periph_cmd => apply total_periph_cmd
    | |- total Brick.next_char => apply total_next_char
    | |- total (read_line _) => apply total_read_line
    | |- total (read_short _ _) => apply total_read_short, total_undefined
    | |- total (GET_REG16 _) => apply total_GET_REG16_brick
    end ].
Lemma total_kernel_command heap m p t letter :
  total m → total p → total t → total (kernel_command (H:=H) heap m p t letter).
Proof.
  intros. unfold kernel_command, reply. total_more. match goal with |- context [match ?l with _ => _ end] => destruct l end; total_more.
Qed.
Lemma total_brickos_message : total (brickos_message (H:=H)).
Proof. unfold brickos_message. total_more. apply total_kernel_command; unfold print_memory; total_more. Qed.
Lemma total_bibo_message rst : total (bibo_message (H:=H) rst).
Proof.
  unfold bibo_message. total_more; [apply total_brickos_message|].
  apply total_kernel_command; unfold print_memory; total_more.
Qed.

(** *** Save files and the other messages *)
Lemma total_stop_time : total (P:=brick H) (@stop_time _ (with_peripherals [])).
Proof. unfold stop_time, on_periph. total_go. cbn [gettimeofday with_peripherals]. total_go. Qed.
Lemma total_cont_time : total (P:=brick H) (@cont_time _ (with_peripherals [])).
Proof. unfold cont_time, on_periph. total_go. cbn [gettimeofday with_peripherals]. total_go. Qed.
Lemma total_loaded (l : list (Z * option (list Z → Mb unit))) :
  Forall (λ p, ∀ f b, p.2 = Some f → total (f b)) l →
  ∀ fuel buf len f, total (load_blocks fuel l buf len f).
Proof.
  intros Hl. assert (∀ i f b, load_data_of l i = Some (Some f) → total (f b)) as Hd.
  { intros i f b. induction Hl as [|[j g] l Hg _ IH]; cbn [load_data_of]; [discriminate|].
    destruct (i =? j); [intros [= ->]; apply Hg; done|exact IH]. }
  induction fuel as [|fuel IH]; intros buf len f; cbn [load_blocks]; [apply total_blocked|].
  destruct f.2; [apply total_ret|]. destruct (gzread 1 f) as [[|i got] f1]; [apply total_undefined|].
  destruct (i =? 0); [apply total_ret|]. destruct (gzread 2 f1) as [got2 f2].
  destruct (match len with Some _ => _ | None => _ end) as [[|hi [|lo []]]|]; try apply total_undefined.
  cbv zeta. destruct (_ <? _); [apply total_ret|]. destruct (gzread _ f2) as [got3 f3].
  apply total_bind; [|intros _; apply IH].
  destruct (load_data_of l i) as [[g|]|] eqn:E; [exact (Hd i g _ E)|apply total_undefined|apply total_ret].
Qed.
Lemma total_load_blocks fuel buf len f : total (load_blocks fuel (loaders (H:=H)) buf len f).
Proof.
  apply total_loaded. unfold loaders. repeat apply Forall_cons_2; try apply Forall_nil_2; intros g b [= <-];
    cbn; unfold take_ser, take_periph, take_t16, take_t8, take_btn, take_lcd, take_ad, take_wdog; total_go.
Qed.
Lemma total_savefile_message rst : total (savefile_message (H:=H) rst).
Proof.
  unfold savefile_message, savefile_load, savefile_save, load_state, load_memory, reset_profiler.
  repeat first
  [ progress total_more
  | match goal with
    | |- total stop_time => apply total_stop_time
    | |- total cont_time => apply total_cont_time
    | |- total (load_blocks _ _ _ _ _) => apply total_load_blocks
    end ].
Qed.
Definition peripheral_total (p : peripheral_ops (brick H)) : Prop :=
  (∀ c, reset p = Some c → total c) ∧ (∀ c, update_time p = Some c → total c) ∧
  (∀ rst, total rst → total (read_fd p rst)) ∧ (∀ c, check_irq_op p = Some c → total c).
Lemma peripherals_total p : p ∈ peripherals → peripheral_total p.
Proof.
  intros Hp. apply (Forall_forall peripheral_total peripherals); [|exact Hp].
  repeat apply Forall_cons_2; try apply Forall_nil_2; unfold peripheral_total, serial, periph_ops, savefile, timer16,
    timer8, buttons_ops, lcd_ops, adsensor, watchdog, firmware, motor, bibo; cbn [reset update_time read_fd check_irq_op];
    (split_and!; [intros c [= <-]|intros c [= <-]|intros rst Hrst|intros c [= <-]]);
    unfold no_read_fd, ser_update, btn_message, ad_message, firm_message, periph_message, periph_read_fd; total_more;
    match goal with
    | |- total (savefile_message _) => apply total_savefile_message
    | |- total (bibo_message _) => apply total_bibo_message
    end.
Qed.
Lemma total_load_rom : total (load_rom (H:=H)).
Proof. unfold load_rom. total_more. Qed.

(** *** What the board's functions call, on any board *)
Section OnBoard.
Context `{!Board (brick H), !BoardFunctions (brick H)}.
Ltac total_all := repeat first
  [ progress total_more
  | match goal with
    | |- total (GET_WORD_CYCLES _) => apply total_GET_WORD_CYCLES
    | |- total (SET_WORD_CYCLES _ _) => apply total_SET_WORD_CYCLES
    | |- total (GET_WORD _) => apply total_GET_WORD
    | |- total (SET_REG16 _ _) => apply total_SET_REG16
    | |- total (for_each _ _) => apply total_for_each; intros ? ?
    | |- total (opt _) => apply total_opt; intros ? ?
    | |- total periph => apply total_gets
    | |- total get_pc => apply total_gets
    | |- total get_ccr => apply total_gets
    | |- total (put_pc _) => apply total_modify
    | |- total (put_ccr _) => apply total_modify
    | |- total (flags _) => apply total_flags
    | |- total (add_cycles _) => apply total_modify
    end ].
Lemma total_update_times : total (P:=brick H) update_times.
Proof. unfold update_times. total_all. exact (proj1 (proj2 (peripherals_total _ H0)) _ H1). Qed.
Lemma total_reset_all : total (P:=brick H) reset_all.
Proof. unfold reset_all. total_all. exact (proj1 (peripherals_total _ H0) _ H1). Qed.
Lemma total_synchronize_with rst : total rst → total (P:=brick H) (synchronize_with rst).
Proof.
  intros Hr. unfold synchronize_with. cbn [gettimeofday select read_id db_handlefd brick_peripherals with_peripherals].
  unfold brick_handlefd. total_all. apply peripherals_total; assumption.
Qed.
Lemma total_do_reset_with sync : total sync → total (P:=brick H) (do_reset_with sync).
Proof.
  intros Hs. unfold do_reset_with, brick_read_rom. cbn [symbols_clear read_rom brick_peripherals with_peripherals].
  unfold brick_read_rom. total_all; [apply total_reset_all|apply total_load_rom|apply total_update_times].
Qed.
Lemma total_synchronize_time d : total (P:=brick H) (synchronize_time d).
Proof.
  induction d as [|d IH]; cbn [synchronize_time]; [apply total_blocked|].
  apply total_synchronize_with, total_do_reset_with, IH.
Qed.
Lemma total_wait_peripherals d : total (P:=brick H) (wait_peripherals d).
Proof. unfold wait_peripherals. total_all; [apply total_synchronize_time|apply total_update_times]. Qed.
Lemma total_poll_irqs l s : (∀ p, p ∈ l → peripheral_total p) → total (P:=brick H) (poll_irqs l s).
Proof.
  revert s. induction l as [|p l IH]; intros s Hl; cbn [poll_irqs]; [apply total_ret|].
  apply total_bind; [|intros; apply IH; intros; apply Hl; set_solver].
  destruct (check_irq_op p) as [c|] eqn:E; [|apply total_ret].
  apply total_bind; [|intros; apply total_ret]. apply (Hl p); [set_solver|exact E].
Qed.
Lemma total_check_irq d : total (P:=brick H) (check_irq d).
Proof.
  unfold check_irq, schedule_max, enter_irq, prefetch. total_all.
  - apply total_wait_peripherals.
  - apply total_poll_irqs. exact peripherals_total.
  - apply total_do_reset_with, total_synchronize_time.
Qed.
Lemma total_cpu_sleep_with d fuel : total (P:=brick H) (cpu_sleep_with d fuel).
Proof.
  assert (total (P:=brick H) stop_time ∧ total (P:=brick H) cont_time) as [Hs Hc]
    by (split; [exact total_stop_time|exact total_cont_time]).
  assert (∀ w, total w → total (P:=brick H) (sleep_turn d w)) as Ht.
  { intros w Hw. unfold sleep_turn. total_all. apply total_check_irq. }
  unfold cpu_sleep_with. total_all; try apply total_do_while; try apply Ht; try exact Hs; try exact Hc.
  all: first [apply total_modify|apply total_ret|apply total_reset_all].
Qed.
Lemma total_periph_handletrap_with d fuel : total (P:=brick H) (periph_handletrap_with d fuel).
Proof.
  unfold periph_handletrap_with. cbn [db_handletrap brick_peripherals with_peripherals]. unfold brick_handletrap.
  total_all; [exact total_stop_time| |exact total_cont_time]. apply total_do_while. total_all. apply total_synchronize_time.
Qed.

(** The program's [printf]. *)
Lemma total_next s : total (P:=brick H) (Printf.next_char s).
Proof. unfold Printf.next_char, memory_at. total_go. Qed.
Lemma total_put_int n signed up base s : total (P:=brick H) (put_int n signed up base s).
Proof. unfold put_int, int_arg. total_all. Qed.
Lemma total_conversion n s : total (P:=brick H) (conversion n s).
Proof.
  unfold conversion, string_arg. repeat case_match; first [apply total_ret|apply total_put_int|total_all].
Qed.
Lemma total_printf_step n s : total (P:=brick H) (printf_step n s).
Proof.
  unfold printf_step. total_all. destruct (state s); [| | | | | |apply total_bind; [apply total_conversion|intros ?]|];
    total_all; try apply total_next.
Qed.
Lemma total_printf_text : total (P:=brick H) printf_text.
Proof.
  assert (∀ n s, total (P:=brick H) (printf_loop n s)) as Hl.
  { intros n s m l m'. unfold printf_loop. destruct (loop _ _ _) as [|o] eqn:E; [done|].
    refine (loop_sound (printf_turn n) (λ _, True) (λ o, o ≠ Goto l m') _ _ (s, m) o I E).
    intros [s1 m1] _. unfold printf_turn. case_bool_decide; [done|].
    pose proof (total_printf_step n s1 m1) as H1. destruct (printf_step n s1 m1) as [|l1 m2| | |]; done. }
  unfold printf_text, printf_buffer. total_all; first [apply total_next|apply Hl].
Qed.
End OnBoard.

(** ** The table [port] *)

(** A getter changes no register, cannot jump and returns. *)
Definition getter_fine (g : Mb Z) : Prop := clean g ∧ total g ∧ runs (λ _, True) g.
Lemma fine_dev {S} get put (f : dev_op S Z) : getter_fine (dev (H:=H) get put f).
Proof.
  split; [|split; [apply total_dev|]].
  - split; [intros m l m' _ E; destruct (total_dev _ _ _ _ _ _ E)|]. intros m a m'. unfold dev.
    destruct (f _ _) as [[[s c] x]|]; [|discriminate]. intros [= _ <-]. done.
  - intros m. unfold dev. destruct (f _ _) as [[[s c] x]|]; exact I.
Qed.
Lemma fine_gets (f : machine (brick H) → Z) : getter_fine (gets f).
Proof. split_and!; [apply clean_gets|apply total_gets|intros m; exact I]. Qed.
Lemma fine_ret v : getter_fine (mret v).
Proof. split_and!; [apply clean_ret|apply total_ret|intros m; exact I]. Qed.
Lemma all_getters_fine : Forall (λ p, getter_fine p.2) (getters (H:=H)).
Proof.
  unfold getters. rewrite !Forall_app.
  unfold ser_getters, periph_getters, t16_getters, t8_getters, btn_getters, ws_getters, ad_getters, wdog_getters.
  split_and!; repeat apply Forall_cons_2; try apply Forall_nil_2;
    first [apply fine_dev|apply fine_gets|apply fine_ret].
Qed.
Lemma all_setters_total wait : total wait → Forall (λ p, ∀ v, total (p.2 v)) (setters (H:=H) wait).
Proof.
  intros Hw. unfold setters. rewrite !Forall_app.
  unfold ser_setters, periph_setters, t16_setters, t8_setters, btn_setters, lcd_setters, ws_setters, ad_setters, wdog_setters.
  split_and!; repeat apply Forall_cons_2; try apply Forall_nil_2; intros v; cbn [snd]; total_go.
  - unfold lcd_write. total_go; [match goal with |- context [match ?c with NoCall => _ | _ => _ end] => destruct c end; total_go|]. apply total_for_each. intros [] _; cbn [lcd_react]; total_go.
  - unfold ws_write. total_go.
Qed.
Lemma board_with_functions wait sleep print handletrap :
  total wait → total sleep → total print →
  @BoardFunctions _ (board_with (H:=H) wait sleep print handletrap).
Proof.
  intros Hw Hs Hp. constructor; try assumption.
  - intros i g Hg. apply registered_in in Hg. apply (proj1 (Forall_forall _ _) all_getters_fine _ Hg).
  - intros i g Hg. apply registered_in in Hg. apply (proj1 (Forall_forall _ _) all_getters_fine _ Hg).
  - intros i f v Hf. apply registered_in in Hf. exact (proj1 (Forall_forall _ _) (all_setters_total wait Hw) _ Hf v).
  - intros v. split; [intros m l m' _ E; destruct (total_dev _ _ _ _ _ _ E)|]. intros m a m' [= _ <-]. done.
  - intros v. apply total_dev.
Qed.
Lemma brick_functions fuel depth : @BoardFunctions _ (brick_board (H:=H) fuel depth).
Proof.
  induction depth as [|depth IH]; cbn [brick_board]; apply board_with_functions; try apply total_blocked.
  - apply total_wait_peripherals.
  - apply total_cpu_sleep_with.
  - unfold brick_printf. total_go. apply total_printf_text.
Qed.

(** C1: Traps are precise, on the whole emulator.  When an opcode leaves through one of the
    labels [trap], [fault] or [illOpc] - a breakpoint, a watched access, a jump to an odd
    or unmapped address, an illegal encoding - then the code at that label puts the
    program counter back to the opcode and every register still has the value it had
    before it; [db_trap] tells the debugger why.  This holds with all devices attached and
    whatever the GUI, gdb, the infrared server and the files deliver meanwhile, even a
    save file that is loaded while the opcode waits at a port: nothing that comes after
    the store of an opcode traps, but for a call, which checks its target after its push -
    so the stack has to be memory, and not the ports. *)
Theorem brick_precise_traps fuel depth (m : machine (brick H)) l m1 :
  wf m → stack_in_memory m → @opcode_turn _ (brick_board fuel depth) m = Goto l m1 →
  ∃ m2, at_label l m1 = Done tt m2 ∧ pc m2 = pc m ∧ reg m2 = reg m ∧
    match l with
    | Ltrap => db_trap m2 = TRAP_EXCEPTION
    | Lfault => db_trap m2 = db_trap m1
    | LillOpc => db_trap m2 = ILLOPC_EXCEPTION
    end.
Proof. pose proof (brick_functions fuel depth) as Hb. apply traps_are_precise. Qed.

(** C24: [debug_printf] terminates and stays in its buffer, on the whole emulator.  For every
    content of memory, every stack pointer and every format, the state machine ends: it
    prints, or - only with an access outside of the memory, and then for every size of the
    buffer - that access is its end.  When it prints, the characters that it puts out are
    the same for every size [maxlen] of the buffer; no cell outside of the buffer has been
    stored, and what is printed is the first [maxlen - 1] of these characters, up to a 0
    among them; [debug_printf] has 4096 cells. *)
Theorem brick_printf_ends fuel depth (m : machine (brick H)) :
  match @printf_text _ (brick_board fuel depth) m with
  | Done shown m' => ∃ text, shown = until_nul (take 4095 text) ∧
      ∀ maxlen, 0 < maxlen → ∃ s, @printf_buffer _ (brick_board fuel depth) maxlen m = Done s m' ∧
        (∀ i v, buffer s !! i = Some v → 0 <= i < maxlen) ∧
        printed maxlen s = Some (until_nul (take (Z.to_nat (maxlen - 1)) text))
  | Undefined => ∀ maxlen, 0 < maxlen → @printf_buffer _ (brick_board fuel depth) maxlen m = Undefined
  | _ => False
  end.
Proof.
  apply (@printf_text_ends _ (brick_board fuel depth)). intros i g Hg.
  assert (port_get (Board := brick_board fuel depth) i = registered getters i) as E by (destruct depth; done).
  rewrite E in Hg. apply registered_in in Hg. apply (proj1 (Forall_forall _ _) all_getters_fine _ Hg).
Qed.
End BrickBoard.

(** ** Witness: JSR to an odd address, with a message of the GUI waiting *)
Definition demo_jsr : machine (brick script) :=
  set_memory (put_words 0x8000 [0x5e00; 0x9001] ∅) (set_pc 0x8000
    (set_reg (replicate 7 0 ++ [0xfe] ++ replicate 8 0) (statics None (Script 5000000 [66; 82; 49; 10] [])))).
Lemma demo_jsr_wf : wf demo_jsr.
Proof.
  destruct (statics_wf None (Script 5000000 [66; 82; 49; 10] [])). constructor; try assumption.
  - repeat constructor; done.
  - done.
  - apply (bool_decide_unpack _). vm_compute. exact I.
Qed.
Lemma brick_precise_traps_witness :
  ∃ m1 m2, @opcode_turn _ (brick_board 10 2) demo_jsr = Goto Lfault m1 ∧
    at_label Lfault m1 = Done tt m2 ∧ pc m2 = 0x8000 ∧ get0 (memory m2) 0xfdff = 4 ∧ db_trap m2 = 10.
Proof.
  assert (match @opcode_turn _ (brick_board 10 2) demo_jsr with
          | Goto Lfault m1 => (get0 (memory m1) 0xfdff =? 4) && (db_trap m1 =? 10) | _ => false end = true) as Hc
    by (vm_compute; reflexivity).
  destruct (@opcode_turn _ (brick_board 10 2) demo_jsr) as [|[] m1| | |] eqn:E; try discriminate Hc.
  apply andb_prop in Hc as [H1 H2]. apply Z.eqb_eq in H1, H2.
  destruct (brick_precise_traps 10 2 demo_jsr Lfault m1 demo_jsr_wf eq_refl E) as (m2 & E2 & Hpc & _ & Ht).
  exists m1, m2. split; [reflexivity|]. split; [exact E2|]. split; [exact Hpc|]. rewrite Ht. split; [|exact H2].
  injection E2 as <-. exact H1.
Defined.
