(* ===== verification/BrickSave.v ===== *)
(** * BrickSave: loading a save file restores the brick *)
From stdpp Require Import strings.
From S2P Require Import PeriphProps.
From S2P Require Import SaveFileProps.
From S2P Require Export BrickProps.

(** What the model relies on: a file holds what was written to it, also later. *)
Class HostFiles (H : Type) `{!Host H} := {
  h_open_create name l h : Forall byte l → h_open name (h_create name l h) = Some l;
  h_open_time name h : h_open name (h_gettimeofday h).2 = h_open name h }.

Section Save.
Context {H : Type} `{!Host H, !HostOk H, !HostFiles H}.
Implicit Types m : machine (brick H).

(** The machine is well-formed, and the variables of type [char] of the display,
    the channel of the converter and the outputs of the timers hold what fits. *)
Record can_save m : Prop := {
  cs_wf : wf m;
  cs_lcd : let s := b_lcd (board m) in s8_fits (lcd_mode s) ∧ s8_fits (lcd_ptr s) ∧
    s8_fits (lcd_subaddr s) ∧ s8_fits (i2c_state s);
  cs_channel : byte (adchannel (b_ad (board m)));
  cs_out : byte (out (tm0 (b_t8 (board m)))) ∧ byte (out (tm1 (b_t8 (board m))));
  cs_wait : s32_fits (wait_states m);
  cs_trap : s32_fits (db_trap m);
  cs_syms : Forall saveable (symbols_iterate (b_syms (board m))) }.

(** ** The devices of a machine *)
Definition devices m : list (saved_device (brick H)) :=
  [SavedDevice 83 _ _ (ser_save (b_ser (board m))) take_ser;
   SavedDevice 80 _ _ (@periph_save _ (with_peripherals []) m) take_periph;
   SavedDevice 84 _ _ (t16_save (b_t16 (board m))) take_t16;
   SavedDevice 56 _ _ (t8_save (b_t8 (board m))) take_t8;
   SavedDevice 66 _ _ (btn_save (b_btn (board m))) take_btn;
   SavedDevice 76 _ _ (lcd_save (b_lcd (board m))) take_lcd;
   SavedDevice 65 _ _ (ad_save (b_ad (board m))) take_ad;
   SavedDevice 87 _ _ (wdog_save (b_wdog (board m))) take_wdog].
Lemma savers_devices m : savers m = saver_of <$> devices m.
Proof. reflexivity. Qed.

Lemma s32_s32_fits x : s32_fits (s32 x).
Proof. unfold s32_fits. width_lia. Qed.
Lemma s8_s8_fits x : s8_fits (s8 x).
Proof. unfold s8_fits. width_lia. Qed.
Create HintDb saving.
#[local] Hint Resolve htons_word htonl_qword s32_s32_fits s8_s8_fits u8_byte : saving.
Lemma periph_save_fits m : wf m → periph_fits (@periph_save _ (with_peripherals []) m).
Proof.
  intros Hm. pose proof (ok_syscr _ (wf_board m Hm)). destruct Hm.
  unfold periph_fits, periph_save. cbn -[htonl htons s32]. split_and!; auto with saving.
Qed.
Lemma t16_save_fits s : t16_ok s → t16_fits (t16_save s).
Proof. unfold t16_ok, t16_fits. cbn -[htonl htons]. intros; destruct_and?. split_and!; auto with saving. Qed.
Lemma t8_save_fits s :
  t8_state_ok s → byte (out (tm0 s)) → byte (out (tm1 s)) → t8_fits (t8_save s).
Proof.
  unfold t8_state_ok, tm_ok, t8_fits, pair_fits. cbn -[htonl htons]. intros; destruct_and?.
  split_and!; auto with saving.
Qed.
Lemma ad_save_fits s : ad_ok s → byte (adchannel s) → ad_fits (ad_save s).
Proof.
  unfold ad_ok, ad_fits. cbn -[htonl htons take]. intros; destruct_and?.
  split_and!; auto with saving.
  - rewrite length_fmap, length_take. lia.
  - apply Forall_fmap, Forall_true. apply htons_word.
Qed.
Lemma wdog_save_fits w : wdog_regs_ok w → wdog_fits (wdog_save w).
Proof. unfold wdog_regs_ok, wdog_fits. cbn -[htonl]. intros; destruct_and?. split_and!; auto with saving. Qed.
Lemma lcd_save_fits m : can_save m → lcd_fits (lcd_save (b_lcd (board m))).
Proof.
  intros Hm. destruct (ok_lcd _ (wf_board m (cs_wf m Hm))) as (Hl & Hb & _ & _ & Hp).
  destruct (cs_lcd m Hm) as (? & ? & ? & ?). unfold lcd_fits. cbn -[take s8].
  rewrite length_take. split_and!; auto with saving; try lia. apply Forall_take, Hb.
Qed.
Lemma devices_answer m : can_save m → Forall (answers loaders) (devices m).
Proof.
  intros Hm. pose proof (cs_wf m Hm) as Hw. pose proof (wf_board m Hw) as [].
  unfold devices. repeat apply Forall_cons_2; try apply Forall_nil_2; unfold answers;
    cbn [sd_id sd_layout sd_value]; (split; [done|]); (split; [done|]); (split; [cbn; lia|]);
    (split; [reflexivity|]).
  - exists ser_regs_ok. split; [apply _|]. assumption.
  - exists periph_fits. split; [apply _|]. apply periph_save_fits, Hw.
  - exists t16_fits. split; [apply _|apply t16_save_fits; assumption].
  - exists t8_fits. split; [apply _|apply t8_save_fits; [assumption|apply (cs_out m Hm)..]].
  - exists btn_regs_ok. split; [apply _|assumption].
  - exists lcd_fits. split; [apply _|apply lcd_save_fits, Hm].
  - exists ad_fits. split; [apply _|apply ad_save_fits; [assumption|apply (cs_channel m Hm)]].
  - exists wdog_fits. split; [apply _|apply wdog_save_fits; assumption].
Qed.
Lemma saved_bytes m : can_save m → Forall byte (saved m).
Proof.
  intros Hm. pose proof (cs_wf m Hm) as []. unfold saved, save_content.
  apply Forall_app_2; [repeat apply Forall_cons_2; try apply Forall_nil_2; apply byte_const; done|].
  apply Forall_app_2; [apply chars_from_bytes; assumption|].
  apply Forall_app_2; [apply chars_from_bytes; assumption|].
  apply Forall_app_2; [apply save_symbols_bytes|]. rewrite savers_devices.
  apply (save_blocks_bytes loaders); [apply devices_answer, Hm|apply h_stack_bytes].
Qed.

(** ** Loading *)

Definition arrays_read (mem types : list Z) (m0 : machine (brick H)) : machine (brick H) :=
  set_memtype (store_bytes 0 types (memtype m0)) (set_memory (store_bytes 0 mem (memory m0)) m0).
Lemma load_memory_saved mem types rest m0 :
  length mem = Z.to_nat 65536 → length types = Z.to_nat 65536 →
  load_memory (mem ++ types ++ rest, false) m0 = Done (rest, false) (arrays_read mem types m0).
Proof.
  intros Hm Ht. unfold load_memory. generalize dependent (Z.to_nat 65536). intros n Hm Ht.
  rewrite (gzread_app mem) by exact Hm. rewrite gzread_app by exact Ht. reflexivity.
Qed.
Definition tree_read (t : tree) m : machine (brick H) := set_board (with_syms t (board m)) m.
Lemma load_tree_saved syms rest m0 :
  Forall saveable (symbols_iterate syms) →
  ∃ t, symbols_iterate t ≡ₚ symbols_iterate syms ++ symbols_iterate (b_syms (board m0)) ∧
    load_tree (save_symbols syms ++ rest, false) m0 = Done (rest, false) (tree_read t m0).
Proof.
  intros Hs. pose proof (save_symbols_length syms) as Hl.
  destruct (load_symbols_list (S (length (save_symbols syms ++ rest))) (symbols_iterate syms) None rest
    (b_syms (board m0)) Hs) as (t & Et & Hp); [intros e [=]|rewrite length_app; lia|].
  exists t. split; [exact Hp|]. unfold load_tree. cbn [fst].
  unfold save_symbols in *. rewrite <- app_assoc in *. rewrite Et. reflexivity.
Qed.
Definition records m : M (brick H) unit := for_each (λ d, sd_load d (sd_value d)) (devices m).
Definition the_end : M (brick H) unit := _ ← reset_profiler; @cont_time _ (with_peripherals []).
Lemma load_state_saved m stack buf m0 :
  can_save m → length stack = 512%nat →
  ∃ t, symbols_iterate t ≡ₚ symbols_iterate (b_syms (board m)) ++ symbols_iterate (b_syms (board m0)) ∧
  load_state buf (chars_from (memory m) 0 (Z.to_nat 65536) ++ chars_from (memtype m) 0 (Z.to_nat 65536) ++
    save_symbols (b_syms (board m)) ++ save_blocks (savers m) stack, false) m0 =
  (_ ← records m; the_end)
    (tree_read t (arrays_read (chars_from (memory m) 0 (Z.to_nat 65536))
                              (chars_from (memtype m) 0 (Z.to_nat 65536)) m0)).
Proof.
  intros Hm Hs.
  pose proof (length_chars_from (memory m) 0 (Z.to_nat 65536)) as Hmem.
  pose proof (length_chars_from (memtype m) 0 (Z.to_nat 65536)) as Htyp.
  generalize dependent (chars_from (memory m) 0 (Z.to_nat 65536)). intros mem Hmem.
  generalize dependent (chars_from (memtype m) 0 (Z.to_nat 65536)). intros types Htyp.
  destruct (load_tree_saved (b_syms (board m)) (save_blocks (savers m) stack) (arrays_read mem types m0)
    (cs_syms m Hm)) as (t & Hp & Et).
  exists t. split; [exact Hp|]. unfold load_state, mbind at 1, M_bind at 1.
  rewrite load_memory_saved by assumption. unfold mbind at 1, M_bind at 1. rewrite Et.
  unfold mbind at 1, M_bind at 1. cbn [fst]. rewrite savers_devices.
  rewrite <- (app_nil_r (save_blocks (saver_of <$> devices m) stack)) at 2.
  rewrite (load_blocks_saved loaders); [|apply devices_answer, Hm| |lia|intros x [=]];
    [|pose proof (save_blocks_length (devices m) stack); lia].
  fold (records m). unfold mbind, M_bind. destruct (records m _); reflexivity.
Qed.

(** *** What a load restores *)
Definition t16_restored (s s0 s1 : t16) : Prop :=
  frc s1 = frc s ∧ ocra s1 = ocra s ∧ ocrb s1 = ocrb s ∧ tcsr s1 = tcsr s ∧ tier s1 = tier s ∧
  tcr s1 = tcr s ∧ tocr s1 = tocr s ∧ my_last_cycles s1 = u32 (my_last_cycles s) ∧
  temp s1 = temp s0.
Definition tm_restored (t t1 : tm) : Prop :=
  t1 = Tm (tcnt t) (tm_tcr t) (tm_tcsr t) (tcora t) (tcorb t) (out t) (u32 (last_cycles t))
         (u32 (my_next_cycle t)).
Definition wdog_restored (w w1 : wdog) : Prop :=
  w1 = Wdog (w_tcsr w) (w_readtcsr w) (w_tcnt w) (w_pw w) (u32 (w_last_cycles w)).
Definition ad_restored (s s1 : ad) : Prop :=
  polled s1 = polled s ∧ ad_tmp s1 = ad_tmp s ∧ adcsr s1 = adcsr s ∧ read_adcsr s1 = read_adcsr s ∧
  adcr s1 = adcr s ∧ adchannel s1 = adchannel s ∧ ad_start_cycle s1 = u32 (ad_start_cycle s).
(** The buttons stay as they are pressed now; one that was not pressed when the file was
    saved counts as pressed since. *)
Definition btn_restored (b b0 b1 : buttons) : Prop :=
  b1 = Buttons (btn_state b0) (iscr b) (ier b)
         (u8 (irqpending b |! (btn_state b &! Z.lnot (btn_state b0) &! iscr b &! 7))).
Definition lcd_restored (s s1 : lcd) : Prop :=
  lcd_data s1 = lcd_data s ∧ lcd_mode s1 = lcd_mode s ∧ lcd_ptr s1 = lcd_ptr s ∧
  lcd_subaddr s1 = lcd_subaddr s ∧ i2c_state s1 = i2c_state s ∧ i2c_data s1 = i2c_data s ∧
  i2c_bitnr s1 = i2c_bitnr s ∧ port6 s1 = port6 s.
Lemma t16_load_save s s0 : t16_ok s → t16_restored s s0 (t16_load (t16_save s) s0).
Proof.
  unfold t16_ok. intros; destruct_and?. unfold t16_restored. cbn -[htons htonl u32].
  rewrite !htons_twice, htonl_twice, !u16_id by assumption. split_and!; reflexivity.
Qed.
Lemma t8_load_save s s0 :
  let s1 := t8_load (t8_save s) s0 in
  tm_restored (tm0 s) (tm0 s1) ∧ tm_restored (tm1 s) (tm1 s1) ∧ stcr s1 = stcr s.
Proof. unfold tm_restored. cbn -[htonl u32]. rewrite !htonl_twice. done. Qed.
Lemma wdog_load_save w w0 : wdog_restored w (wdog_load (wdog_save w) w0).
Proof. unfold wdog_restored, wdog_load. cbn -[htonl u32]. rewrite htonl_twice. done. Qed.
Lemma htons_each (l : list Z) : Forall word l → htons <$> (htons <$> l) = l.
Proof.
  induction 1 as [|v l Hv _ IH]; [done|]. cbn [fmap list_fmap]. rewrite htons_twice, u16_id by exact Hv.
  f_equal. exact IH.
Qed.
Lemma ad_load_save s s0 : ad_ok s → ad_restored s (ad_load (ad_save s) s0).
Proof.
  intros (_ & Hp & _ & _ & _ & _ & Hl). unfold ad_restored, ad_load, ad_save.
  cbn [polled ad_tmp adcsr read_adcsr adcr adchannel ad_start_cycle sva_start_cycle sva_polled sva_tmp
    sva_adcsr sva_read_adcsr sva_adcr sva_adchannel].
  rewrite htonl_twice, (take_ge (polled s)), htons_each by (assumption || lia). done.
Qed.
Lemma s8_u8 v : byte v → u8 (s8 v) = v.
Proof. intros. unfold byte in *. width_lia. Qed.
Lemma lcd_load_save s s0 : lcd_ok s → lcd_restored s (lcd_load (lcd_save s) s0).
Proof.
  intros (Hl & _ & Hd & Hb & _). unfold lcd_restored, lcd_load, lcd_save.
  cbn [svl_data svl_mode svl_ptr svl_subaddr svl_i2c_state svl_i2c_data svl_i2c_bitnr svl_port6].
  unfold send. cbn [lcd_data lcd_mode lcd_ptr lcd_subaddr i2c_state i2c_data i2c_bitnr port6].
  rewrite !s8_u8, take_ge by (assumption || lia). done.
Qed.

(** [m1] is what a load of [m] makes of [m0]: cycle counts keep 32 bits, and a sleeping
    processor starts at the sleep instruction again.  Not in the file are the temporary
    register of the 16-bit timer, the state of the buttons, the values of the sensors, the
    motors, the wait state control register, the debugger and what [run_cpu] keeps for
    single steps: they stay those of [m0].  The serial interface computes its times from
    the cycle counter that [m0] has.  The symbols come on top of those that are there.  The
    profiler starts anew. *)
Record restored m m0 (m1 : machine (brick H)) : Prop := {
  rs_memory a : 0 <= a < 65536 → get0 (memory m1) a = get0 (memory m) a;
  rs_memtype a : 0 <= a < 65536 → get0 (memtype m1) a = get0 (memtype m) a;
  rs_cpu : reg m1 = reg m ∧ ccr m1 = ccr m ∧
    pc m1 = (if sleeping (b_periph (board m)) =? 0 then pc m else u16 (pc m - 2));
  rs_state : wait_states m1 = wait_states m ∧ db_trap m1 = db_trap m ∧
    syscr (b_periph (board m1)) = syscr (b_periph (board m)) ∧ sleeping (b_periph (board m1)) = 0;
  rs_clock : clk m1 = btn_check_next_cycle (b_btn (board m1))
    (Clock (u32 (cycles (clk m))) (u32 (next_timer_cycle (clk m))) (u32 (next_nmi_cycle (clk m))));
  rs_t16 : t16_restored (b_t16 (board m)) (b_t16 (board m0)) (b_t16 (board m1));
  rs_tm0 : tm_restored (tm0 (b_t8 (board m))) (tm0 (b_t8 (board m1)));
  rs_tm1 : tm_restored (tm1 (b_t8 (board m))) (tm1 (b_t8 (board m1)));
  rs_stcr : stcr (b_t8 (board m1)) = stcr (b_t8 (board m));
  rs_btn : btn_restored (b_btn (board m)) (b_btn (board m0)) (b_btn (board m1));
  rs_wdog : wdog_restored (b_wdog (board m)) (b_wdog (board m1));
  rs_ad : ad_restored (b_ad (board m)) (b_ad (board m1));
  rs_lcd : lcd_restored (b_lcd (board m)) (b_lcd (board m1));
  rs_ser : b_ser (board m1) = ser_load (regs (b_ser (board m))) (b_ser (board m0)) (clk m0);
  rs_syms : symbols_iterate (b_syms (board m1)) ≡ₚ
            symbols_iterate (b_syms (board m)) ++ symbols_iterate (b_syms (board m0));
  rs_kept : values (b_ad (board m1)) = values (b_ad (board m0)) ∧
    b_motors (board m1) = b_motors (board m0) ∧ b_wcsr (board m1) = b_wcsr (board m0) ∧
    b_db (board m1) = b_db (board m0) ∧ irq_disabled_one m1 = irq_disabled_one m0 ∧
    db_singlestep m1 = db_singlestep m0 ∧ db_singlestep_pc m1 = db_singlestep_pc m0 ∧
    db_singlestep_memtype m1 = db_singlestep_memtype m0 }.
(** The registers of the serial interface are those of the file. *)
Lemma ser_load_regs d s c : regs (ser_load d s c) = d.
Proof. reflexivity. Qed.

Lemma get0_arrays (arr arr0 : gmap Z Z) n b a :
  b <= a < b + Z.of_nat n → get0 (store_bytes b (chars_from arr b n) arr0) a = get0 arr a.
Proof.
  revert b arr0. induction n as [|n IH]; intros b arr0 Ha; [lia|].
  rewrite chars_from_S. cbn [store_bytes]. destruct (Z.eq_dec a b) as [->|].
  - rewrite store_bytes_out, get0_insert_eq by lia. done.
  - apply IH. lia.
Qed.
Lemma clock_of c x y z : cycles c = x mod 4294967296 → next_timer_cycle c = y mod 4294967296 →
  next_nmi_cycle c = z mod 4294967296 → c = Clock (u32 x) (u32 y) (u32 z).
Proof. destruct c. cbn. intros -> -> ->. reflexivity. Qed.
Lemma btn_load_save b b0 c :
  btn_restored b b0 (btn_load (btn_save b) b0 c).1 ∧
  (btn_load (btn_save b) b0 c).2 = btn_check_next_cycle (btn_load (btn_save b) b0 c).1 c.
Proof. done. Qed.
#[local] Opaque htonl htons s32 u32 u64 add_to_cycle ser_load t16_load t8_load btn_load lcd_load ad_load wdog_load.
Lemma records_restore m t mem types m0 :
  can_save m → mem = chars_from (memory m) 0 (Z.to_nat 65536) →
  types = chars_from (memtype m) 0 (Z.to_nat 65536) →
  symbols_iterate t ≡ₚ symbols_iterate (b_syms (board m)) ++ symbols_iterate (b_syms (board m0)) →
  ∃ m1, records m (tree_read t (arrays_read mem types m0)) = Done tt m1 ∧ restored m m0 m1.
Proof.
  intros Hm Em Et Ht. pose proof (wf_board m (cs_wf m Hm)) as Hb.
  set (start := tree_read t (arrays_read mem types m0)).
  destruct (@periph_save_load _ (with_peripherals []) (λ _ _, eq_refl) m start
    (wf_pc m (cs_wf m Hm)) (cs_wait m Hm) (cs_trap m Hm)) as (H1 & H2 & H3 & H4 & H5 & H6 & H7 & H8 & H9 & H10).
  unfold records, devices, for_each. unfold mbind, M_bind. cbn [sd_load sd_value].
  eexists. split; [reflexivity|]. constructor.
  - intros a Ha. transitivity (get0 (store_bytes 0 mem (memory m0)) a); [reflexivity|].
    rewrite Em. apply get0_arrays. lia.
  - intros a Ha. transitivity (get0 (store_bytes 0 types (memtype m0)) a); [reflexivity|].
    rewrite Et. apply get0_arrays. lia.
  - split_and!; [exact H1|exact H2|exact H7].
  - split_and!; [exact H3|exact H4|exact H5|exact H6].
  - etransitivity; [apply (btn_load_save (b_btn (board m)) (b_btn (board m0)))|]. f_equal.
    exact (clock_of _ _ _ _ H8 H9 H10).
  - exact (t16_load_save _ _ (ok_t16 _ Hb)).
  - apply (t8_load_save (b_t8 (board m)) (b_t8 (board m0))).
  - apply (t8_load_save (b_t8 (board m)) (b_t8 (board m0))).
  - apply (t8_load_save (b_t8 (board m)) (b_t8 (board m0))).
  - apply (btn_load_save (b_btn (board m)) (b_btn (board m0)) (clk m)).
  - exact (wdog_load_save _ _).
  - exact (ad_load_save _ _ (ok_ad _ Hb)).
  - exact (lcd_load_save _ _ (ok_lcd _ Hb)).
  - reflexivity.
  - exact Ht.
  - split_and!; reflexivity.
Qed.
#[local] Transparent htonl htons s32 u32 u64 add_to_cycle ser_load t16_load t8_load btn_load lcd_load ad_load wdog_load.

(** *** Around the records: the clock and the profiler *)
(** [m'] differs from [m] in the host and the times of [peripherals.c] only. *)
Definition with_times (f : periph_state → periph_state) (h : H) m : machine (brick H) :=
  set_board (set_periph (f (b_periph (board m))) (with_host h (board m))) m.
Lemma clock_step f m :
  (now ← on_host h_gettimeofday; @on_periph _ (with_peripherals []) (f now)) m =
  Done tt (with_times (f (h_gettimeofday (b_host (board m))).1) (h_gettimeofday (b_host (board m))).2 m).
Proof. unfold mbind, M_bind, on_host. destruct (h_gettimeofday _). reflexivity. Qed.
Lemma the_end_restores m m0 m1 :
  restored m m0 m1 → ∃ m2, the_end m1 = Done tt m2 ∧ restored m m0 m2.
Proof.
  intros Hr. unfold the_end, reset_profiler. unfold mbind at 1 2, M_bind at 1 2. cbn [modify on_brick].
  eexists. split; [apply (clock_step cont_time_step)|].
  assert (∀ now s, syscr (cont_time_step now s) = syscr s ∧ sleeping (cont_time_step now s) = sleeping s) as Hc.
  { intros now s. unfold cont_time_step. cbv zeta. destruct (_ =? 0); done. }
  destruct Hr. constructor; try assumption. unfold with_times. cbn.
  destruct (Hc (h_gettimeofday (b_host (board m1))).1 (b_periph (board m1))) as [-> ->]. assumption.
Qed.
Lemma stop_time_keeps now s :
  syscr (stop_time_step now s) = syscr s ∧ sleeping (stop_time_step now s) = sleeping s.
Proof. unfold stop_time_step. destruct (_ =? 0); done. Qed.
Lemma can_save_stopped m now h : can_save m → can_save (with_times (stop_time_step now) h m).
Proof.
  intros [Hw ? ? ? ? ? ?]. constructor; try assumption. destruct Hw. constructor; try assumption.
  destruct wf_board. constructor; try assumption.
  change (byte (syscr (stop_time_step now (b_periph (board m))))).
  rewrite (proj1 (stop_time_keeps _ _)). assumption.
Qed.
Lemma restored_stopped m now h h' now' m0 m1 :
  restored (with_times (stop_time_step now) h m) (with_times (stop_time_step now') h' m0) m1 →
  restored m m0 m1.
Proof.
  intros []. pose proof (stop_time_keeps now (b_periph (board m))) as [Hs Hl].
  unfold with_times in *. cbn [board set_board b_periph set_periph with_host] in *.
  rewrite Hl in rs_cpu0. rewrite Hs in rs_state0. constructor; assumption.
Qed.

(** What [savefile_save] leaves in the file. *)
Lemma save_writes m path :
  can_save m →
  ∃ now h ms, savefile_save path m = Done tt ms ∧
    h_open path (b_host (board ms)) = Some (saved (with_times (stop_time_step now) h m)).
Proof.
  intros Hm. exists (h_gettimeofday (b_host (board m))).1, (h_gettimeofday (b_host (board m))).2.
  set (m' := with_times _ _ m). unfold savefile_save, mbind at 1, M_bind at 1. unfold stop_time.
  rewrite (clock_step stop_time_step). fold m'. unfold mbind at 1 2, M_bind at 1 2. cbn [gets on_brick modify].
  eexists. split; [apply (clock_step cont_time_step)|].
  unfold with_times at 1. cbn [board set_board set_periph with_host b_host].
  rewrite h_open_time. apply h_open_create, saved_bytes, can_save_stopped, Hm.
Qed.
(** C9: A save file restores the machine, but for what is not in it. Saving succeeds, and
    loading the file it has written - in a later session, whatever is in the machine then -
    gives back the memory and its types, the registers, flags and program counter of the
    processor (a sleeping one at its sleep instruction), the wait states, pending traps and
    SYSCR, the clock modulo 2^32 (with an update at once when a button's interrupt is
    pending), the registers of the timers but the temporary register of the 16-bit one, the
    watchdog, the converter, the display and the serial interface, and the enabled and
    pending interrupts of the buttons. The temporary register, the buttons pressed, the
    values of the sensors, the motors, the wait state control register and the state of the
    debugger are those of the new session; its symbols stay, and those of the file are
    added to them. *)
Theorem savefile_restores m path :
  can_save m →
  ∃ ms, savefile_save path m = Done tt ms ∧
  ∀ m0, b_host (board m0) = b_host (board ms) →
  ∃ m1, savefile_load path m0 = Done tt m1 ∧ restored m m0 m1.
Proof.
  intros Hm. destruct (save_writes m path Hm) as (now & h & ms & Es & Eo).
  pose proof (can_save_stopped m now h Hm) as Hm'. set (m' := with_times _ _ _) in *.
  exists ms. split; [exact Es|]. intros m0 Eh.
  unfold savefile_load, mbind at 1, M_bind at 1. unfold stop_time. rewrite (clock_step stop_time_step).
  set (m0' := with_times _ _ m0). unfold mbind at 1 2, M_bind at 1 2. cbn [gets].
  assert (h_open path (b_host (board m0')) = Some (saved m')) as ->.
  { unfold m0', with_times. cbn [board set_board set_periph with_host b_host].
    rewrite h_open_time, Eh. exact Eo. }
  destruct (h_stack_bytes (b_host (board m'))) as [_ Hl].
  cbn [default from_option]. unfold Datatypes.id, saved, save_content.
  rewrite (gzread_app SAVEFILE_MAGIC) by reflexivity.
  change (take (length SAVEFILE_MAGIC) SAVEFILE_MAGIC) with SAVEFILE_MAGIC.
  rewrite bool_decide_eq_true_2 by reflexivity.
  change (length SAVEFILE_MAGIC =? 8)%nat with true. cbv iota.
  destruct (load_state_saved m' (h_stack (b_host (board m')))
    (overlay SAVEFILE_MAGIC (h_stack (b_host (board m0')))) m0' Hm' Hl) as (t & Ht & El).
  rewrite El. destruct (records_restore m' t _ _ m0' Hm' eq_refl eq_refl Ht) as (m1 & Er & Hr).
  unfold mbind at 1, M_bind at 1. rewrite Er. destruct (the_end_restores m' m0' m1 Hr) as (m2 & Ee & H2).
  exists m2. split; [exact Ee|]. exact (restored_stopped _ _ _ _ _ _ _ H2).
Qed.

(** A file of another type: the time has been stopped and stays so. *)
Lemma load_wrong_type path m l :
  h_open path (h_gettimeofday (b_host (board m))).2 = Some l →
  take (length (take 8 l)) SAVEFILE_MAGIC ≠ take 8 l →
  savefile_load path m =
  Done tt (with_times (stop_time_step (h_gettimeofday (b_host (board m))).1)
                      (h_gettimeofday (b_host (board m))).2 m).
Proof.
  intros Eo Hl. unfold savefile_load, mbind at 1, M_bind at 1. unfold stop_time.
  rewrite (clock_step stop_time_step). set (m' := with_times _ _ m).
  unfold mbind at 1 2, M_bind at 1 2. cbn [gets].
  assert (h_open path (b_host (board m')) = Some l) as -> by exact Eo.
  cbn [default from_option]. unfold Datatypes.id, gzread. cbn [fst snd].
  rewrite bool_decide_eq_false_2 by exact Hl. reflexivity.
Qed.
End Save.

(** ** Witness: a machine with a program and a symbol *)
#[export] Instance script_files : HostFiles script.
Proof.
  constructor; [|done]. intros name l h Hl. unfold h_open, h_create. cbn. unfold find_file. cbn.
  rewrite bool_decide_eq_true_2 by reflexivity. f_equal. cbn.
  induction Hl as [|b l Hb _ IH]; [done|]. cbn. rewrite u8_id by exact Hb. f_equal. exact IH.
Qed.
Definition demo_empty : machine (brick script) := statics None (Script 5000000 [] []).
Definition demo_saved : machine (brick script) :=
  set_pc 0x8000 (set_memory {[0x9000 := 0x5a]} (set_clk (Clock 4294967301 0 0)
    (set_board (with_syms (symbols_add (0x8000, 16) "main"%string Leaf) (board demo_empty)) demo_empty))).
Lemma demo_can_save : can_save demo_saved.
Proof.
  constructor; try (cbn; unfold s8_fits, s32_fits, byte; lia).
  - destruct (statics_wf None (Script 5000000 [] [])). constructor; try assumption.
    + cbn. unfold word. lia.
    + apply map_Forall_singleton, byte_const. done.
    + split_and!; cbn; unfold qword; lia.
    + destruct wf_board. constructor; assumption.
  - apply Forall_singleton. unfold saveable. cbn. unfold word. split_and!; try lia; [|discriminate].
    repeat constructor; discriminate.
Qed.
Lemma savefile_restores_witness :
  ∃ ms m1, savefile_save (codes "state") demo_saved = Done tt ms ∧
    savefile_load (codes "state") (set_board (with_host (b_host (board ms)) (board demo_empty)) demo_empty) =
      Done tt m1 ∧
    get0 (memory m1) 0x9000 = 0x5a ∧ pc m1 = 0x8000 ∧ cycles (clk m1) = 5 ∧
    symbols_iterate (b_syms (board m1)) ≡ₚ [((0x8000, 16), "main"%string)].
Proof.
  destruct (savefile_restores demo_saved (codes "state") demo_can_save) as (ms & Es & Hl).
  destruct (Hl (set_board (with_host (b_host (board ms)) (board demo_empty)) demo_empty) eq_refl)
    as (m1 & El & Hr).
  exists ms, m1. split; [exact Es|]. split; [exact El|]. split; [exact (rs_memory _ _ _ Hr 0x9000 ltac:(lia))|].
  split; [apply (rs_cpu _ _ _ Hr)|]. split; [rewrite (rs_clock _ _ _ Hr), (rs_btn _ _ _ Hr); reflexivity|exact (rs_syms _ _ _ Hr)].
Defined.

(** The command to load a file goes on to save to it. *)
Lemma load_then_saves (m : machine (brick script)) now l files :
  b_host (board m) = Script now (76 :: 115 :: 10 :: l) files →
  savefile_message (mret tt) m =
  (_ ← savefile_load [115]; savefile_save [115]) (set_board (with_host (Script now l files) (board m)) m).
Proof.
  intros E. unfold savefile_message, periph_cmd, read_line. unfold mbind at 1 2, M_bind at 1 2.
  cbn [read_chars]. unfold gui_char, on_host. unfold mbind at 1 2, M_bind at 1 2. rewrite E. reflexivity.
Qed.
