(* ===== verification/BrickIrq.v ===== *)
(** * BrickIrq: which interrupt of the brick is taken

    Every device that raises interrupts is asked ([check_irq] in [peripherals.c]), and the
    smallest number is taken.  The abstract specification is a table of the interrupt
    vectors in the order of their priority, each with the condition on the registers of the
    devices under which it is raised. *)
From Stdlib Require Import Sorted.
From S2P Require Export BrickProps.

Definition bit (k x : Z) : bool := Z.testbit x k.
(** The vectors of [h8300.h], most urgent first; 0 is the reset. *)
Definition vectors : list Z :=
  [0; 3] ++ [4; 5; 6] ++ [12; 13; 14; 15; 16; 17; 18] ++ [19; 20; 21; 22; 23; 24] ++ [28; 29; 30] ++ [35].

(** What raises the vector [n] in each device. *)
Definition wdog_raises (w : wdog) (n : Z) : bool := bit 7 (w_tcsr w) && Bool.eqb (bit 3 (w_tcsr w)) (n =? 0).
(** An edge that is remembered, or a button held down on an enabled line for levels. *)
Definition btn_raises (b : buttons) (n : Z) : bool :=
  bit (n - 4) (irqpending b) ||
  (negb (bit (n - 4) (btn_state b)) && bit (n - 4) (ier b) && negb (bit (n - 4) (iscr b))).
Definition t16_raises (s : t16) (n : Z) : bool := bit (19 - n) (tcsr s) && bit (19 - n) (tier s).
Definition tm_raises (t : tm) (k : Z) : bool := bit k (tm_tcsr t) && bit k (tm_tcr t).
Definition t8_raises (s : t8) (n : Z) : bool :=
  if n <? 22 then tm_raises (tm0 s) (26 - n) else tm_raises (tm1 s) (29 - n).
Definition ser_raises (s : ser) (n : Z) : bool :=
  let k := if n =? 28 then 6 else if n =? 29 then 7 else 2 in bit k (ssr (regs s)) && bit k (scr (regs s)).
Definition ad_raises (s : ad) : bool := bit 7 (adcsr s) && bit 6 (adcsr s).

(** The first vector of [l] that is raised, 255 when none is. *)
Definition first_raised (f : Z → bool) (l : list Z) : Z := default 255 (head (filter (λ n, f n = true) l)).
Fixpoint ascending (l : list Z) : bool :=
  match l with x :: (y :: _) as r => (x <? y) && ascending r | _ => true end.

Lemma first_in f l : first_raised f l = 255 ∨ first_raised f l ∈ l ∧ f (first_raised f l) = true.
Proof.
  unfold first_raised. destruct (filter _ l) as [|x r] eqn:E; [left; done|right].
  assert (x ∈ filter (λ n, f n = true) l) as Hx by (rewrite E; left). apply list_elem_of_filter in Hx. cbn. tauto.
Qed.
Lemma first_cons f x l : first_raised f (x :: l) = if f x then x else first_raised f l.
Proof. unfold first_raised. rewrite filter_cons. destruct (decide (f x = true)) as [->|Hx]; [done|]. destruct (f x); [congruence|done]. Qed.
Lemma first_ext f g l : (∀ n, n ∈ l → f n = g n) → first_raised f l = first_raised g l.
Proof.
  induction l as [|x l IH]; intros Hf; [done|]. rewrite !first_cons, Hf, IH by (auto using list_elem_of_here, list_elem_of_further). done.
Qed.
(** Two parts of the table: the smaller of their numbers. *)
Lemma first_app f l r : (∀ x y, x ∈ l → y ∈ r → x < y) → (∀ x, x ∈ l ++ r → x < 255) →
  first_raised f (l ++ r) = Z.min (first_raised f l) (first_raised f r).
Proof.
  intros Hlt Hmax. induction l as [|x l IH].
  - cbn [app]. change (first_raised f []) with 255. destruct (first_in f r) as [-> | [Hr _]]; [done|].
    specialize (Hmax _ Hr). lia.
  - cbn [app]. rewrite !first_cons. destruct (f x).
    + destruct (first_in f r) as [-> | [Hr _]].
      * specialize (Hmax x ltac:(left)). lia.
      * specialize (Hlt x _ ltac:(left) Hr). lia.
    + apply IH; [intros; apply Hlt; [right|]; assumption|intros; apply Hmax; right; assumption].
Qed.

(** ** The devices raise what the table says *)
Lemma and_bits k x y : bit k (x &! y) = bit k x && bit k y.
Proof. apply Z.land_spec. Qed.
Lemma mask_bit k x : 0 <= k → (x &? (1 <<! k)) = bit k x.
Proof. intros Hk. rewrite Z.shiftl_mul_pow2, Z.mul_1_l by exact Hk. apply bit_test. exact Hk. Qed.
Ltac each_vector := intros n Hn; repeat (apply elem_of_cons in Hn as [-> | Hn]; [|]); [..|apply elem_of_nil in Hn; destruct Hn].
Lemma t16_check_raises s : t16_check_irq s = first_raised (t16_raises s) [12; 13; 14; 15; 16; 17; 18].
Proof.
  unfold t16_check_irq. transitivity (first_raised (λ n, pending s &? (1 <<! (7 - (n - 12)))) [12; 13; 14; 15; 16; 17; 18]); [done|].
  apply first_ext. unfold pending, t16_raises. each_vector; rewrite mask_bit, !and_bits by done; cbn; rewrite andb_true_r; apply andb_comm.
Qed.
Lemma t8_check_raises s : t8_check_irq s = first_raised (t8_raises s) [19; 20; 21; 22; 23; 24].
Proof.
  unfold t8_check_irq, t8_raises, tm_raises. set (irqs := _ |! _).
  transitivity (first_raised (λ n, irqs &? (1 <<! (7 - (n - 19)))) [19; 20; 21; 22; 23; 24]); [done|].
  apply first_ext. each_vector; rewrite mask_bit by done; unfold irqs, bit; rewrite Z.lor_spec, Z.shiftr_spec, !Z.land_spec by done;
    cbn; rewrite ?andb_false_r, ?andb_true_r, ?orb_false_r; done.
Qed.
Lemma ser_check_raises s : ser_check_irq s = first_raised (ser_raises s) [28; 29; 30].
Proof.
  unfold ser_check_irq, ser_irqs, RXI_HANDLER, TXI_HANDLER, TEI_HANDLER. rewrite !first_cons. unfold ser_raises.
  change (SSR_RDRF |! SSR_TDRE |! SSR_TEND) with 0xc4.
  change SSR_RDRF with (2 ^ 6). change SSR_TDRE with (2 ^ 7). change SSR_TEND with (2 ^ 2). rewrite !bit_test by done.
  unfold bit. rewrite !Z.land_spec. change (Z.testbit 0xc4 6) with true. change (Z.testbit 0xc4 7) with true. change (Z.testbit 0xc4 2) with true.
  cbn [Z.eqb Pos.eqb]. rewrite !andb_true_r, !(andb_comm (Z.testbit (scr _) _)). done.
Qed.
Lemma ad_check_raises s : ad_ok s → ad_check_irq s = first_raised (λ _, ad_raises s) [35].
Proof.
  intros Hs. unfold ad_check_irq. rewrite first_cons. replace (adcsr s &! 0xc0 =? 0xc0) with (ad_raises s); [done|].
  apply Bool.eqb_prop. apply (forall_byte (λ x, Bool.eqb (bit 7 x && bit 6 x) (x &! 0xc0 =? 0xc0))); [vm_compute; reflexivity|].
  apply Hs.
Qed.
(** The buttons forget the edge that they report. *)
Definition btn_acknowledge (b : buttons) : buttons :=
  let n := first_raised (btn_raises b) [4; 5; 6] in
  if n =? 255 then b
  else Buttons (btn_state b) (iscr b) (ier b) (Z.clearbit (irqpending b) (n - 4)).
Lemma button_vector n : n ∈ [4; 5; 6] → 4 <= n <= 6.
Proof. revert n. each_vector; lia. Qed.
Lemma btn_first_cases irqs : btn_first irqs =
  if irqs &? (1 <<! 0) then Some 0 else if irqs &? (1 <<! 1) then Some 1 else if irqs &? (1 <<! 2) then Some 2 else None.
Proof.
  unfold btn_first. rewrite !filter_cons. change (filter _ []) with (@nil Z).
  destruct (irqs &? (1 <<! 0)), (irqs &? (1 <<! 1)), (irqs &? (1 <<! 2)); reflexivity.
Qed.
Lemma btn_line b i : i ∈ [0; 1; 2] → (btn_irqs b &? (1 <<! i)) = btn_raises b (4 + i).
Proof.
  revert i. unfold btn_irqs, btn_raises, bit. each_vector; rewrite mask_bit by done; unfold bit;
    rewrite Z.lor_spec, !Z.land_spec, !Z.lnot_spec, orb_comm by done; cbn; rewrite andb_true_r; done.
Qed.
Lemma clear_bit i x : byte x → u8 (x &! Z.lnot (1 <<! i)) = Z.clearbit x i.
Proof.
  intros Hx. rewrite u8_id by (apply byte_land_l, Hx). unfold Z.clearbit. rewrite Z.ldiff_land. done.
Qed.
Lemma btn_check_raises b : btn_regs_ok b →
  btn_check_irq b = (btn_acknowledge b, first_raised (btn_raises b) [4; 5; 6]).
Proof.
  intros (_ & _ & _ & Hp). unfold btn_check_irq, btn_acknowledge. rewrite btn_first_cases, !first_cons.
  rewrite !btn_line by set_solver. change (4 + 0) with 4. change (4 + 1) with 5. change (4 + 2) with 6.
  destruct (btn_raises b 4), (btn_raises b 5), (btn_raises b 6); cbn; rewrite ?clear_bit by exact Hp; done.
Qed.
(** The watchdog takes back its overflow flag, and says when a reset is over. *)
Definition wdog_acknowledge (w : wdog) : wdog := set_w_tcsr (Z.clearbit (w_tcsr w) 7) w.
Definition reset_cycle (w : wdog) (c : clock) : clock :=
  if wdog_raises w 0 then set_next_nmi_cycle (w_last_cycles w) c else c.
Lemma wdog_check_raises w c : wdog_regs_ok w →
  wdog_check_irq w c = (wdog_acknowledge w, reset_cycle w c, first_raised (wdog_raises w) [0; 3]).
Proof.
  intros (Ht & _). unfold wdog_check_irq, wdog_acknowledge, reset_cycle. rewrite !first_cons. unfold wdog_raises.
  change WTCSR_OVF with (2 ^ 7). change WTCSR_RST with (2 ^ 3). rewrite !bit_test by done. unfold bit.
  destruct (Z.testbit (w_tcsr w) 7) eqn:E7.
  - change (2 ^ 7) with (1 <<! 7). rewrite clear_bit by exact Ht. cbn [w_tcsr set_w_tcsr].
    rewrite Z.clearbit_neq by done. destruct (Z.testbit (w_tcsr w) 3); done.
  - replace (Z.clearbit (w_tcsr w) 7) with (w_tcsr w); [destruct w; done|].
    apply Z.bits_inj'. intros n _. destruct (Z.eq_dec n 7) as [->|Hn]; [|rewrite Z.clearbit_neq by congruence; done].
    rewrite Z.clearbit_eq. exact E7.
Qed.

Lemma vectors_ascending : StronglySorted Z.lt vectors.
Proof. unfold vectors. cbn [app]. repeat constructor. Qed.

Section Arbitration.
Context {H : Type} `{!Host H, !HostOk H}.
Implicit Types (b : brick H) (m : machine (brick H)).

Definition raised b (n : Z) : bool :=
  if n <? 4 then wdog_raises (b_wdog b) n
  else if n <? 12 then btn_raises (b_btn b) n
  else if n <? 19 then t16_raises (b_t16 b) n
  else if n <? 28 then t8_raises (b_t8 b) n
  else if n <? 35 then ser_raises (b_ser b) n
  else ad_raises (b_ad b).
Definition most_urgent b : Z := first_raised (raised b) vectors.
(** What the questions change in the devices. *)
Definition acknowledge m : machine (brick H) :=
  let b := board m in
  set_clk (reset_cycle (b_wdog b) (clk m))
    (set_board (with_wdog (wdog_acknowledge (b_wdog b)) (with_btn (btn_acknowledge (b_btn b)) b)) m).

Lemma most_urgent_min b : most_urgent b =
  Z.min (first_raised (wdog_raises (b_wdog b)) [0; 3])
    (Z.min (first_raised (btn_raises (b_btn b)) [4; 5; 6])
      (Z.min (first_raised (t16_raises (b_t16 b)) [12; 13; 14; 15; 16; 17; 18])
        (Z.min (first_raised (t8_raises (b_t8 b)) [19; 20; 21; 22; 23; 24])
          (Z.min (first_raised (ser_raises (b_ser b)) [28; 29; 30]) (first_raised (λ _, ad_raises (b_ad b)) [35]))))).
Proof.
  unfold most_urgent, vectors.
  assert (∀ l r, forallb (λ x, forallb (λ y, x <? y) r) l && forallb (λ x, x <? 255) (l ++ r) = true →
    first_raised (raised b) (l ++ r) = Z.min (first_raised (raised b) l) (first_raised (raised b) r)) as Happ.
  { intros l r Hc. apply andb_true_iff in Hc as [Hlt Hmax]. rewrite forallb_forall in Hlt, Hmax. apply first_app.
    - intros x y Hx Hy. apply list_elem_of_In in Hx, Hy. specialize (Hlt x Hx). rewrite forallb_forall in Hlt.
      apply Z.ltb_lt, Hlt, Hy.
    - intros x Hx. apply Z.ltb_lt, Hmax, list_elem_of_In, Hx. }
  rewrite !Happ by reflexivity. repeat f_equal; apply first_ext; each_vector; reflexivity.
Qed.

(** The devices are asked in the order of the table [peripherals]. *)
Lemma run_look {S A} (get : brick H → S) put (f : S → A) m :
  (∀ b, put (get b) b = b) → dev get put (look f) m = Done (f (get (board m))) m.
Proof. intros E. unfold dev, look. rewrite E. destruct m. reflexivity. Qed.
Lemma poll_skip (p : peripheral_ops (brick H)) l n m : check_irq_op p = None → poll_irqs (p :: l) n m = poll_irqs l n m.
Proof. intros E. cbn [poll_irqs]. rewrite E. done. Qed.
Lemma poll_ask (p : peripheral_ops (brick H)) c l n m irq m' :
  check_irq_op p = Some c → c m = Done irq m' → poll_irqs (p :: l) n m = poll_irqs l (Z.min irq n) m'.
Proof.
  intros Ep Ec. cbn [poll_irqs]. rewrite Ep. unfold mbind, M_bind. rewrite Ec. cbv beta iota zeta. unfold mret, M_ret.
  destruct (Z.ltb_spec irq n); [rewrite Z.min_l by lia|rewrite Z.min_r by lia]; done.
Qed.
Lemma poll_spec m : wf m → poll_irqs peripherals 255 m = Done (most_urgent (board m)) (acknowledge m).
Proof.
  intros Hm. pose proof (wf_board m Hm) as Hb. destruct Hb as [_ _ _ Hw Hbt Ha _ _ _].
  unfold peripherals, brick_peripherals, with_peripherals.
  erewrite poll_ask; [|reflexivity|apply run_look; intros []; reflexivity].
  rewrite !poll_skip by reflexivity.
  do 2 (erewrite poll_ask; [|reflexivity|apply run_look; intros []; reflexivity]).
  erewrite poll_ask; [|reflexivity|unfold on_btn, dev, latch; rewrite btn_check_raises by exact Hbt; reflexivity].
  rewrite poll_skip by reflexivity. erewrite poll_ask; [|reflexivity|apply run_look; intros []; reflexivity].
  erewrite poll_ask; [|reflexivity|unfold on_wdog, dev; cbn [board clk set_clk set_board with_btn b_wdog];
    rewrite wdog_check_raises by exact Hw; reflexivity].
  erewrite poll_ask; [|reflexivity|reflexivity]. rewrite poll_skip by reflexivity. erewrite poll_ask; [|reflexivity|reflexivity].
  cbn [poll_irqs]. unfold mret, M_ret. f_equal.
  rewrite most_urgent_min, ser_check_raises, t16_check_raises, t8_check_raises. cbn [board set_board set_clk b_ad with_btn].
  rewrite ad_check_raises by exact Ha.
  assert (first_raised (λ _, ad_raises (b_ad (board m))) [35] <= 255) by (rewrite first_cons; destruct (ad_raises _); cbn; lia).
  lia.
Qed.

(** The interrupt that is taken, and what it leaves, on any board. *)
Context {B : Board (brick H)} {BOk : BoardOk (brick H)}.
Definition limit m : Z := if ccr m &? 0x80 then 4 else 255.
Lemma check_irq_spec depth m m1 : wf m →
  (schedule_max ≫= λ _, wait_peripherals depth) m = Done tt m1 →
  let n := most_urgent (board m1) in let m2 := acknowledge m1 in
  wf m1 ∧
  check_irq depth m =
    if n <? limit m1 then
      if n =? 0 then
        (_ ← modify (λ m, set_clk (set_cycles (next_nmi_cycle (clk m)) (clk m)) m); _ ← do_reset depth; mret true) m2
      else (_ ← enter_irq n; mret true) m2
    else Done false m2.
Proof.
  intros Hm E. assert (wf m1) as Hm1.
  { pose proof (keeps_bind (λ _, True) (λ _, True) _ (λ _, wait_peripherals depth) keeps_schedule_max
      (λ _ _, keeps_wait_peripherals depth) m Hm) as Hk. rewrite E in Hk. apply Hk. }
  split; [exact Hm1|].
  unfold check_irq. unfold mbind, M_bind in *. destruct (schedule_max m) as [[] m'| | | |]; try discriminate E.
  rewrite E. cbv beta iota zeta. rewrite (poll_spec m1 Hm1). cbv beta iota zeta.
  cbn [get_ccr gets acknowledge ccr set_clk set_board]. unfold limit.
  destruct (most_urgent (board m1) <? _); [|done]. destruct (most_urgent (board m1) =? 0); done.
Qed.
Lemma most_urgent_is b n : n ∈ vectors → raised b n = true →
  (∀ k, k ∈ vectors → raised b k = true → n <= k) → most_urgent b = n.
Proof.
  unfold most_urgent. generalize vectors_ascending. generalize vectors as l. induction l as [|x l IH]; intros Hasc Hn Hr Hmin; [set_solver|].
  rewrite first_cons. apply elem_of_cons in Hn as [-> | Hn]; [rewrite Hr; done|].
  assert (raised b x = false) as ->.
  { destruct (raised b x) eqn:E; [|done]. specialize (Hmin x ltac:(left) E). inversion_clear Hasc as [|? ? _ Hall].
    rewrite Forall_forall in Hall. specialize (Hall n Hn). lia. }
  apply IH; [inversion_clear Hasc; assumption|exact Hn|exact Hr|]. intros k Hk. apply Hmin. right. exact Hk.
Qed.
Lemma nothing_urgent b v : v <= 255 → (∀ n, n ∈ vectors → raised b n = true → v <= n) → v <= most_urgent b.
Proof.
  intros Hv Hall. unfold most_urgent. destruct (first_in (raised b) vectors) as [-> | [Hn Hr]]; [exact Hv|exact (Hall _ Hn Hr)].
Qed.
Lemma acknowledge_wf m : wf m → wf (acknowledge m).
Proof.
  intros Hm. pose proof (keeps_poll_irqs peripherals 255 (λ _ Hp, Hp) m Hm) as Hk. rewrite poll_spec in Hk by exact Hm. apply Hk.
Qed.
Lemma limit_le m : limit m <= 255.
Proof. unfold limit. destruct (_ &? _); lia. Qed.
(** The questions leave everything raised but the watchdog's overflow and an edge. *)
Lemma acknowledge_raised m n : 4 <= n → first_raised (btn_raises (b_btn (board m))) [4; 5; 6] ≠ n →
  raised (board (acknowledge m)) n = raised (board m) n.
Proof.
  intros Hn Hf. unfold raised. cbn [acknowledge board set_board set_clk with_wdog with_btn b_wdog b_btn b_t16 b_t8 b_ser b_ad].
  rewrite (proj2 (Z.ltb_ge n 4)) by exact Hn. destruct (n <? 12); [|done].
  unfold btn_acknowledge. destruct (_ =? 255); [done|]. unfold btn_raises at 1. cbn [irqpending btn_state ier iscr].
  unfold bit at 1. rewrite Z.clearbit_neq by lia. done.
Qed.
Lemma edge_acknowledged m n : n ∈ [4; 5; 6] → first_raised (btn_raises (b_btn (board m))) [4; 5; 6] = n →
  bit (n - 4) (iscr (b_btn (board m))) = true → raised (board (acknowledge m)) n = false.
Proof.
  intros Hn Hf Hs. pose proof (button_vector n Hn) as Hr.
  unfold raised. cbn [acknowledge board set_board set_clk with_wdog with_btn b_wdog b_btn].
  rewrite (proj2 (Z.ltb_ge n 4)), (proj2 (Z.ltb_lt n 12)) by lia.
  unfold btn_acknowledge. rewrite Hf, (proj2 (Z.eqb_neq n 255)) by lia.
  unfold btn_raises. cbn [irqpending btn_state ier iscr]. rewrite Hs. unfold bit at 1. rewrite Z.clearbit_eq, andb_false_r. done.
Qed.

(** C4: Which interrupt is taken. After time has been brought up to date, [check_irq] on the
    whole brick takes the most urgent vector that any device raises by its flag and enable
    bits, provided that the interrupt mask is clear or the vector is the watchdog's: it enters
    the handler of that vector with the mask set and the pc and the flags on the stack; a reset
    by the watchdog restarts the brick at the cycle when it is over; and when nothing that may
    be taken is raised it returns without doing anything. Whatever is not taken stays raised,
    apart from the edge that the buttons have just reported. *)
Theorem irq_arbitration depth m m1 :
  wf m → (schedule_max ≫= λ _, wait_peripherals depth) m = Done tt m1 →
  let m2 := acknowledge m1 in
  (∀ n, n ∈ vectors → raised (board m1) n = true → (∀ k, k ∈ vectors → raised (board m1) k = true → n <= k) →
    n < limit m1 →
    if n =? 0 then
      check_irq depth m =
        (_ ← modify (λ m, set_clk (set_cycles (next_nmi_cycle (clk m)) (clk m)) m); _ ← do_reset depth; mret true) m2
    else irq_ready m2 n →
      ∃ m', check_irq depth m = Done true m' ∧ pc m' = word_at m1 (n * 2) ∧ ccr m' = ccr m1 |! 0x80 ∧
        reg16 m' 7 = reg16 m1 7 - 4 ∧ word_at m' (reg16 m' 7) = (ccr m1 <<! 8) |! ccr m1 ∧
        word_at m' (reg16 m' 7 + 2) = pc m1) ∧
  ((∀ n, n ∈ vectors → raised (board m1) n = true → limit m1 <= n) → check_irq depth m = Done false m2) ∧
  (∀ n, 4 <= n → first_raised (btn_raises (b_btn (board m1))) [4; 5; 6] ≠ n →
    raised (board m2) n = raised (board m1) n).
Proof.
  intros Hm E m2. destruct (check_irq_spec depth m m1 Hm E) as [Hm1 Hc]. split; [|split].
  - intros n Hn Hr Hmin Hlim. rewrite (most_urgent_is _ _ Hn Hr Hmin) in Hc. cbv zeta in Hc.
    rewrite (proj2 (Z.ltb_lt _ _) Hlim) in Hc. destruct (n =? 0); [exact Hc|]. intros Hready.
    assert (wf m2) as Hm2 by (apply acknowledge_wf, Hm1).
    destruct (run_enter_irq m2 n Hm2 Hready) as (c & bd & Ee).
    destruct (irq_frame_words m2 n c bd Hm2 Hready) as (E7 & W0 & W2).
    rewrite Hc. unfold mbind, M_bind. fold m2. rewrite Ee. eexists. split; [reflexivity|].
    rewrite E7. split; [reflexivity|]. split; [apply u8_id, byte_lor; [apply Hm1|done]|].
    split; [reflexivity|]. split; [exact W0|exact W2].
  - intros Hall. cbv zeta in Hc. rewrite (proj2 (Z.ltb_ge _ _) (nothing_urgent _ _ (limit_le m1) Hall)) in Hc. exact Hc.
  - intros n. apply acknowledge_raised.
Qed.
(** A press that is remembered as an edge is lost when the devices are asked while interrupts are
    masked: [btn_check_irq] forgets it although the answer is not used. *)
Lemma masked_press_lost depth m m1 n : wf m → (schedule_max ≫= λ _, wait_peripherals depth) m = Done tt m1 →
  (ccr m1 &? 0x80) = true → bit 7 (w_tcsr (b_wdog (board m1))) = false →
  n ∈ [4; 5; 6] → first_raised (btn_raises (b_btn (board m1))) [4; 5; 6] = n → bit (n - 4) (iscr (b_btn (board m1))) = true →
  ∃ m2, check_irq depth m = Done false m2 ∧ raised (board m1) n = true ∧ raised (board m2) n = false.
Proof.
  intros Hm E Hi Hw Hn Hf Hs. exists (acknowledge m1). destruct (check_irq_spec depth m m1 Hm E) as [_ Hc]. cbv zeta in Hc.
  split; [|split; [|exact (edge_acknowledged m1 n Hn Hf Hs)]].
  - rewrite Hc, (proj2 (Z.ltb_ge _ _)); [done|]. apply nothing_urgent; [apply limit_le|]. unfold limit. rewrite Hi.
    intros k Hk Hr. destruct (Z.ltb_spec k 4); [|lia]. unfold raised, wdog_raises in Hr.
    rewrite (proj2 (Z.ltb_lt k 4)), Hw in Hr by assumption. discriminate Hr.
  - destruct (first_in (btn_raises (b_btn (board m1))) [4; 5; 6]) as [H255|[_ Hr]].
    + pose proof (button_vector n Hn). lia.
    + rewrite Hf in Hr. pose proof (button_vector n Hn) as Hb.
      unfold raised. rewrite (proj2 (Z.ltb_ge n 4)), (proj2 (Z.ltb_lt n 12)) by lia. exact Hr.
Qed.
End Arbitration.

(** The flag of compare match B raises the vector that [h8300.h] calls CMI0A, the flag of
    match A the one of CMI0B. *)
Definition CMI0A_HANDLER : Z := 19.
Definition CMI0B_HANDLER : Z := 20.
Lemma t8_matches_swapped s : (tm_raises (tm0 s) 7 = true → t8_check_irq s = CMI0A_HANDLER) ∧
  (tm_raises (tm0 s) 7 = false → tm_raises (tm0 s) 6 = true → t8_check_irq s = CMI0B_HANDLER).
Proof.
  rewrite t8_check_raises, !first_cons. unfold t8_raises. cbn [Z.ltb Z.compare Pos.compare Pos.compare_cont].
  change (26 - 19) with 7. change (26 - 20) with 6. split; [intros ->|intros -> ->]; reflexivity.
Qed.
(** An overflow of the watchdog in interval mode raises the non-maskable interrupt and not vector 36. *)
Definition WOVF_HANDLER : Z := 36.
Lemma interval_overflow_nmi : ∃ w c, (w_tcsr w &? WTCSR_WTIT) = false ∧ (wdog_check_irq w c).2 = 3 ∧ 3 ≠ WOVF_HANDLER.
Proof. exists (Wdog 0xa0 0 0 0 0), (Clock 0 0 0). done. Qed.

(** ** Witness: match A of the 16-bit timer and an edge of the On-Off button *)
Definition demo_devices : brick script :=
  let b := board (statics None (Script 5000000 [] [])) in
  with_btn (Buttons 0xff 2 0 2) (with_t16 (T16 0 0xffff 0xffff 8 8 0 0 0 0) b).
Definition demo_irq (c : Z) : machine (brick script) :=
  let m := set_board demo_devices (statics None (Script 5000000 [] [])) in
  set_reg (<[7%nat := 0xfe]> (reg m)) (set_ccr c (set_pc 0x8000
    (set_memory (put_words 10 [0x7000] (put_words 32 [0x7100] ∅)) m))).
Lemma demo_irq_wf c : byte c → wf (demo_irq c).
Proof.
  intros Hc. destruct (statics_wf None (Script 5000000 [] [])). constructor; try assumption; cbn.
  - repeat constructor; done.
  - done.
  - apply (bool_decide_unpack _). vm_compute. exact I.
  - destruct wf_board. constructor; try assumption; cbn; unfold t16_ok, btn_regs_ok; cbn; split_and!; done.
Qed.
#[local] Instance demo_board : Board (brick script) := brick_board 10 1.
#[local] Instance demo_board_ok : BoardOk (brick script) := brick_board_ok 10 1.
Definition asked (c : Z) : machine (brick script) :=
  match (schedule_max ≫= λ _, wait_peripherals 1) (demo_irq c) with Done _ m => m | _ => demo_irq c end.
Lemma asked_is : (schedule_max ≫= λ _, wait_peripherals 1) (demo_irq 0) = Done tt (asked 0).
Proof.
  assert (match (schedule_max ≫= λ _, wait_peripherals 1) (demo_irq 0) with Done _ _ => true | _ => false end = true) as Hd
    by (vm_compute; reflexivity).
  unfold asked. destruct ((schedule_max ≫= λ _, wait_peripherals 1) (demo_irq 0)) as [[] m| | | |]; [reflexivity|discriminate Hd..].
Qed.
Lemma irq_arbitration_witness :
  raised (board (asked 0)) 16 = true ∧
  ∃ m', check_irq 1 (demo_irq 0) = Done true m' ∧ pc m' = 0x7000 ∧ ccr m' = 0x80 ∧ reg16 m' 7 = 0xfdfc.
Proof.
  split; [vm_compute; reflexivity|].
  destruct (irq_arbitration 1 (demo_irq 0) (asked 0) (demo_irq_wf 0 ltac:(done)) asked_is) as (Htaken & _).
  destruct (Htaken 5) as (m' & Er & Hpc & Hccr & Hsp & _).
  - apply (bool_decide_unpack _). vm_compute. exact I.
  - vm_compute. reflexivity.
  - assert (forallb (λ k, negb (raised (board (asked 0)) k) || (5 <=? k)) vectors = true) as Hf by (vm_compute; reflexivity).
    rewrite forallb_forall in Hf. intros k Hk Hr. specialize (Hf k ltac:(apply list_elem_of_In, Hk)). rewrite Hr in Hf. lia.
  - vm_compute. reflexivity.
  - constructor; plain_memory.
  - exists m'. split; [exact Er|]. rewrite Hpc, Hccr, Hsp. vm_compute. auto.
Defined.
(** With the mask set neither is taken, and the press is gone. *)
Example masked_press : ∃ m2, check_irq 1 (demo_irq 0x80) = Done false m2 ∧
  raised (board (demo_irq 0x80)) 5 = true ∧ raised (board m2) 5 = false ∧ raised (board m2) 16 = true.
Proof. eexists. split; [vm_compute; reflexivity|]. vm_compute. auto. Qed.
