(* ===== verification/Startup.v ===== *)
(** * Startup: the command line and the connections ([main.c], [socket.c])

    Before the processor runs, [main] reads its arguments, [ser_init] connects to the
    infrared server, [db_init] opens a port for gdb and [periph_init] brings up the GUI.
    All sockets are streams on the loopback address, so that a port is all there is of an address.
    The operating system is the class [Os]; every call leaves a mark in [trace]. *)
From stdpp Require Import strings pretty.
From S2P Require Import Brick.

(** ** The arguments *)
Record options := Options { o_debug : bool; o_port : Z; o_rom : option string }.
Definition no_options : options := Options false 0 None.
(** [NoValue]: [argv[argc]], a null pointer, is the value of the last argument; [atoi] and the
    [%s] of [printf] get it, which C leaves undefined. *)
Inductive command := RunWith (o : options) | Unrecognised (arg : string) | NoValue.
Definition is_debug (arg : string) : bool :=
  String.eqb arg "-g" || String.eqb arg "-d" || String.eqb arg "-debug" || String.eqb arg "--debug".
Fixpoint parse_args (args : list string) (o : options) : command :=
  match args with
  | [] => RunWith o
  | arg :: args =>
      if is_debug arg then parse_args args (Options true (o_port o) (o_rom o))
      else if String.eqb arg "-guiserverport" then
        match args with
        | [] => NoValue
        | v :: args => parse_args args (Options (o_debug o) (atoi (codes v)) (o_rom o))
        end
      else if String.eqb arg "-rom" then
        match args with
        | [] => NoValue
        | v :: args => parse_args args (Options (o_debug o) (o_port o) (Some v))
        end
      else Unrecognised arg
  end.

(** ** The operating system *)
(** [os_socket] and [os_accept] return a descriptor, -1 for an error; [os_bind] and
    [os_connect] whether they succeed. *)
Class Os (H : Type) := {
  os_socket : H → Z * H;
  os_bind : Z → Z → H → bool * H;
  os_listen : Z → H → H;
  os_getsockname : Z → H → Z;
  os_accept : Z → H → Z * H;
  os_connect : Z → Z → H → bool * H;
  os_close : Z → H → H;
  os_system : string → H → H;
  os_getenv : string → H → option string }.
Inductive os_call :=
  | Socket (fd : Z) | Bind (fd port : Z) (ok : bool) | Listen (fd : Z) | Accept (fd client : Z)
  | Connect (fd port : Z) (ok : bool) | Close (fd : Z) | System (cmd : string).
Record sys (H : Type) := Sys { trace : list os_call; os : H }.
Arguments Sys {H}. Arguments trace {H}. Arguments os {H}.
(** The process goes on, or ends with an exit code or by [abort]. *)
Inductive progress (A H : Type) := Up (x : A) (s : sys H) | Exits (code : Z) (s : sys H) | Aborts (s : sys H).
Arguments Up {A H}. Arguments Exits {A H}. Arguments Aborts {A H}.
Definition and_up {A B H} (p : progress A H) (f : A → sys H → progress B H) : progress B H :=
  match p with Up x s => f x s | Exits c s => Exits c s | Aborts s => Aborts s end.

(** The descriptors of [serial.c], [debugger.c] and [peripherals.c], and the port for gdb. *)
Record connections := Connections { serfd : Z; debuggerfd : Z; monitorport : Z; periph_fd : Z }.
Definition BRICK_BROADCAST_PORT : Z := 50637.

Section Sockets.
Context {H : Type} `{!Os H}.
Implicit Types s : sys H.
Definition mark (c : os_call) (h : H) s : sys H := Sys (trace s ++ [c]) h.
Definition socket s : Z * sys H := let '(fd, h) := os_socket (os s) in (fd, mark (Socket fd) h s).
Definition bind fd port s : bool * sys H :=
  let '(ok, h) := os_bind fd (u16 port) (os s) in (ok, mark (Bind fd (u16 port) ok) h s).
Definition listen fd s : sys H := mark (Listen fd) (os_listen fd (os s)) s.
Definition connect fd port s : bool * sys H :=
  let '(ok, h) := os_connect fd (u16 port) (os s) in (ok, mark (Connect fd (u16 port) ok) h s).
Definition close fd s : sys H := mark (Close fd) (os_close fd (os s)) s.
Definition system cmd s : sys H := mark (System cmd) (os_system cmd (os s)) s.

Definition create_server_socket (port : Z) s : Z * sys H :=
  let '(fd, s) := socket s in
  let '(ok, s) := bind fd port s in
  if ok then (fd, listen fd s) else (-1, s).
(** The descriptor and, when there is one, its port. *)
Definition create_anon_socket s : Z * option Z * sys H :=
  let '(fd, s) := socket s in
  if fd <? 0 then (-1, None, s)
  else
    let '(ok, s) := bind fd 0 s in
    if ok then
      let s := listen fd s in (fd, Some (os_getsockname fd (os s)), s)
    else (-1, None, s).
Definition accept_socket (fd : Z) s : Z * sys H :=
  let '(client, h) := os_accept fd (os s) in (client, mark (Accept fd client) h s).
Definition create_client_socket (port : Z) s : progress Z H :=
  let '(fd, s) := socket s in
  let '(ok, s) := connect fd port s in
  if ok then Up fd s else Exits 1 s.
Definition connect_server s : Z * sys H :=
  let '(fd, s) := socket s in
  let '(ok, s) := connect fd BRICK_BROADCAST_PORT s in
  if ok then (fd, s) else (-1, close fd s).

(** The parts of [ser_init], [db_init] and [periph_init] that connect. *)
Definition ser_connect s : progress Z H :=
  let '(fd, s) := connect_server s in
  if fd <? 0 then
    let s := system "./ir-server" s in
    let '(fd, s) := connect_server s in
    if fd <? 0 then Aborts s else Up fd s
  else Up fd s.
Definition db_listen (monitorport : Z) s : progress (Z * Z) H :=
  let '(fd, port, s) := create_anon_socket s in
  if fd <? 0 then Aborts s else Up (fd, default monitorport port) s.
(** [snprintf(cmd, sizeof(cmd), "%s %d &", gui, guiport)] *)
Definition gui_command (gui : string) (port : Z) : string :=
  String.substring 0 1023 (gui ++ " " ++ pretty port ++ " &").
(** [junk]: the local variable [guiport] before it is set. *)
Definition gui_connect (junk guiserverport : Z) s : progress Z H :=
  if guiserverport =? 0 then
    let '(server_fd, port, s) := create_anon_socket s in
    if server_fd <? 0 then Exits 1 s
    else
      let gui := default "wish GUI.tcl" (os_getenv "BRICKEMU_GUI" (os s)) in
      let s := system (gui_command gui (default junk port)) s in
      let '(fd, s) := accept_socket server_fd s in Up fd s
  else create_client_socket guiserverport s.
Definition start_connections (junk guiserverport : Z) s : progress connections H :=
  and_up (ser_connect s) (λ ser s,
  and_up (db_listen 0 s) (λ '(db, port) s,
  and_up (gui_connect junk guiserverport s) (λ gui s, Up (Connections ser db port gui) s))).
End Sockets.
