(* ===== verification/StartupProps.v ===== *)
(** * StartupProps: the options mean what they say, and the calls that start-up makes *)
From stdpp Require Import strings pretty.
From S2P Require Import Brick.
From S2P Require Export Startup.

(** ** The command line *)
Inductive opt := Debug (name : string) | Port (v : string) | Rom (v : string).
Definition opt_ok (x : opt) : Prop := match x with Debug name => is_debug name = true | _ => True end.
Definition render (x : opt) : list string :=
  match x with Debug name => [name] | Port v => ["-guiserverport"; v] | Rom v => ["-rom"; v] end.
(** A later option overrides an earlier one. *)
Definition apply_opt (o : options) (x : opt) : options :=
  match x with
  | Debug _ => Options true (o_port o) (o_rom o)
  | Port v => Options (o_debug o) (atoi (codes v)) (o_rom o)
  | Rom v => Options (o_debug o) (o_port o) (Some v)
  end.
Definition written (opts : list opt) : list string := concat (render <$> opts).
Definition takes_value (arg : string) : Prop := arg = "-guiserverport" ∨ arg = "-rom".
Definition is_option (arg : string) : Prop := is_debug arg = true ∨ takes_value arg.

Lemma parse_one x args o : opt_ok x → parse_args (render x ++ args) o = parse_args args (apply_opt o x).
Proof. destruct x; cbn [render app parse_args apply_opt opt_ok]; [intros ->|..]; done. Qed.
Lemma parse_written opts args o : Forall opt_ok opts →
  parse_args (written opts ++ args) o = parse_args args (foldl apply_opt o opts).
Proof.
  unfold written. intros Hok. revert o. induction Hok as [|x opts Hx _ IH]; intros o; [done|].
  cbn [fmap list_fmap concat foldl]. rewrite <- app_assoc, parse_one by exact Hx. apply IH.
Qed.
(** Every argument list starts with options; what comes behind them ends it. *)
Definition stops (rest : list string) : Prop :=
  match rest with
  | [] => True
  | [arg] => is_option arg → takes_value arg
  | arg :: _ => ¬ is_option arg
  end.
Lemma split_args args : ∃ opts rest, args = written opts ++ rest ∧ Forall opt_ok opts ∧ stops rest.
Proof.
  induction args as [args IH] using (induction_ltof1 _ length); unfold ltof in IH.
  assert (∀ x tl, args = render x ++ tl → opt_ok x →
    ∃ opts rest, args = written opts ++ rest ∧ Forall opt_ok opts ∧ stops rest) as Hone.
  { intros x tl E Hx. destruct (IH tl) as (opts & rest & -> & Hok & Hst).
    { rewrite E, length_app. destruct x; cbn; lia. }
    exists (x :: opts), rest. split; [|split; [constructor; assumption|exact Hst]].
    rewrite E, app_assoc. done. }
  destruct args as [|arg args]; [exists [], []; done|].
  destruct (is_debug arg) eqn:Ed; [apply (Hone (Debug arg) args); done|].
  destruct args as [|v args].
  { exists [], [arg]. split; [done|]. split; [constructor|]. intros [H|H]; [congruence|exact H]. }
  destruct (String.eqb_spec arg "-guiserverport") as [->|H1]; [apply (Hone (Port v) args); done|].
  destruct (String.eqb_spec arg "-rom") as [->|H2]; [apply (Hone (Rom v) args); done|].
  exists [], (arg :: v :: args). split; [done|]. split; [constructor|].
  intros [H|[H|H]]; congruence.
Qed.

(** C40: The command line is understood. [parse_args] accepts exactly the sequences of
    options, in any order and number, of which a later one overrides an earlier one;
    with the first argument that is no option the program ends with its usage; and only when
    [-rom] or [-guiserverport] is the last argument does it read a value that is not there. *)
Theorem parse_args_spec args o :
  match parse_args args o with
  | RunWith o' => ∃ opts, Forall opt_ok opts ∧ args = written opts ∧ o' = foldl apply_opt o opts
  | Unrecognised arg => ¬ is_option arg ∧ ∃ opts rest, Forall opt_ok opts ∧ args = written opts ++ arg :: rest
  | NoValue => ∃ opts arg, takes_value arg ∧ Forall opt_ok opts ∧ args = written opts ++ [arg]
  end ∧ ∀ opts, Forall opt_ok opts → parse_args (written opts) o = RunWith (foldl apply_opt o opts).
Proof.
  split.
  - destruct (split_args args) as (opts & rest & -> & Hok & Hst). rewrite parse_written by exact Hok.
    destruct rest as [|arg rest]; [cbn; exists opts; rewrite app_nil_r; done|].
    cbn [parse_args]. destruct (is_debug arg) eqn:Ed.
    { exfalso. assert (is_option arg) as Hopt by (left; exact Ed). destruct rest; [|exact (Hst Hopt)].
      destruct (Hst Hopt) as [-> | ->]; discriminate Ed. }
    assert (takes_value arg → rest = []) as Hlast by (intros Hv; destruct rest; [done|]; destruct Hst; right; exact Hv).
    destruct (String.eqb_spec arg "-guiserverport") as [E|H1];
      [rewrite Hlast by (left; exact E); exists opts, arg; split; [left; exact E|]; done|].
    destruct (String.eqb_spec arg "-rom") as [E|H2];
      [rewrite Hlast by (right; exact E); exists opts, arg; split; [right; exact E|]; done|].
    split; [intros [H|[H|H]]; congruence|]. exists opts, rest. done.
  - intros opts Hok. rewrite <- (app_nil_r (written opts)), parse_written by exact Hok. done.
Qed.

(** ** The connections *)
(** The manual: a descriptor that is no socket does not connect. *)
Class OsOk (H : Type) `{!Os H} := connect_bad fd port h : fd < 0 → (os_connect fd port h).1 = false.
Section Connections.
Context {H : Type} `{!Os H, !OsOk H}.
Implicit Types s : sys H.

Definition adds s s' (t : list os_call) : Prop := trace s' = trace s ++ t.
Lemma adds_trans s1 s2 s3 t1 t2 : adds s1 s2 t1 → adds s2 s3 t2 → adds s1 s3 (t1 ++ t2).
Proof. unfold adds. intros E1 E2. rewrite E2, E1, app_assoc. done. Qed.
(** The calls of one attempt, and those of [ser_init]. *)
Definition attempt (fd port : Z) (ok : bool) : list os_call := [Socket fd; Connect fd port ok].
Definition refused (fd : Z) : list os_call := attempt fd BRICK_BROADCAST_PORT false ++ [Close fd].
Definition ser_calls (fd : Z) (t : list os_call) : Prop :=
  t = attempt fd BRICK_BROADCAST_PORT true ∨
  ∃ fd0, t = refused fd0 ++ System "./ir-server" :: attempt fd BRICK_BROADCAST_PORT true.
Definition server_calls (fd : Z) : list os_call := [Socket fd; Bind fd 0 true; Listen fd].
Definition gui_calls (port fd : Z) (t : list os_call) : Prop :=
  if port =? 0
  then ∃ server cmd, 0 <= server ∧ t = server_calls server ++ [System cmd; Accept server fd]
  else t = attempt fd (u16 port) true.

Lemma attempt_spec port s :
  ∃ fd ok s', (let '(fd, s) := socket s in let '(ok, s) := connect fd port s in (fd, ok, s)) = (fd, ok, s') ∧
    adds s s' (attempt fd (u16 port) ok) ∧ (ok = true → 0 <= fd).
Proof.
  unfold socket, connect. destruct (os_socket (os s)) as [fd h]. cbn [os mark].
  destruct (os_connect fd (u16 port) h) as [ok h'] eqn:E. exists fd, ok. eexists. split; [reflexivity|].
  split; [unfold adds, attempt; cbn; rewrite <- app_assoc; done|]. intros ->.
  destruct (Z.lt_ge_cases fd 0) as [Hn|]; [|done]. pose proof (connect_bad fd (u16 port) h Hn) as Hb. rewrite E in Hb. discriminate Hb.
Qed.
Lemma connect_server_spec s : ∃ fd s', connect_server s = (fd, s') ∧
  if 0 <=? fd then adds s s' (attempt fd BRICK_BROADCAST_PORT true) else ∃ fd0, adds s s' (refused fd0).
Proof.
  unfold connect_server. destruct (attempt_spec BRICK_BROADCAST_PORT s) as (fd & ok & s' & E & Ha & Hok).
  destruct (socket s) as [fd' s1]. destruct (connect fd' _ s1) as [ok' s2]. injection E as -> -> ->.
  change (u16 BRICK_BROADCAST_PORT) with BRICK_BROADCAST_PORT in Ha. destruct ok.
  - exists fd, s'. split; [done|]. rewrite (proj2 (Z.leb_le 0 fd)) by auto. exact Ha.
  - eexists _, _. split; [reflexivity|]. exists fd. apply (adds_trans s s'); done.
Qed.
Lemma anon_spec s :
  match create_anon_socket s with
  | (fd, port, s') => if 0 <=? fd then is_Some port ∧ adds s s' (server_calls fd)
      else ∃ t fd0, adds s s' t ∧ (t = [Socket fd0] ∧ fd0 < 0 ∨ t = [Socket fd0; Bind fd0 0 false])
  end.
Proof.
  unfold create_anon_socket, socket, bind. destruct (os_socket (os s)) as [fd h].
  destruct (Z.ltb_spec fd 0) as [Hn|Hn]; [eexists _, fd; split; [reflexivity|]; auto|].
  cbn [os mark]. destruct (os_bind fd (u16 0) h) as [[|] h'].
  - rewrite (proj2 (Z.leb_le 0 fd)) by exact Hn. split; [eauto|]. unfold adds, listen. cbn. rewrite <- !app_assoc. done.
  - eexists _, fd. split; [|right; reflexivity]. unfold adds. cbn. rewrite <- app_assoc. done.
Qed.
(** The call that made the process end: nothing but a [close] comes after it. *)
Definition failed (c : os_call) : Prop :=
  match c with Socket fd => fd < 0 | Bind _ _ ok | Connect _ _ ok => ok = false | _ => False end.
Definition is_close (c : os_call) : Prop := match c with Close _ => True | _ => False end.
Definition fails s s' : Prop := ∃ t c t', adds s s' (t ++ c :: t') ∧ failed c ∧ Forall is_close t'.
Lemma fails_after s1 s2 s3 t : adds s1 s2 t → fails s2 s3 → fails s1 s3.
Proof.
  intros H1 (t' & c & t2 & H2 & Hc & Hf). exists (t ++ t'), c, t2.
  split; [rewrite <- app_assoc; eapply adds_trans; eassumption|auto].
Qed.
Lemma refused_fails s s' fd : adds s s' (refused fd) → fails s s'.
Proof. intros Ha. exists [Socket fd], (Connect fd BRICK_BROADCAST_PORT false), [Close fd]. split; [exact Ha|]. split; [done|repeat constructor]. Qed.

Lemma ser_connect_spec s :
  match ser_connect s with
  | Up fd s' => 0 <= fd ∧ ∃ t, adds s s' t ∧ ser_calls fd t
  | Exits _ _ => False
  | Aborts s' => fails s s'
  end.
Proof.
  unfold ser_connect. destruct (connect_server_spec s) as (fd & s1 & -> & H1). rewrite Z.ltb_antisym.
  destruct (Z.leb_spec 0 fd); cbn [negb]; [split; [done|]; eexists; split; [exact H1|left; reflexivity]|].
  destruct H1 as [fd0 H1]. destruct (connect_server_spec (system "./ir-server" s1)) as (fd' & s2 & -> & H2).
  assert (adds s1 (system "./ir-server" s1) [System "./ir-server"]) as Hs by done.
  rewrite Z.ltb_antisym. destruct (Z.leb_spec 0 fd'); cbn [negb].
  - split; [done|]. eexists. split; [exact (adds_trans _ _ _ _ _ H1 (adds_trans _ _ _ _ _ Hs H2))|]. right. exists fd0. done.
  - destruct H2 as [fd2 H2]. exact (fails_after _ _ _ _ H1 (fails_after _ _ _ _ Hs (refused_fails _ _ _ H2))).
Qed.
Lemma anon_fails s fd port s' : create_anon_socket s = (fd, port, s') → fd < 0 → fails s s'.
Proof.
  intros E Hn. pose proof (anon_spec s) as Ha. rewrite E in Ha. rewrite (proj2 (Z.leb_gt 0 fd)) in Ha by exact Hn.
  destruct Ha as (t & fd0 & Ha & [[-> Hf]| ->]); [exists [], (Socket fd0), []|exists [Socket fd0], (Bind fd0 0 false), []];
    (split; [exact Ha|]; split; [done|constructor]).
Qed.
Lemma db_listen_spec p s :
  match db_listen p s with
  | Up (fd, _) s' => 0 <= fd ∧ adds s s' (server_calls fd)
  | Exits _ _ => False
  | Aborts s' => fails s s'
  end.
Proof.
  unfold db_listen. destruct (create_anon_socket s) as [[fd port] s'] eqn:E. destruct (Z.ltb_spec fd 0) as [Hn|Hn].
  - exact (anon_fails _ _ _ _ E Hn).
  - pose proof (anon_spec s) as Ha. rewrite E, (proj2 (Z.leb_le 0 fd)) in Ha by exact Hn. destruct Ha. done.
Qed.
Lemma gui_connect_spec junk port s :
  match gui_connect junk port s with
  | Up fd s' => ∃ t, adds s s' t ∧ gui_calls port fd t
  | Exits c s' => c = 1 ∧ fails s s'
  | Aborts _ => False
  end.
Proof.
  unfold gui_connect, gui_calls. destruct (port =? 0).
  - destruct (create_anon_socket s) as [[fd p] s'] eqn:E. destruct (Z.ltb_spec fd 0) as [Hn|Hn].
    { split; [done|]. exact (anon_fails _ _ _ _ E Hn). }
    pose proof (anon_spec s) as Ha. rewrite E, (proj2 (Z.leb_le 0 fd)) in Ha by exact Hn. destruct Ha as [_ Ha].
    unfold accept_socket, system. cbn [os mark]. destruct (os_accept _ _) as [client h].
    eexists. split; [|eexists fd, _; split; [exact Hn|reflexivity]].
    apply (adds_trans s s'); [exact Ha|]. unfold adds. cbn. rewrite <- app_assoc. done.
  - unfold create_client_socket. destruct (attempt_spec port s) as (fd & ok & s' & E & Ha & Hok).
    destruct (socket s) as [fd' s1]. destruct (connect fd' _ s1) as [ok' s2]. injection E as -> -> ->.
    destruct ok; [eexists; split; [exact Ha|done]|]. split; [done|].
    exists [Socket fd], (Connect fd (u16 port) false), []. split; [exact Ha|]. split; [done|constructor].
Qed.

(** C39: What start-up does at the operating system. If it gets through, then it has made
    exactly these calls: it has connected to the infrared server - which it has started,
    once, exactly when the first attempt was refused -, then it listens for gdb, and then it
    has either started a GUI on a port of its own and called [accept] there, or connected to
    the GUI whose port was given; all of them succeeded but perhaps [accept], whose result
    is the GUI's descriptor and is not looked at, so that it may be -1
    ([accept_unchecked]). Otherwise the process has ended as soon as a call failed, with
    exit code 1 or by [abort]. *)
Theorem startup_calls junk port s :
  match start_connections junk port s with
  | Up c s' => 0 <= serfd c ∧ 0 <= debuggerfd c ∧ ∃ t t',
      ser_calls (serfd c) t ∧ gui_calls port (periph_fd c) t' ∧
      trace s' = trace s ++ t ++ server_calls (debuggerfd c) ++ t'
  | Exits c s' => c = 1 ∧ fails s s'
  | Aborts s' => fails s s'
  end.
Proof.
  unfold start_connections. pose proof (ser_connect_spec s) as H1. destruct (ser_connect s) as [ser s1|c s1|s1]; [|done|exact H1].
  destruct H1 as [Hser (t & Ht & Hsc)]. cbn [and_up]. pose proof (db_listen_spec 0 s1) as H2.
  destruct (db_listen 0 s1) as [[db p] s2|c s2|s2]; [|done|exact (fails_after _ _ _ _ Ht H2)]. destruct H2 as [Hdb H2]. cbn [and_up].
  pose proof (gui_connect_spec junk port s2) as H3. destruct (gui_connect junk port s2) as [gui s3|c s3|s3]; cbn [and_up].
  - destruct H3 as (t' & H3 & Hg). split; [exact Hser|]. split; [exact Hdb|]. exists t, t'. split; [exact Hsc|]. split; [exact Hg|].
    exact (adds_trans _ _ _ _ _ Ht (adds_trans _ _ _ _ _ H2 H3)).
  - destruct H3 as [-> H3]. split; [done|]. exact (fails_after _ _ _ _ Ht (fails_after _ _ _ _ H2 H3)).
  - done.
Qed.
End Connections.

(** ** Witness: the infrared server has to be started first

    Descriptors are given out in order from 3; the server answers once it was started. *)
Record small_os := SmallOs { next_fd : Z; ir_runs : bool }.
#[export] Instance small_os_calls : Os small_os := {
  os_socket h := (next_fd h, SmallOs (next_fd h + 1) (ir_runs h));
  os_bind _ _ h := (true, h); os_listen _ h := h; os_getsockname fd _ := 40000 + fd;
  os_accept _ h := (next_fd h, SmallOs (next_fd h + 1) (ir_runs h));
  os_connect fd port h := ((0 <=? fd) && (negb (port =? 50637) || ir_runs h), h);
  os_close _ h := h; os_system cmd h := SmallOs (next_fd h) (ir_runs h || String.eqb cmd "./ir-server");
  os_getenv _ _ := None }.
#[export] Instance small_os_ok : OsOk small_os.
Proof. intros fd port h Hn. cbn. rewrite (proj2 (Z.leb_gt 0 fd)) by exact Hn. done. Defined.
Definition booted : sys small_os := Sys [] (SmallOs 3 false).
Lemma startup_calls_witness :
  match start_connections 0 0 booted with
  | Up c s' => 0 <= serfd c ∧ (∃ t, ser_calls (serfd c) t) ∧
      c = Connections 4 5 40005 7 ∧
      trace s' = refused 3 ++ System "./ir-server" :: attempt 4 50637 true ++ server_calls 5 ++
                 server_calls 6 ++ [System "wish GUI.tcl 40006 &"; Accept 6 7]
  | _ => False
  end.
Proof.
  pose proof (startup_calls 0 0 booted) as Hs.
  destruct (start_connections 0 0 booted) as [c s'|c s'|s'] eqn:E; vm_compute in E; [|discriminate E..].
  injection E as <- <-. destruct Hs as (H1 & _ & t & t' & H2 & _). split; [exact H1|]. split; [exists t; exact H2|].
  split; vm_compute; reflexivity.
Defined.
(** The options of the manual. *)
Example args_example :
  parse_args ["-rom"; "rom.srec"; "-guiserverport"; "50000"; "-debug"] no_options =
  RunWith (Options true 50000 (Some "rom.srec")).
Proof. reflexivity. Qed.

(** ** What goes wrong

    A GUI that does not connect goes unnoticed. *)
#[local] Instance no_gui : Os small_os := {
  os_socket h := (next_fd h, SmallOs (next_fd h + 1) (ir_runs h));
  os_bind _ _ h := (true, h); os_listen _ h := h; os_getsockname fd _ := 40000 + fd;
  os_accept _ h := (-1, h); os_connect _ _ h := (true, h);
  os_close _ h := h; os_system _ h := h; os_getenv _ _ := None }.
Lemma accept_unchecked :
  match start_connections 0 0 booted with Up c _ => periph_fd c = -1 | _ => False end.
Proof. vm_compute. reflexivity. Qed.
(** A long name of the GUI is cut, together with the [&] behind it. *)
Lemma gui_command_cut :
  let name := String.concat "" (replicate 1030 "x") in
  gui_command name 40006 = String.concat "" (replicate 1023 "x").
Proof. vm_compute. reflexivity. Qed.
