(* ===== verification/Witnesses.v ===== *)
(** * Witnesses: the properties of the processor at concrete inputs

    Every property with a hypothesis is applied to a machine on which the
    hypotheses hold. *)
From S2P Require Export RunProps Printf CpuDecimal.


#[export] Instance bare_peripherals_ok : PeripheralsOk periph_state.
Proof.
  constructor; try done; intros; try (apply keeps_ret; done); set_solver.
Qed.

Lemma run_cpu_wf_witness : ∃ e m', run_cpu 2 3 demo = Done e m' ∧ wf m'.
Proof.
  eexists _, _. split; [vm_compute; reflexivity|].
  eapply (run_cpu_wf 2 3 demo); [apply demo_wf|vm_compute; reflexivity].
Defined.

(** An illegal opcode at 0x8000. *)
Definition demo_illegal : machine periph_state :=
  bare demo_regs 0x8000 0 (put_words 0x8000 [0x6600] ∅).
Lemma demo_illegal_wf : wf demo_illegal.
Proof.
  apply bare_wf; [done|repeat constructor; done|done|done|].
  apply (bool_decide_unpack _). vm_compute. exact I.
Qed.
(** R1 - R0 byte by byte: SUB.B R0L,R1L; SUBX R0H,R1H. *)
Lemma sub_wide_branch_witness :
  ∃ m', (SubB 0x89 ≫= λ _, SubX 0x01) demo = Done tt m' ∧
    wide m' 1 9 = (0x0ff0 - 0x1234) mod 65536 ∧ branch_taken 5 (ccr m') = true.
Proof.
  destruct (sub_wide_branch demo 0x89 0x01) as (m' & E & Hw & _ & Hb);
    [apply demo_wf|vm_compute; discriminate|vm_compute; discriminate|].
  exists m'. split; [exact E|]. split; [exact Hw|].
  rewrite Hb by lia. reflexivity.
Defined.
Lemma add_wide_witness :
  ∃ m', (AddB 0x89 ≫= λ _, AddX 0x01) demo = Done tt m' ∧
    wide m' 1 9 = 0x0ff0 + 0x1234.
Proof.
  destruct (add_wide demo 0x89 0x01) as (m' & h & z & E & Hw & _);
    [apply demo_wf|vm_compute; discriminate|vm_compute; discriminate|].
  exists m'. split; [exact E|exact Hw].
Defined.

(** R1H + R0H and R1H - R0H in decimal digits. *)
Definition digits (x y c : Z) : machine periph_state :=
  bare (y :: x :: replicate 14 0) 0x8000 c demo_memory.
Lemma digits_wf x y c : byte x → byte y → byte c → wf (digits x y c).
Proof.
  intros Hx Hy Hc. apply bare_wf; [done|constructor; [exact Hy|constructor; [exact Hx|repeat constructor; done]]|done|exact Hc|].
  apply (bool_decide_unpack _). vm_compute. exact I.
Qed.
Lemma decimal_exact_witness :
  (∃ m', (AddX 0x01 ≫= λ _, DAA 0x01) (digits 0x62 0x54 1) = Done tt m' ∧
    reg m' !!! 1%nat = 0x17 ∧ (ccr m' &? 1) = true) ∧
  (∃ m', (SubX 0x01 ≫= λ _, DAS 0x01) (digits 0x34 0x52 0) = Done tt m' ∧
    reg m' !!! 1%nat = 0x82 ∧ (ccr m' &? 1) = true).
Proof.
  assert (∀ x y c, byte x → byte y → byte c → bcd x → bcd y → _) as H
    by (intros x y c Hx Hy Hc Bx By; exact (decimal_exact (digits x y c) 0x01 0x01 (digits_wf x y c Hx Hy Hc) eq_refl Bx By)).
  split.
  - destruct (H 0x62 0x54 1 ltac:(done) ltac:(done) ltac:(done) ltac:(done) ltac:(done)) as [(m' & E & _ & Hr) _].
    exists m'. split; [exact E|]. exact (proj2 Hr eq_refl).
  - destruct (H 0x34 0x52 0 ltac:(done) ltac:(done) ltac:(done) ltac:(done) ltac:(done)) as [_ (m' & E & _ & Hr)].
    exists m'. split; [exact E|]. exact (proj2 Hr eq_refl).
Defined.
(** 85 + 75: the correction of the low digit, FA + 6, is cut to eight bits before the high digit
    is looked at, and the result is 00 without a carry. *)
Example daa_wraps :
  ∃ m', (AddX 0x01 ≫= λ _, DAA 0x01) (digits 0x85 0x75 0) = Done tt m' ∧
    reg m' !!! 1%nat = 0 ∧ (ccr m' &? 1) = false.
Proof. eexists. split; [vm_compute; reflexivity|]. split; reflexivity. Qed.
(** 8 + 8 has a carry out of the low digit, which is lost. *)
Example daa_half_carry :
  ∃ m', (AddX 0x01 ≫= λ _, DAA 0x01) (digits 0x08 0x08 0) = Done tt m' ∧
    reg m' !!! 1%nat = 0x10 ∧ (ccr m' &? 1) = false.
Proof. eexists. split; [vm_compute; reflexivity|]. split; reflexivity. Qed.

Lemma demo_irq_ready : irq_ready demo 4.
Proof. constructor; plain_memory. Qed.
Lemma irq_return_witness :
  ∃ m', (enter_irq 4 ≫= λ _, RtE) demo = Done tt m' ∧ pc m' = 0x8000.
Proof.
  destruct (irq_return demo 4) as (m' & E & Hpc & _);
    [apply demo_wf|apply demo_irq_ready|plain_memory..|].
  exists m'. split; [exact E|exact Hpc].
Defined.

Lemma call_return_witness :
  ∃ m', (call (mret 0x9000) ≫= λ _, RtS) demo = Done tt m' ∧ pc m' = 0x8000.
Proof.
  destruct (call_return demo 0x9000) as (m' & E & Hpc & _);
    [apply demo_wf|plain_memory..|].
  exists m'. split; [exact E|exact Hpc].
Defined.

Lemma advance_exact_witness :
  lastusecs (fold_left (λ s n, advance n s) [100; 205; 1003] bare_periph) = 62.
Proof.
  change [100; 205; 1003] with ([100; 205] ++ [1003]).
  destruct (advance_exact [100; 205] 1003 bare_periph) as [-> _];
    [split; done|done| |done|done|reflexivity].
  repeat constructor; vm_compute; discriminate.
Defined.

Lemma stop_cont_frozen_witness :
  lastusecs (run_time_calls bare_periph [Stop 10; Stop 20; Cont 25; Cont 110]) = 100.
Proof.
  assert (nested [Stop 20; Cont 25]) as Hn
    by exact (nested_block 20 [] 25 [] nested_nil nested_nil).
  destruct (stop_cont_frozen 10 [Stop 20; Cont 25] 110 bare_periph Hn eq_refl)
    as (_ & E & _); [vm_compute; reflexivity|].
  exact E.
Defined.

Lemma periph_save_load_witness :
  reg (periph_load (periph_save demo) demo_illegal) = demo_regs.
Proof.
  refine (proj1 (periph_save_load _ demo demo_illegal _ _ _)); [done|..]; vm_compute;
    repeat split; discriminate.
Defined.

(** R7 = 0xfe00; the stack holds the address of "%d" and the word 0xff85. *)
Definition demo_print : machine periph_state :=
  bare demo_regs 0x8000 0
    (put_words 0xfe02 [0x8100; 0xff85] (put_words 0x8100 [0x2564; 0] ∅)).
Lemma fmtint_prints_witness :
  ∃ blanks sign zeros digits trail,
    fmtint (-123) 10 6 4 0 = number_text blanks sign zeros digits trail ∧ sign = [45] ∧
    length (fmtint (-123) 10 6 4 0) = 6%nat.
Proof.
  destruct (fmtint_prints (-123) 10 6 4 0) as (b & s & z & d & t & E & _ & _ & Hs & _);
    [lia|lia|right; reflexivity|].
  exists b, s, z, d, t. split; [exact E|]. split; [apply Hs; lia|reflexivity].
Defined.
Lemma printf_word_witness : printf_text demo_print = Done [45; 49; 50; 51] demo_print.
Proof.
  rewrite (printf_word demo_print 100 10 true); [reflexivity| |constructor; plain_memory].
  vm_compute. left.
Defined.

